(* ===== verification/_CoqProject ===== *)
-Q . S2P
Prelude.v
Outcome.v
Double.v
Wire.v
KvLog.v
Request.v
Stripe.v
Ssbd.v
BlockClient.v
Connection.v
Coordinator.v
Cluster.v
Directory.v
Filesystem.v
Cache.v
Launcher.v
SocketWriter.v
Client.v
Worker.v
CacheTransfer.v
DataFunction.v
Ring.v
Server.v
Policy.v
Direct.v
Api.v
Binding.v
Trigger.v
Base64.v
Storages.v
Lists.v
Entry.v
Process.v
Measure.v
Stun.v
Startup.v
Shell.v
Trace.v
Bench.v
Report.v
Membership.v
