(* ===== verification/Prelude.v ===== *)
(** * SLSFS: a verification library

    SLSFS is a distributed file system for serverless functions.  A client sends packets
    to a proxy; the proxy gives each to a worker, the connection to a data function; the
    data function turns it into striped reads and writes of blocks, and commits these in
    two phases on block store servers, which keep them in LevelDB.  Proxies find each
    other in ZooKeeper and share the keys out on a ring.

    The development is a shallow embedding: structures are records, enumerations are
    inductive types, integers are [Z] with their wrap-around written out ([u8] to [u64]),
    buffers are lists of bytes, handlers are functions from state to [option] state, and
    [None] is what the code leaves undefined (an access outside a buffer), an exception,
    or a step that cannot be taken.  What other threads may do in between is an explicit
    sequence of steps.  Names follow the source.

    ** Files, and the sources they model (under src/)

    The block store:
    - [Prelude]: bytes, integers, buffers, decimal text, the state monad, hints.
    - [Outcome]: results, exceptions and undefined behaviour apart, and the numbers that
      [std::stoi] and [std::stoull] read.
    - [Double]: the doubles that [std::stod] reads, and their conversions to integers.
    - [Wire]: both packet formats, with their codes, hashes and byte images
      (proxy/serializer.hpp, ssbd/leveldb-serializer.hpp).
    - [KvLog]: LevelDB as the class [KVStore], and [persistent_log] over it
      (ssbd/persistent-log.hpp).
    - [Ssbd]: the handlers of the server, its dispatch and its read loop (ssbd/main.cpp,
      ssbd/rawblocks.hpp); an abstract block, and the refinement of every handler to it.
    - [BlockClient]: the test client beside the server (ssbd/client.cpp).

    The storage side of a data function (functions/datafunction, functions/libslsfs):
    - [Request]: the request and metadata records and their memory images, and
      [request_parser] (json-replacement.hpp).
    - [Stripe]: the loop that splits a range into pieces, and the striped file.
    - [Connection]: requests and answers of one connection (backend-ssbd.hpp).
    - [Coordinator]: the requests and response handlers of the two phases, reads and
      replication (storage-conf-ssbd-backend.hpp, lines 24-590 and 738-827).
    - [Cluster]: coordinator and servers together, through the bytes on the wire.
    - [Directory]: directories and every metadata operation (lines 598-736, 829-2015).
    - [Filesystem]: the multi-input commit (lines 315-525), and metadata operations from
      the read of the directory to the last commit.
    - [Cache], [CacheTransfer]: the LRU block cache, and how its tables travel to the next
      data function (caching.hpp).

    - [Base64]: the codec that [base::encode] and [base::decode] use
      (libslsfs/slsfs/cppcodec, basetypes.hpp).
    - [Storages]: blocks in Cassandra or in an object store, and the job of a data function
      over them (storage-conf-cass.hpp, storage-conf-swift.hpp, storage-cassandra.hpp,
      storage-swiftkv-minio.hpp, proxy-command.hpp).
    - [Lists]: lists in a table, and the listing made of them (storage-cassandra.hpp,
      ssbd/metadatafunction.hpp).
    - [Entry]: the start of a function from a JSON object (entry.cpp, create-request.hpp,
      switchstring.hpp, base64-conv.hpp).
    - [Process]: one process and its connections to several proxies: listeners, registration,
      joining, timers, the end (proxy-command.hpp, tcp-server.hpp, entry.cpp).
    - [Measure]: the program that measures a storage (test-storage.cpp).
    - [Stun]: asking a server for the address of a function (functions/traversal/opener.hpp).

    The proxy (proxy/) and the client library (proxy/clients/):
    - [Launcher]: the tables of open and locked files, which admit requests (launcher.hpp).
    - [SocketWriter]: the queue in front of a socket (socket-writer.hpp).
    - [Client]: the packets the library makes and its path functions
      (clients/clientlib-packet-create.hpp).
    - [Worker]: jobs, workers, and the binding of files to workers (worker.hpp,
      launcher-job.hpp, launcher.hpp, policy/worker-filetoworker.hpp).
    - [DataFunction]: the commands a data function reads from a proxy and its answers
      (functions/datafunction/proxy-command.hpp), and the way of a request from a path
      through the directories and back.
    - [Ring]: ids, owners of keys, reconfiguration (zookeeper.hpp, launcher.hpp,
      clients/clientlib.hpp, clients/clientlib-zookeeper.hpp).
    - [Server]: connections, message buckets, direct communication and the return of
      answers (server.hpp, launcher.hpp).
    - [Policy]: how many workers are started, how long an idle one stays, and two more
      choices of a worker (policy/, launcher-policy.hpp, launcher.hpp).
    - [Trigger]: the HTTP client that starts functions, and who uses it (trigger.hpp,
      launcher.hpp, server.hpp).
    - [Direct]: a data function's connections to clients, the direct client and the pool
      of clients (functions/datafunction/tcp-server.hpp, clients/clientlib-direct-client.hpp,
      clients/clientlib-client-pool.hpp).
    - [Membership]: the nodes of the proxies in ZooKeeper: set up, heartbeat, reset, shutdown
      and the check of the next proxy with its clock (zookeeper.hpp).
    - [Report]: the counters and the report of every second, and the policies called
      together (launcher-base-types.hpp, launcher-policy.hpp).
    - [Startup]: [main] from its options to the proxy that runs, and the policies chosen by
      name and arguments (main.cpp, server.hpp, basic.hpp, uuid.hpp).
    - [Api]: the class a program uses: operations on paths that return 1 or -1
      (clients/client.hpp).
    - [Binding]: the functions through which Java calls that class (clients/com_gmail...cpp).
    - [Shell]: the command line (clients/slsfs-cmd.cpp).
    - [Trace]: the emulator that replays a trace of accesses (trace-emulator/).
    - [Bench]: the benchmark, and the proxy that measures its functions
      (clients/slsfs-client.cpp, clients/datafunction-profile.cpp).

    ** How the parts meet

    [Cluster] and [Filesystem] run the requests of [Coordinator] on the servers of [Ssbd]
    after [serialize] and [parse] of [Wire].  [DataFunction] runs [Directory] and
    [Filesystem] on packets of [Client].  [Worker] calls [Launcher], [Server] calls
    [Worker] and [SocketWriter], [Ring] sends what [DataFunction] reads.  [Direct] joins
    the proxy of [Server], the jobs of [DataFunction] and the direct client.  [Trigger]
    posts what the pool of [Policy] decides to start, and [Entry] runs one request over the
    coordinator or over the storages of [Storages], whose values pass [Base64].  [Api] is on
    top: its instance [served] runs the packets of [Client] through [Launcher] and the
    jobs of [DataFunction]; [Shell], [Binding] and [Bench] are over the same interface.  [Process] has
    many connections of [DataFunction]; what it registers is read by [Worker] and [Direct].
    [BlockClient] talks to the handlers of [Ssbd], and the requests
    of [Trace] are given to the reader of [Wire].  [Startup] makes the policies that [Report] calls together and the announcement
    that [Membership] writes, whose nodes [Ring] reads.  Five parts are known to their
    callers by interface only: LevelDB ([KVStore], with its laws and the finite-map
    instance), ZooKeeper ([ZooKeeper], likewise), the policy that
    chooses a worker ([AvailablePolicy], with the instance [lowest_load_policy]), the
    transports of the client class ([Transport]) and the storages that answer at once
    ([Storage], with an instance for each of the two).

    ** What is shown

    - Refinement: the handlers of a server implement an abstract block; striped
      two-phase writes and reads implement a flat file; metadata operations and, from
      end to end, requests by paths and calls of the client class implement a map from
      names, also for lines typed at the prompt and calls of Java; a direct request is answered with what its job produced.
    - Agreement: a coordinator decides once, from all answers; a busy write changes no
      byte; answers find their requests in any order.
    - The proxy: open files are protected, no job is lost or answered twice while no
      worker fails, one worker serves a file, answers return to the client that asked,
      in order; packets queued for a socket keep their order.
    - The policies: starts stay within their bounds while ticks come after the handlers of
      the tick before, and the size of a fixed pool is kept when only workers that the proxy
      started connect, but not with workers of another proxy; a moving average is one, a pool of
      clients gives each to one thread.
    - Invocations: while nothing fails, what is posted to start functions is written and
      answered; after one failure nothing is.
    - The process of a data function: its listeners, what it registers, whom it joins, and
      that one timer ends them all.
    - The proxy from outside: what its command line makes of it and that its pools keep to
      the numbers in it under the same conditions, which jobs its report counts, and whose nodes are in ZooKeeper, in any order of
      starts, beats and ends.
    - Other storages: over Cassandra requests at block boundaries act on a map of blocks,
      also from the JSON object a function is started with; base64 texts decode to what
      was encoded, and decoding stays in its buffers whatever the text.
    - Programs beside the system: the order and the waits in which a trace is replayed, and
      what a proxy makes of its requests; what the test client writes into a block; how many
      requests the measurements make and when their table is written; which answers of a
      STUN server are read back.
    - The ring: after its first listing of proxies that are all alive a client agrees with the
      proxies on owners, after the second it knows no proxy; a newcomer takes keys for
      itself only.
    - Round trips of requests, records, packets and cache tables; bounds and the
      behaviour outside them; loops that end.
    - What the code does where that is not what it means to do is a theorem as well.

    ** Fuel

    Recursion that is not structural has fuel, and a lemma that it is enough:
    [Stripe.split] takes one unit per piece ([split_correct]); [Ssbd.serve] one
    more than the packets ([serve_framing]); a metadata operation reads twice at most
    ([Filesystem.run_reads]); [Cache.evict] one per entry of the list
    ([set_is_lru]), the loops over block numbers one per block; readers of tables
    one more than the bytes ([tables_read_back]); [Process.find_port] one per port
    ([join_finds_port]); [Stun.search] one more than the
    attributes of four bytes ([every_answer_is_searched]); [Shell.run] one more than the bytes typed ([run_ends]); [Ring.send] six for its five attempts
    ([send_ends]), and so [Direct.direct_send] ([direct_send_ends]); the loop of
    [Api.unlock_thread] does not end, which is shown for any fuel; [to_string] twenty
    digits, the most a 64-bit integer has.

    ** Parameters

    LevelDB, ZooKeeper, the choice of a replica ([pick]), random salts and draws, the order in which
    answers arrive ([shuffle] and explicit permutations), clocks and [format_time], SHA-256
    ([get_uuid]), Poco's base64 ([poco_encode], [poco_decode], with the laws [poco_laws] and
    [codec_laws] and an instance), the parser of JSON and of URLs, the drivers of Cassandra
    and of the object store as a [KVStore] each, the resolver and whether a connection succeeds, what arrives over
    a socket ([net]), products with [double]s, the contents of uninitialised or freed
    memory ([uninitialised], [freed]), the parsed command line, the files that can be
    opened, and [boost::format].

    ** Not modelled

    Input and output themselves (accepting sockets, TLS and the text of HTTP messages, the
    sessions of the ZooKeeper client, printed statistics); the launch policies that no
    option selects and that do not compile (adaptive_max_load, const_limit_launch,
    prestart_one); answers that are handled while the requests of their phase are still being
    sent ([two_pc], [two_pc_multi]; what they decide is in [Coordinator]); older versions of the configuration for the block store; averages,
    deviations and rates, which are floating point; the copy of the proxy for traces but for its packets, the nodes of the
    emulator that its [main] has commented out; vendored libraries other than the base64
    codec. *)
From Stdlib Require Import ZArith Lia.
From Stdlib Require Export Init.Byte.
From stdpp Require Export base tactics option list countable gmap.
From stdpp Require Import strings.

#[global] Open Scope Z_scope.

(** ** Bytes and buffers *)

(** A [std::uint8_t] is a [byte]; a buffer, a [std::vector<unit_t>], a
    [std::string] and the raw memory of an object are lists of bytes. *)
Abbreviation bytes := (list byte).

#[global] Instance byte_eq_dec : EqDecision byte.
Proof. intros x y. destruct (Byte.eqb x y) eqn:E.
- left. by apply Byte.byte_dec_bl.
- right. intros ->. by rewrite Byte.byte_dec_lb in E.
Defined.

#[global] Instance byte_countable : Countable byte :=
  inj_countable Byte.to_N Byte.of_N Byte.of_to_N.

Definition byte_val (b : byte) : Z := Z.of_N (Byte.to_N b).

Definition byte_of (z : Z) : byte :=
  default x00 (Byte.of_N (Z.to_N (z mod 256))).

(** Machine integers are [Z]s; [wrap n] is the reduction modulo [2^(8n)] of a
    value stored in [n] bytes. *)
Definition modulus (n : nat) : Z := 256 ^ Z.of_nat n.
Definition wrap (n : nat) (z : Z) : Z := z mod modulus n.
Abbreviation u8 := (wrap 1).
Abbreviation u16 := (wrap 2).
Abbreviation u32 := (wrap 4).
Abbreviation u64 := (wrap 8).

(** Conversion to [int]. *)
Definition s32 (z : Z) : Z := (z + 2 ^ 31) mod 2 ^ 32 - 2 ^ 31.

Lemma byte_val_range b : 0 <= byte_val b < 256.
Proof. unfold byte_val. pose proof (Byte.to_N_bounded b). lia. Qed.

Lemma byte_val_of z : byte_val (byte_of z) = z mod 256.
Proof.
  unfold byte_val, byte_of. pose proof (Z.mod_pos_bound z 256 ltac:(lia)).
  destruct (Byte.of_N (Z.to_N (z mod 256))) as [b|] eqn:E; simpl.
  - apply Byte.to_of_N in E. rewrite E. lia.
  - apply Byte.of_N_None_iff in E. lia.
Qed.

Lemma byte_val_inj b c : byte_val b = byte_val c -> b = c.
Proof.
  unfold byte_val. intros H%N2Z.inj.
  pose proof (Byte.of_to_N b). pose proof (Byte.of_to_N c). congruence.
Qed.

Lemma byte_of_val b : byte_of (byte_val b) = b.
Proof.
  apply byte_val_inj. rewrite byte_val_of.
  apply Z.mod_small, byte_val_range.
Qed.

Lemma byte_of_mod z : byte_of (z mod 256) = byte_of z.
Proof. unfold byte_of. by rewrite Z.mod_mod by lia. Qed.

(** ** Little- and big-endian images of integers *)

(** The memory image of an [n]-byte integer on the (little-endian) host. *)
Fixpoint le_bytes (n : nat) (z : Z) : bytes :=
  match n with
  | O => []
  | S n => byte_of z :: le_bytes n (z / 256)
  end.

Fixpoint le_val (b : bytes) : Z :=
  match b with
  | [] => 0
  | x :: r => byte_val x + 256 * le_val r
  end.

Definition be_bytes (n : nat) (z : Z) : bytes := rev (le_bytes n z).
Definition be_val (b : bytes) : Z := le_val (rev b).

(** [htonl], [htons] and the like on a little-endian host: the byte swap of an
    [n]-byte integer. *)
Definition bswap (n : nat) (z : Z) : Z := le_val (rev (le_bytes n z)).

Lemma modulus_S n : modulus (S n) = 256 * modulus n.
Proof. unfold modulus. rewrite Nat2Z.inj_succ, Z.pow_succ_r by lia. done. Qed.

Lemma modulus_pos n : 0 < modulus n.
Proof. unfold modulus. apply Z.pow_pos_nonneg; lia. Qed.

Lemma wrap_range n z : 0 <= wrap n z < modulus n.
Proof. apply Z.mod_pos_bound, modulus_pos. Qed.

Lemma wrap_small n z : 0 <= z < modulus n -> wrap n z = z.
Proof. apply Z.mod_small. Qed.

Lemma u32_small z : 0 <= z < 2 ^ 32 -> u32 z = z.
Proof. by apply (wrap_small 4). Qed.

Lemma wrap_wrap n z : wrap n (wrap n z) = wrap n z.
Proof. apply wrap_small, wrap_range. Qed.

Lemma length_le_bytes n z : length (le_bytes n z) = n.
Proof. revert z. induction n; intros; simpl; [done|]. by rewrite IHn. Qed.

Lemma length_be_bytes n z : length (be_bytes n z) = n.
Proof. unfold be_bytes. by rewrite length_rev, length_le_bytes. Qed.

Lemma le_val_range b : 0 <= le_val b < modulus (length b).
Proof.
  induction b as [|x b IH]; simpl; [unfold modulus; simpl; lia|].
  rewrite modulus_S. pose proof (byte_val_range x). lia.
Qed.

Lemma le_val_le_bytes n z : le_val (le_bytes n z) = wrap n z.
Proof.
  unfold wrap. revert z. induction n as [|n IH]; intros z; simpl.
  - by rewrite Z.mod_1_r.
  - rewrite byte_val_of, IH, modulus_S.
    rewrite Z.rem_mul_r; [done|lia|apply modulus_pos].
Qed.

Lemma le_bytes_wrap n z : le_bytes n (wrap n z) = le_bytes n z.
Proof.
  unfold wrap. revert z. induction n as [|n IH]; intros z; simpl; [done|].
  rewrite modulus_S, Z.rem_mul_r by (try apply modulus_pos; lia).
  pose proof (modulus_pos n). f_equal.
  - rewrite <- byte_of_mod. rewrite Z.mul_comm, Z.mod_add by lia.
    by rewrite Z.mod_mod, byte_of_mod by lia.
  - rewrite Z.mul_comm, Z.div_add, Z.div_small by (try lia; apply Z.mod_pos_bound; lia).
    apply IH.
Qed.

Lemma le_bytes_le_val b : le_bytes (length b) (le_val b) = b.
Proof.
  induction b as [|x b IH]; simpl; [done|].
  pose proof (byte_val_range x). f_equal.
  - rewrite <- byte_of_mod, Z.mul_comm, Z.mod_add, byte_of_mod by lia. apply byte_of_val.
  - rewrite Z.mul_comm, Z.div_add, Z.div_small by lia. apply IH.
Qed.

Lemma le_bytes_le_val' n b : length b = n -> le_bytes n (le_val b) = b.
Proof. intros <-. apply le_bytes_le_val. Qed.

Lemma be_val_be_bytes n z : be_val (be_bytes n z) = wrap n z.
Proof. unfold be_val, be_bytes. rewrite rev_involutive. apply le_val_le_bytes. Qed.

Lemma be_bytes_be_val n b : length b = n -> be_bytes n (be_val b) = b.
Proof.
  intros <-. unfold be_val, be_bytes. rewrite <- length_rev, le_bytes_le_val.
  apply rev_involutive.
Qed.

Lemma be_val_range b : 0 <= be_val b < modulus (length b).
Proof. unfold be_val. rewrite <- length_rev. apply le_val_range. Qed.

Lemma le_val_range_n n b : length b = n -> 0 <= le_val b < modulus n.
Proof. intros <-. apply le_val_range. Qed.

Lemma le_val_le_small n z : 0 <= z < modulus n -> le_val (le_bytes n z) = z.
Proof. intros. rewrite le_val_le_bytes. by apply wrap_small. Qed.

(** Storing a byte-swapped integer is writing its big-endian image; loading one
    and swapping it is reading a big-endian image. *)
Lemma le_bytes_bswap n z : le_bytes n (bswap n z) = be_bytes n z.
Proof. apply le_bytes_le_val', length_be_bytes. Qed.

Lemma bswap_le_val n b : length b = n -> bswap n (le_val b) = be_val b.
Proof. intros <-. unfold bswap, be_val. by rewrite le_bytes_le_val. Qed.

Lemma bswap_range n z : 0 <= bswap n z < modulus n.
Proof.
  unfold bswap. pose proof (le_val_range (rev (le_bytes n z))) as H.
  by rewrite length_rev, length_le_bytes in H.
Qed.

Lemma bswap_bswap n z : bswap n (bswap n z) = wrap n z.
Proof. unfold bswap at 1. rewrite le_bytes_bswap. apply be_val_be_bytes. Qed.

(** ** Raw memory: [memcpy] into and out of a buffer, [vector::resize] *)

(** Reading [n] bytes at [pos]; [None] is an access past the end. *)
Definition mem_get (pos n : nat) (b : bytes) : option bytes :=
  if decide (pos + n <= length b)%nat then Some (take n (drop pos b)) else None.

(** Writing [src] at [pos]; [None] is a write past the end. *)
Definition mem_set (pos : nat) (src b : bytes) : option bytes :=
  if decide (pos + length src <= length b)%nat
  then Some (take pos b ++ src ++ drop (pos + length src) b) else None.

(** [resize n] keeps a prefix or pads with zero bytes. *)
Definition resize_to (n : nat) (b : bytes) : bytes :=
  take n b ++ replicate (n - length b) x00.

(** Sequential reads that advance a pointer: [memcpy(dst, pos, n); pos += n]. *)
Definition read_n (n : nat) (b : bytes) : option (bytes * bytes) :=
  if decide (n <= length b)%nat then Some (take n b, drop n b) else None.

(** The prefix before the first NUL byte ([strnlen] and [std::find(.., '\0')]). *)
Fixpoint until_nul (b : bytes) : bytes :=
  match b with
  | [] => []
  | x :: r => if decide (x = x00) then [] else x :: until_nul r
  end.

(** String literals as bytes. *)
Definition lit (s : String.string) : bytes := String.list_byte_of_string s.

(** [base::to_buf] of a literal is its template instance at [char[n]]: the image of
    the array, with the terminating NUL. *)
Definition lit_buf (s : String.string) : bytes := lit s ++ [x00].

Lemma length_resize_to n b : length (resize_to n b) = n.
Proof. unfold resize_to. rewrite length_app, length_take, length_replicate. lia. Qed.

Lemma read_n_app n a b : length a = n -> read_n n (a ++ b) = Some (a, b).
Proof.
  intros <-. unfold read_n. rewrite length_app. rewrite decide_True by lia.
  by rewrite take_app_length, drop_app_length.
Qed.

Lemma read_n_all n a : length a = n -> read_n n a = Some (a, []).
Proof. intros H. rewrite <- (app_nil_r a) at 1. by apply read_n_app. Qed.

(** A buffer of [n + m] bytes is a field of [n] bytes and the rest. *)
Lemma length_split n m (b : bytes) : length b = (n + m)%nat ->
  exists b1 b2, b = b1 ++ b2 /\ length b1 = n /\ length b2 = m.
Proof.
  intros H. exists (take n b), (drop n b). rewrite take_drop, length_take, length_drop.
  split_and!; [done|lia..].
Qed.

Lemma mem_get_app_l pos n a b :
  (pos + n <= length a)%nat -> mem_get pos n (a ++ b) = mem_get pos n a.
Proof.
  intros H. unfold mem_get. rewrite length_app, !decide_True by lia.
  by rewrite drop_app_le, take_app_le by (try rewrite length_drop; lia).
Qed.

Lemma mem_get_app_r pos n a b :
  (length a <= pos)%nat -> mem_get pos n (a ++ b) = mem_get (pos - length a) n b.
Proof.
  intros H. unfold mem_get. rewrite length_app.
  destruct (decide (pos + n <= length a + length b)%nat).
  - rewrite decide_True by lia. by rewrite drop_app_ge by lia.
  - by rewrite decide_False by lia.
Qed.

Lemma mem_get_all n b : length b = n -> mem_get 0 n b = Some b.
Proof. intros <-. unfold mem_get. rewrite decide_True by lia. by rewrite firstn_all. Qed.

Lemma mem_get_app_exact n a b : length a = n -> mem_get 0 n (a ++ b) = Some a.
Proof. intros <-. rewrite mem_get_app_l by lia. by apply mem_get_all. Qed.

Lemma mem_get_length pos n b r : mem_get pos n b = Some r -> length r = n.
Proof.
  unfold mem_get. case_decide; [|done]. intros [= <-].
  rewrite length_take, length_drop. lia.
Qed.

Lemma mem_get_Some pos n b :
  (pos + n <= length b)%nat -> mem_get pos n b = Some (take n (drop pos b)).
Proof. intros. unfold mem_get. by rewrite decide_True. Qed.

Lemma mem_set_Some pos src b :
  (pos + length src <= length b)%nat ->
  mem_set pos src b = Some (take pos b ++ src ++ drop (pos + length src) b).
Proof. intros. unfold mem_set. by rewrite decide_True. Qed.

Lemma mem_set_None pos src b : (length b < pos + length src)%nat -> mem_set pos src b = None.
Proof. intros. unfold mem_set. by rewrite decide_False by lia. Qed.

Lemma mem_set_app_r pos src a b : (length a <= pos)%nat ->
  mem_set pos src (a ++ b) = app a <$> mem_set (pos - length a) src b.
Proof.
  intros H. unfold mem_set. rewrite length_app.
  destruct (decide (pos + length src <= length a + length b)%nat).
  - rewrite decide_True by lia. cbn. rewrite take_app_ge, drop_app_ge, <- (assoc_L (++)) by lia.
    do 4 f_equal. f_equal. lia.
  - by rewrite decide_False by lia.
Qed.

Lemma mem_set_length pos src b r : mem_set pos src b = Some r -> length r = length b.
Proof.
  unfold mem_set. case_decide; [|done]. intros [= <-].
  rewrite !length_app, length_take, length_drop. lia.
Qed.

Lemma mem_set_get pos src b r :
  mem_set pos src b = Some r -> mem_get pos (length src) r = Some src.
Proof.
  unfold mem_set. case_decide; [|done]. intros [= <-].
  rewrite mem_get_app_r by (rewrite length_take; lia).
  rewrite length_take, Nat.min_l, Nat.sub_diag by lia. by apply mem_get_app_exact.
Qed.

Lemma mem_set_get_other pos src b r p n :
  mem_set pos src b = Some r ->
  (p + n <= pos \/ pos + length src <= p)%nat ->
  mem_get p n r = mem_get p n b.
Proof.
  unfold mem_set. case_decide; [|done]. intros [= <-] [Hp|Hp].
  - rewrite mem_get_app_l by (rewrite length_take; lia).
    rewrite !mem_get_Some by (rewrite ?length_take; lia).
    rewrite <- (take_drop pos b) at 2.
    by rewrite drop_app_le, take_app_le by (rewrite ?length_drop, ?length_take; lia).
  - rewrite app_assoc, mem_get_app_r by (rewrite length_app, length_take; lia).
    rewrite length_app, length_take. unfold mem_get. rewrite length_drop.
    rewrite drop_drop. repeat case_decide; try lia; do 3 f_equal; lia.
Qed.

Lemma mem_get_resize pos n k b :
  (pos + n <= k)%nat -> (pos + n <= length b)%nat ->
  mem_get pos n (resize_to k b) = mem_get pos n b.
Proof.
  intros. unfold resize_to.
  rewrite mem_get_app_l by (rewrite length_take; lia).
  rewrite !mem_get_Some by (rewrite ?length_take; lia).
  rewrite <- (take_drop k b) at 2.
  destruct (decide (k <= length b)%nat).
  - by rewrite drop_app_le, take_app_le by (rewrite ?length_drop, ?length_take; lia).
  - rewrite (drop_ge b k), app_nil_r by lia. done.
Qed.

Lemma until_nul_app_nul a b : x00 ∉ a -> until_nul (a ++ x00 :: b) = a.
Proof.
  induction a as [|x a IH]; intros H; cbn [until_nul app]; [by rewrite decide_True|].
  apply not_elem_of_cons in H as [Hx Ha].
  rewrite decide_False by congruence. by rewrite IH.
Qed.

Lemma until_nul_no_nul a : x00 ∉ a -> until_nul a = a.
Proof.
  induction a as [|x a IH]; intros H; cbn [until_nul]; [done|].
  apply not_elem_of_cons in H as [Hx Ha].
  rewrite decide_False by congruence. by rewrite IH.
Qed.

Lemma until_nul_free a : x00 ∉ until_nul a.
Proof.
  induction a as [|x a IH]; cbn [until_nul]; [apply not_elem_of_nil|].
  case_decide; [apply not_elem_of_nil|]. apply not_elem_of_cons. split; congruence.
Qed.

(** ** Decimal numerals: [std::to_string] and [std::stoll] *)

Definition digit (d : Z) : byte := byte_of (48 + d).

Definition is_digit (b : byte) : bool := (48 <=? byte_val b) && (byte_val b <=? 57).

(** [isspace] in the C locale. *)
Definition is_space (b : byte) : bool :=
  (byte_val b =? 32) || ((9 <=? byte_val b) && (byte_val b <=? 13)).

Fixpoint dec_aux (fuel : nat) (z : Z) (acc : bytes) : bytes :=
  match fuel with
  | O => acc
  | S f =>
      let acc := digit (z mod 10) :: acc in
      if z / 10 =? 0 then acc else dec_aux f (z / 10) acc
  end.

(** [std::to_string] of an unsigned value below [10^20]: twenty digits are
    enough for every 64-bit integer. *)
Definition to_string (z : Z) : bytes := dec_aux 20 z [].

Fixpoint parse_digits (acc : Z) (b : bytes) : Z * bytes :=
  match b with
  | x :: r => if is_digit x then parse_digits (10 * acc + (byte_val x - 48)) r else (acc, b)
  | [] => (acc, [])
  end.

Fixpoint skip_space (b : bytes) : bytes :=
  match b with
  | x :: r => if is_space x then skip_space r else b
  | [] => []
  end.

(** [std::stoll]: leading white space, an optional sign, a maximal run of
    digits; [None] is one of the exceptions [invalid_argument] (no digit) and
    [out_of_range] (does not fit a [long long]). *)
Definition stoll (b : bytes) : option Z :=
  let b := skip_space b in
  let '(neg, ds) :=
    match b with
    | x :: r => if byte_val x =? 45 then (true, r)
                else if byte_val x =? 43 then (false, r) else (false, b)
    | [] => (false, [])
    end in
  match ds with
  | d :: _ =>
      if is_digit d then
        let v := (parse_digits 0 ds).1 in
        let v := if (neg : bool) then - v else v in
        if decide (- 2 ^ 63 <= v < 2 ^ 63) then Some v else None
      else None
  | [] => None
  end.

Lemma byte_val_digit d : 0 <= d < 10 -> byte_val (digit d) = 48 + d.
Proof. intros. unfold digit. rewrite byte_val_of. apply Z.mod_small. lia. Qed.

Lemma is_digit_digit d : 0 <= d < 10 -> is_digit (digit d) = true.
Proof. intros. unfold is_digit. rewrite byte_val_digit by lia. lia. Qed.

Lemma dec_aux_digits fuel z acc :
  Forall (fun b => is_digit b = true) acc ->
  Forall (fun b => is_digit b = true) (dec_aux fuel z acc).
Proof.
  revert z acc. induction fuel as [|f IH]; intros z acc H; simpl; [done|].
  assert (Forall (fun b => is_digit b = true) (digit (z mod 10) :: acc)).
  { constructor; [apply is_digit_digit, Z.mod_pos_bound; lia|done]. }
  case_match; [done|]. by apply IH.
Qed.

Lemma to_string_digits z : Forall (fun b => is_digit b = true) (to_string z).
Proof. apply dec_aux_digits. constructor. Qed.

Lemma dec_aux_parse fuel z acc :
  0 <= z < 10 ^ Z.of_nat fuel ->
  parse_digits 0 (dec_aux fuel z acc) = parse_digits z acc.
Proof.
  revert z acc. induction fuel as [|f IH]; intros z acc H; simpl.
  { simpl in H. by replace z with 0 by lia. }
  rewrite Nat2Z.inj_succ, Z.pow_succ_r in H by lia.
  pose proof (Z.mod_pos_bound z 10 ltac:(lia)).
  pose proof (Z.div_mod z 10 ltac:(lia)).
  destruct (Z.eqb_spec (z / 10) 0) as [E|E]; [|rewrite IH].
  1,2: cbn [parse_digits]; rewrite is_digit_digit, byte_val_digit by lia; f_equal; lia.
  split; [apply Z.div_pos; lia|]. apply Z.div_lt_upper_bound; lia.
Qed.

Lemma dec_aux_cons fuel z acc : exists d r, dec_aux (S fuel) z acc = d :: r.
Proof.
  revert z acc. induction fuel as [|f IH]; intros z acc; cbn [dec_aux];
    case_match; eauto.
Qed.

Lemma to_string_cons z : exists d r, to_string z = d :: r.
Proof. apply dec_aux_cons. Qed.

Lemma is_digit_not_space b :
  is_digit b = true ->
  is_space b = false /\ (byte_val b =? 45) = false /\ (byte_val b =? 43) = false.
Proof. unfold is_digit, is_space. lia. Qed.

(** A number written by [std::to_string] is read back by [std::stoll]. *)
Lemma stoll_to_string z : 0 <= z < 2 ^ 63 -> stoll (to_string z) = Some z.
Proof.
  intros Hz. unfold stoll.
  pose proof (dec_aux_parse 20 z [] ltac:(simpl; lia)) as Hp.
  fold (to_string z) in Hp. pose proof (to_string_digits z) as Hd.
  destruct (to_string_cons z) as (d & r & E). rewrite E in *.
  apply Forall_cons in Hd as [Hd _].
  destruct (is_digit_not_space d Hd) as (Hs & Hm & Hpl).
  cbn [skip_space]. rewrite Hs, Hm, Hpl, Hd, Hp. cbn [parse_digits fst].
  by rewrite decide_True by lia.
Qed.

Lemma to_string_inj x y :
  0 <= x < 2 ^ 63 -> 0 <= y < 2 ^ 63 -> to_string x = to_string y -> x = y.
Proof.
  intros Hx Hy E. apply stoll_to_string in Hx, Hy. congruence.
Qed.

(** Two digit strings followed by a non-digit split uniquely. *)
Lemma digits_app_inj a b x y r s :
  Forall (fun b => is_digit b = true) a -> Forall (fun b => is_digit b = true) b ->
  is_digit x = false -> is_digit y = false ->
  a ++ x :: r = b ++ y :: s -> a = b /\ x = y /\ r = s.
Proof.
  revert b. induction a as [|c a IH]; intros [|d b] Ha Hb Hx Hy; simpl; intros [= -> E].
  - done.
  - apply Forall_cons in Hb as [Hb _]. congruence.
  - apply Forall_cons in Ha as [Ha _]. congruence.
  - apply Forall_cons in Ha as [_ Ha], Hb as [_ Hb].
    destruct (IH b Ha Hb Hx Hy E) as (-> & -> & ->). done.
Qed.

(** ** A state monad for code that threads a store *)

Definition St (S A : Type) : Type := S -> A * S.
Definition st_ret {S A} (a : A) : St S A := fun s => (a, s).
Definition st_bind {S A B} (m : St S A) (k : A -> St S B) : St S B :=
  fun s => let '(a, s) := m s in k a s.

Declare Scope slsfs_scope.
Delimit Scope slsfs_scope with slsfs.
Notation "'let!' x := m 'in' k" := (st_bind m (fun x => k))
  (at level 200, x name, m at level 100, k at level 200, right associativity) : slsfs_scope.
Notation "'do!' m 'then' k" := (st_bind m (fun _ => k))
  (at level 200, m at level 100, k at level 200, right associativity) : slsfs_scope.
#[global] Open Scope slsfs_scope.

(** ** Lists of bytes: overwriting a range *)

(** [overlay pos src b]: [b] grown to hold [pos + length src] bytes, with [src]
    written at [pos]. *)
Definition overlay (pos : nat) (src b : bytes) : bytes :=
  let b := resize_to (Nat.max (pos + length src) (length b)) b in
  take pos b ++ src ++ drop (pos + length src) b.

Lemma overlay_mem_set pos src b :
  mem_set pos src (resize_to (Nat.max (pos + length src) (length b)) b)
  = Some (overlay pos src b).
Proof. apply mem_set_Some. rewrite length_resize_to. lia. Qed.

Lemma length_overlay pos src b :
  length (overlay pos src b) = Nat.max (pos + length src) (length b).
Proof.
  unfold overlay. rewrite !length_app, length_take, length_drop, length_resize_to. lia.
Qed.

Lemma overlay_get pos src b : mem_get pos (length src) (overlay pos src b) = Some src.
Proof. eapply mem_set_get, overlay_mem_set. Qed.

(** A function without repetitions on a list is injective on its elements. *)
Lemma NoDup_fmap_inj_elem {A B} (f : A -> B) (l : list A) x y :
  NoDup (f <$> l) -> x ∈ l -> y ∈ l -> f x = f y -> x = y.
Proof.
  induction l as [|z l IH]; intros Hn Hx Hy E; [by apply elem_of_nil in Hx|].
  simpl in Hn. apply NoDup_cons in Hn as [Hz Hn].
  apply elem_of_cons in Hx as [->|Hx], Hy as [->|Hy]; auto.
  - destruct Hz. rewrite E. by apply list_elem_of_fmap_2.
  - destruct Hz. rewrite <- E. by apply list_elem_of_fmap_2.
Qed.

Lemma fmap_constant {A B} (f : A -> B) (l : list A) y :
  (forall x, x ∈ l -> f x = y) -> f <$> l = replicate (length l) y.
Proof.
  induction l as [|x l IH]; intros Hf; [done|]. cbn [fmap list_fmap length replicate].
  f_equal; [apply Hf; left|]. apply IH. intros z Hz. apply Hf. by right.
Qed.

(** Numbering the elements of a list. *)
Lemma imap_pair_fst {A} (l : list A) : (imap pair l).*1 = seq 0 (length l).
Proof.
  apply list_eq. intros i. rewrite list_lookup_fmap, list_lookup_imap.
  destruct (decide (i < length l)%nat) as [Hi|Hi].
  - destruct (lookup_lt_is_Some_2 l i Hi) as [x ->]. cbn. by rewrite lookup_seq_lt.
  - rewrite lookup_ge_None_2 by lia. rewrite lookup_seq_ge by lia. done.
Qed.

Lemma imap_pair_snd {A} (l : list A) : (imap pair l).*2 = l.
Proof.
  apply list_eq. intros i. rewrite list_lookup_fmap, list_lookup_imap. by destruct (l !! i).
Qed.

Lemma elem_of_imap_pair {A} (l : list A) n x : (n, x) ∈ imap pair l -> l !! n = Some x.
Proof.
  intros (i & E)%list_elem_of_lookup. rewrite list_lookup_imap in E.
  destruct (l !! i) eqn:Ei; simplify_eq/=. done.
Qed.

(** ** Automation *)

Create HintDb slsfs.
#[export] Hint Resolve wrap_range bswap_range byte_val_range modulus_pos : slsfs.
#[export] Hint Rewrite @length_app @length_take @length_drop @length_replicate
  length_le_bytes length_be_bytes length_resize_to length_rev : len.

Ltac len := autorewrite with len; simpl length; try lia.

(** Case analysis on the [match] and [decide] in the goal. *)
Ltac split_cases := repeat (case_decide || case_match); simplify_eq/=; try done.

(** Equality of closed terms by the kernel's virtual machine. *)
Ltac vm_refl := lazymatch goal with |- ?x = ?y => vm_cast_no_check (@eq_refl _ y) end.

(** ** [emplace] of a hash map leaves an element that is there. *)
Definition emplace {K V} `{Countable K} (k : K) (v : V) (mp : gmap K V) : gmap K V :=
  match mp !! k with Some _ => mp | None => <[k := v]> mp end.

Lemma emplace_lookup {K V} `{Countable K} (k k' : K) (v v' : V) mp :
  mp !! k' = Some v' -> emplace k v mp !! k' = Some v'.
Proof.
  intros E. unfold emplace. destruct (mp !! k) eqn:Ek; [done|]. rewrite lookup_insert_ne; [done|congruence].
Qed.

Lemma emplace_inv {K V} `{Countable K} (k k' : K) (v v' : V) mp :
  emplace k v mp !! k' = Some v' -> k' = k /\ v' = v \/ mp !! k' = Some v'.
Proof.
  unfold emplace. destruct (mp !! k) eqn:Ek; [by right|]. destruct (decide (k = k')) as [<-|]; [|rewrite lookup_insert_ne by done; auto].
  rewrite lookup_insert_eq. intros [= ->]. auto.
Qed.
