(* ===== verification/Outcome.v ===== *)
(** * Outcomes

    What a piece of the program ends with, where it matters whether an exception is thrown,
    which a caller may catch, or the behaviour is undefined; and the conversions of the
    standard library that throw. *)
From Stdlib Require Import ZArith Lia.
From stdpp Require Import base tactics option list.
From S2P Require Import Prelude.

Inductive outcome (A : Type) := Ok (a : A) | Throws | Undefined.
Arguments Ok {A}.
Arguments Throws {A}.
Arguments Undefined {A}.

#[global] Instance outcome_ret : MRet outcome := fun A a => Ok a.
#[global] Instance outcome_bind : MBind outcome := fun A B f o =>
  match o with Ok a => f a | Throws => Throws | Undefined => Undefined end.

(** What the rest of the development leaves undefined. *)
Definition defined {A} (o : option A) : outcome A := match o with Some a => Ok a | None => Undefined end.

(** An exception. *)
Definition or_throw {A} (o : option A) : outcome A := match o with Some a => Ok a | None => Throws end.

(** A [char] is signed. *)
Definition signed_char (c : byte) : Z := let z := byte_val c in if z <? 128 then z else z - 256.

(** [std::stoi]. *)
Definition stoi (b : bytes) : outcome Z :=
  z ← or_throw (stoll b);
  if decide (- 2 ^ 31 <= z < 2 ^ 31) then Ok z else Throws.

(** [std::stoull] of a text of digits. *)
Definition stoull (b : bytes) : outcome Z :=
  let z := (parse_digits 0 b).1 in
  if z <? 2 ^ 64 then Ok z else Throws.

Lemma stoi_to_string z : 0 <= z < 2 ^ 31 -> stoi (to_string z) = Ok z.
Proof. intros Hz. unfold stoi. rewrite stoll_to_string by lia. cbn [or_throw mbind outcome_bind]. by rewrite decide_True by lia. Qed.

Lemma parse_to_string z : 0 <= z < 10 ^ 20 -> (parse_digits 0 (to_string z)).1 = z.
Proof. intros Hz. unfold to_string. by rewrite dec_aux_parse by (simpl; lia). Qed.

Lemma stoull_to_string z : 0 <= z < 2 ^ 64 -> stoull (to_string z) = Ok z.
Proof.
  intros Hz. unfold stoull. rewrite parse_to_string by lia. by rewrite (proj2 (Z.ltb_lt _ _)) by lia.
Qed.

Lemma bind_Ok {A B} (o : outcome A) (f : A -> outcome B) r : (o ≫= f) = Ok r -> exists a, o = Ok a /\ f a = Ok r.
Proof. destruct o as [a| |]; [by exists a|discriminate..]. Qed.

(** ** What throws, but is defined *)

Create HintDb outcome.

Lemma bind_defined {A B} (o : outcome A) (f : A -> outcome B) :
  o <> Undefined -> (forall a, f a <> Undefined) -> (o ≫= f) <> Undefined.
Proof. destruct o; cbn; auto. Qed.

Lemma or_throw_defined {A} (o : option A) : or_throw o <> Undefined.
Proof. by destruct o. Qed.

Lemma stoi_defined b : stoi b <> Undefined.
Proof. apply bind_defined; [apply or_throw_defined|]. intros z. by case_decide. Qed.

Lemma stoull_defined b : stoull b <> Undefined.
Proof. unfold stoull. by destruct (_ <? _). Qed.

#[export] Hint Resolve bind_defined or_throw_defined stoi_defined stoull_defined : outcome.
#[export] Hint Extern 1 (Ok _ <> Undefined) => discriminate : outcome.
