(* ===== verification/Double.v ===== *)
(** * Numbers of the C++ standard library

    [std::stod], and what becomes of a [double] that is used as a size.  A finite [double]
    is an integer times a power of two, so texts are rounded here as the processor rounds
    them. *)
From Stdlib Require Import ZArith Lia.
From stdpp Require Import base tactics option list strings.
From S2P Require Import Prelude Outcome.

(** [Finite neg man exp] is [man * 2 ^ exp], or its opposite. *)
Inductive double := Finite (neg : bool) (man exp : Z) | Infinite (neg : bool) | NaN.

#[global] Instance double_eq_dec : EqDecision double.
Proof. solve_decision. Defined.

(** [m / d] in units of [2 ^ e]: quotient, remainder, and what was divided by. *)
Definition in_units (m d e : Z) : Z * Z * Z :=
  let '(n, d) := if e <? 0 then (m * 2 ^ (- e), d) else (m, d * 2 ^ e) in (n / d, n mod d, d).

(** The last place of the [double] next to [m / d]: 53 bits, but not below the last place of
    the smallest one. *)
Definition last_place (m d : Z) : Z :=
  let e := Z.max (Z.log2 m - Z.log2 d - 53) (-1074) in
  if 2 ^ 53 <=? (in_units m d e).1.1 then e + 1 else e.

(** To the nearest, ties to even; the flag says that nothing was lost. *)
Definition nearest (m d : Z) : Z * Z * bool :=
  let e := last_place m d in
  let '(q, r, d) := in_units m d e in
  (if (d <? 2 * r) || ((2 * r =? d) && Z.odd q) then q + 1 else q, e, r =? 0).

(** [ERANGE] becomes an exception: too large, or so small that digits were lost. *)
Definition make_double (neg : bool) (m d : Z) : outcome double :=
  if m =? 0 then Ok (Finite neg 0 0)
  else
    let '(q, e, exact) := nearest m d in
    if (1024 <=? e + Z.log2 q) || (negb exact && (q <? 2 ^ 52)) then Throws else Ok (Finite neg q e).

(** ** Texts *)

Definition lower (c : byte) : Z := let z := byte_val c in if (65 <=? z) && (z <=? 90) then z + 32 else z.

Definition digit_value (base : Z) (c : byte) : option Z :=
  if is_digit c then Some (byte_val c - 48)
  else if (base =? 16) && (97 <=? lower c) && (lower c <=? 102) then Some (lower c - 87) else None.

(** The digits at the front after [acc], and how many they are. *)
Fixpoint digits (base acc : Z) (b : bytes) : Z * nat * bytes :=
  match b with
  | [] => (acc, O, [])
  | c :: r =>
      match digit_value base c with
      | Some v => let '(x, n, r) := digits base (base * acc + v) r in (x, S n, r)
      | None => (acc, O, b)
      end
  end.

Definition point : byte := x2e.

(** Digits with at most one point: the integer they make, how many they are, and how many
    are behind the point. *)
Definition mantissa (base : Z) (b : bytes) : Z * nat * nat * bytes :=
  let '(i, ni, r) := digits base 0 b in
  match r with
  | c :: r' => if decide (c = point) then let '(x, nf, r) := digits base i r' in (x, (ni + nf)%nat, nf, r) else (i, ni, O, r)
  | [] => (i, ni, O, [])
  end.

Definition sign (b : bytes) : bool * bytes :=
  match b with
  | c :: r => if byte_val c =? 45 then (true, r) else if byte_val c =? 43 then (false, r) else (false, b)
  | [] => (false, [])
  end.

(** The exponent behind the letter [l]; without digits there is none. *)
Definition exponent (l : Z) (b : bytes) : Z :=
  match b with
  | c :: r =>
      if lower c =? l then
        let '(neg, r) := sign r in
        let '(x, n, _) := digits 10 0 r in
        if (neg : bool) then - x else x
      else 0
  | [] => 0
  end.

(** [m * base ^ k]. *)
Definition scaled (neg : bool) (m base k : Z) : outcome double :=
  if k <? 0 then make_double neg m (base ^ (- k)) else make_double neg (m * base ^ k) 1.

Definition decimal_text (neg : bool) (b : bytes) : outcome double :=
  let '(m, n, nf, r) := mantissa 10 b in
  match n with O => Throws | _ => scaled neg m 10 (exponent 101 r - Z.of_nat nf) end.

Definition hexadecimal_text (neg : bool) (b : bytes) : option (outcome double) :=
  let '(m, n, nf, r) := mantissa 16 b in
  match n with O => None | _ => Some (scaled neg m 2 (exponent 112 r - 4 * Z.of_nat nf)) end.

Definition stod (b : bytes) : outcome double :=
  let '(neg, b) := sign (skip_space b) in
  if decide (lower <$> take 3 b = [105; 110; 102]) then Ok (Infinite neg)
  else if decide (lower <$> take 3 b = [110; 97; 110]) then Ok NaN
  else
    match b with
    | c :: x :: r =>
        if (byte_val c =? 48) && (lower x =? 120) then
          match hexadecimal_text neg r with Some d => d | None => decimal_text neg b end
        else decimal_text neg b
    | _ => decimal_text neg b
    end.

(** [std::stol], with a [long] of 64 bits. *)
Definition stol (b : bytes) : outcome Z := or_throw (stoll b).

(** ** Conversions *)

Definition truncated (man exp : Z) : Z := if exp <? 0 then man / 2 ^ (- exp) else man * 2 ^ exp.

(** To a [std::size_t]; undefined when the integral part does not fit. *)
Definition to_size (d : double) : outcome Z :=
  match d with
  | Finite neg man exp =>
      let z := truncated man exp in
      if (z =? 0) || (negb neg && (z <? 2 ^ 64)) then Ok z else Undefined
  | _ => Undefined
  end.

(** [std::lround]: halves away from zero.  What does not fit a [long] is not specified. *)
Definition lround (d : double) : outcome Z :=
  match d with
  | Finite neg man exp =>
      let z := if exp <? 0 then (2 * man + 2 ^ (- exp)) / (2 * 2 ^ (- exp)) else man * 2 ^ exp in
      let z := if neg then - z else z in
      if decide (- 2 ^ 63 <= z < 2 ^ 63) then Ok z else Undefined
  | _ => Undefined
  end.

Example third : nearest 1 3 = (6004799503160661, -54, false).
Proof. vm_compute. reflexivity. Qed.
Example tenths : stod (lit "12.5e1") = Ok (Finite false 8796093022208000 (-46)) /\ stod (lit "0x1.8p1") = Ok (Finite false 6755399441055744 (-51)).
Proof. vm_compute. done. Qed.
Example no_double : stod (lit "byte") = Throws /\ stod (lit "1e999") = Throws /\ stod (lit " -Infinity") = Ok (Infinite true).
Proof. vm_compute. done. Qed.

(** ** Rounding *)

Lemma in_units_spec m d e : 0 < d -> let '(q, r, d') := in_units m d e in
  0 < d' /\ 0 <= r < d' /\ (if e <? 0 then m * 2 ^ (- e) else m) = q * d' + r /\ d' = (if e <? 0 then d else d * 2 ^ e).
Proof.
  intros Hd. unfold in_units. destruct (Z.ltb_spec e 0).
  - split; [done|]. split; [apply Z.mod_pos_bound; lia|]. split; [|done]. rewrite (Z.mul_comm (_ / _)). apply Z.div_mod. lia.
  - assert (0 < 2 ^ e) by (apply Z.pow_pos_nonneg; lia). split; [nia|]. split; [apply Z.mod_pos_bound; nia|]. split; [|done]. rewrite (Z.mul_comm (_ / _)). apply Z.div_mod. nia.
Qed.

(** Rounding is wrong by half a unit of the last place at most. *)
Lemma nearest_error m d q e b : 0 < d -> nearest m d = (q, e, b) ->
  let n := if e <? 0 then m * 2 ^ (- e) else m in
  let d' := if e <? 0 then d else d * 2 ^ e in
  2 * Z.abs (q * d' - n) <= d' /\ (b = true -> n = q * d').
Proof.
  intros Hd. unfold nearest. pose proof (in_units_spec m d (last_place m d) Hd) as Hu.
  destruct (in_units m d (last_place m d)) as [[q0 r] d0]. destruct Hu as (H1 & H2 & H3 & H4). intros [= <- <- <-]. cbn zeta. rewrite <- H4, H3.
  destruct (Z.ltb_spec d0 (2 * r)), (Z.eqb_spec (2 * r) d0), (Z.odd q0), (Z.eqb_spec r 0); cbn [orb andb]; split; intros; try lia; done.
Qed.

(** An integer of 53 bits is a [double]. *)
Lemma make_double_integer neg z d : 0 < z < 2 ^ 53 -> 0 < d ->
  exists k, 0 <= k /\ make_double neg (z * d) d = Ok (Finite neg (z * 2 ^ k) (- k)).
Proof.
  intros Hz Hd. unfold make_double, nearest. rewrite (proj2 (Z.eqb_neq _ _)) by nia.
  assert (Hu : forall e, e <= 0 -> in_units (z * d) d e = (z * 2 ^ (- e), 0, d)).
  { intros e He. unfold in_units. destruct (Z.ltb_spec e 0).
    - replace (z * d * 2 ^ (- e)) with (z * 2 ^ (- e) * d) by ring. by rewrite Z.div_mul, Z.mod_mul by lia.
    - replace e with 0 by lia. cbn. rewrite !Z.mul_1_r. by rewrite Z.div_mul, Z.mod_mul by lia. }
  assert (Hz' : Z.log2 z <= 52) by (pose proof (proj1 (Z.log2_lt_pow2 z 53 ltac:(lia)) ltac:(lia)); lia).
  assert (Hlog : Z.log2 (z * d) <= Z.log2 z + Z.log2 d + 1) by (apply Z.log2_mul_above; lia).
  assert (He : last_place (z * d) d <= 0).
  { unfold last_place. set (e := Z.max _ _). assert (e <= 0) by lia. rewrite Hu by done. cbn [fst]. case_match eqn:E; [|done].
    apply Z.leb_le in E. destruct (decide (e = 0)) as [->|]; [cbn in E|]; lia. }
  set (e := last_place (z * d) d) in *. rewrite Hu by done. exists (- e). split; [lia|].
  rewrite (proj2 (Z.ltb_ge _ _)), (proj2 (Z.eqb_neq _ _)), Z.eqb_refl by lia. cbn [orb andb negb].
  rewrite Z.log2_mul_pow2 by lia.
  rewrite (proj2 (Z.leb_gt _ _)) by lia. by rewrite Z.opp_involutive.
Qed.

Lemma to_size_integer z k : 0 <= z < 2 ^ 53 -> 0 <= k -> to_size (Finite false (z * 2 ^ k) (- k)) = Ok z /\ lround (Finite false (z * 2 ^ k) (- k)) = Ok z.
Proof.
  intros Hz Hk. unfold to_size, lround, truncated. rewrite Z.opp_involutive. assert (0 < 2 ^ k) by (apply Z.pow_pos_nonneg; lia).
  destruct (Z.ltb_spec (- k) 0).
  - rewrite Z.div_mul by lia. replace (2 * (z * 2 ^ k) + 2 ^ k) with (2 ^ k + z * (2 * 2 ^ k)) by ring.
    rewrite Z.div_add, Z.div_small by lia. rewrite (proj2 (Z.ltb_lt z _)), orb_true_r by lia. by rewrite decide_True by lia.
  - replace k with 0 by lia. cbn. rewrite !Z.mul_1_r, (proj2 (Z.ltb_lt z _)), orb_true_r by lia. by rewrite decide_True by lia.
Qed.

(** ** Texts of integers *)

Lemma digits_digits acc ds rest : Forall (fun c => is_digit c = true) ds -> (match rest with [] => True | c :: _ => is_digit c = false end) ->
  digits 10 acc (ds ++ rest) = ((parse_digits acc ds).1, length ds, rest).
Proof.
  intros Hds Hr. revert acc. induction Hds as [|c ds Hc _ IH]; intros acc.
  - destruct rest as [|c rest]; [done|]. cbn [app digits]. unfold digit_value. by rewrite Hr.
  - cbn [app digits parse_digits length]. unfold digit_value. rewrite Hc, IH. done.
Qed.

Lemma sign_digit c r : is_digit c = true -> sign (c :: r) = (false, c :: r).
Proof. intros Hc. destruct (is_digit_not_space c Hc) as (_ & H1 & H2). unfold sign. by rewrite H1, H2. Qed.

Lemma stod_digits c ds rest : Forall (fun c => is_digit c = true) (c :: ds) -> (match rest with [] => True | c :: _ => is_digit c = false /\ lower c <> 120 end) ->
  stod ((c :: ds) ++ rest) = decimal_text false ((c :: ds) ++ rest).
Proof.
  intros Hds Hr. pose proof Hds as [Hc Hds']%Forall_cons. unfold stod. cbn [app skip_space]. destruct (is_digit_not_space c Hc) as (Hs & _). rewrite Hs, sign_digit by done.
  assert (Hlow : forall x, is_digit x = true -> 48 <= lower x <= 57) by (intros x Hx; unfold is_digit in Hx; unfold lower; destruct (Z.leb_spec 65 (byte_val x)); cbn [andb]; lia).
  pose proof (Hlow c Hc) as Hlc. cbn [take fmap list_fmap].
  assert (Hx : match ds ++ rest with [] => True | x :: _ => lower x <> 120 end).
  { destruct ds as [|x ds]; [destruct rest as [|x rest]; [done|]; apply Hr|]. apply Forall_cons in Hds' as [Hx _]. apply Hlow in Hx. cbn. lia. }
  rewrite !decide_False by (intros [= Hl _]; lia).
  destruct (ds ++ rest) as [|x r]; [done|]. by rewrite (proj2 (Z.eqb_neq (lower x) _)), andb_false_r by done.
Qed.

(** An integer below [2 ^ 53] is read exactly, also with a zero behind a point. *)
Lemma stod_to_string z tail : 0 <= z < 2 ^ 53 -> tail = [] \/ tail = [point; digit 0] ->
  exists d, stod (to_string z ++ tail) = Ok d /\ to_size d = Ok z /\ lround d = Ok z.
Proof.
  intros Hz Ht. pose proof (to_string_digits z) as Hd. pose proof (parse_to_string z ltac:(lia)) as Hp.
  destruct (to_string_cons z) as (c & ds & E). rewrite E in *.
  rewrite stod_digits by (by destruct Ht as [->| ->]). unfold decimal_text, mantissa.
  destruct Ht as [->| ->].
  - rewrite digits_digits, Hp by done. cbn [length exponent]. change (0 - Z.of_nat 0) with 0. unfold scaled. cbn [Z.ltb].
    change (0 <? 0) with false. cbv iota. rewrite Z.mul_1_r.
    destruct (decide (z = 0)) as [->|]; [by eexists|]. destruct (make_double_integer false z 1) as (k & Hk & Em); [lia..|]. rewrite Z.mul_1_r in Em.
    rewrite Em. eexists. split; [done|]. by apply to_size_integer.
  - rewrite digits_digits, Hp by done. rewrite decide_True by done.
    change (digits 10 z [digit 0]) with (10 * z + (48 - 48), 1%nat, @nil byte). cbn [exponent Nat.add]. rewrite Nat.add_comm. cbn [length Nat.add].
    change (0 - Z.of_nat 1) with (-1). unfold scaled. change (-1 <? 0) with true. cbv iota. change (10 ^ (- -1)) with 10.
    replace (10 * z + (48 - 48)) with (z * 10) by lia.
    destruct (decide (z = 0)) as [->|]; [by eexists|]. destruct (make_double_integer false z 10) as (k & Hk & Em); [lia..|].
    rewrite Em. eexists. split; [done|]. by apply to_size_integer.
Qed.

Lemma stol_to_string z : 0 <= z < 2 ^ 63 -> stol (to_string z) = Ok z.
Proof. intros Hz. unfold stol. by rewrite stoll_to_string. Qed.

(** ** What throws, but is defined *)

Lemma stol_defined b : stol b <> Undefined.
Proof. apply or_throw_defined. Qed.

Lemma make_double_defined neg m d : make_double neg m d <> Undefined.
Proof. unfold make_double. case_match; [done|]. destruct (nearest m d) as [[q e] x]. by case_match. Qed.

Lemma decimal_defined neg b : decimal_text neg b <> Undefined.
Proof. unfold decimal_text, scaled. repeat case_match; done || apply make_double_defined. Qed.

Lemma stod_defined b : stod b <> Undefined.
Proof.
  unfold stod. destruct (sign (skip_space b)) as [neg r]. repeat case_match; try (done || apply decimal_defined).
  unfold hexadecimal_text, scaled in *. repeat case_match; simplify_eq; apply make_double_defined.
Qed.

#[export] Hint Resolve stol_defined stod_defined : outcome.
