(* ===== verification/Wire.v ===== *)
(** * Wire formats

    The two packet formats of the system: [pack] (client, proxy and worker,
    [proxy/serializer.hpp]) and [leveldb_pack] (worker and block store,
    [ssbd/leveldb-serializer.hpp]).  A packet header is a record of its fields as
    the host holds them; [dump] and [parse] are the field-by-field copies of the
    code, with the byte swaps the code makes. *)
From Stdlib Require Import ZArith Lia.
From stdpp Require Import base tactics option list gmap strings.
From S2P Require Import Prelude.

(** ** Byte order conversion *)

(** [htonll] of [serializer.hpp]: two [htonl]s and a shift. *)
Definition htonll (x : Z) : Z :=
  Z.lor (u64 (Z.shiftl (bswap 4 (u32 x)) 32)) (bswap 4 (u32 (Z.shiftr x 32))).

Definition ntohll (x : Z) : Z := htonll x.

(** [pack::hton] and [pack::ntoh], by the size of the integer type; the enum case
    goes through the underlying integer. *)
Definition hton (size : nat) (i : Z) : Z :=
  match size with
  | 8%nat => htonll (u64 i)
  | 4%nat => bswap 4 (u32 i)
  | 2%nat => bswap 2 (u16 i)
  | _ => i
  end.

Definition ntoh (size : nat) (i : Z) : Z :=
  match size with
  | 8%nat => ntohll (u64 i)
  | 4%nat => bswap 4 (u32 i)
  | 2%nat => bswap 2 (u16 i)
  | _ => i
  end.

(** ** Hashing ([namespace hash] and the anonymous namespace) *)

Definition hash_combine (seed value : Z) : Z :=
  Z.lxor seed
    (u64 (value + 0x9e3779b9 + u64 (Z.shiftl seed 6) + Z.shiftr seed 2)).

Definition hash_range (seed : Z) (l : bytes) : Z :=
  foldl (fun s b => hash_combine s (byte_val b)) seed l.

Module pack.

(** *** [enum class msg_t : unit_t] *)
Inductive msg_t :=
| err | put | get | ack | proxyjoin | set_timer | cache_transfer
| worker_reg | worker_dereg | worker_push_request | worker_response
| trigger | trigger_reject | proxy_send_error | open_file_success
| open_file_not_found | rename_success | rename_fail | proxy_send_ok | proxy_send_ip.

#[global] Instance msg_t_eq_dec : EqDecision msg_t.
Proof. solve_decision. Defined.

Definition code (m : msg_t) : Z :=
  match m with
  | err => 0 | put => 1 | get => 2 | ack => 3 | proxyjoin => 4 | set_timer => 5
  | cache_transfer => 6 | worker_reg => 8 | worker_dereg => 9
  | worker_push_request => 10 | worker_response => 11 | trigger => 14
  | trigger_reject => 15 | proxy_send_error => 16 | open_file_success => 17
  | open_file_not_found => 18 | rename_success => 19 | rename_fail => 20
  | proxy_send_ok => 21 | proxy_send_ip => 22
  end.

Definition all_msgs : list msg_t :=
  [err; put; get; ack; proxyjoin; set_timer; cache_transfer; worker_reg; worker_dereg;
   worker_push_request; worker_response; trigger; trigger_reject; proxy_send_error;
   open_file_success; open_file_not_found; rename_success; rename_fail; proxy_send_ok;
   proxy_send_ip].

(** The enumerator a raw type byte denotes, when there is one: a [switch] on a
    header type runs no case for the other values. *)
Definition of_code (z : Z) : option msg_t :=
  list_find (fun m => code m = z) all_msgs ≫= fun p => Some p.2.

Lemma of_code_code m : of_code (code m) = Some m.
Proof. by destruct m. Qed.

Lemma code_range m : 0 <= code m < 256.
Proof. destruct m; simpl; lia. Qed.

(** [operator<<(ostream&, msg_t)]: the label printed for a message type. *)
Definition show_msg (m : msg_t) : bytes :=
  lit match m with
  | err => "ERR" | put => "PUT" | get => "GET" | ack => "ACK" | proxyjoin => "PXJON"
  | set_timer => "STTMR" | worker_reg => "W_REG" | cache_transfer => "CACHE"
  | worker_dereg => "W_DRG" | worker_push_request => "W_REQ" | worker_response => "W_RES"
  | trigger => "TRIGG" | trigger_reject => "TRIGF" | proxy_send_error => "PROXY_ERROR"
  | proxy_send_ip => "PROXY_IP" | proxy_send_ok => "PROXY_OK"
  | open_file_success => "O_FILE_SUC" | open_file_not_found => "O_FILE_NF"
  | rename_success => "REN_FILE_SUC" | rename_fail => "REN_FILE_F"
  end%string.

Definition key_size : nat := 32.

(** *** [struct packet_header] *)
Record packet_header := mk_header {
  type : Z;                     (* the raw byte of [msg_t] *)
  direct_communication : Z;
  key : bytes;
  datasize : Z;
  sequence : bytes;
  random_salt : bytes
}.

Record packet := mk_packet { header : packet_header; data : bytes }.

#[global] Instance packet_header_eq_dec : EqDecision packet_header.
Proof. solve_decision. Defined.
#[global] Instance packet_eq_dec : EqDecision packet.
Proof. solve_decision. Defined.

Definition set_type (m : msg_t) (h : packet_header) : packet_header :=
  mk_header (code m) h.(direct_communication) h.(key) h.(datasize) h.(sequence) h.(random_salt).

Definition set_datasize (n : Z) (h : packet_header) : packet_header :=
  mk_header h.(type) h.(direct_communication) h.(key) n h.(sequence) h.(random_salt).

(** The sizes the C++ types guarantee. *)
Record wf_header (h : packet_header) : Prop := {
  wf_type : 0 <= h.(type) < 256;
  wf_direct : 0 <= h.(direct_communication) < 256;
  wf_key : length h.(key) = key_size;
  wf_datasize : 0 <= h.(datasize) < 2 ^ 32;
  wf_sequence : length h.(sequence) = 4%nat;
  wf_salt : length h.(random_salt) = 4%nat
}.

Definition bytesize : nat := 4 + 1 + 1 + key_size + 4 + 4.

Definition set_direct_communication (enable : bool) (h : packet_header) : packet_header :=
  mk_header h.(type) (if enable then 1 else 0) h.(key) h.(datasize) h.(sequence) h.(random_salt).

Definition is_direct_communication_enabled (h : packet_header) : bool :=
  h.(direct_communication) =? 1.

(** [gen_random_salt], [gen_sequence] and [gen]: the draws of the random engine
    are arguments; [uniform_int_distribution(1, 0xFF)] makes none of them 0. *)
Definition gen_random_salt (draws : bytes) (h : packet_header) : packet_header :=
  mk_header h.(type) h.(direct_communication) h.(key) h.(datasize) h.(sequence) draws.
Definition gen_sequence (draws : bytes) (h : packet_header) : packet_header :=
  mk_header h.(type) h.(direct_communication) h.(key) h.(datasize) draws h.(random_salt).
Definition gen (salt_draws sequence_draws : bytes) (h : packet_header) : packet_header :=
  gen_sequence sequence_draws (gen_random_salt salt_draws h).

(** [empty]: all bytes of the key and of the sequence are zero. *)
Definition empty (h : packet_header) : bool :=
  forallb (fun c => byte_val c =? 0) h.(key) && forallb (fun c => byte_val c =? 0) h.(sequence).

Definition is_trigger (h : packet_header) : bool :=
  match last h.(random_salt) with Some b => byte_val b =? 0 | None => false end.

Definition parse (pos : bytes) : option packet_header :=
  '(type, pos) ← read_n 1 pos;
  '(direct, pos) ← read_n 1 pos;
  '(key, pos) ← read_n key_size pos;
  '(sequence, pos) ← read_n 4 pos;
  '(salt, pos) ← read_n 4 pos;
  '(datasize, pos) ← read_n 4 pos;
  Some (mk_header (le_val type) (le_val direct) key (ntoh 4 (le_val datasize)) sequence salt).

Definition dump (h : packet_header) : bytes :=
  le_bytes 1 h.(type) ++ le_bytes 1 h.(direct_communication) ++ h.(key)
  ++ h.(sequence) ++ h.(random_salt) ++ le_bytes 4 (hton 4 h.(datasize)).

(** [packet::serialize] stores the size of the payload in the header first; the
    packet it leaves behind comes with the bytes. *)
Definition serialize (p : packet) : packet * bytes :=
  let h := set_datasize (u32 (Z.of_nat (length p.(data)))) p.(header) in
  (mk_packet h p.(data), dump h ++ p.(data)).

(** [packet_data::parse] copies the [size] bytes a reader got from the socket. *)
Definition parse_data (size : nat) (pos : bytes) : option bytes := fst <$> read_n size pos.

(** *** Keys and their hashes *)
Definition packet_header_key_hash (h : packet_header) : Z := hash_range 0x1b873593 h.(key).
Definition key_hash (k : bytes) : Z := hash_range 0x1b873593 k.
Definition key_compare (k1 k2 : bytes) : bool := bool_decide (k1 = k2).
Definition packet_header_key_compare (h1 h2 : packet_header) : bool :=
  bool_decide (h1.(key) = h2.(key)).
(** [operator==] on headers is this comparison. *)
Definition packet_header_full_key_hash (h : packet_header) : Z :=
  hash_range (hash_range (hash_range 0x1b873593 h.(key)) h.(random_salt)) h.(sequence).
Definition packet_header_full_key_compare (h1 h2 : packet_header) : bool :=
  bool_decide ((h1.(key), h1.(random_salt), h1.(sequence)) =
               (h2.(key), h2.(random_salt), h2.(sequence))).

End pack.

Module leveldb_pack.

(** *** [enum class msg_t : std::uint16_t] *)
Inductive msg_t :=
| err | ack | get | two_pc_prepare | two_pc_prepare_quick | two_pc_prepare_agree
| two_pc_prepare_abort | two_pc_commit_execute | two_pc_commit_rollback
| two_pc_commit_ack | replication.

#[global] Instance msg_t_eq_dec : EqDecision msg_t.
Proof. solve_decision. Defined.

Definition code (m : msg_t) : Z :=
  match m with
  | err => 0 | ack => 1 | get => 2 | two_pc_prepare => 8 | two_pc_prepare_quick => 9
  | two_pc_prepare_agree => 10 | two_pc_prepare_abort => 11
  | two_pc_commit_execute => 12 | two_pc_commit_rollback => 13
  | two_pc_commit_ack => 14 | replication => 15
  end.

Definition all_msgs : list msg_t :=
  [err; ack; get; two_pc_prepare; two_pc_prepare_quick; two_pc_prepare_agree;
   two_pc_prepare_abort; two_pc_commit_execute; two_pc_commit_rollback;
   two_pc_commit_ack; replication].

Definition of_code (z : Z) : option msg_t :=
  list_find (fun m => code m = z) all_msgs ≫= fun p => Some p.2.

Lemma leveldb_of_code_code m : of_code (code m) = Some m.
Proof. by destruct m. Qed.

Lemma leveldb_code_range m : 0 <= code m < modulus 2.
Proof. destruct m; unfold modulus; simpl; lia. Qed.

Definition show_msg (m : msg_t) : bytes :=
  lit match m with
  | err => "ERR" | ack => "ACK" | get => "GET" | two_pc_prepare => "2PPPR"
  | two_pc_prepare_quick => "2PPRQ" | two_pc_prepare_agree => "2PAGR"
  | two_pc_prepare_abort => "2PABO" | two_pc_commit_execute => "2CEXE"
  | two_pc_commit_rollback => "2CROL" | two_pc_commit_ack => "2CACK"
  | replication => "REPLI"
  end%string.

Definition is_merge_request (m : msg_t) : bool := negb (Z.land (u8 (code m)) 8 =? 0).

(** [leveldb_pack::hton] dispatches on the sizes of [htonl]'s and [htons]'s results. *)
Definition hton (size : nat) (i : Z) : Z :=
  match size with
  | 4%nat => bswap 4 (u32 i)
  | 2%nat => bswap 2 (u16 i)
  | _ => i
  end.

Definition ntoh (size : nat) (i : Z) : Z :=
  match size with
  | 4%nat => bswap 4 (u32 i)
  | 2%nat => bswap 2 (u16 i)
  | _ => i
  end.

Definition key_size : nat := 32.

(** *** [struct packet_header] *)
Record packet_header := mk_header {
  type : Z;                     (* the raw value of [msg_t] *)
  uuid : bytes;
  blockid : Z;
  position : Z;
  datasize : Z;
  version : Z;
  salt : bytes
}.

Record packet := mk_packet { header : packet_header; data : bytes }.

#[global] Instance packet_header_eq_dec : EqDecision packet_header.
Proof. solve_decision. Defined.
#[global] Instance packet_eq_dec : EqDecision packet.
Proof. solve_decision. Defined.

Definition set_type (m : msg_t) (h : packet_header) : packet_header :=
  mk_header (code m) h.(uuid) h.(blockid) h.(position) h.(datasize) h.(version) h.(salt).

Definition set_datasize (n : Z) (h : packet_header) : packet_header :=
  mk_header h.(type) h.(uuid) h.(blockid) h.(position) n h.(version) h.(salt).

Record wf_header (h : packet_header) : Prop := {
  wf_type : 0 <= h.(type) < 2 ^ 16;
  wf_uuid : length h.(uuid) = key_size;
  wf_blockid : 0 <= h.(blockid) < 2 ^ 32;
  wf_position : 0 <= h.(position) < 2 ^ 16;
  wf_datasize : 0 <= h.(datasize) < 2 ^ 32;
  wf_version : 0 <= h.(version) < 2 ^ 32;
  wf_salt : length h.(salt) = 4%nat
}.

Definition bytesize : nat := 2 + key_size + 4 + 2 + 4 + 4 + 4.

(** [as_string]: the database key of a block. *)
Definition as_string (h : packet_header) : bytes := h.(uuid) ++ to_string h.(blockid).

Definition parse (pos : bytes) : option packet_header :=
  '(type, pos) ← read_n 2 pos;
  '(uuid, pos) ← read_n key_size pos;
  '(blockid, pos) ← read_n 4 pos;
  '(position, pos) ← read_n 2 pos;
  '(datasize, pos) ← read_n 4 pos;
  '(version, pos) ← read_n 4 pos;
  '(salt, pos) ← read_n 4 pos;
  Some (mk_header (le_val type) uuid (ntoh 4 (le_val blockid)) (ntoh 2 (le_val position))
          (ntoh 4 (le_val datasize)) (ntoh 4 (le_val version)) salt).

Definition dump (h : packet_header) : bytes :=
  le_bytes 2 h.(type) ++ h.(uuid) ++ le_bytes 4 (hton 4 h.(blockid))
  ++ le_bytes 2 (hton 2 h.(position)) ++ le_bytes 4 (hton 4 h.(datasize))
  ++ le_bytes 4 (hton 4 h.(version)) ++ h.(salt).

(** The constructor of [packet] and [create_request]: [size_t] arguments are
    narrowed to the field widths; [salt] is the output of [gen]. *)
Definition create_request (rng_salt : bytes) (name : bytes) (ty : msg_t)
    (ver partition location size : Z) : packet :=
  mk_packet (mk_header (code ty) name (u32 partition) (u16 location) (u32 size) ver rng_salt) [].

Definition serialize (p : packet) : packet * bytes :=
  let h := set_datasize (u32 (Z.of_nat (length p.(data)))) p.(header) in
  (mk_packet h p.(data), dump h ++ p.(data)).

Definition serialize_header (p : packet) : bytes := dump p.(header).

Definition packet_header_key_hash (h : packet_header) : Z :=
  hash_range (hash_range (u64 (0x1b873593 + h.(blockid))) h.(uuid)) h.(salt).

Definition packet_header_key_compare (h1 h2 : packet_header) : bool :=
  bool_decide ((h1.(uuid), h1.(blockid), h1.(salt)) = (h2.(uuid), h2.(blockid), h2.(salt))).

End leveldb_pack.

(** ** Lemmas *)

Lemma le_val_app a b : le_val (a ++ b) = le_val a + modulus (length a) * le_val b.
Proof.
  induction a as [|x a IH]; simpl; [unfold modulus; simpl; lia|].
  rewrite IH, modulus_S. lia.
Qed.

Lemma le_bytes_app n m z : le_bytes (n + m) z = le_bytes n z ++ le_bytes m (z / modulus n).
Proof.
  revert z. induction n as [|n IH]; intros z; simpl.
  - unfold modulus. simpl. by rewrite Z.div_1_r.
  - rewrite IH, modulus_S, Z.div_div by (try apply modulus_pos; lia). done.
Qed.

Lemma bswap_wrap n z : bswap n (wrap n z) = bswap n z.
Proof. unfold bswap. by rewrite le_bytes_wrap. Qed.

Lemma lor_shiftl_add a b n :
  0 <= n -> 0 <= b < 2 ^ n -> Z.lor (Z.shiftl a n) b = a * 2 ^ n + b.
Proof.
  intros Hn Hb. rewrite <- Z.shiftl_mul_pow2 by lia.
  assert (Z.land (Z.shiftl a n) b = 0) as E.
  { apply Z.bits_inj'. intros i Hi. rewrite Z.land_spec, Z.bits_0, Z.shiftl_spec by lia.
    destruct (Z.ltb_spec i n).
    - by rewrite Z.testbit_neg_r by lia.
    - rewrite <- (Z.mod_small b (2 ^ n)), Z.mod_pow2_bits_high by lia. apply andb_false_r. }
  by rewrite <- Z.lxor_lor, <- Z.add_nocarry_lxor.
Qed.

(** The two-halves implementation of [htonll] is the eight-byte swap. *)
Lemma htonll_is_bswap x : 0 <= x < 2 ^ 64 -> htonll x = bswap 8 x.
Proof.
  intros Hx. unfold htonll. rewrite !bswap_wrap.
  pose proof (bswap_range 4 x) as Hlo.
  pose proof (bswap_range 4 (Z.shiftr x 32)) as Hhi.
  change (modulus 4) with (2 ^ 32) in Hlo, Hhi.
  rewrite (wrap_small 8).
  2:{ rewrite Z.shiftl_mul_pow2 by lia. change (modulus 8) with (2 ^ 32 * 2 ^ 32). nia. }
  rewrite lor_shiftl_add, Z.shiftr_div_pow2 by lia.
  unfold bswap at 3. change 8%nat with (4 + 4)%nat.
  rewrite le_bytes_app, rev_app_distr, le_val_app, length_rev, length_le_bytes.
  change (modulus 4) with (2 ^ 32). unfold bswap. lia.
Qed.

Lemma hton_bswap n z : (n = 1 \/ n = 2 \/ n = 4 \/ n = 8)%nat -> 0 <= z < modulus n ->
  hton n z = bswap n z.
Proof.
  intros [->|[->|[->| ->]]] H; cbn [hton]; rewrite ?bswap_wrap; try done.
  - unfold bswap. change (le_bytes 1 z) with [byte_of z]. cbn [rev app le_val].
    rewrite byte_val_of, Z.mod_small by (change (modulus 1) with 256 in H; lia). lia.
  - rewrite wrap_small by done. by apply htonll_is_bswap.
Qed.

Lemma ntoh_hton n z : (n = 1 \/ n = 2 \/ n = 4 \/ n = 8)%nat -> 0 <= z < modulus n ->
  ntoh n (hton n z) = z.
Proof.
  intros Hn H. assert (ntoh n = hton n) as -> by (by destruct n as [|[|[|[|[]]]]]).
  rewrite !hton_bswap, bswap_bswap, wrap_small; auto using bswap_range.
  rewrite hton_bswap by done. apply bswap_range.
Qed.

Lemma hton_ntoh_le_val n b : (n = 1 \/ n = 2 \/ n = 4 \/ n = 8)%nat -> length b = n ->
  le_bytes n (hton n (ntoh n (le_val b))) = b.
Proof.
  intros Hn Hb. pose proof (le_val_range_n n b Hb) as H.
  assert (ntoh n = hton n) as -> by (by destruct n as [|[|[|[|[]]]]]).
  rewrite (hton_bswap n (hton _ _)), hton_bswap, bswap_bswap, wrap_small by
    (rewrite ?hton_bswap; auto using bswap_range).
  by apply le_bytes_le_val'.
Qed.

(** The block store's converters agree with the proxy's on the widths it uses. *)
Lemma leveldb_hton_eq n : (n = 2 \/ n = 4)%nat ->
  leveldb_pack.hton n = hton n /\ leveldb_pack.ntoh n = ntoh n.
Proof. by intros [-> | ->]. Qed.

(** *** Round trips of the headers *)

Module pack_facts.
Import pack.

Lemma length_dump h : wf_header h -> length (dump h) = bytesize.
Proof. intros []. unfold dump. len. rewrite wf_key0, wf_sequence0, wf_salt0. done. Qed.

Lemma parse_dump_app h rest : wf_header h -> parse (dump h ++ rest) = Some h.
Proof.
  intros []. unfold dump, parse. rewrite <- !(assoc_L (++)).
  repeat (rewrite read_n_app by (rewrite ?length_le_bytes; done); cbn [mbind option_bind]).
  rewrite !le_val_le_small by (done || apply bswap_range).
  rewrite ntoh_hton by (done || auto). by destruct h.
Qed.

Lemma dump_parse b : length b = bytesize ->
  exists h, parse b = Some h /\ wf_header h /\ dump h = b.
Proof.
  intros Hb. change bytesize with (1 + (1 + (32 + (4 + (4 + 4)))))%nat in Hb.
  apply length_split in Hb as (b1 & r & -> & H1 & Hr).
  repeat (apply length_split in Hr as (? & ? & -> & ? & Hr)).
  unfold parse.
  repeat (rewrite read_n_app by done; cbn [mbind option_bind]).
  rewrite read_n_all by done; cbn [mbind option_bind].
  eexists. split; [done|]. split.
  - split; first [done | by apply (le_val_range_n 1) | by apply (le_val_range_n 2)
                 | apply (bswap_range 4) | apply (bswap_range 2)].
  - unfold dump. cbn [type direct_communication key sequence random_salt datasize].
    by rewrite !(le_bytes_le_val' 1), hton_ntoh_le_val by auto.
Qed.

End pack_facts.

Module leveldb_pack_facts.
Import leveldb_pack.

Lemma leveldb_length_dump h : wf_header h -> length (dump h) = bytesize.
Proof. intros []. unfold dump. len. rewrite wf_uuid0, wf_salt0. done. Qed.

Lemma leveldb_parse_dump_app h rest : wf_header h -> parse (dump h ++ rest) = Some h.
Proof.
  intros []. unfold dump, parse. rewrite <- !(assoc_L (++)).
  repeat (rewrite read_n_app by (rewrite ?length_le_bytes; done); cbn [mbind option_bind]).
  destruct (leveldb_hton_eq 2), (leveldb_hton_eq 4); auto.
  rewrite H, H0, H1, H2, !le_val_le_small by (done || apply bswap_range).
  rewrite !ntoh_hton by (done || auto). by destruct h.
Qed.

Lemma leveldb_dump_parse b : length b = bytesize ->
  exists h, parse b = Some h /\ wf_header h /\ dump h = b.
Proof.
  intros Hb. change bytesize with (2 + (32 + (4 + (2 + (4 + (4 + 4))))))%nat in Hb.
  apply length_split in Hb as (b1 & r & -> & H1 & Hr).
  repeat (apply length_split in Hr as (? & ? & -> & ? & Hr)).
  unfold parse.
  repeat (rewrite read_n_app by done; cbn [mbind option_bind]).
  rewrite read_n_all by done; cbn [mbind option_bind].
  destruct (leveldb_hton_eq 2) as [E1 E2], (leveldb_hton_eq 4) as [E3 E4]; auto.
  rewrite E2, E4. eexists. split; [done|]. split.
  - split; first [done | by apply (le_val_range_n 1) | by apply (le_val_range_n 2)
                 | apply (bswap_range 4) | apply (bswap_range 2)].
  - unfold dump. cbn [type uuid blockid position datasize version salt].
    rewrite E1, E3, !hton_ntoh_le_val by auto.
    by rewrite (le_bytes_le_val' 2) by done.
Qed.

End leveldb_pack_facts.

(** ** Properties *)

(** What a reader does with a stream: a header of fixed size, then [datasize] bytes. *)
Definition read_pack (b : bytes) : option (pack.packet * bytes) :=
  '(hb, b) ← read_n pack.bytesize b;
  h ← pack.parse hb;
  '(body, b) ← read_n (Z.to_nat h.(pack.datasize)) b;
  data ← pack.parse_data (length body) body;
  Some (pack.mk_packet h data, b).

Definition read_leveldb (b : bytes) : option (leveldb_pack.packet * bytes) :=
  '(hb, b) ← read_n leveldb_pack.bytesize b;
  h ← leveldb_pack.parse hb;
  '(body, b) ← read_n (Z.to_nat h.(leveldb_pack.datasize)) b;
  Some (leveldb_pack.mk_packet h body, b).

Lemma read_pack_app p rest : pack.wf_header p.(pack.header) -> Z.of_nat (length p.(pack.data)) < 2 ^ 32 ->
  read_pack ((pack.serialize p).2 ++ rest) = Some ((pack.serialize p).1, rest).
Proof.
  destruct p as [h d]. intros Hh Hd. cbn [pack.header pack.data] in *.
  unfold pack.serialize, read_pack. cbn [fst snd pack.header pack.data].
  rewrite (wrap_small 4) by (change (modulus 4) with (2 ^ 32); lia).
  set (h' := pack.set_datasize _ h).
  assert (pack.wf_header h') as Hh' by (destruct Hh; split; cbn; try done; lia).
  rewrite <- (assoc_L (++)), read_n_app by (by apply pack_facts.length_dump).
  cbn [mbind option_bind]. rewrite <- (app_nil_r (pack.dump h')), pack_facts.parse_dump_app by done.
  cbn [mbind option_bind]. rewrite read_n_app by (cbn; lia). cbn [mbind option_bind].
  unfold pack.parse_data. by rewrite read_n_all.
Qed.

(** The packets of a stream, one after the other. *)
Fixpoint read_packs (n : nat) (b : bytes) : option (list pack.packet * bytes) :=
  match n with
  | O => Some ([], b)
  | S n => '(p, b) ← read_pack b; '(ps, b) ← read_packs n b; Some (p :: ps, b)
  end.

Lemma read_packs_concat ps rest :
  Forall (fun p => pack.wf_header p.(pack.header) /\ Z.of_nat (length p.(pack.data)) < 2 ^ 32) ps ->
  read_packs (length ps) (concat ((fun p => (pack.serialize p).2) <$> ps) ++ rest)
  = Some ((fun p => (pack.serialize p).1) <$> ps, rest).
Proof.
  induction ps as [|p ps IH]; intros H; [done|]. apply Forall_cons in H as [[Hh Hd] H].
  cbn [length read_packs fmap list_fmap concat]. rewrite <- (assoc_L (++)), read_pack_app by done.
  cbn [mbind option_bind]. by rewrite IH.
Qed.

(** Proxy packets survive the wire: whatever follows it in the stream, a
    serialized packet is read back whole, with its payload size in the header, and
    the rest of the stream is left; and every 46-byte string is the image of a
    well-formed header. *)
Theorem pack_roundtrip :
  (forall p rest, pack.wf_header p.(pack.header) -> Z.of_nat (length p.(pack.data)) < 2 ^ 32 ->
     read_pack ((pack.serialize p).2 ++ rest) = Some ((pack.serialize p).1, rest)) /\
  (forall b, length b = pack.bytesize ->
     exists h, pack.parse b = Some h /\ pack.wf_header h /\ pack.dump h = b).
Proof.
  split; [intros; by apply read_pack_app|apply pack_facts.dump_parse].
Qed.

(** Block store packets survive the wire likewise. *)
Theorem leveldb_roundtrip :
  (forall p rest, leveldb_pack.wf_header p.(leveldb_pack.header) ->
     Z.of_nat (length p.(leveldb_pack.data)) < 2 ^ 32 ->
     read_leveldb ((leveldb_pack.serialize p).2 ++ rest)
     = Some ((leveldb_pack.serialize p).1, rest)) /\
  (forall b, length b = leveldb_pack.bytesize ->
     exists h, leveldb_pack.parse b = Some h /\ leveldb_pack.wf_header h /\
               leveldb_pack.dump h = b).
Proof.
  split; [|apply leveldb_pack_facts.leveldb_dump_parse].
  intros [h d] rest Hh Hd. cbn [leveldb_pack.header leveldb_pack.data] in *.
  unfold leveldb_pack.serialize, read_leveldb. cbn [fst snd leveldb_pack.header leveldb_pack.data].
  rewrite (wrap_small 4) by (change (modulus 4) with (2 ^ 32); lia).
  set (h' := leveldb_pack.set_datasize _ h).
  assert (leveldb_pack.wf_header h') as Hh' by (destruct Hh; split; cbn; try done; lia).
  rewrite <- (assoc_L (++)), read_n_app by (by apply leveldb_pack_facts.leveldb_length_dump).
  cbn [mbind option_bind].
  rewrite <- (app_nil_r (leveldb_pack.dump h')), leveldb_pack_facts.leveldb_parse_dump_app by done.
  cbn [mbind option_bind]. by rewrite read_n_app by (cbn; lia).
Qed.

(** The byte order conversions are what their names say at every width: the
    two-halves [htonll] is the eight-byte reversal, [hton] writes the big-endian
    image, and [ntoh] undoes [hton]. *)
Theorem byte_order n z (Hn : (n = 1 \/ n = 2 \/ n = 4 \/ n = 8)%nat) (Hz : 0 <= z < modulus n) :
  le_bytes n (hton n z) = be_bytes n z /\ ntoh n (hton n z) = z.
Proof.
  split; [|by apply ntoh_hton]. rewrite hton_bswap by done. apply le_bytes_bswap.
Qed.

Lemma byte_order_witness :
  le_bytes 8 (hton 8 0x0102030405060708) = [x01; x02; x03; x04; x05; x06; x07; x08].
Proof.
  destruct (byte_order 8 0x0102030405060708) as [-> _]; [auto|done|]. reflexivity.
Defined.
