(* ===== verification/KvLog.v ===== *)
(** * The key-value store interface and the two-phase-commit log

    The block store keeps two LevelDB databases: the blocks, and the
    [persistent_log] of [ssbd/persistent-log.hpp] that records, for every block
    key, the committed version, the version of the pending prepare and its data.
    LevelDB itself is the class [KVStore]; every operation of [persistent_log] is
    a function of the store it is given. *)
From Stdlib Require Import ZArith Lia.
From stdpp Require Import base tactics option list gmap strings.
From S2P Require Import Prelude.

(** ** LevelDB as an interface *)

(** [db_get] is [None] when the status of [Get] is not [ok] (the code treats a
    missing key and a failed read alike); the code ignores the status of [Put]. *)
Class KVStore (D : Type) := {
  db_get : bytes -> D -> option bytes;
  db_put : bytes -> bytes -> D -> D
}.

(** What the code relies on: a value put under a key is the one got, and no other
    key changes. *)
Class KVLaws (D : Type) `{KVStore D} := {
  db_get_put : forall k v d, db_get k (db_put k v d) = Some v;
  db_get_put_ne : forall k k' v d, k <> k' -> db_get k (db_put k' v d) = db_get k d
}.

#[global] Instance gmap_kvstore : KVStore (gmap bytes bytes) := {
  db_get := fun k d => d !! k;
  db_put := fun k v d => <[k := v]> d
}.

#[global] Instance gmap_kvlaws : KVLaws (gmap bytes bytes).
Proof.
  split; intros; simpl; [apply lookup_insert_eq | by apply lookup_insert_ne].
Qed.

(** *** Stores are compared by what they answer *)
Section equivalence.
Context {D : Type} `{KVLaws D}.

#[global] Instance db_equiv : Equiv D := fun d1 d2 => forall k, db_get k d1 = db_get k d2.

#[global] Instance db_equiv_equivalence : Equivalence (≡@{D}).
Proof.
  split.
  - intros d k. done.
  - intros d1 d2 E k. by rewrite (E k).
  - intros d1 d2 d3 E1 E2 k. by rewrite (E1 k).
Qed.

#[global] Instance db_get_proper k : Proper ((≡) ==> (=)) (db_get (D := D) k).
Proof. intros d1 d2 E. apply E. Qed.

#[global] Instance db_put_proper k v : Proper ((≡) ==> (≡)) (db_put (D := D) k v).
Proof.
  intros d1 d2 E k'. destruct (decide (k' = k)) as [->|Hk].
  - by rewrite !db_get_put.
  - rewrite !db_get_put_ne by done. apply E.
Qed.

Lemma db_put_put k v v' (d : D) : db_put k v (db_put k v' d) ≡ db_put k v d.
Proof.
  intros k'. destruct (decide (k' = k)) as [->|Hk].
  - by rewrite !db_get_put.
  - by rewrite !db_get_put_ne.
Qed.

Lemma db_put_swap k k' v v' (d : D) : k <> k' ->
  db_put k v (db_put k' v' d) ≡ db_put k' v' (db_put k v d).
Proof.
  intros Hk x. destruct (decide (x = k)) as [Hx|Hx], (decide (x = k')) as [Hx'|Hx'];
    subst; repeat first [rewrite db_get_put | rewrite db_get_put_ne by congruence]; congruence.
Qed.

End equivalence.

(** ** [class persistent_log] *)

Module persistent_log.
Section ops.
Context {D : Type} `{KVStore D}.

Definition commit_version_key (key : bytes) : bytes := key ++ lit "-committed-version"%string.
Definition version_key (key : bytes) : bytes := key ++ lit "-version"%string.
Definition log_key (key : bytes) : bytes := key ++ lit "-data"%string.

(** The common body of the two version readers: an absent or empty value is 0, a
    value [stoll] throws on is overwritten with ["0"], and a number is narrowed to
    [versionint_t]. *)
Definition get_version (k : bytes) : St D Z := fun d =>
  let buffer := default [] (db_get k d) in
  match buffer with
  | [] => (0, d)
  | _ => match stoll buffer with
         | Some v => (u32 v, d)
         | None => (0, db_put k (lit "0"%string) d)
         end
  end.

Definition get_committed_version (key : bytes) : St D Z := get_version (commit_version_key key).

Definition put_committed_version (key : bytes) (version : Z) : St D unit := fun d =>
  (tt, db_put (commit_version_key key) (to_string version) d).

Definition put_pending_prepare (key value : bytes) (version : Z) : St D unit := fun d =>
  let d := db_put (version_key key) (to_string version) d in
  (tt, db_put (log_key key) value d).

Definition get_pending_prepare_data (key : bytes) : St D bytes := fun d =>
  (default [] (db_get (log_key key) d), d).

Definition get_pending_prepare_version (key : bytes) : St D Z := get_version (version_key key).

(** [commit_pending_prepare] also writes the block database; it is the second
    component of the state. *)
Definition commit_pending_prepare (key : bytes) (d : D) (save_dest : D) : D * D :=
  let '(value, d) := get_pending_prepare_data key d in
  let '(version, d) := get_pending_prepare_version key d in
  let '(_, d) := put_committed_version key version d in
  (d, db_put key value save_dest).

(** [||] does not evaluate its right operand when the left one holds. *)
Definition have_pending_log (key : bytes) : St D bool :=
  let! p := get_pending_prepare_version key in
  let! c := get_committed_version key in
  if p =? c then st_ret false
  else let! p' := get_pending_prepare_version key in st_ret (negb (p' =? 0)).

End ops.
End persistent_log.

(** ** What a block's log says *)

Section log_view.
Context {D : Type} `{KVLaws D}.
Import persistent_log.

(** The version a key stands for, without the repair the readers make. *)
Definition version_at (k : bytes) (d : D) : Z :=
  match default [] (db_get k d) with
  | [] => 0
  | b => match stoll b with Some v => u32 v | None => 0 end
  end.

Lemma get_version_value k d : (get_version k d).1 = version_at k d.
Proof. unfold get_version, version_at. repeat case_match; done. Qed.

(** The readers leave every version they could be asked for as it was... *)
Lemma get_version_version_at k k' d : version_at k' (get_version k d).2 = version_at k' d.
Proof.
  unfold get_version. destruct (default [] (db_get k d)) as [|x b] eqn:E; [done|].
  destruct (stoll (x :: b)) eqn:Es; simpl; [done|].
  unfold version_at. destruct (decide (k' = k)) as [->|Hk].
  - rewrite db_get_put, E, Es. done.
  - by rewrite db_get_put_ne.
Qed.

(** ... and every other key untouched. *)
Lemma get_version_other k k' d : k' <> k -> db_get k' (get_version k d).2 = db_get k' d.
Proof. intros Hk. unfold get_version. repeat case_match; simpl; by rewrite ?db_get_put_ne. Qed.

Lemma version_at_put k v d : 0 <= v < 2 ^ 32 -> version_at k (db_put k (to_string v) d) = v.
Proof.
  intros Hv. unfold version_at. rewrite db_get_put. simpl default.
  destruct (to_string_cons v) as (x & r & E). rewrite E, <- E.
  rewrite stoll_to_string by lia. by apply wrap_small.
Qed.

Lemma version_at_put_ne k k' v d : k <> k' -> version_at k (db_put k' v d) = version_at k d.
Proof. intros. unfold version_at. by rewrite db_get_put_ne. Qed.

Lemma version_at_range k d : 0 <= version_at k d < 2 ^ 32.
Proof. unfold version_at. repeat case_match; try lia; apply wrap_range. Qed.

#[global] Instance version_at_proper k : Proper ((≡) ==> (=)) (version_at k).
Proof. intros d1 d2 E. unfold version_at. by rewrite (E k). Qed.

(** The three keys of a block are different. *)
Lemma log_keys_distinct key :
  commit_version_key key <> version_key key /\
  commit_version_key key <> log_key key /\ version_key key <> log_key key.
Proof. split_and!; intros E%app_inv_head; discriminate. Qed.

End log_view.

#[export] Hint Rewrite @get_version_value @get_version_version_at : slsfs_log.
