(* ===== verification/Request.v ===== *)
(** * The request header and metadata records ([libslsfs/slsfs/json-replacement.hpp])

    The structures the system copies to and from packet payloads with [memcpy]: the
    records hold the integers as the host does, [to_network_format] and
    [to_host_format] swap them, and [store_*]/[load_*] are the memory image on the
    x86-64 ABI.  Padding bytes, which the code leaves indeterminate, are zero. *)
From Stdlib Require Import ZArith Lia.
From stdpp Require Import base tactics option list gmap strings.
From S2P Require Import Prelude Wire.

Definition file_name_length : nat := 34.
Definition key_length : nat := 32.

(** ** Enumerations *)
Inductive type_t := file | metadata | wakeup | storagetest.
Inductive operation_t := write | read.
Inductive meta_operation_t :=
| init | addfile | ls | mkdir | deletefile | rename_sameproxy | addfile_write
| open | close | getstatfile | getstatdir.

#[global] Instance type_t_eq_dec : EqDecision type_t.
Proof. solve_decision. Defined.
#[global] Instance operation_t_eq_dec : EqDecision operation_t.
Proof. solve_decision. Defined.
#[global] Instance meta_operation_t_eq_dec : EqDecision meta_operation_t.
Proof. solve_decision. Defined.

Definition type_code (t : type_t) : Z :=
  match t with file => 0 | metadata => 1 | wakeup => 2 | storagetest => 3 end.
Definition operation_code (o : operation_t) : Z :=
  match o with write => 0 | read => 1 end.
Definition meta_operation_code (o : meta_operation_t) : Z :=
  match o with
  | init => 0 | addfile => 1 | ls => 2 | mkdir => 3 | deletefile => 4
  | rename_sameproxy => 5 | addfile_write => 6 | open => 7 | close => 8
  | getstatfile => 9 | getstatdir => 10
  end.

(** The enumerator of a raw byte, for the [switch]es that have no default. *)
Definition type_of_code (z : Z) : option type_t :=
  match z with 0 => Some file | 1 => Some metadata | 2 => Some wakeup | 3 => Some storagetest
  | _ => None end.
Definition operation_of_code (z : Z) : option operation_t :=
  match z with 0 => Some write | 1 => Some read | _ => None end.
Definition meta_operation_of_code (z : Z) : option meta_operation_t :=
  match z with
  | 0 => Some init | 1 => Some addfile | 2 => Some ls | 3 => Some mkdir | 4 => Some deletefile
  | 5 => Some rename_sameproxy | 6 => Some addfile_write | 7 => Some open | 8 => Some close
  | 9 => Some getstatfile | 10 => Some getstatdir | _ => None
  end.

Lemma type_of_code_code t : type_of_code (type_code t) = Some t.
Proof. by destruct t. Qed.
Lemma operation_of_code_code t : operation_of_code (operation_code t) = Some t.
Proof. by destruct t. Qed.
Lemma meta_operation_of_code_code t : meta_operation_of_code (meta_operation_code t) = Some t.
Proof. by destruct t. Qed.

(** ** Metadata records *)
Module meta.

Record filemeta_server := mk_filemeta_server {
  owner : Z; permission : Z; file_size : Z;
  creation_time : Z; modification_time : Z; file_name : bytes
}.

#[global] Instance filemeta_server_eq_dec : EqDecision filemeta_server.
Proof. solve_decision. Defined.

Definition sizeof_filemeta_server : nat := 64.

Definition to_network_format (m : filemeta_server) : filemeta_server :=
  mk_filemeta_server (hton 2 m.(owner)) (hton 2 m.(permission)) (hton 2 m.(file_size))
    (hton 8 m.(creation_time)) (hton 8 m.(modification_time)) m.(file_name).

Definition to_host_format (m : filemeta_server) : filemeta_server :=
  mk_filemeta_server (ntoh 2 m.(owner)) (ntoh 2 m.(permission)) (ntoh 2 m.(file_size))
    (ntoh 8 m.(creation_time)) (ntoh 8 m.(modification_time)) m.(file_name).

Definition store_filemeta_server (m : filemeta_server) : bytes :=
  le_bytes 2 m.(owner) ++ le_bytes 2 m.(permission) ++ le_bytes 2 m.(file_size)
  ++ replicate 2 x00 ++ le_bytes 8 m.(creation_time) ++ le_bytes 8 m.(modification_time)
  ++ m.(file_name) ++ replicate 6 x00.

Definition load_filemeta_server (b : bytes) : option filemeta_server :=
  '(o, b) ← read_n 2 b;
  '(p, b) ← read_n 2 b;
  '(s, b) ← read_n 2 b;
  '(_, b) ← read_n 2 b;
  '(c, b) ← read_n 8 b;
  '(m, b) ← read_n 8 b;
  '(n, b) ← read_n file_name_length b;
  '(_, b) ← read_n 6 b;
  Some (mk_filemeta_server (le_val o) (le_val p) (le_val s) (le_val c) (le_val m) n).

Record wf_filemeta_server (m : filemeta_server) : Prop := {
  wf_owner : 0 <= m.(owner) < 2 ^ 16;
  wf_permission : 0 <= m.(permission) < 2 ^ 16;
  wf_file_size : 0 <= m.(file_size) < 2 ^ 16;
  wf_creation_time : 0 <= m.(creation_time) < 2 ^ 64;
  wf_modification_time : 0 <= m.(modification_time) < 2 ^ 64;
  wf_file_name : length m.(file_name) = file_name_length
}.

(** [stats] heads a directory; the rest of its 64 bytes is never initialised. *)
Record stats := mk_stats { file_count : Z; reserved : bytes }.

Definition stats_to_network (s : stats) : stats := mk_stats (hton 4 s.(file_count)) s.(reserved).
Definition stats_to_host (s : stats) : stats := mk_stats (ntoh 4 s.(file_count)) s.(reserved).

Definition store_stats (s : stats) : bytes := le_bytes 4 s.(file_count) ++ s.(reserved).

Definition load_stats (b : bytes) : option stats :=
  '(c, b) ← read_n 4 b;
  '(r, b) ← read_n 60 b;
  Some (mk_stats (le_val c) r).

(** [filemeta] and [dirmeta] have the same fields. *)
Record filemeta := mk_filemeta { fm_owner : Z; fm_permission : Z }.

Definition filemeta_to_network (m : filemeta) : filemeta :=
  mk_filemeta (hton 2 m.(fm_owner)) (hton 2 m.(fm_permission)).
Definition filemeta_to_host (m : filemeta) : filemeta :=
  mk_filemeta (ntoh 2 m.(fm_owner)) (ntoh 2 m.(fm_permission)).

Definition store_filemeta (m : filemeta) : bytes :=
  le_bytes 2 m.(fm_owner) ++ le_bytes 2 m.(fm_permission).

Definition load_filemeta (b : bytes) : option filemeta :=
  '(o, b) ← read_n 2 b;
  '(p, b) ← read_n 2 b;
  Some (mk_filemeta (le_val o) (le_val p)).

Record dirmeta := mk_dirmeta { dm_owner : Z; dm_permission : Z }.

Definition dirmeta_to_network (m : dirmeta) : dirmeta :=
  mk_dirmeta (hton 2 m.(dm_owner)) (hton 2 m.(dm_permission)).
Definition dirmeta_to_host (m : dirmeta) : dirmeta :=
  mk_dirmeta (ntoh 2 m.(dm_owner)) (ntoh 2 m.(dm_permission)).

Definition store_dirmeta (m : dirmeta) : bytes :=
  le_bytes 2 m.(dm_owner) ++ le_bytes 2 m.(dm_permission).

Definition load_dirmeta (b : bytes) : option dirmeta :=
  '(o, b) ← read_n 2 b;
  '(p, b) ← read_n 2 b;
  Some (mk_dirmeta (le_val o) (le_val p)).

Record rename_info := mk_rename_info {
  new_file_key : bytes; file_parent_key : bytes; new_file_name : bytes
}.

Definition sizeof_rename_info : nat := 98.

Definition store_rename_info (r : rename_info) : bytes :=
  r.(new_file_key) ++ r.(file_parent_key) ++ r.(new_file_name).

Definition load_rename_info (b : bytes) : option rename_info :=
  '(k, b) ← read_n key_length b;
  '(p, b) ← read_n key_length b;
  '(n, b) ← read_n file_name_length b;
  Some (mk_rename_info k p n).

End meta.

(** ** The request header *)
Record request := mk_request {
  r_type : Z; r_operation : Z; r_position : Z; r_size : Z;
  r_file_name : bytes; r_file_key : bytes
}.

Definition sizeof_request : nat := 80.

Definition request_to_network (r : request) : request :=
  mk_request (hton 1 r.(r_type)) (hton 1 r.(r_operation)) (hton 4 r.(r_position))
    (hton 4 r.(r_size)) r.(r_file_name) r.(r_file_key).

Definition request_to_host (r : request) : request :=
  mk_request (ntoh 1 r.(r_type)) (ntoh 1 r.(r_operation)) (ntoh 4 r.(r_position))
    (ntoh 4 r.(r_size)) r.(r_file_name) r.(r_file_key).

Definition store_request (r : request) : bytes :=
  le_bytes 1 r.(r_type) ++ le_bytes 1 r.(r_operation) ++ replicate 2 x00
  ++ le_bytes 4 r.(r_position) ++ le_bytes 4 r.(r_size)
  ++ r.(r_file_name) ++ r.(r_file_key) ++ replicate 2 x00.

Record wf_request_header (r : request) : Prop := {
  wf_r_type : 0 <= r.(r_type) < 256;
  wf_r_operation : 0 <= r.(r_operation) < 256;
  wf_r_position : 0 <= r.(r_position) < 2 ^ 32;
  wf_r_size : 0 <= r.(r_size) < 2 ^ 32;
  wf_r_file_name : length r.(r_file_name) = file_name_length;
  wf_r_file_key : length r.(r_file_key) = key_length
}.

(** ** [request_parser]: accessors into the payload [refdata] of a packet; a read
    past the end of the payload is [None]. *)
Module request_parser.

Definition type (refdata : bytes) : option Z :=
  t ← mem_get 0 1 refdata; Some (ntoh 1 (le_val t)).
Definition operation (refdata : bytes) : option Z :=
  op ← mem_get 1 1 refdata; Some (ntoh 1 (le_val op)).
Definition meta_operation (refdata : bytes) : option Z := operation refdata.
Definition position (refdata : bytes) : option Z :=
  pos ← mem_get 4 4 refdata; Some (ntoh 4 (le_val pos)).
Definition size (refdata : bytes) : option Z :=
  s ← mem_get 8 4 refdata; Some (ntoh 4 (le_val s)).
Definition data (refdata : bytes) : bytes := drop sizeof_request refdata.

(** [strnlen] stops at a NUL or after 34 bytes, whichever comes first. *)
Definition file_name (refdata : bytes) : option bytes :=
  let avail := take file_name_length (drop 12 refdata) in
  if decide (length avail = file_name_length \/ x00 ∈ avail) then Some (until_nul avail) else None.

Definition file_key (refdata : bytes) : option bytes := mem_get 46 key_length refdata.

Definition uuid (p : pack.packet) : bytes := p.(pack.header).(pack.key).

(** [copy_request] names four members; the other two take their initialisers. *)
Definition copy_request (refdata : bytes) : option request :=
  t ← type refdata; op ← operation refdata; pos ← position refdata; s ← size refdata;
  Some (mk_request t op pos s (replicate file_name_length x00) (replicate key_length x00)).

End request_parser.

(** ** Lemmas *)

Lemma hton_range n z : (n = 2 \/ n = 4 \/ n = 8)%nat -> 0 <= z < modulus n -> 0 <= hton n z < modulus n.
Proof. intros Hn Hz. rewrite hton_bswap by tauto. apply bswap_range. Qed.

Lemma ntoh_le_hton n z : (n = 1 \/ n = 2 \/ n = 4 \/ n = 8)%nat -> 0 <= z < modulus n ->
  ntoh n (le_val (le_bytes n (hton n z))) = z.
Proof.
  intros Hn Hz. rewrite le_val_le_small; [by apply ntoh_hton|].
  rewrite hton_bswap by done. apply bswap_range.
Qed.

#[export] Hint Rewrite length_le_bytes @length_app @length_replicate : slsfs_len.

Lemma length_store_filemeta_server m : length m.(meta.file_name) = file_name_length ->
  length (meta.store_filemeta_server m) = meta.sizeof_filemeta_server.
Proof. intros Hn. unfold meta.store_filemeta_server. len. by rewrite Hn. Qed.

(** Unfolds one loader on the image of a record, field by field. *)
Ltac load_fields :=
  rewrite <- ?(assoc_L (++));
  repeat (rewrite read_n_app by (by rewrite ?length_le_bytes, ?length_replicate);
          cbn [mbind option_bind]).

(** A record is read back from its image by the loader and the byte swap. *)
Lemma load_store_filemeta_server m rest : meta.wf_filemeta_server m ->
  meta.to_host_format <$>
    meta.load_filemeta_server (meta.store_filemeta_server (meta.to_network_format m) ++ rest)
  = Some m.
Proof.
  intros []. destruct m. cbn [meta.owner meta.permission meta.file_size meta.creation_time
    meta.modification_time meta.file_name] in *.
  unfold meta.load_filemeta_server, meta.store_filemeta_server. load_fields.
  cbn [fmap option_fmap option_map]. unfold meta.to_host_format, meta.to_network_format.
  cbn [meta.owner meta.permission meta.file_size meta.creation_time
    meta.modification_time meta.file_name].
  by rewrite !ntoh_le_hton by auto.
Qed.

Lemma load_store_stats st rest : 0 <= st.(meta.file_count) < 2 ^ 32 ->
  length st.(meta.reserved) = 60%nat ->
  meta.stats_to_host <$> meta.load_stats (meta.store_stats (meta.stats_to_network st) ++ rest)
  = Some st.
Proof.
  intros. destruct st. cbn [meta.file_count meta.reserved] in *.
  unfold meta.load_stats, meta.store_stats. load_fields. cbn [fmap option_fmap option_map].
  unfold meta.stats_to_host. cbn [meta.file_count meta.reserved meta.stats_to_network].
  by rewrite ntoh_le_hton by auto.
Qed.

Lemma length_store_stats st : length st.(meta.reserved) = 60%nat ->
  length (meta.store_stats st) = meta.sizeof_filemeta_server.
Proof. intros Hr. unfold meta.store_stats. len. by rewrite Hr. Qed.

Lemma load_store_filemeta m rest : 0 <= m.(meta.fm_owner) < 2 ^ 16 ->
  0 <= m.(meta.fm_permission) < 2 ^ 16 ->
  meta.filemeta_to_host <$> meta.load_filemeta (meta.store_filemeta (meta.filemeta_to_network m) ++ rest)
  = Some m.
Proof.
  intros. destruct m. cbn [meta.fm_owner meta.fm_permission] in *.
  unfold meta.load_filemeta, meta.store_filemeta. load_fields. cbn [fmap option_fmap option_map].
  unfold meta.filemeta_to_host. cbn [meta.fm_owner meta.fm_permission meta.filemeta_to_network].
  by rewrite !ntoh_le_hton by auto.
Qed.

Lemma load_store_dirmeta m rest : 0 <= m.(meta.dm_owner) < 2 ^ 16 ->
  0 <= m.(meta.dm_permission) < 2 ^ 16 ->
  meta.dirmeta_to_host <$> meta.load_dirmeta (meta.store_dirmeta (meta.dirmeta_to_network m) ++ rest)
  = Some m.
Proof.
  intros. destruct m. cbn [meta.dm_owner meta.dm_permission] in *.
  unfold meta.load_dirmeta, meta.store_dirmeta. load_fields. cbn [fmap option_fmap option_map].
  unfold meta.dirmeta_to_host. cbn [meta.dm_owner meta.dm_permission meta.dirmeta_to_network].
  by rewrite !ntoh_le_hton by auto.
Qed.

Lemma load_store_rename_info r rest : length r.(meta.new_file_key) = key_length ->
  length r.(meta.file_parent_key) = key_length -> length r.(meta.new_file_name) = file_name_length ->
  meta.load_rename_info (meta.store_rename_info r ++ rest) = Some r.
Proof.
  intros. destruct r. cbn [meta.new_file_key meta.file_parent_key meta.new_file_name] in *.
  unfold meta.load_rename_info, meta.store_rename_info. by load_fields.
Qed.

Lemma length_store_request r : wf_request_header r -> length (store_request r) = sizeof_request.
Proof. intros []. unfold store_request. len. by rewrite wf_r_file_name0, wf_r_file_key0. Qed.

(** Reading a field that follows a prefix of known length. *)
Lemma mem_get_field a f r n : length f = n -> mem_get (length a) n (a ++ f ++ r) = Some f.
Proof.
  intros Hf. rewrite mem_get_app_r, Nat.sub_diag by lia. by apply mem_get_app_exact.
Qed.

(** The image of a request as a packet payload. *)
Lemma store_request_app r d : store_request r ++ d
  = le_bytes 1 r.(r_type) ++ le_bytes 1 r.(r_operation) ++ replicate 2 x00
    ++ le_bytes 4 r.(r_position) ++ le_bytes 4 r.(r_size)
    ++ r.(r_file_name) ++ r.(r_file_key) ++ replicate 2 x00 ++ d.
Proof. unfold store_request. by rewrite <- !(assoc_L (++)). Qed.

(** [mem_get] at a constant offset into a concatenation of fields of known length. *)
Ltac mem_field :=
  repeat (rewrite mem_get_app_r by (rewrite ?length_le_bytes, ?length_replicate; simpl; lia);
          rewrite ?length_le_bytes, ?length_replicate; cbn [Nat.sub]);
  apply mem_get_app_exact; rewrite ?length_le_bytes; done.

Section parser.
Import request_parser.
Variables (r : request) (d : bytes).
Hypothesis Hwf : wf_request_header r.
Let payload := store_request (request_to_network r) ++ d.

Lemma parser_type : type payload = Some r.(r_type).
Proof.
  unfold payload, type. rewrite store_request_app.
  assert (mem_get 0 1 _ = Some _) as -> by mem_field.
  cbn [mbind option_bind request_to_network r_type]. by rewrite ntoh_le_hton by (auto; apply Hwf).
Qed.

Lemma parser_operation : operation payload = Some r.(r_operation).
Proof.
  unfold payload, operation. rewrite store_request_app.
  assert (mem_get 1 1 _ = Some _) as -> by mem_field.
  cbn [mbind option_bind request_to_network r_operation]. by rewrite ntoh_le_hton by (auto; apply Hwf).
Qed.

Lemma parser_position : position payload = Some r.(r_position).
Proof.
  unfold payload, position. rewrite store_request_app.
  assert (mem_get 4 4 _ = Some _) as -> by mem_field.
  cbn [mbind option_bind request_to_network r_position]. by rewrite ntoh_le_hton by (auto; apply Hwf).
Qed.

Lemma parser_size : size payload = Some r.(r_size).
Proof.
  unfold payload, size. rewrite store_request_app.
  assert (mem_get 8 4 _ = Some _) as -> by mem_field.
  cbn [mbind option_bind request_to_network r_size]. by rewrite ntoh_le_hton by (auto; apply Hwf).
Qed.

Lemma parser_data : data payload = d.
Proof.
  unfold payload, data. rewrite drop_app_length'; [done|].
  symmetry. apply length_store_request. destruct Hwf.
  split; cbn [request_to_network r_type r_operation r_position r_size r_file_name r_file_key]; try done.
  - apply hton_range; auto.
  - apply hton_range; auto.
Qed.

Lemma parser_file_name : file_name payload = Some (until_nul r.(r_file_name)).
Proof.
  unfold payload, file_name. rewrite store_request_app.
  destruct Hwf as [_ _ _ _ Hn Hk]. cbn [request_to_network r_type r_operation r_position r_size r_file_name r_file_key].
  repeat (rewrite drop_app_ge by (rewrite ?length_le_bytes, ?length_replicate; lia);
          rewrite ?length_le_bytes, ?length_replicate; cbn [Nat.sub]).
  rewrite drop_0, take_app_length' by done. by rewrite decide_True by auto.
Qed.

Lemma parser_file_key : file_key payload = Some r.(r_file_key).
Proof.
  unfold payload, file_key. rewrite store_request_app.
  destruct Hwf as [_ _ _ _ Hn Hk]. cbn [request_to_network r_type r_operation r_position r_size r_file_name r_file_key].
  do 5 (rewrite mem_get_app_r by (rewrite ?length_le_bytes, ?length_replicate; lia);
          rewrite ?length_le_bytes, ?length_replicate; cbn [Nat.sub]).
  rewrite mem_get_app_r, Hn by (rewrite Hn; unfold file_name_length; lia).
  by apply mem_get_app_exact.
Qed.

End parser.

(** ** Properties *)

(** A worker reads back every field of the request a client stored at the head
    of a payload - the file name up to its first NUL - and finds the payload proper
    behind it; [copy_request] keeps the four scalar fields but not the file name and
    the file key. *)
Theorem request_roundtrip (r : request) (d : bytes) (Hwf : wf_request_header r) :
  let payload := store_request (request_to_network r) ++ d in
  request_parser.type payload = Some r.(r_type) /\
  request_parser.operation payload = Some r.(r_operation) /\
  request_parser.position payload = Some r.(r_position) /\
  request_parser.size payload = Some r.(r_size) /\
  request_parser.file_name payload = Some (until_nul r.(r_file_name)) /\
  request_parser.file_key payload = Some r.(r_file_key) /\
  request_parser.data payload = d /\
  request_parser.copy_request payload
    = Some (mk_request r.(r_type) r.(r_operation) r.(r_position) r.(r_size)
              (replicate 34 x00) (replicate 32 x00)).
Proof.
  intros payload. subst payload. unfold request_parser.copy_request.
  rewrite parser_type, parser_operation, parser_position, parser_size, parser_file_name,
    parser_file_key, parser_data by done. done.
Qed.

Definition sample_request : request :=
  mk_request 1 7 258 5 (lit "name"%string ++ replicate 30 x00) (replicate 32 x61).

Lemma request_roundtrip_witness :
  request_parser.file_name (store_request (request_to_network sample_request) ++ [x41])
  = Some (lit "name"%string) /\
  request_parser.position (store_request (request_to_network sample_request) ++ [x41]) = Some 258.
Proof.
  assert (wf_request_header sample_request) as Hwf by (split; cbn; (done || lia)).
  destruct (request_roundtrip sample_request [x41] Hwf) as (_ & _ & -> & _ & -> & _).
  split; reflexivity.
Defined.

(** The metadata records survive storing in network order and loading back. *)
Theorem metadata_roundtrip :
  (forall m rest, meta.wf_filemeta_server m ->
     meta.to_host_format <$>
       meta.load_filemeta_server (meta.store_filemeta_server (meta.to_network_format m) ++ rest)
     = Some m) /\
  (forall st rest, 0 <= st.(meta.file_count) < 2 ^ 32 -> length st.(meta.reserved) = 60%nat ->
     meta.stats_to_host <$> meta.load_stats (meta.store_stats (meta.stats_to_network st) ++ rest)
     = Some st) /\
  (forall r rest, length r.(meta.new_file_key) = key_length ->
     length r.(meta.file_parent_key) = key_length -> length r.(meta.new_file_name) = file_name_length ->
     meta.load_rename_info (meta.store_rename_info r ++ rest) = Some r).
Proof.
  split_and!; [apply load_store_filemeta_server|apply load_store_stats|apply load_store_rename_info].
Qed.
