(* ===== verification/Stripe.v ===== *)
(** * Striping a byte range over blocks

    The loop that every operation of [storage_conf_ssbd_backend] runs over a range
    of a file ([currentpos], [blockid], [offset], [blockwritesize]), in 32-bit
    arithmetic; the pieces it makes tile the range; and the striped file, a map from
    block numbers to blocks, read and written piece by piece, behaves as a flat
    sequence of bytes. *)
From Stdlib Require Import ZArith Lia.
From stdpp Require Import base tactics option list gmap.
From S2P Require Import Prelude.

Record chunk := mk_chunk {
  blockid : Z; offset : Z; buffer_pointer_offset : Z; blockwritesize : Z
}.

#[global] Instance chunk_eq_dec : EqDecision chunk.
Proof. solve_decision. Defined.

Section split.
Variable blocksize : Z.

Fixpoint split_loop (fuel : nat) (currentpos endpos bufoff : Z) : list chunk :=
  match fuel with
  | O => []
  | S fuel =>
      if currentpos <? endpos then
        let blockid := currentpos / blocksize in
        let offset := currentpos mod blocksize in
        let size := Z.min (u32 (endpos - currentpos)) (u32 (blocksize - offset)) in
        mk_chunk blockid offset bufoff size
        :: split_loop fuel (u32 (currentpos + size)) endpos (u32 (bufoff + size))
      else []
  end.

(** One piece per block touched, and one more step to see the end. *)
Definition split_fuel (currentpos endpos : Z) : nat :=
  Z.to_nat (endpos / blocksize - currentpos / blocksize + 2).

Definition split (position size : Z) : list chunk :=
  let endpos := u32 (position + size) in
  split_loop (split_fuel position endpos) position endpos 0.

(** The last piece decides [new_file_size] in [start_write]. *)
Definition new_file_size (position size : Z) : Z :=
  match last (split position size) with
  | Some c => u32 (u32 (c.(blockid) * blocksize) + c.(blockwritesize))
  | None => 0
  end.

(** Consecutive pieces: each lies inside one block, starts where the previous one
    ended, and only the last may stop short of the end of its block. *)
Fixpoint tiles (pos off : Z) (cs : list chunk) (endpos : Z) : Prop :=
  match cs with
  | [] => pos = endpos
  | c :: cs =>
      c.(blockid) * blocksize + c.(offset) = pos /\ 0 <= c.(blockid) /\
      c.(buffer_pointer_offset) = off /\
      0 <= c.(offset) /\ 0 < c.(blockwritesize) /\
      c.(offset) + c.(blockwritesize) <= blocksize /\
      (cs <> [] -> c.(offset) + c.(blockwritesize) = blocksize) /\
      tiles (pos + c.(blockwritesize)) (off + c.(blockwritesize)) cs endpos
  end.

Hypothesis Hbs : 0 < blocksize < 2 ^ 32.

Lemma split_loop_tiles fuel cur endpos off :
  0 <= cur <= endpos -> endpos < 2 ^ 32 -> 0 <= off <= cur ->
  (split_fuel cur endpos <= fuel)%nat -> tiles cur off (split_loop fuel cur endpos off) endpos.
Proof.
  revert cur off. induction fuel as [|fuel IH]; intros cur off Hc He Ho Hf; unfold split_fuel in Hf.
  { assert (cur / blocksize <= endpos / blocksize) by (apply Z.div_le_mono; lia). lia. }
  cbn [split_loop]. destruct (Z.ltb_spec cur endpos) as [Hlt|]; [|simpl; lia].
  pose proof (Z.mod_pos_bound cur blocksize ltac:(lia)) as Hm.
  pose proof (Z.div_mod cur blocksize ltac:(lia)) as Hdm.
  pose proof (Z.div_pos cur blocksize ltac:(lia) ltac:(lia)).
  set (b := cur / blocksize) in *. set (o := cur mod blocksize) in *.
  rewrite !(wrap_small 4) by (change (modulus 4) with (2 ^ 32); lia).
  set (n := Z.min (endpos - cur) (blocksize - o)).
  assert (n = endpos - cur \/ (n = blocksize - o /\ n < endpos - cur)) as Hn by lia.
  cbn [tiles blockid offset buffer_pointer_offset blockwritesize].
  split_and!; try lia.
  - destruct Hn as [Hn|[Hn _]]; [|lia]. intros []. destruct fuel; [done|]. cbn [split_loop].
    by destruct (Z.ltb_spec (cur + n) endpos); [lia|].
  - destruct Hn as [Hn|[Hn Hn']].
    + replace (cur + n) with endpos by lia. destruct fuel; cbn [split_loop]; [done|].
      by rewrite Z.ltb_irrefl.
    + apply IH; try lia. unfold split_fuel.
      replace (cur + n) with ((b + 1) * blocksize) by lia. rewrite Z.div_mul by lia. lia.
Qed.

(** More fuel changes nothing: the loop has ended. *)
Lemma split_loop_fuel fuel fuel' cur endpos off :
  0 <= cur <= endpos -> endpos < 2 ^ 32 -> 0 <= off <= cur ->
  (split_fuel cur endpos <= fuel)%nat -> (fuel <= fuel')%nat ->
  split_loop fuel' cur endpos off = split_loop fuel cur endpos off.
Proof.
  revert fuel' cur off. induction fuel as [|fuel IH]; intros fuel' cur off Hc He Ho Hf Hl;
    (assert (cur / blocksize <= endpos / blocksize) by (apply Z.div_le_mono; lia));
    [unfold split_fuel in Hf; lia|]; destruct fuel' as [|fuel']; [lia|].
  cbn [split_loop]. destruct (Z.ltb_spec cur endpos) as [Hlt|]; [|done].
  pose proof (Z.mod_pos_bound cur blocksize ltac:(lia)) as Hm.
  pose proof (Z.div_mod cur blocksize ltac:(lia)) as Hdm.
  pose proof (Z.div_pos cur blocksize ltac:(lia) ltac:(lia)).
  set (b := cur / blocksize) in *. set (o := cur mod blocksize) in *.
  rewrite !(wrap_small 4) by (change (modulus 4) with (2 ^ 32); lia).
  set (n := Z.min (endpos - cur) (blocksize - o)).
  assert (n = endpos - cur \/ (n = blocksize - o /\ n < endpos - cur)) as Hn by lia.
  f_equal. destruct Hn as [Hn|[Hn _]].
  - replace (cur + n) with endpos by lia. destruct fuel, fuel'; cbn [split_loop];
      by rewrite ?Z.ltb_irrefl.
  - apply IH; try lia. unfold split_fuel in *. replace (cur + n) with ((b + 1) * blocksize) by lia.
    rewrite Z.div_mul by lia. lia.
Qed.

Lemma split_tiles pos size : 0 <= pos -> 0 <= size -> pos + size < 2 ^ 32 ->
  tiles pos 0 (split pos size) (pos + size).
Proof.
  intros. unfold split. rewrite (wrap_small 4) by (change (modulus 4) with (2 ^ 32); lia).
  apply split_loop_tiles; lia.
Qed.

(** *** Consequences of tiling *)

Lemma tiles_total pos off cs endpos : tiles pos off cs endpos ->
  foldr (fun c n => c.(blockwritesize) + n) 0 cs = endpos - pos.
Proof.
  revert pos off. induction cs as [|c cs IH]; intros pos off; simpl; [lia|].
  intros (_ & _ & _ & _ & _ & _ & _ & Ht). apply IH in Ht. lia.
Qed.

Lemma tiles_le pos off cs endpos : tiles pos off cs endpos -> pos <= endpos.
Proof.
  revert pos off. induction cs as [|c cs IH]; intros pos off; simpl; [lia|].
  intros (_ & _ & _ & _ & ? & _ & _ & Ht). apply IH in Ht. lia.
Qed.

(** Every piece lies in the range it came from, at its place in the buffer. *)
Lemma tiles_elem pos off cs endpos c : tiles pos off cs endpos -> c ∈ cs ->
  0 <= c.(blockid) /\ 0 <= c.(offset) /\ 0 < c.(blockwritesize) /\
  c.(offset) + c.(blockwritesize) <= blocksize /\
  pos <= c.(blockid) * blocksize + c.(offset) /\
  c.(blockid) * blocksize + c.(offset) + c.(blockwritesize) <= endpos /\
  c.(buffer_pointer_offset) - off = c.(blockid) * blocksize + c.(offset) - pos.
Proof.
  revert pos off. induction cs as [|c' cs IH]; intros pos off Ht Hc; [by apply elem_of_nil in Hc|].
  simpl in Ht. destruct Ht as (H1 & H2 & H3 & H4 & H5 & H6 & H7 & Ht).
  apply elem_of_cons in Hc as [->|Hc].
  - apply tiles_le in Ht. lia.
  - specialize (IH _ _ Ht Hc). lia.
Qed.

(** The pieces of a range that starts on a block boundary start at the head of their
    blocks. *)
Lemma tiles_aligned pos off cs endpos c : tiles pos off cs endpos -> pos mod blocksize = 0 -> c ∈ cs ->
  c.(offset) = 0.
Proof.
  revert pos off. induction cs as [|c' cs IH]; intros pos off Ht Hp Hc; [by apply elem_of_nil in Hc|].
  simpl in Ht. destruct Ht as (H1 & H2 & H3 & H4 & H5 & H6 & H7 & Ht).
  assert (c'.(offset) = 0) as Ho.
  { rewrite <- (Z.mod_unique_pos pos blocksize c'.(blockid) c'.(offset)) in Hp; lia. }
  apply elem_of_cons in Hc as [->|Hc]; [done|]. apply (IH _ _ Ht); [|done].
  assert (cs <> []) as Hne by (by intros ->; apply elem_of_nil in Hc). specialize (H7 Hne).
  replace (pos + c'.(blockwritesize)) with ((c'.(blockid) + 1) * blocksize) by lia.
  apply Z.mod_mul. lia.
Qed.

(** The pieces are in blocks of increasing number. *)
Lemma tiles_blockids pos off c cs endpos c' : tiles pos off (c :: cs) endpos -> c' ∈ cs ->
  c.(blockid) < c'.(blockid).
Proof.
  simpl. intros (H1 & H2 & H3 & H4 & H5 & H6 & H7 & Ht) Hc.
  assert (cs <> []) as Hne by (by intros ->; apply elem_of_nil in Hc).
  pose proof (tiles_elem _ _ _ _ _ Ht Hc). specialize (H7 Hne). nia.
Qed.

Lemma tiles_NoDup pos off cs endpos : tiles pos off cs endpos -> NoDup (blockid <$> cs).
Proof.
  revert pos off. induction cs as [|c cs IH]; intros pos off Ht; simpl; [constructor|].
  constructor.
  - intros (c' & E & Hc)%list_elem_of_fmap.
    pose proof (tiles_blockids _ _ _ _ _ _ Ht Hc). lia.
  - simpl in Ht. destruct Ht as (_ & _ & _ & _ & _ & _ & _ & Ht). by eapply IH.
Qed.

(** Every position of the range is in exactly one piece. *)
Lemma tiles_cover pos off cs endpos i : tiles pos off cs endpos -> pos <= i < endpos ->
  exists c, c ∈ cs /\ c.(blockid) = i / blocksize /\
    c.(offset) <= i mod blocksize < c.(offset) + c.(blockwritesize).
Proof.
  revert pos off. induction cs as [|c cs IH]; intros pos off Ht Hi; simpl in Ht; [lia|].
  destruct Ht as (H1 & H2 & H3 & H4 & H5 & H6 & H7 & Ht).
  destruct (decide (i < pos + c.(blockwritesize))).
  - exists c. split; [left|].
    assert (i = blocksize * c.(blockid) + (i - blocksize * c.(blockid))) as E by lia.
    pose proof (Z.div_unique_pos i blocksize c.(blockid) (i - blocksize * c.(blockid)) ltac:(lia) E).
    pose proof (Z.mod_unique_pos i blocksize c.(blockid) (i - blocksize * c.(blockid)) ltac:(lia) E). lia.
  - destruct (IH _ _ Ht ltac:(lia)) as (c' & Hc & ?). exists c'. split; [by right|done].
Qed.

End split.

(** ** The striped file *)

(** The block a file keeps at a block number, if it was ever written. *)
Definition sfile : Type := Z -> option bytes.

Section sfile.
Variable blocksize : Z.

(** The bytes of the caller's buffer that a piece carries. *)
Definition piece (buffer : bytes) (c : chunk) : bytes :=
  take (Z.to_nat c.(blockwritesize)) (drop (Z.to_nat c.(buffer_pointer_offset)) buffer).

Definition write_chunk (buffer : bytes) (f : sfile) (c : chunk) : sfile := fun b =>
  if decide (b = c.(blockid))
  then Some (overlay (Z.to_nat c.(offset)) (piece buffer c) (default [] (f b)))
  else f b.

Definition read_chunk (f : sfile) (c : chunk) : bytes :=
  match f c.(blockid) with
  | Some b => resize_to (Z.to_nat c.(blockwritesize)) (drop (Z.to_nat c.(offset)) b)
  | None => []
  end.

Definition write_file (f : sfile) (position : Z) (buffer : bytes) : sfile :=
  foldl (write_chunk buffer) f (split blocksize position (Z.of_nat (length buffer))).

Definition read_file (f : sfile) (position size : Z) : bytes :=
  concat (map (read_chunk f) (split blocksize position size)).

(** *** The flat file it stands for: a missing block has no bytes, a short block is
    padded with zeros. *)
Definition byte_or_zero (b : bytes) (i : nat) : byte := default x00 (b !! i).

Definition byte_at (f : sfile) (i : Z) : option byte :=
  b ← f (i / blocksize); Some (byte_or_zero b (Z.to_nat (i mod blocksize))).

Definition touched (position size i : Z) : Prop :=
  0 < size /\ position / blocksize <= i / blocksize <= (position + size - 1) / blocksize.

End sfile.

(** Writing depends on the blocks of a file only. *)
Lemma write_file_ext blocksize f f' pos buffer b : (forall b, f b = f' b) ->
  write_file blocksize f pos buffer b = write_file blocksize f' pos buffer b.
Proof.
  unfold write_file. generalize (split blocksize pos (Z.of_nat (length buffer))). intros cs.
  revert f f'. induction cs as [|c cs IH]; intros f f' E; [apply E|].
  cbn [foldl]. apply IH. intros b'. unfold write_chunk. by rewrite E.
Qed.

Lemma read_file_ext blocksize f f' pos n : (forall b, f b = f' b) ->
  read_file blocksize f pos n = read_file blocksize f' pos n.
Proof.
  intros E. unfold read_file. f_equal. apply map_ext. intros c. unfold read_chunk. by rewrite E.
Qed.

Lemma lookup_resize_to n b i : (i < n)%nat -> resize_to n b !! i = Some (byte_or_zero b i).
Proof.
  intros Hi. unfold resize_to, byte_or_zero.
  destruct (decide (i < length b)%nat).
  - rewrite lookup_app_l by (rewrite length_take; lia). rewrite lookup_take_lt by lia.
    destruct (b !! i) eqn:E; [done|]. apply lookup_ge_None in E. lia.
  - rewrite lookup_app_r by (rewrite length_take; lia).
    rewrite length_take, (lookup_ge_None_2 b) by lia. simpl. apply lookup_replicate. split; [done|lia].
Qed.

Lemma byte_or_zero_resize n b i : byte_or_zero (resize_to n b) i =
  if decide (i < n)%nat then byte_or_zero b i else x00.
Proof.
  unfold byte_or_zero at 1. case_decide.
  - by rewrite lookup_resize_to.
  - by rewrite lookup_ge_None_2 by (rewrite length_resize_to; lia).
Qed.

Lemma byte_or_zero_drop b n i : byte_or_zero (drop n b) i = byte_or_zero b (n + i).
Proof. unfold byte_or_zero. by rewrite lookup_drop. Qed.

(** An overlay is the new bytes in its range and the old ones elsewhere. *)
Lemma byte_or_zero_overlay pos src b i : byte_or_zero (overlay pos src b) i =
  if decide (pos <= i < pos + length src)%nat then byte_or_zero src (i - pos)
  else byte_or_zero b i.
Proof.
  unfold overlay. set (n := Nat.max _ _). set (r := resize_to n b).
  assert (length r = n) as Hr by apply length_resize_to.
  unfold byte_or_zero at 1. case_decide as Hd.
  - rewrite lookup_app_r, length_take by (rewrite length_take; lia).
    rewrite lookup_app_l by lia. unfold byte_or_zero. do 2 f_equal. lia.
  - destruct (decide (i < pos)%nat).
    + rewrite lookup_app_l by (rewrite length_take; lia). rewrite lookup_take_lt by lia.
      change (byte_or_zero r i = byte_or_zero b i). unfold r. rewrite byte_or_zero_resize.
      case_decide; [done|]. unfold byte_or_zero. by rewrite lookup_ge_None_2 by lia.
    + rewrite lookup_app_r, lookup_app_r, length_take, lookup_drop by (rewrite ?length_take; lia).
      replace (pos + length src + (i - pos `min` length r - length src))%nat with i by lia.
      change (byte_or_zero r i = byte_or_zero b i). unfold r. rewrite byte_or_zero_resize.
      case_decide; [done|]. unfold byte_or_zero. by rewrite lookup_ge_None_2 by lia.
Qed.

Section sfile_facts.
Variable bs : Z.
Hypothesis Hbs : 0 < bs < 2 ^ 32.

Lemma write_chunks_other buffer cs f b : b ∉ (blockid <$> cs) ->
  foldl (write_chunk buffer) f cs b = f b.
Proof.
  revert f. induction cs as [|c cs IH]; intros f Hb; [done|]. simpl in *.
  apply not_elem_of_cons in Hb as [Hb Hb']. rewrite IH by done. unfold write_chunk.
  by rewrite decide_False.
Qed.

Lemma write_chunks_elem buffer cs f c : NoDup (blockid <$> cs) -> c ∈ cs ->
  foldl (write_chunk buffer) f cs c.(blockid)
  = Some (overlay (Z.to_nat c.(offset)) (piece buffer c) (default [] (f c.(blockid)))).
Proof.
  revert f. induction cs as [|c' cs IH]; intros f Hn Hc; [by apply elem_of_nil in Hc|].
  simpl in *. apply NoDup_cons in Hn as [Hn Hn']. apply elem_of_cons in Hc as [->|Hc].
  - rewrite write_chunks_other by done. unfold write_chunk. by rewrite decide_True.
  - rewrite IH by done. unfold write_chunk. rewrite decide_False; [done|].
    intros E. apply Hn. rewrite <- E. by apply list_elem_of_fmap_2.
Qed.

Lemma piece_length pos buffer c : 0 <= pos -> pos + Z.of_nat (length buffer) < 2 ^ 32 ->
  c ∈ split bs pos (Z.of_nat (length buffer)) ->
  Z.of_nat (length (piece buffer c)) = c.(blockwritesize).
Proof.
  intros Hp Hs Hc. pose proof (split_tiles bs Hbs pos _ Hp (Nat2Z.is_nonneg _) Hs) as Ht.
  pose proof (tiles_elem bs _ _ _ _ _ Ht Hc). unfold piece.
  rewrite length_take, length_drop. lia.
Qed.

(** The flat effect of a write: the range holds the buffer; the other bytes of a
    touched block keep their value, or become zero where the block is new. *)
Lemma write_file_byte_at f pos buffer i : 0 <= pos -> pos + Z.of_nat (length buffer) < 2 ^ 32 -> 0 <= i ->
  byte_at bs (write_file bs f pos buffer) i =
  if decide (pos <= i < pos + Z.of_nat (length buffer)) then buffer !! Z.to_nat (i - pos)
  else match byte_at bs f i with
       | Some b => Some b
       | None => if decide ((i / bs) ∈ (blockid <$> split bs pos (Z.of_nat (length buffer))))
                 then Some x00 else None
       end.
Proof.
  intros Hp Hs Hi. pose proof (split_tiles bs Hbs pos _ Hp (Nat2Z.is_nonneg _) Hs) as Ht.
  pose proof (tiles_NoDup bs Hbs _ _ _ _ Ht) as Hn. unfold byte_at, write_file.
  set (cs := split bs pos _) in *.
  pose proof (Z.mod_pos_bound i bs ltac:(lia)). pose proof (Z.div_mod i bs ltac:(lia)) as Hdm.
  destruct (decide ((i / bs) ∈ (blockid <$> cs))) as [Hin|Hin].
  - apply list_elem_of_fmap in Hin as (c & E & Hc). rewrite E, write_chunks_elem by done.
    pose proof (tiles_elem bs _ _ _ _ _ Ht Hc). pose proof (piece_length pos buffer c Hp Hs Hc).
    cbn [mbind option_bind]. rewrite byte_or_zero_overlay.
    assert (i - pos = i mod bs - c.(offset) + c.(buffer_pointer_offset)) as Hip by nia.
    destruct (decide (pos <= i < _)) as [Hr|Hr].
    + destruct (tiles_cover bs _ _ _ _ i Ht Hr) as (c' & Hc' & E' & Ho).
      assert (c' = c) as ->.
      { eapply NoDup_fmap_inj_elem; eauto. congruence. }
      rewrite decide_True by lia. unfold byte_or_zero, piece.
      rewrite lookup_take_lt, lookup_drop by lia.
      destruct (lookup_lt_is_Some_2 buffer (Z.to_nat (i - pos))) as [x Hx]; [lia|].
      rewrite Hx. replace (_ + _)%nat with (Z.to_nat (i - pos)) by lia. by rewrite Hx.
    + rewrite decide_False by nia. unfold byte_or_zero.
      destruct (f (blockid c)) as [b|]; done.
  - rewrite write_chunks_other by done. rewrite decide_False.
    { destruct (f (i / bs)); done. }
    intros Hr. apply Hin. destruct (tiles_cover bs _ _ _ _ i Ht Hr) as (c & Hc & E & _).
    rewrite <- E. by apply list_elem_of_fmap_2.
Qed.

Lemma length_read_chunk f c : is_Some (f c.(blockid)) ->
  length (read_chunk f c) = Z.to_nat c.(blockwritesize).
Proof. intros [b E]. unfold read_chunk. rewrite E. apply length_resize_to. Qed.

Lemma read_chunk_lookup f c j : 0 <= c.(blockid) -> 0 <= c.(offset) ->
  c.(offset) + c.(blockwritesize) <= bs -> (j < Z.to_nat c.(blockwritesize))%nat ->
  is_Some (f c.(blockid)) ->
  read_chunk f c !! j = byte_at bs f (c.(blockid) * bs + c.(offset) + Z.of_nat j).
Proof.
  intros Hb Ho Hs Hj [b E]. unfold read_chunk, byte_at. rewrite E, lookup_resize_to by done.
  assert (c.(blockid) * bs + c.(offset) + Z.of_nat j = bs * c.(blockid) + (c.(offset) + Z.of_nat j))
    as Ei by lia.
  rewrite <- (Z.div_unique_pos _ bs c.(blockid) (c.(offset) + Z.of_nat j)) by lia.
  rewrite <- (Z.mod_unique_pos _ bs c.(blockid) (c.(offset) + Z.of_nat j)) by lia.
  rewrite E. cbn [mbind option_bind]. rewrite byte_or_zero_drop. do 2 f_equal. lia.
Qed.

(** Reading the pieces of a range whose blocks all exist gives its flat bytes. *)
Lemma read_chunks_lookup f pos off cs endpos : tiles bs pos off cs endpos ->
  (forall c, c ∈ cs -> is_Some (f c.(blockid))) ->
  length (concat (map (read_chunk f) cs)) = Z.to_nat (endpos - pos) /\
  forall j, (j < Z.to_nat (endpos - pos))%nat ->
    concat (map (read_chunk f) cs) !! j = byte_at bs f (pos + Z.of_nat j).
Proof.
  revert pos off. induction cs as [|c cs IH]; intros pos off Ht Hf.
  { simpl in *. subst. split; [lia|intros; lia]. }
  pose proof (tiles_le bs _ _ _ _ Ht) as Hle. cbn [tiles] in Ht.
  destruct Ht as (H1 & H2 & H3 & H4 & H5 & H6 & H7 & Ht).
  assert (is_Some (f c.(blockid))) as Hc by (apply Hf; left).
  destruct (IH _ _ Ht) as [Hl Hlk]; [intros c' ?; apply Hf; by right|].
  pose proof (tiles_le bs _ _ _ _ Ht) as Hle'. pose proof (length_read_chunk f c Hc) as Hlc.
  cbn [map concat]. split; [rewrite length_app; lia|]. intros j Hj.
  destruct (decide (j < Z.to_nat c.(blockwritesize))%nat).
  - rewrite lookup_app_l, read_chunk_lookup by (done || lia). f_equal. lia.
  - rewrite lookup_app_r, Hlk by lia. f_equal. lia.
Qed.

(** A block of the range that exists makes its bytes exist. *)
Lemma byte_at_is_Some f i : is_Some (byte_at bs f i) <-> is_Some (f (i / bs)).
Proof. unfold byte_at. destruct (f (i / bs)); split; intros []; simpl in *; eauto; done. Qed.

Lemma read_file_lookup f pos n : 0 <= pos -> 0 <= n -> pos + n < 2 ^ 32 ->
  (forall i, pos <= i < pos + n -> is_Some (byte_at bs f i)) ->
  length (read_file bs f pos n) = Z.to_nat n /\
  forall j, (j < Z.to_nat n)%nat -> read_file bs f pos n !! j = byte_at bs f (pos + Z.of_nat j).
Proof.
  intros Hp Hn Hs Hf. pose proof (split_tiles bs Hbs pos n Hp Hn Hs) as Ht.
  destruct (read_chunks_lookup f _ _ _ _ Ht) as [Hl Hlk].
  - intros c Hc. pose proof (tiles_elem bs _ _ _ _ _ Ht Hc).
    assert (is_Some (byte_at bs f (c.(blockid) * bs + c.(offset)))) as Hb by (apply Hf; lia).
    apply byte_at_is_Some in Hb.
    rewrite <- (Z.div_unique_pos _ bs c.(blockid) c.(offset)) in Hb by lia. done.
  - unfold read_file. replace (pos + n - pos) with n in * by lia. done.
Qed.

(** A file that holds the bytes [B] from its start: reading beyond them gives them,
    followed by whatever the last block is padded with or later blocks hold; reading
    fewer gives as many. *)
Section holding.
Context (f : sfile) (B : bytes).
Hypothesis HB : forall i, 0 <= i < Z.of_nat (length B) -> byte_at bs f i = B !! Z.to_nat i.

Lemma read_chunk_holding c pos : c.(blockid) * bs + c.(offset) = pos -> 0 <= c.(blockid) -> 0 <= c.(offset) ->
  c.(offset) + c.(blockwritesize) <= bs -> 0 < c.(blockwritesize) -> pos < Z.of_nat (length B) ->
  length (read_chunk f c) = Z.to_nat c.(blockwritesize) /\
  forall j, (j < Z.to_nat c.(blockwritesize))%nat -> pos + Z.of_nat j < Z.of_nat (length B) ->
    read_chunk f c !! j = B !! (Z.to_nat pos + j)%nat.
Proof.
  intros Hpos Hb Ho Hs Hw Hlt.
  assert (is_Some (f c.(blockid))) as Hc.
  { assert (is_Some (byte_at bs f pos)) as Hsome.
    { rewrite HB by lia. apply lookup_lt_is_Some_2. lia. }
    apply byte_at_is_Some in Hsome.
    by rewrite <- (Z.div_unique_pos _ bs c.(blockid) c.(offset)) in Hsome by lia. }
  split; [by apply length_read_chunk|]. intros j Hj Hlj.
  rewrite read_chunk_lookup, Hpos, HB by (done || lia). f_equal. lia.
Qed.

Lemma read_chunks_holding pos off cs endpos : tiles bs pos off cs endpos -> 0 <= pos ->
  Z.of_nat (length B) <= endpos ->
  exists junk, concat (map (read_chunk f) cs) = drop (Z.to_nat pos) B ++ junk.
Proof.
  revert pos off. induction cs as [|c cs IH]; intros pos off Ht Hp Hlen.
  { simpl in *. exists []. by rewrite drop_ge by lia. }
  cbn [tiles] in Ht. destruct Ht as (H1 & H2 & H3 & H4 & H5 & H6 & H7 & Ht). cbn [map concat].
  destruct (decide (pos < Z.of_nat (length B))) as [Hlt|]; [|eexists; by rewrite drop_ge by lia].
  destruct (read_chunk_holding c pos) as [Hlc Hlk]; [done..|].
  destruct (IH _ _ Ht) as [junk E]; [lia|lia|]. rewrite E.
  destruct (decide (pos + c.(blockwritesize) <= Z.of_nat (length B))) as [Hle|Hgt].
  - assert (read_chunk f c = take (Z.to_nat c.(blockwritesize)) (drop (Z.to_nat pos) B)) as ->.
    { apply list_eq_same_length with (n := Z.to_nat c.(blockwritesize)).
      - by rewrite length_take, length_drop; lia.
      - done.
      - intros j x y Hj Ex Ey. rewrite Hlk in Ex by lia.
        rewrite lookup_take, lookup_drop in Ey. rewrite decide_True in Ey by lia. congruence. }
    exists junk. rewrite (assoc_L (++)). f_equal.
    replace (Z.to_nat (pos + c.(blockwritesize))) with (Z.to_nat pos + Z.to_nat c.(blockwritesize))%nat by lia.
    by rewrite <- drop_drop, take_drop.
  - set (n := (length B - Z.to_nat pos)%nat).
    exists (drop n (read_chunk f c) ++ drop (Z.to_nat (pos + c.(blockwritesize))) B ++ junk).
    rewrite (assoc_L (++) (drop (Z.to_nat pos) B)). f_equal.
    assert (drop (Z.to_nat pos) B = take n (read_chunk f c)) as ->; [|by rewrite take_drop].
    apply list_eq_same_length with (n := n).
    + rewrite length_take. lia.
    + rewrite length_drop. lia.
    + intros j x y Hj Ex Ey. rewrite lookup_take, decide_True, Hlk in Ey by lia.
      rewrite lookup_drop in Ex. congruence.
Qed.

Lemma read_file_holding n : 0 <= n < 2 ^ 32 ->
  if decide (Z.of_nat (length B) <= n) then exists junk, read_file bs f 0 n = B ++ junk
  else read_file bs f 0 n = take (Z.to_nat n) B.
Proof.
  intros Hn. case_decide as Hle.
  - destruct (read_chunks_holding 0 0 (split bs 0 n) n) as [junk E]; [|done|done|].
    + apply (split_tiles bs Hbs 0 n); lia.
    + exists junk. exact E.
  - destruct (read_file_lookup f 0 n) as [Hl Hlk]; [done|lia|lia| |].
    + intros i Hi. rewrite HB by lia. apply lookup_lt_is_Some_2. lia.
    + apply list_eq_same_length with (n := Z.to_nat n); [rewrite length_take; lia|done|].
      intros j x y Hj Ex Ey. rewrite Hlk, HB in Ex by lia.
      rewrite lookup_take, decide_True in Ey by lia.
      replace (Z.to_nat (0 + Z.of_nat j)) with j in Ex by lia. congruence.
Qed.

End holding.

(** Reading back exactly what was written. *)
Lemma read_write_file f pos buffer : 0 <= pos -> pos + Z.of_nat (length buffer) < 2 ^ 32 ->
  read_file bs (write_file bs f pos buffer) pos (Z.of_nat (length buffer)) = buffer.
Proof.
  intros Hp Hs.
  assert (forall i, pos <= i < pos + Z.of_nat (length buffer) ->
    byte_at bs (write_file bs f pos buffer) i = buffer !! Z.to_nat (i - pos)) as Hb.
  { intros i Hi. rewrite write_file_byte_at by lia. by rewrite decide_True. }
  destruct (read_file_lookup (write_file bs f pos buffer) pos (Z.of_nat (length buffer)))
    as [Hl Hlk]; try lia.
  { intros i Hi. rewrite Hb by done. apply lookup_lt_is_Some_2. lia. }
  apply list_eq. intros j. destruct (decide (j < length buffer)%nat).
  - rewrite Hlk, Hb by lia. f_equal. lia.
  - by rewrite !lookup_ge_None_2 by lia.
Qed.

End sfile_facts.

(** ** Properties *)

(** C8. The splitting loop ends, with the fuel it is given, and tiles its range: for
    every positive block size and every range that fits 32 bits, the pieces are
    consecutive, each inside one block and at its place in the caller's buffer, in
    blocks of distinct numbers, their sizes add up to the size of the range, and more
    fuel produces nothing more. *)
Theorem split_correct bs pos size (Hbs : 0 < bs < 2 ^ 32) (Hp : 0 <= pos) (Hn : 0 <= size)
    (Hs : pos + size < 2 ^ 32) :
  tiles bs pos 0 (split bs pos size) (pos + size) /\
  NoDup (blockid <$> split bs pos size) /\
  foldr (fun c n => c.(blockwritesize) + n) 0 (split bs pos size) = size /\
  forall fuel, (split_fuel bs pos (pos + size) <= fuel)%nat ->
    split_loop bs fuel pos (pos + size) 0 = split bs pos size.
Proof.
  pose proof (split_tiles bs Hbs pos size Hp Hn Hs) as Ht.
  split_and!; [done|by eapply tiles_NoDup| |].
  - rewrite (tiles_total bs _ _ _ _ Ht). lia.
  - intros fuel Hf. unfold split. rewrite (wrap_small 4) by (change (modulus 4) with (2 ^ 32); lia).
    apply (split_loop_fuel bs Hbs); lia.
Qed.

Lemma split_correct_witness :
  tiles 4096 4000 0 [mk_chunk 0 4000 0 96; mk_chunk 1 0 96 4096; mk_chunk 2 0 4192 8] 8200.
Proof. exact (proj1 (split_correct 4096 4000 4200 ltac:(lia) ltac:(lia) ltac:(lia) ltac:(lia))). Defined.

(** The striped file refines the flat file: after a write the bytes of its range
    are the buffer's and every other byte keeps its value (bytes of blocks the write
    creates become zero); and a read of a range whose blocks exist returns its flat
    bytes, one for one - so a read of a range just written returns the buffer. *)
Theorem striped_file_refines_flat bs f pos buffer (Hbs : 0 < bs < 2 ^ 32) (Hp : 0 <= pos)
    (Hs : pos + Z.of_nat (length buffer) < 2 ^ 32) :
  (forall i, 0 <= i -> byte_at bs (write_file bs f pos buffer) i =
     if decide (pos <= i < pos + Z.of_nat (length buffer)) then buffer !! Z.to_nat (i - pos)
     else match byte_at bs f i with
          | Some b => Some b
          | None => if decide ((i / bs) ∈ (blockid <$> split bs pos (Z.of_nat (length buffer))))
                    then Some x00 else None
          end) /\
  (forall p n, 0 <= p -> 0 <= n -> p + n < 2 ^ 32 ->
     (forall i, p <= i < p + n -> is_Some (byte_at bs f i)) ->
     length (read_file bs f p n) = Z.to_nat n /\
     forall j, (j < Z.to_nat n)%nat -> read_file bs f p n !! j = byte_at bs f (p + Z.of_nat j)) /\
  read_file bs (write_file bs f pos buffer) pos (Z.of_nat (length buffer)) = buffer.
Proof.
  split_and!.
  - intros. by apply write_file_byte_at.
  - intros. by apply read_file_lookup.
  - by apply read_write_file.
Qed.

Lemma striped_file_refines_flat_witness :
  read_file 4 (write_file 4 (fun _ => None) 6 [x41; x42; x43; x44]) 6 4 = [x41; x42; x43; x44].
Proof.
  exact (proj2 (proj2 (striped_file_refines_flat 4 (fun _ => None) 6 [x41; x42; x43; x44]
    ltac:(lia) ltac:(lia) ltac:(simpl; lia)))).
Defined.

Lemma tiles_last bs pos off cs endpos c : tiles bs pos off cs endpos -> last cs = Some c ->
  c.(blockid) * bs + c.(offset) + c.(blockwritesize) = endpos /\ c ∈ cs.
Proof.
  revert pos off. induction cs as [|c' cs IH]; intros pos off Ht Hl; [done|].
  simpl in Ht. destruct Ht as (H1 & _ & _ & _ & _ & _ & _ & Ht).
  destruct cs as [|c'' cs].
  - simpl in *. simplify_eq. split; [lia|left].
  - destruct (IH _ _ Ht Hl). split; [done|by right].
Qed.

(** The file size a write computes ignores where its last piece starts: it is the
    end of the range less the offset of the last piece in its block, so a write that
    stays inside one block at a non-zero offset records too small a size. *)
Theorem new_file_size_ignores_offset bs pos size (Hbs : 0 < bs < 2 ^ 32) (Hp : 0 <= pos)
    (Hn : 0 < size) (Hs : pos + size < 2 ^ 32) :
  (exists c, last (split bs pos size) = Some c /\
     new_file_size bs pos size = pos + size - c.(offset)) /\
  (pos / bs = (pos + size - 1) / bs -> new_file_size bs pos size = pos + size - pos mod bs).
Proof.
  pose proof (split_tiles bs Hbs pos size Hp ltac:(lia) Hs) as Ht.
  unfold new_file_size. destruct (last (split bs pos size)) as [c|] eqn:El.
  2:{ apply last_None in El. rewrite El in Ht. simpl in Ht. lia. }
  destruct (tiles_last _ _ _ _ _ _ Ht El) as [Hc Hin].
  pose proof (tiles_elem bs _ _ _ _ _ Ht Hin).
  rewrite (wrap_small 4 (_ * _)), (wrap_small 4) by
    (change (modulus 4) with (2 ^ 32); nia || (rewrite ?wrap_small; lia)).
  split; [exists c; split; [done|lia]|]. intros Hb.
  destruct (tiles_cover bs _ _ _ _ (pos + size - 1) Ht ltac:(lia)) as (c1 & Hc1 & E1 & _).
  destruct (tiles_cover bs _ _ _ _ pos Ht ltac:(lia)) as (c0 & Hc0 & E0 & Ho).
  pose proof (tiles_elem bs _ _ _ _ _ Ht Hc0).
  pose proof (Z.div_mod pos bs ltac:(lia)).
  assert (c0.(offset) = pos mod bs) by nia.
  assert (c.(blockid) = (pos + size - 1) / bs).
  { apply (Z.div_unique_pos _ _ _ (c.(offset) + c.(blockwritesize) - 1)); lia. }
  assert (c = c0) as -> by (eapply NoDup_fmap_inj_elem; [by eapply tiles_NoDup|done..|congruence]).
  lia.
Qed.

Lemma new_file_size_ignores_offset_witness : new_file_size 4096 100 10 = 10.
Proof.
  rewrite (proj2 (new_file_size_ignores_offset 4096 100 10 ltac:(lia) ltac:(lia) ltac:(lia) ltac:(lia)));
    reflexivity.
Defined.
