(* ===== verification/Ssbd.v ===== *)
(** * The block store server ([ssbd/main.cpp], [ssbd/rawblocks.hpp])

    One [tcp_connection] handler per packet type, each a function of the two
    databases; the dispatch on the header and the framing of the input stream;
    the abstract view of one block and what every handler does to it. *)
From Stdlib Require Import ZArith Lia.
From stdpp Require Import base tactics option list gmap strings.
From S2P Require Import Prelude Wire KvLog.
Import leveldb_pack.

(** ** [class rawblocks]: a block read from the database into [buf_] *)
Module rawblocks.

Definition fullsize_default : Z := 4 * 1024.
Definition headersize : Z := 0.
Definition blocksize (fullsize : Z) : Z := fullsize - headersize.

Definition bind {D} `{KVStore D} (db : D) (key : bytes) : option bytes := db_get key db.

Definition flush {D} `{KVStore D} (buf_ : bytes) (db : D) (key : bytes) : D :=
  db_put key buf_ db.

(** [std::copy_n(src, n, buf_.begin() + logic_position)] *)
Definition write (buf_ : bytes) (logic_position : nat) (src : bytes) (size : nat) : option bytes :=
  src ← mem_get 0 size src; mem_set logic_position src buf_.

(** The count is [min(buf_.size() - logic_position, size)] in [size_t]: a position
    past the end wraps around and the copy leaves the buffer. *)
Definition read (buf_ : bytes) (logic_position : nat) (ot : bytes) (size : nat) : option bytes :=
  let avail := u64 (Z.of_nat (length buf_) - headersize - Z.of_nat logic_position) in
  let n := Z.to_nat (Z.min avail (Z.of_nat size)) in
  if decide (logic_position <= length buf_)%nat then
    src ← mem_get logic_position n buf_; mem_set 0 src ot
  else None.

End rawblocks.

(** ** The handlers *)
Section server.
Context {D : Type} `{KVStore D}.
Import persistent_log.

(** What the connections of one server share: the block database and the log. *)
Record server := mk_server { db_ : D; db_log_ : D }.

(** Lines 162-167: the old block grown to hold the request, with the request's
    bytes copied at its position.  The size is computed in [uint32_t]. *)
Definition write_block (position datasize : Z) (read_buf old_block : bytes) : option bytes :=
  let size := Z.max (u32 (position + datasize)) (u32 (Z.of_nat (length old_block))) in
  mem_set (Z.to_nat position) read_buf (resize_to (Z.to_nat size) old_block).

(** Lines 138-144: the first prepare of a block creates it empty. *)
Definition create_if_missing (s : server) (key : bytes) : server :=
  match rawblocks.bind s.(db_) key with
  | Some _ => s
  | None =>
      let log := (put_committed_version key 0 s.(db_log_)).2 in
      let log := (put_pending_prepare key [] 0 log).2 in
      mk_server (db_put key [] s.(db_)) log
  end.

(** The two halves of [start_two_pc_prepare]: everything up to and including the
    test for a pending log, and the write of the new pending log.  No lock joins
    them. *)
Definition prepare_check (s : server) (pack : packet_header) : server * option (option bytes) :=
  let key := as_string pack in
  let s := create_if_missing s key in
  match rawblocks.bind s.(db_) key with
  | None => (s, None)
  | Some buf_ =>
      let '(pending, log) := have_pending_log key s.(db_log_) in
      (mk_server s.(db_) log, Some (if (pending : bool) then None else Some buf_))
  end.

Definition prepare_write (s : server) (pack : packet_header) (read_buf old_block : bytes)
    : option server :=
  let key := as_string pack in
  block ← write_block pack.(position) pack.(datasize) read_buf old_block;
  let log := (put_pending_prepare key block pack.(version) s.(db_log_)).2 in
  Some (mk_server s.(db_) log).

Definition start_two_pc_prepare (s : server) (pack : packet_header) (read_buf : bytes)
    : option (server * packet) :=
  let key := as_string pack in
  let resp := set_type two_pc_prepare_agree pack in
  match prepare_check s pack with
  | (s, None) => Some (s, mk_packet resp [])
  | (s, Some None) =>
      let resp := set_type two_pc_prepare_abort resp in
      let '(_, log) := get_committed_version key s.(db_log_) in
      Some (mk_server s.(db_) log, mk_packet resp [])
  | (s, Some (Some buf_)) =>
      s ← prepare_write s pack read_buf buf_;
      let '(_, log) := get_committed_version key s.(db_log_) in
      Some (mk_server s.(db_) log, mk_packet resp [])
  end.

Definition start_two_pc_prepare_quick (s : server) (pack : packet_header) (read_buf : bytes)
    : option (server * packet) :=
  let key := as_string pack in
  let resp := set_type two_pc_prepare_agree pack in
  let s := create_if_missing s key in
  match rawblocks.bind s.(db_) key with
  | None => Some (s, mk_packet resp [])
  | Some buf_ =>
      s ← prepare_write s pack read_buf buf_;
      let '(_, log) := get_committed_version key s.(db_log_) in
      Some (mk_server s.(db_) log, mk_packet resp [])
  end.

Definition start_two_pc_commit_execute (s : server) (pack : packet_header) : server * packet :=
  let key := as_string pack in
  let '(log, db) := commit_pending_prepare key s.(db_log_) s.(db_) in
  (mk_server db log, mk_packet (set_type two_pc_commit_ack pack) []).

Definition start_two_pc_commit_rollback (s : server) (pack : packet_header) : server * packet :=
  let key := as_string pack in
  let log := (put_pending_prepare key [] 0 s.(db_log_)).2 in
  (mk_server s.(db_) log, mk_packet (set_type two_pc_commit_ack pack) []).

Definition replication_key (key : bytes) : bytes := key ++ lit "repl"%string.

Definition start_replication (s : server) (pack : packet_header) (read_buf : bytes)
    : option (server * packet) :=
  let key := replication_key (as_string pack) in
  let old_block := default [] (db_get key s.(db_)) in
  block ← write_block pack.(position) pack.(datasize) read_buf old_block;
  Some (mk_server (db_put key block s.(db_)) s.(db_log_), mk_packet (set_type ack pack) []).

Definition start_db_read (s : server) (pack : packet_header) : option packet :=
  match rawblocks.bind s.(db_) (as_string pack) with
  | Some buf_ =>
      let size := Z.to_nat pack.(datasize) in
      buf ← rawblocks.read buf_ (Z.to_nat pack.(position)) (replicate size x00) size;
      Some (mk_packet (set_type ack pack) buf)
  | None => Some (mk_packet (set_type err pack) [])
  end.

(** ** Dispatch *)

(** The handlers that first read [datasize] bytes of payload. *)
Definition reads_body (m : msg_t) : bool :=
  match m with
  | two_pc_prepare | two_pc_prepare_quick | two_pc_commit_execute | replication => true
  | _ => false
  end.

Definition handle (s : server) (m : msg_t) (pack : packet_header) (read_buf : bytes)
    : option (server * packet) :=
  match m with
  | two_pc_prepare => start_two_pc_prepare s pack read_buf
  | two_pc_prepare_quick => start_two_pc_prepare_quick s pack read_buf
  | two_pc_commit_execute => Some (start_two_pc_commit_execute s pack)
  | two_pc_commit_rollback => Some (start_two_pc_commit_rollback s pack)
  | replication => start_replication s pack read_buf
  | get => resp ← start_db_read s pack; Some (s, resp)
  | err | ack | two_pc_commit_ack | two_pc_prepare_agree | two_pc_prepare_abort =>
      Some (s, mk_packet (set_type err pack) [])
  end.

(** [start_read_header] on the bytes the connection still has to read: the
    packets written back and the rest of the input, or [None] for the rest when
    the connection reads no further (a short read, or a type with no case). *)
Definition start_read_header (s : server) (input : bytes)
    : option (server * list packet * option bytes) :=
  match read_n bytesize input with
  | None => Some (s, [], None)
  | Some (read_buf, input) =>
      pack ← parse read_buf;
      match of_code pack.(type) with
      | None => Some (s, [], None)
      | Some m =>
          match (if reads_body m then read_n (Z.to_nat pack.(datasize)) input
                 else Some ([], input)) with
          | None => Some (s, [], None)
          | Some (body, input) =>
              '(s, resp) ← handle s m pack body;
              Some (s, [resp], Some input)
          end
      end
  end.

(** A connection served to the end of its input. *)
Fixpoint serve (fuel : nat) (s : server) (input : bytes) : option (server * list packet) :=
  match fuel with
  | O => None
  | S fuel =>
      '(s, out, rest) ← start_read_header s input;
      match rest with
      | None => Some (s, out)
      | Some input => '(s, out') ← serve fuel s input; Some (s, out ++ out')
      end
  end.

End server.
Arguments server : clear implicits.

(** ** The abstract block

    What the two databases say of one block, and the two-phase commit protocol on
    it as a function: the contract the coordinator relies on. *)
Record block := mk_block {
  contents : option bytes;   (* the committed data, [None] before the first prepare *)
  cver : Z;                  (* the committed version *)
  pver : Z;                  (* the version of the pending log *)
  pending : bytes            (* the data of the pending log *)
}.

Definition touch (b : block) : block :=
  match b.(contents) with Some _ => b | None => mk_block (Some []) 0 0 [] end.

Definition busy (b : block) : bool := negb ((b.(pver) =? b.(cver)) || (b.(pver) =? 0)).

Definition set_pending (v : Z) (data : bytes) (b : block) : block :=
  mk_block b.(contents) b.(cver) v data.

Definition promote (b : block) : block := mk_block (Some b.(pending)) b.(pver) b.(pver) b.(pending).

(** The protocol: answer, payload of the answer and the new block. *)
Definition block_step (m : msg_t) (pos : nat) (size : nat) (ver : Z) (body : bytes) (b : block)
    : msg_t * bytes * block :=
  match m with
  | two_pc_prepare =>
      let b := touch b in
      if busy b then (two_pc_prepare_abort, [], b)
      else (two_pc_prepare_agree, [],
            set_pending ver (overlay pos body (default [] b.(contents))) b)
  | two_pc_prepare_quick =>
      let b := touch b in
      (two_pc_prepare_agree, [], set_pending ver (overlay pos body (default [] b.(contents))) b)
  | two_pc_commit_execute => (two_pc_commit_ack, [], promote b)
  | two_pc_commit_rollback => (two_pc_commit_ack, [], set_pending 0 [] b)
  | get => match b.(contents) with
           | Some c => (ack, resize_to size (drop pos c), b)
           | None => (err, [], b)
           end
  | replication => (ack, [], b)
  | _ => (err, [], b)
  end.

Section view.
Context {D : Type} `{KVLaws D}.
Import persistent_log.

Definition view (s : server D) (key : bytes) : block :=
  mk_block (db_get key s.(db_))
    (version_at (commit_version_key key) s.(db_log_))
    (version_at (version_key key) s.(db_log_))
    (default [] (db_get (log_key key) s.(db_log_))).

Definition replica (s : server D) (key : bytes) : option bytes :=
  db_get (replication_key key) s.(db_).

End view.

(** The keys [as_string] makes: 32 bytes and the decimal digits of a block number. *)
Definition block_key (k : bytes) : Prop :=
  exists u n, length u = key_size /\ 0 <= n < 2 ^ 32 /\ k = u ++ to_string n.

(** The conditions under which no handler leaves its buffers: the request fits the
    32-bit size computation and its payload is the [datasize] bytes that were read. *)
Record wf_request {D} `{KVStore D} (s : server D) (m : msg_t) (h : packet_header) (body : bytes) : Prop := {
  wr_header : wf_header h;
  wr_body : reads_body m = true -> Z.of_nat (length body) = h.(datasize);
  wr_sum : h.(position) + h.(datasize) < 2 ^ 32;
  wr_old : forall c, db_get (as_string h) s.(db_) = Some c -> Z.of_nat (length c) < 2 ^ 32;
  wr_repl : m = replication -> forall c, db_get (replication_key (as_string h)) s.(db_) = Some c ->
            Z.of_nat (length c) < 2 ^ 32;
  wr_read : m = get -> forall c, db_get (as_string h) s.(db_) = Some c ->
            h.(position) <= Z.of_nat (length c)
}.

(** ** Lemmas *)

Lemma as_string_block_key h : wf_header h -> block_key (as_string h).
Proof. intros []. exists h.(uuid), h.(blockid). done. Qed.

Definition not_digit_led (s : bytes) : Prop :=
  match s with [] => True | x :: _ => is_digit x = false end.

(** A block key followed by a suffix that does not start with a digit determines
    both the key and the suffix. *)
Lemma digits_suffix_inj a b r s :
  Forall (fun b => is_digit b = true) a -> Forall (fun b => is_digit b = true) b ->
  not_digit_led r -> not_digit_led s -> a ++ r = b ++ s -> a = b /\ r = s.
Proof.
  revert b. induction a as [|c a IH]; intros [|d b] Ha Hb Hr Hs E; simpl in *.
  - done.
  - subst r. apply Forall_cons in Hb as [Hb _]. simpl in Hr. congruence.
  - subst s. apply Forall_cons in Ha as [Ha _]. simpl in Hs. congruence.
  - injection E as -> E. apply Forall_cons in Ha as [_ Ha], Hb as [_ Hb].
    destruct (IH b Ha Hb Hr Hs E) as [-> ->]. done.
Qed.

Lemma block_key_suffix_inj k k' r s :
  block_key k -> block_key k' -> not_digit_led r -> not_digit_led s ->
  k ++ r = k' ++ s -> k = k' /\ r = s.
Proof.
  intros (u & n & Hu & Hn & ->) (u' & n' & Hu' & Hn' & ->) Hr Hs E.
  rewrite <- !(assoc_L (++)) in E. apply app_inj_1 in E as [-> E]; [|congruence].
  apply digits_suffix_inj in E as [-> ->]; auto using to_string_digits.
Qed.

(** Distinct blocks have distinct keys. *)
Lemma as_string_inj h h' : wf_header h -> wf_header h' -> as_string h = as_string h' ->
  h.(uuid) = h'.(uuid) /\ h.(blockid) = h'.(blockid).
Proof.
  intros [] [] E. apply app_inj_1 in E as [Hu E]; [|congruence]. split; [done|].
  apply to_string_inj in E; [done|lia..].
Qed.

Section facts.
Context {D : Type} `{KVLaws D}.
Import persistent_log.
Implicit Types (s : server D) (k : bytes).

Lemma write_block_overlay pos n body old :
  0 <= pos -> Z.of_nat (length body) = n -> pos + n < 2 ^ 32 -> Z.of_nat (length old) < 2 ^ 32 ->
  write_block pos n body old = Some (overlay (Z.to_nat pos) body old).
Proof.
  intros Hp Hn Hs Ho. unfold write_block.
  rewrite !wrap_small by (change (modulus 4) with (2 ^ 32); lia).
  rewrite <- overlay_mem_set. do 2 f_equal. lia.
Qed.

Lemma rawblocks_read_spec buf pos n :
  (pos <= length buf)%nat -> Z.of_nat (length buf) < 2 ^ 64 ->
  rawblocks.read buf pos (replicate n x00) n = Some (resize_to n (drop pos buf)).
Proof.
  intros Hp Hb. unfold rawblocks.read. rewrite decide_True by done.
  unfold rawblocks.headersize.
  rewrite wrap_small by (change (modulus 8) with (2 ^ 64); lia).
  set (k := Z.to_nat _). assert (k = Nat.min (length buf - pos) n) as -> by lia.
  rewrite mem_get_Some by lia. cbn [mbind option_bind].
  rewrite mem_set_Some by len. f_equal. unfold resize_to.
  rewrite take_0. cbn [app]. rewrite length_take, length_drop. f_equal.
  - destruct (decide (n <= length buf - pos)%nat); [f_equal; lia|].
    rewrite !take_ge by len. done.
  - rewrite drop_replicate. f_equal. lia.
Qed.

(** Writing under keys the view of a block does not consult. *)
Lemma view_put_log db log k k0 v :
  k0 <> commit_version_key k -> k0 <> version_key k -> k0 <> log_key k ->
  view (mk_server db (db_put k0 v log)) k = view (mk_server (D := D) db log) k.
Proof.
  intros. unfold view. cbn [db_ db_log_]. rewrite !version_at_put_ne, db_get_put_ne by congruence. done.
Qed.

Lemma view_put_db db log k k0 v : k0 <> k ->
  view (mk_server (db_put k0 v db) log) k = view (mk_server (D := D) db log) k.
Proof. intros. unfold view. cbn [db_ db_log_]. by rewrite db_get_put_ne by congruence. Qed.

(** Neither the repair a version reader makes nor its reading changes a view. *)
Lemma view_get_version db log k0 k' :
  k0 <> log_key k' ->
  view (mk_server db (get_version k0 log).2) k' = view (mk_server (D := D) db log) k'.
Proof.
  intros Hk0. unfold view. cbn [db_ db_log_].
  by rewrite !get_version_version_at, get_version_other by congruence.
Qed.

Lemma block_suffix_ne k k' r t : block_key k -> block_key k' ->
  not_digit_led r -> not_digit_led t -> k <> k' \/ r <> t -> k ++ r <> k' ++ t.
Proof.
  intros Hk Hk' Hr Ht Hd E. apply block_key_suffix_inj in E as [? ?]; [|done..]. destruct Hd; congruence.
Qed.

Lemma repl_key_ne k k' : block_key k -> block_key k' -> replication_key k <> k'.
Proof.
  intros Hk Hk'. rewrite <- (app_nil_r k'). apply block_suffix_ne; [done..|]. by right.
Qed.

Lemma repl_key_inj k k' : block_key k -> block_key k' -> k <> k' ->
  replication_key k <> replication_key k'.
Proof. intros Hk Hk' Hne. apply block_suffix_ne; auto; done. Qed.

Local Ltac key_ne :=
  unfold commit_version_key, version_key, log_key, replication_key;
  apply block_suffix_ne;
  [done|done|done|done|first [by left | left; congruence | right; discriminate]].

Lemma view_put_pending db log k v data : 0 <= v < 2 ^ 32 ->
  view (mk_server db (put_pending_prepare k data v log).2) k
  = set_pending v data (view (mk_server (D := D) db log) k).
Proof.
  intros Hv. unfold view, set_pending, put_pending_prepare. cbn [db_ db_log_ snd contents cver].
  destruct (log_keys_distinct k) as (H1 & H2 & H3).
  rewrite !(version_at_put_ne _ (log_key k)), (version_at_put_ne _ (version_key k)),
    version_at_put, db_get_put by done. done.
Qed.

Lemma view_put_pending_other db log k k' data v : block_key k -> block_key k' -> k <> k' ->
  view (mk_server db (put_pending_prepare k data v log).2) k' = view (mk_server (D := D) db log) k'.
Proof.
  intros Hk Hk' Hne. unfold put_pending_prepare. cbn [snd]. by rewrite !view_put_log by key_ne.
Qed.

Lemma view_put_committed_other db log k k' v : block_key k -> block_key k' -> k <> k' ->
  view (mk_server db (put_committed_version k v log).2) k' = view (mk_server (D := D) db log) k'.
Proof.
  intros Hk Hk' Hne. unfold put_committed_version. cbn [snd]. by rewrite !view_put_log by key_ne.
Qed.

Lemma create_if_missing_view s k : view (create_if_missing s k) k = touch (view s k).
Proof.
  unfold create_if_missing, rawblocks.bind, touch. cbn [contents view].
  destruct (db_get k s.(db_)) as [c|] eqn:E; [done|].
  rewrite view_put_pending by lia. unfold view, set_pending, put_committed_version.
  cbn [db_ db_log_ snd contents cver]. by rewrite db_get_put, version_at_put by lia.
Qed.

Lemma create_if_missing_other s k k' : block_key k -> block_key k' -> k <> k' ->
  view (create_if_missing s k) k' = view s k' .
Proof.
  intros Hk Hk' Hne. unfold create_if_missing. case_match; [done|].
  rewrite view_put_pending_other, view_put_committed_other, view_put_db by done.
  by destruct s.
Qed.

Lemma create_if_missing_replica s k k' : block_key k -> block_key k' ->
  replica (create_if_missing s k) k' = replica s k'.
Proof.
  intros Hk Hk'. unfold create_if_missing, replica. case_match; [done|].
  cbn [db_]. rewrite db_get_put_ne; [done|]. by apply repl_key_ne.
Qed.

Lemma have_pending_busy db log k :
  (have_pending_log k log).1 = busy (view (mk_server (D := D) db log) k).
Proof.
  unfold have_pending_log, st_bind, get_pending_prepare_version, get_committed_version, st_ret.
  pose proof (get_version_value (version_key k) log) as H1.
  pose proof (get_version_version_at (version_key k)) as H2.
  destruct (get_version (version_key k) log) as [p d] eqn:E. simpl in H1.
  specialize (H2 (commit_version_key k) log) as H3. specialize (H2 (version_key k) log).
  rewrite E in H2, H3. simpl in H2, H3.
  pose proof (get_version_value (commit_version_key k) d) as H4.
  pose proof (get_version_version_at (commit_version_key k) (version_key k) d) as H5.
  destruct (get_version (commit_version_key k) d) as [c d']. simpl in *.
  unfold busy, view. cbn [cver pver db_log_].
  rewrite <- H1, <- H3, <- H4. destruct (p =? c); [done|].
  pose proof (get_version_value (version_key k) d') as H6.
  destruct (get_version (version_key k) d') as [p' d'']. simpl in *. congruence.
Qed.

Lemma have_pending_view db log k k' : block_key k -> block_key k' ->
  view (mk_server db (have_pending_log k log).2) k' = view (mk_server (D := D) db log) k'.
Proof.
  intros Hk Hk'.
  assert (version_key k <> log_key k') as Hv by key_ne.
  assert (commit_version_key k <> log_key k') as Hc by key_ne.
  unfold have_pending_log, st_bind, get_pending_prepare_version, get_committed_version, st_ret.
  pose proof (view_get_version db log _ _ Hv) as H1.
  destruct (get_version (version_key k) log) as [p d].
  pose proof (view_get_version db d _ _ Hc) as H2.
  destruct (get_version (commit_version_key k) d) as [c d']. simpl in *.
  destruct (p =? c); [simpl; congruence|].
  pose proof (view_get_version db d' _ _ Hv) as H3.
  destruct (get_version (version_key k) d') as [p' d'']. simpl in *. congruence.
Qed.

(** [s'] agrees with [s] on every block but [k] and on every replica. *)
Definition only_block s s' k : Prop :=
  (forall k', block_key k' -> k' <> k -> view s' k' = view s k') /\
  (forall k', block_key k' -> replica s' k' = replica s k').

Lemma only_block_refl s k : only_block s s k.
Proof. by split. Qed.

Lemma only_block_trans s1 s2 s3 k :
  only_block s1 s2 k -> only_block s2 s3 k -> only_block s1 s3 k.
Proof. intros [A1 B1] [A2 B2]. split; intros; [rewrite A2, A1|rewrite B2, B1]; done. Qed.

Lemma only_block_log db log log' k :
  (forall k', block_key k' -> k' <> k ->
     view (mk_server db log') k' = view (mk_server (D := D) db log) k') ->
  only_block (mk_server db log) (mk_server db log') k.
Proof. intros Hv. split; [done|]. intros. done. Qed.

Lemma create_if_missing_only s k : block_key k -> only_block s (create_if_missing s k) k.
Proof.
  intros Hk. split; intros; [by apply create_if_missing_other|by apply create_if_missing_replica].
Qed.

(** The second [bind] of a prepare finds the block. *)
Lemma create_if_missing_bind s k :
  rawblocks.bind (create_if_missing s k).(db_) k = Some (default [] (view s k).(contents)).
Proof.
  pose proof (f_equal contents (create_if_missing_view s k)) as E. cbn [contents view] in E.
  unfold rawblocks.bind. rewrite E. unfold touch.
  destruct (contents (view s k)) eqn:Ec; [by rewrite Ec|done].
Qed.

Lemma touch_contents b : contents (touch b) = Some (default [] b.(contents)).
Proof. unfold touch. by destruct (contents b) eqn:E. Qed.

(** The write of the pending log, and the reading of the committed version that
    follows it. *)
Lemma prepare_write_spec s h body old : wf_header h ->
  Z.of_nat (length body) = h.(datasize) -> h.(position) + h.(datasize) < 2 ^ 32 ->
  Z.of_nat (length old) < 2 ^ 32 ->
  let k := as_string h in
  exists s', prepare_write s h body old = Some s' /\
    view s' k = set_pending h.(version) (overlay (Z.to_nat h.(position)) body old) (view s k) /\
    let s'' := mk_server s'.(db_) (get_committed_version k s'.(db_log_)).2 in
    view s'' k = set_pending h.(version) (overlay (Z.to_nat h.(position)) body old) (view s k) /\
    only_block s s'' k.
Proof.
  intros Hh Hb Hs Ho k. pose proof (as_string_block_key h Hh) as Hk. fold k in Hk.
  unfold prepare_write. rewrite write_block_overlay by (done || apply Hh).
  eexists. split; [done|]. destruct s as [db log].
  unfold get_committed_version. cbn [db_ db_log_]. split; [by apply view_put_pending, Hh|]. split.
  - rewrite view_get_version by key_ne. apply view_put_pending, Hh.
  - apply only_block_log. intros k' Hk' Hne.
    rewrite view_get_version by key_ne. by apply view_put_pending_other.
Qed.

(** The first half of a prepare: the block exists afterwards, and the answer says
    whether a log is pending. *)
Lemma prepare_check_spec s h : wf_header h ->
  let k := as_string h in
  exists s', prepare_check s h
    = (s', Some (if busy (touch (view s k)) then None else Some (default [] (view s k).(contents)))) /\
    view s' k = touch (view s k) /\ only_block s s' k.
Proof.
  intros Hh k. pose proof (as_string_block_key h Hh) as Hk. fold k in Hk.
  unfold prepare_check. fold k.
  rewrite create_if_missing_bind. pose proof (create_if_missing_view s k) as Hv.
  pose proof (create_if_missing_only s k Hk) as Hf.
  set (s1 := create_if_missing s k) in *. destruct s1 as [db log] eqn:Es1.
  cbn [db_ db_log_]. pose proof (have_pending_busy db log k) as Hbusy.
  pose proof (fun k' => have_pending_view db log k k' Hk) as Hpv.
  destruct (have_pending_log k log) as [bs log1]. cbn [fst snd] in Hbusy, Hpv.
  rewrite Hv in Hbusy. subst bs. eexists. split; [done|]. split.
  - by rewrite Hpv, Hv.
  - eapply only_block_trans; [apply Hf|]. apply only_block_log. auto.
Qed.

Lemma prepare_refines s h body :
  wf_request s two_pc_prepare h body ->
  let k := as_string h in
  exists s' t b', start_two_pc_prepare s h body = Some (s', mk_packet (set_type t h) []) /\
    block_step two_pc_prepare (Z.to_nat h.(position)) (Z.to_nat h.(datasize)) h.(version) body
      (view s k) = (t, [], b') /\
    view s' k = b' /\ only_block s s' k.
Proof.
  intros [Hh Hb Hs Ho _ _] k. pose proof (as_string_block_key h Hh) as Hk. fold k in Hk.
  unfold start_two_pc_prepare. fold k.
  destruct (prepare_check_spec s h Hh) as (s1 & -> & Hv & Hf). fold k in Hv, Hf |- *.
  unfold block_step. destruct (busy (touch (view s k))).
  - destruct s1 as [db log]. cbn [db_log_ db_]. eexists _, _, _. split; [|split; [done|]].
    { unfold get_committed_version. by rewrite (surjective_pairing (get_version _ log)). }
    split.
    + by rewrite view_get_version, Hv by key_ne.
    + eapply only_block_trans; [apply Hf|]. apply only_block_log. intros k' Hk' _.
      apply view_get_version. key_ne.
  - destruct (prepare_write_spec s1 h body (default [] (view s k).(contents)))
      as (s' & -> & _ & Hv' & Hf'); auto.
    { destruct (contents (view s k)) eqn:E; [|simpl; lia]. by apply Ho. }
    cbn [mbind option_bind]. fold k in Hv', Hf'.
    destruct (get_committed_version k (db_log_ s')) as [v log2] eqn:Eg. cbn [snd] in *.
    eexists _, _, _. split; [done|]. split; [done|]. split.
    + by rewrite Hv', Hv, touch_contents.
    + by eapply only_block_trans.
Qed.

Lemma prepare_quick_refines s h body :
  wf_request s two_pc_prepare_quick h body ->
  let k := as_string h in
  exists s' t b', start_two_pc_prepare_quick s h body = Some (s', mk_packet (set_type t h) []) /\
    block_step two_pc_prepare_quick (Z.to_nat h.(position)) (Z.to_nat h.(datasize)) h.(version) body
      (view s k) = (t, [], b') /\
    view s' k = b' /\ only_block s s' k.
Proof.
  intros [Hh Hb Hs Ho _ _] k. pose proof (as_string_block_key h Hh) as Hk. fold k in Hk.
  unfold start_two_pc_prepare_quick. fold k.
  rewrite create_if_missing_bind. pose proof (create_if_missing_view s k) as Hv.
  pose proof (create_if_missing_only s k Hk) as Hf.
  destruct (prepare_write_spec (create_if_missing s k) h body (default [] (view s k).(contents)))
    as (s' & -> & _ & Hv' & Hf'); auto.
  { destruct (contents (view s k)) eqn:E; [|simpl; lia]. by apply Ho. }
  cbn [mbind option_bind]. fold k in Hv', Hf'.
  destruct (get_committed_version k (db_log_ s')) as [v log2] eqn:Eg. cbn [snd] in *.
  eexists _, _, _. split; [done|]. split; [done|]. split.
  - rewrite Hv', Hv, touch_contents. done.
  - by eapply only_block_trans.
Qed.

Lemma commit_refines s h : wf_header h ->
  let k := as_string h in
  exists s', start_two_pc_commit_execute s h = (s', mk_packet (set_type two_pc_commit_ack h) []) /\
    view s' k = promote (view s k) /\ only_block s s' k.
Proof.
  intros Hh k. pose proof (as_string_block_key h Hh) as Hk. fold k in Hk.
  destruct s as [db log].
  unfold start_two_pc_commit_execute, commit_pending_prepare, get_pending_prepare_data,
    get_pending_prepare_version, put_committed_version. cbn [db_ db_log_]. fold k.
  pose proof (get_version_value (version_key k) log) as Hval.
  pose proof (fun k' => get_version_version_at (version_key k) k' log) as Hrep.
  pose proof (fun k' Hk' => view_get_version db log (version_key k) k' Hk') as Hvw.
  pose proof (get_version_other (version_key k) (log_key k) log ltac:(key_ne)) as Hlk.
  destruct (get_version (version_key k) log) as [v log1]. cbn [fst snd] in *.
  destruct (log_keys_distinct k) as (H1 & H2 & H3).
  eexists. split; [done|]. split.
  - unfold view, promote. cbn [db_ db_log_ pending pver].
    rewrite db_get_put, version_at_put, version_at_put_ne, db_get_put_ne, Hrep, Hlk
      by (rewrite ?Hval; auto using version_at_range).
    by rewrite Hval.
  - split.
    + intros k' Hk' Hne. rewrite view_put_db by done. rewrite view_put_log by key_ne.
      apply Hvw. key_ne.
    + intros k' Hk'. unfold replica. cbn [db_]. rewrite db_get_put_ne; [done|]. by apply repl_key_ne.
Qed.

Lemma rollback_refines s h : wf_header h ->
  let k := as_string h in
  exists s', start_two_pc_commit_rollback s h = (s', mk_packet (set_type two_pc_commit_ack h) []) /\
    view s' k = set_pending 0 [] (view s k) /\ only_block s s' k.
Proof.
  intros Hh k. pose proof (as_string_block_key h Hh) as Hk. fold k in Hk. destruct s as [db log].
  eexists. split; [done|]. cbn [db_ db_log_]. fold k. split.
  - by apply view_put_pending.
  - apply only_block_log. intros. by apply view_put_pending_other.
Qed.

Lemma replication_refines s h body : wf_request s replication h body ->
  let k := as_string h in
  exists s', start_replication s h body = Some (s', mk_packet (set_type ack h) []) /\
    replica s' k = Some (overlay (Z.to_nat h.(position)) body (default [] (replica s k))) /\
    (forall k', block_key k' -> view s' k' = view s k') /\
    (forall k', block_key k' -> k' <> k -> replica s' k' = replica s k').
Proof.
  intros [Hh Hb Hs _ Ho _] k. pose proof (as_string_block_key h Hh) as Hk. fold k in Hk.
  unfold start_replication. fold k.
  rewrite write_block_overlay; [|apply Hh|by apply Hb|done|].
  2:{ destruct (db_get (replication_key k) s.(db_)) eqn:E; [by apply Ho|simpl; lia]. }
  eexists. split; [done|]. unfold replica. cbn [db_]. split_and!.
  - by rewrite db_get_put.
  - intros k' Hk'. destruct s. apply view_put_db. by apply repl_key_ne.
  - intros k' Hk' Hne. apply db_get_put_ne. by apply repl_key_inj.
Qed.

Lemma read_refines s h body : wf_request s get h body ->
  let k := as_string h in
  exists t d, start_db_read s h = Some (mk_packet (set_type t h) d) /\
    block_step get (Z.to_nat h.(position)) (Z.to_nat h.(datasize)) h.(version) body (view s k)
    = (t, d, view s k).
Proof.
  intros [Hh _ _ Ho _ Hr] k. unfold start_db_read, rawblocks.bind. fold k.
  unfold block_step. cbn [contents view].
  destruct (db_get k s.(db_)) as [c|] eqn:E; [|by eexists _, _].
  destruct Hh. specialize (Hr eq_refl c E). specialize (Ho c E).
  rewrite rawblocks_read_spec by lia. by eexists _, _.
Qed.

End facts.

(** ** The server implements the protocol on every block *)

Definition step_frame {D} `{KVStore D} (m : msg_t) (s s' : server D) (k : bytes) (pos : nat)
    (body : bytes) : Prop :=
  (forall k', block_key k' -> k' <> k -> view s' k' = view s k') /\
  (forall k', block_key k' -> k' <> k \/ m <> replication -> replica s' k' = replica s k') /\
  (m = replication -> replica s' k = Some (overlay pos body (default [] (replica s k)))).

Lemma handle_spec {D} `{KVLaws D} (s : server D) (m : msg_t) (h : packet_header) (body : bytes)
    (Hwf : wf_request s m h body) :
  exists s' t d b',
    handle s m h body = Some (s', mk_packet (set_type t h) d) /\
    block_step m (Z.to_nat h.(position)) (Z.to_nat h.(datasize)) h.(version) body
      (view s (as_string h)) = (t, d, b') /\
    view s' (as_string h) = b' /\
    step_frame m s s' (as_string h) (Z.to_nat h.(position)) body.
Proof.
  pose proof (wr_header _ _ _ _ Hwf) as Hh.
  pose proof (as_string_block_key h Hh) as Hk.
  assert (Hof : forall s', m <> replication -> only_block s s' (as_string h) ->
    step_frame m s s' (as_string h) (Z.to_nat h.(position)) body).
  { intros s' Hm [A B]. split_and!; [done|by auto|done]. }
  destruct m; cbn [handle];
    try (eexists s, _, _, _; split; [done|]; split; [done|]; split; [done|];
         apply Hof; [done|apply only_block_refl]).
  - destruct (read_refines s h body Hwf) as (t & d & -> & ->). cbn [mbind option_bind].
    eexists s, _, _, _. split_and!; [done..|]. apply Hof; [done|apply only_block_refl].
  - destruct (prepare_refines s h body Hwf) as (s' & t & b' & -> & -> & ? & ?). eauto 10.
  - destruct (prepare_quick_refines s h body Hwf) as (s' & t & b' & -> & -> & ? & ?). eauto 10.
  - destruct (commit_refines s h Hh) as (s' & -> & ? & ?).
    eexists s', _, _, _. split_and!; try done. by apply Hof.
  - destruct (rollback_refines s h Hh) as (s' & -> & ? & ?).
    eexists s', _, _, _. split_and!; try done. by apply Hof.
  - destruct (replication_refines s h body Hwf) as (s' & -> & Hr & Hv & Hf).
    eexists s', _, _, _. split_and!; try done; [by apply Hv|].
    split_and!; [by auto| |done]. intros k' Hk' [?|?]; [by apply Hf|done].
Qed.

(** *** Runs of requests on one connection *)

Record request := mk_request { req_msg : msg_t; req_header : packet_header; req_body : bytes }.

Fixpoint run {D} `{KVStore D} (s : server D) (reqs : list request)
    : option (server D * list packet) :=
  match reqs with
  | [] => Some (s, [])
  | r :: reqs =>
      '(s, resp) ← handle s r.(req_msg) r.(req_header) r.(req_body);
      '(s, out) ← run s reqs;
      Some (s, resp :: out)
  end.

(** What a client writes for a request, and the requests it can write. *)
Definition wire (r : request) : bytes :=
  dump r.(req_header) ++ (if reads_body r.(req_msg) then r.(req_body) else []).

Definition framed (r : request) : Prop :=
  wf_header r.(req_header) /\ of_code r.(req_header).(type) = Some r.(req_msg) /\
  (if reads_body r.(req_msg) then Z.of_nat (length r.(req_body)) = r.(req_header).(datasize)
   else r.(req_body) = []).

(** No value in a server is longer than a 32-bit size can say. *)
Definition small {D} `{KVStore D} (s : server D) : Prop := forall k, block_key k ->
  (forall c, (view s k).(contents) = Some c -> Z.of_nat (length c) < 2 ^ 32) /\
  Z.of_nat (length (view s k).(pending)) < 2 ^ 32 /\
  (forall c, replica s k = Some c -> Z.of_nat (length c) < 2 ^ 32).

Definition small_block (b : block) : Prop :=
  (forall c, b.(contents) = Some c -> Z.of_nat (length c) < 2 ^ 32) /\
  Z.of_nat (length b.(pending)) < 2 ^ 32.

Lemma overlay_small pos body old : Z.of_nat (pos + length body) < 2 ^ 32 ->
  Z.of_nat (length old) < 2 ^ 32 -> Z.of_nat (length (overlay pos body old)) < 2 ^ 32.
Proof. intros. rewrite length_overlay. lia. Qed.

Lemma touch_small b : small_block b -> small_block (touch b).
Proof.
  intros [Hc Hp]. unfold touch. destruct (contents b) eqn:E; [by split; rewrite ?E|].
  split; [|simpl; lia]. intros c [= <-]. simpl. lia.
Qed.

Lemma block_step_small m pos size ver body b t d b' :
  block_step m pos size ver body b = (t, d, b') ->
  (reads_body m = true -> Z.of_nat (pos + length body) < 2 ^ 32) ->
  small_block b -> small_block b'.
Proof.
  intros E Hs Hb. pose proof (touch_small b Hb) as Ht.
  assert (Hov : reads_body m = true ->
    small_block (set_pending ver (overlay pos body (default [] (contents (touch b)))) (touch b))).
  { intros Hm. destruct Ht as [Hc Hp]. split; [done|]. apply overlay_small; [by apply Hs|].
    rewrite touch_contents. simpl. rewrite touch_contents in Hc. by apply Hc. }
  destruct m; cbn [block_step] in E; repeat case_match; simplify_eq; try done; try by apply Hov.
  - destruct Hb as [Hc Hp]. split; [by intros c [= <-]|done].
  - destruct Hb as [Hc Hp]. split; [done|simpl; lia].
Qed.

Section runs.
Context {D : Type} `{KVLaws D}.
Implicit Types (s : server D).

(** The buffer conditions of a request follow from [small]. *)
Definition bounded (s : server D) (r : request) : Prop :=
  wf_header r.(req_header) /\
  (reads_body r.(req_msg) = true -> Z.of_nat (length r.(req_body)) = r.(req_header).(datasize)) /\
  r.(req_header).(position) + r.(req_header).(datasize) < 2 ^ 32 /\
  (r.(req_msg) = get -> forall c, db_get (as_string r.(req_header)) s.(db_) = Some c ->
     r.(req_header).(position) <= Z.of_nat (length c)).

Lemma bounded_wf s r : small s -> bounded s r ->
  wf_request s r.(req_msg) r.(req_header) r.(req_body).
Proof.
  intros Hs (Hh & Hb & Hp & Hr). pose proof (as_string_block_key _ Hh) as Hk.
  destruct (Hs _ Hk) as (Hc & _ & Hrep). split; try done.
Qed.

Lemma handle_small s r s' resp : small s -> bounded s r ->
  handle s r.(req_msg) r.(req_header) r.(req_body) = Some (s', resp) -> small s'.
Proof.
  intros Hs Hb E. pose proof (bounded_wf s r Hs Hb) as Hw.
  destruct r as [m h body]. cbn [req_msg req_header req_body] in *.
  destruct (handle_spec s m h body Hw) as (s'' & t & d & b' & E' & Hst & Hv & Hf & Hf' & Hr).
  simplify_eq. destruct Hw as [Hh Hbody Hsum _ _ _].
  pose proof (as_string_block_key _ Hh) as Hk0. destruct Hh.
  assert (Hpos : reads_body m = true -> Z.of_nat (Z.to_nat h.(position) + length body) < 2 ^ 32).
  { intros Hm. specialize (Hbody Hm). lia. }
  assert (Hblk : forall k, block_key k -> small_block (view s' k)).
  { intros k Hk. destruct (decide (k = as_string h)) as [->|Hne].
    - eapply block_step_small; [apply Hst|done|]. destruct (Hs _ Hk0) as (? & ? & _). by split.
    - rewrite Hf by done. destruct (Hs _ Hk) as (? & ? & _). by split. }
  intros k Hk. destruct (Hblk k Hk) as [Hc Hp]. split_and!; [done..|].
  destruct (decide (k = as_string h)) as [->|Hne]; [|rewrite Hf' by auto; apply Hs, Hk].
  destruct (decide (m = replication)) as [->|Hm]; [|rewrite Hf' by auto; apply Hs, Hk].
  rewrite Hr by done. intros c [= <-]. apply overlay_small; [by apply Hpos|].
  destruct (replica s (as_string h)) eqn:Er; [by eapply (Hs _ Hk0)|simpl; lia].
Qed.

(** A step on the block a request addresses and on any other block. *)
Lemma handle_view s r s' resp k : small s -> bounded s r -> block_key k ->
  handle s r.(req_msg) r.(req_header) r.(req_body) = Some (s', resp) ->
  (as_string r.(req_header) = k /\
   exists t d, resp = mk_packet (set_type t r.(req_header)) d /\
     block_step r.(req_msg) (Z.to_nat r.(req_header).(position))
       (Z.to_nat r.(req_header).(datasize)) r.(req_header).(version) r.(req_body) (view s k)
     = (t, d, view s' k)) \/
  (as_string r.(req_header) <> k /\ view s' k = view s k).
Proof.
  intros Hs Hb Hk E. pose proof (bounded_wf s r Hs Hb) as Hw.
  destruct r as [m h body]. cbn [req_msg req_header req_body] in *.
  destruct (handle_spec s m h body Hw) as (s'' & t & d & b' & E' & Hst & Hv & Hf & _).
  simplify_eq. destruct (decide (as_string h = k)) as [<-|Hne]; [left|right].
  - split; [done|]. eauto.
  - split; [done|]. apply Hf; congruence.
Qed.

(** Every request of a run is bounded in the state it finds. *)
Fixpoint bounded_run (s : server D) (reqs : list request) : Prop :=
  match reqs with
  | [] => True
  | r :: reqs => bounded s r /\
      forall s' resp, handle s r.(req_msg) r.(req_header) r.(req_body) = Some (s', resp) ->
        bounded_run s' reqs
  end.

(** The requests that can end or replace the pending log of block [k]. *)
Definition resolves (k : bytes) (r : request) : bool :=
  bool_decide (as_string r.(req_header) = k) &&
  match r.(req_msg) with
  | two_pc_commit_execute | two_pc_commit_rollback | two_pc_prepare_quick => true
  | _ => false
  end.

Definition is_prepare_of (k : bytes) (r : request) : Prop :=
  as_string r.(req_header) = k /\ r.(req_msg) = two_pc_prepare.

Lemma busy_touch b : busy b = true -> is_Some b.(contents) -> touch b = b.
Proof. intros _ [c E]. unfold touch. by rewrite E. Qed.

Lemma busy_keeps_block r k s s' resp : small s -> bounded s r -> block_key k ->
  is_Some (view s k).(contents) -> busy (view s k) = true -> resolves k r = false ->
  handle s r.(req_msg) r.(req_header) r.(req_body) = Some (s', resp) ->
  view s' k = view s k /\
  (is_prepare_of k r -> resp.(header) = set_type two_pc_prepare_abort r.(req_header)).
Proof.
  intros Hs Hb Hk Hc Hbusy Hres E.
  destruct (handle_view s r s' resp k Hs Hb Hk E) as [(Ek & t & d & -> & Hst)|[Hne Hv]].
  - unfold resolves in Hres. rewrite bool_decide_true in Hres by done. unfold is_prepare_of.
    destruct (req_msg r); cbn [block_step andb] in *; try discriminate;
      try (destruct (contents (view s k)); (apply pair_equal_spec in Hst as [_ Hv];
           split; [by rewrite Hv|by intros [_ ?]])).
    rewrite busy_touch, Hbusy in Hst by done. apply pair_equal_spec in Hst as [Ht Hv].
    injection Ht as <- <-. by rewrite Hv.
  - split; [done|]. by intros [? _].
Qed.

Lemma run_total s reqs : small s -> bounded_run s reqs -> exists s' out, run s reqs = Some (s', out).
Proof.
  revert s. induction reqs as [|r reqs IH]; intros s Hs Hb; [by eexists _, _|].
  destruct Hb as [Hb Hnext]. pose proof (bounded_wf s r Hs Hb) as Hw.
  destruct (handle_spec s _ _ _ Hw) as (s1 & t & d & b' & E & _).
  destruct (IH s1) as (s' & out & Er).
  - by eapply handle_small.
  - by eapply Hnext.
  - cbn [run]. rewrite E. cbn [mbind option_bind]. rewrite Er. by eexists _, _.
Qed.

End runs.

Section run_facts.
Context {D : Type} `{KVLaws D}.
Implicit Types (s : server D).

Lemma length_wire r : framed r -> (bytesize <= length (wire r))%nat.
Proof.
  intros (Hh & _ & _). unfold wire. rewrite length_app, leveldb_pack_facts.leveldb_length_dump by done. lia.
Qed.

(** One framed request at the head of the input is read and handled. *)
Lemma start_read_header_wire s r rest : framed r ->
  start_read_header s (wire r ++ rest)
  = '(s', resp) ← handle s r.(req_msg) r.(req_header) r.(req_body);
    Some (s', [resp], Some rest).
Proof.
  intros (Hh & Ht & Hb). unfold start_read_header, wire. rewrite <- (assoc_L (++)).
  rewrite read_n_app by (by apply leveldb_pack_facts.leveldb_length_dump).
  rewrite <- (app_nil_r (dump _)), leveldb_pack_facts.leveldb_parse_dump_app by done.
  cbn [mbind option_bind]. rewrite Ht. destruct (reads_body (req_msg r)).
  - rewrite read_n_app by lia. done.
  - rewrite Hb. done.
Qed.

Lemma start_read_header_short s rest : (length rest < bytesize)%nat ->
  start_read_header s rest = Some (s, [], None).
Proof. intros Hr. unfold start_read_header, read_n. by rewrite decide_False by lia. Qed.

Lemma serve_wire s reqs tail s' out fuel :
  Forall framed reqs -> (length tail < bytesize)%nat -> run s reqs = Some (s', out) ->
  (length reqs < fuel)%nat -> serve fuel s (concat (map wire reqs) ++ tail) = Some (s', out).
Proof.
  revert s out fuel. induction reqs as [|r reqs IH]; intros s out [|fuel] Hf Ht Hr Hl;
    try (simpl in Hl; lia).
  - cbn [serve map concat app]. rewrite start_read_header_short by done. simpl in Hr. by simplify_eq/=.
  - apply Forall_cons in Hf as [Hf1 Hf]. cbn [serve map concat]. rewrite <- (assoc_L (++)).
    rewrite start_read_header_wire by done. cbn [run] in Hr.
    destruct (handle s _ _ _) as [[s1 resp]|] eqn:E; [|done]. cbn [mbind option_bind] in *.
    destruct (run s1 reqs) as [[s2 out']|] eqn:E'; [|done]. cbn [mbind option_bind] in *.
    simplify_eq. simpl in Hl. rewrite (IH s1 out' fuel) by (done || lia). done.
Qed.

(** While a log is pending, a run without a resolving request leaves the block. *)
Lemma busy_keeps_run k s reqs s' out : small s -> bounded_run s reqs -> block_key k ->
  is_Some (view s k).(contents) -> busy (view s k) = true ->
  Forall (fun r => resolves k r = false) reqs -> run s reqs = Some (s', out) ->
  small s' /\ view s' k = view s k /\
  Forall2 (fun r resp => is_prepare_of k r ->
    resp.(header) = set_type two_pc_prepare_abort r.(req_header)) reqs out.
Proof.
  revert s out. induction reqs as [|r reqs IH]; intros s out Hs Hb Hk Hc Hbusy Hres Hr.
  - simpl in Hr. simplify_eq. done.
  - destruct Hb as [Hb Hnext]. apply Forall_cons in Hres as [Hres1 Hres]. cbn [run] in Hr.
    destruct (handle s _ _ _) as [[s1 resp]|] eqn:E; [|done]. cbn [mbind option_bind] in *.
    destruct (run s1 reqs) as [[s2 out']|] eqn:E'; [|done]. cbn [mbind option_bind] in *.
    simplify_eq. pose proof (handle_small s r s1 resp Hs Hb E) as Hs1.
    destruct (busy_keeps_block r k s s1 resp Hs Hb Hk Hc Hbusy Hres1 E) as [Hv Ha].
    destruct (IH s1 out') as (? & Hv' & Hall); auto; [by eapply Hnext|by rewrite Hv..|].
    split_and!; [done|congruence|]. by constructor.
Qed.

(** A prepare that is agreed leaves its data pending. *)
Lemma prepare_agreed s r s' resp : small s -> bounded s r -> r.(req_msg) = two_pc_prepare ->
  handle s r.(req_msg) r.(req_header) r.(req_body) = Some (s', resp) ->
  resp.(header) = set_type two_pc_prepare_agree r.(req_header) ->
  let k := as_string r.(req_header) in
  view s' k = set_pending r.(req_header).(version)
    (overlay (Z.to_nat r.(req_header).(position)) r.(req_body) (default [] (view s k).(contents)))
    (touch (view s k)).
Proof.
  intros Hs Hb Hm E Ha k. assert (block_key k) as Hk by apply as_string_block_key, Hb.
  destruct (handle_view s r s' resp k Hs Hb Hk E) as [(_ & t & d & -> & Hst)|[? _]]; [|done].
  rewrite Hm in Hst. cbn [block_step] in Hst. cbn [header] in Ha.
  destruct (busy (touch (view s k))); apply pair_equal_spec in Hst as [Ht <-].
  - injection Ht as <- <-. apply (f_equal type) in Ha. done.
  - by rewrite touch_contents.
Qed.

Lemma commit_view s r s' resp : small s -> bounded s r -> r.(req_msg) = two_pc_commit_execute ->
  handle s r.(req_msg) r.(req_header) r.(req_body) = Some (s', resp) ->
  let k := as_string r.(req_header) in view s' k = promote (view s k).
Proof.
  intros Hs Hb Hm E k. assert (block_key k) as Hk by apply as_string_block_key, Hb.
  destruct (handle_view s r s' resp k Hs Hb Hk E) as [(_ & t & d & -> & Hst)|[? _]]; [|done].
  rewrite Hm in Hst. by apply pair_equal_spec in Hst as [_ <-].
Qed.

Lemma read_data s r s' resp c : small s -> bounded s r -> r.(req_msg) = get ->
  (view s (as_string r.(req_header))).(contents) = Some c ->
  handle s r.(req_msg) r.(req_header) r.(req_body) = Some (s', resp) ->
  resp = mk_packet (set_type ack r.(req_header))
    (resize_to (Z.to_nat r.(req_header).(datasize)) (drop (Z.to_nat r.(req_header).(position)) c)).
Proof.
  intros Hs Hb Hm Hc E. assert (block_key (as_string r.(req_header))) as Hk
    by apply as_string_block_key, Hb.
  destruct (handle_view s r s' resp _ Hs Hb Hk E) as [(_ & t & d & -> & Hst)|[? _]]; [|done].
  rewrite Hm in Hst. cbn [block_step] in Hst. rewrite Hc in Hst.
  apply pair_equal_spec in Hst as [Ht _]. by injection Ht as <- <-.
Qed.

Lemma run_app s r1 r2 :
  run s (r1 ++ r2) = '(s, out1) ← run s r1; '(s, out2) ← run s r2; Some (s, out1 ++ out2).
Proof.
  revert s. induction r1 as [|r r1 IH]; intros s; cbn [run app].
  - cbn [mbind option_bind]. by destruct (run s r2) as [[]|].
  - destruct (handle s _ _ _) as [[s1 resp]|]; [|done]. cbn [mbind option_bind].
    rewrite IH. destruct (run s1 r1) as [[s2 o]|]; [|done]. cbn [mbind option_bind].
    by destruct (run s2 r2) as [[]|].
Qed.

End run_facts.

(** The empty server. *)
Definition empty_server : server (gmap bytes bytes) := mk_server ∅ ∅.

Lemma empty_small : small empty_server.
Proof.
  intros k _. assert (pending (view empty_server k) = []) as -> by done. by split_and!.
Qed.

(** A request for the witnesses: block 0 of a fixed file. *)
Definition sample_header (m : msg_t) (pos size ver : Z) : packet_header :=
  mk_header (code m) (replicate 32 x61) 0 pos size ver [x01; x02; x03; x04].

Definition sample_request (m : msg_t) (pos ver : Z) (body : bytes) : request :=
  mk_request m (sample_header m pos (Z.of_nat (length body)) ver) body.

Lemma sample_bounded m pos body ver :
  0 <= pos < 2 ^ 16 -> Z.of_nat (length body) < 2 ^ 31 -> 0 <= ver < 2 ^ 32 -> m <> get ->
  forall s : server (gmap bytes bytes),
  bounded s (sample_request m pos ver body).
Proof.
  intros Hp Hl Hv Hm s. split_and!.
  - split; cbn [sample_request sample_header req_header type uuid blockid position datasize version salt];
      [apply leveldb_code_range|done|lia|lia|lia|lia|done].
  - done.
  - cbn [sample_request sample_header req_header position datasize]. lia.
  - done.
Qed.

Definition sample_prepare : request := sample_request two_pc_prepare 2 7 [x41; x42; x43].
Definition sample_other : request := sample_request two_pc_prepare 0 9 [x5a].
Definition sample_rollback : request := sample_request two_pc_commit_rollback 0 9 [].
Definition sample_commit : request := sample_request two_pc_commit_execute 0 7 [].
Definition sample_get : request := mk_request get (sample_header get 2 3 0) [].

(** The server a sequence of sample requests leads to. *)
Definition after (reqs : list request) : server (gmap bytes bytes) :=
  default empty_server (fst <$> run empty_server reqs).

Definition sample_writes : list request :=
  [sample_prepare; sample_other; sample_rollback; sample_commit].

Ltac in_sample := unfold sample_writes; set_solver.

Lemma sample_wf (r : request) : r ∈ sample_writes -> forall s, bounded s r.
Proof.
  intros Hr s. repeat (apply elem_of_cons in Hr as [->|Hr]); [..|by apply elem_of_nil in Hr];
    by apply sample_bounded.
Qed.

Lemma sample_framed (r : request) : r ∈ sample_writes -> framed r.
Proof.
  intros Hr. split; [apply (sample_wf r Hr empty_server)|].
  repeat (apply elem_of_cons in Hr as [->|Hr]); [..|by apply elem_of_nil in Hr]; done.
Qed.

Lemma after_small reqs :
  Forall (fun r => r ∈ sample_writes) reqs ->
  small (after reqs).
Proof.
  intros Hf. unfold after.
  enough (forall s, small s -> small (default empty_server (fst <$> run s reqs))) as E
    by apply E, empty_small.
  induction Hf as [|r reqs Hr _ IH]; intros s Hs; [done|]. cbn [run].
  destruct (handle s _ _ _) as [[s1 resp]|] eqn:E; [|apply empty_small].
  cbn [mbind option_bind]. pose proof (handle_small s r s1 resp Hs (sample_wf r Hr s) E) as Hs1.
  specialize (IH s1 Hs1). by destruct (run s1 reqs) as [[]|].
Qed.

(** ** Properties *)

(** C7. The handlers refine the abstract block protocol: on every request that
    respects the buffer sizes, the server answers, with the request's header, the
    type and payload that [block_step] gives for the addressed block, leaves that
    block as [block_step] says, and touches no other block and no replica (a
    replication request: only the replica it names). *)
Theorem handle_refines {D} `{KVLaws D} (s : server D) (m : msg_t) (h : packet_header) (body : bytes)
    (Hwf : wf_request s m h body) :
  exists s' t d b',
    handle s m h body = Some (s', mk_packet (set_type t h) d) /\
    block_step m (Z.to_nat h.(position)) (Z.to_nat h.(datasize)) h.(version) body
      (view s (as_string h)) = (t, d, b') /\
    view s' (as_string h) = b' /\
    step_frame m s s' (as_string h) (Z.to_nat h.(position)) body.
Proof. by apply handle_spec. Qed.

Lemma handle_refines_witness :
  exists s' t d b',
    handle empty_server two_pc_prepare sample_prepare.(req_header) [x41; x42; x43]
      = Some (s', mk_packet (set_type t sample_prepare.(req_header)) d) /\
    t = two_pc_prepare_agree /\ b'.(pending) = [x00; x00; x41; x42; x43] /\
    view s' (as_string sample_prepare.(req_header)) = b'.
Proof.
  destruct (handle_refines empty_server two_pc_prepare sample_prepare.(req_header) [x41; x42; x43]
    (bounded_wf _ sample_prepare empty_small (sample_wf sample_prepare ltac:(in_sample) _)))
    as (s' & t & d & b' & Hh & Hst & Hv & _).
  exists s', t, d, b'. split; [exact Hh|].
  vm_compute in Hst. injection Hst as <- _ <-. split; [done|]. split; [done|exact Hv].
Defined.

(** A connection is framed correctly and always comes to an end: on the
    concatenation of any requests a client writes, followed by an incomplete
    header, the read loop handles exactly those requests, in order, and stops,
    with one unit of fuel more than there are requests. *)
Theorem serve_framing {D} `{KVLaws D} (s : server D) reqs tail s' out fuel
    (Hf : Forall framed reqs) (Ht : (length tail < bytesize)%nat)
    (Hr : run s reqs = Some (s', out)) (Hl : (length reqs < fuel)%nat) :
  serve fuel s (concat (map wire reqs) ++ tail) = Some (s', out).
Proof. by apply serve_wire. Qed.

Lemma serve_framing_witness :
  (fst <$> serve 3 empty_server
     (concat (map wire [sample_prepare; sample_commit]) ++ [x00; x01]))
  = Some (after [sample_prepare; sample_commit]).
Proof.
  rewrite (serve_framing empty_server [sample_prepare; sample_commit] [x00; x01]
    (after [sample_prepare; sample_commit])
    (default [] (snd <$> run empty_server [sample_prepare; sample_commit])) 3).
  - reflexivity.
  - repeat constructor; apply sample_framed; in_sample.
  - change bytesize with 52%nat. simpl. lia.
  - reflexivity.
  - simpl; lia.
Defined.

(** C10. No server ever fails or outgrows its 32-bit sizes: along every run whose
    requests are well formed and whose reads start inside their block, every
    handler succeeds, and no block, pending log or replica reaches 2^32 bytes. *)
Theorem run_safe {D} `{KVLaws D} (s : server D) reqs
    (Hs : small s) (Hb : bounded_run s reqs) :
  exists s' out, run s reqs = Some (s', out) /\ small s' /\ length out = length reqs.
Proof.
  revert s Hs Hb. induction reqs as [|r reqs IH]; intros s Hs Hb; [by eexists _, _|].
  destruct Hb as [Hb Hnext].
  destruct (handle_spec s _ _ _ (bounded_wf s r Hs Hb)) as (s1 & t & d & b' & E & _).
  destruct (IH s1) as (s' & out & Er & Hs' & Hl); [by eapply handle_small|by eapply Hnext|].
  cbn [run]. rewrite E. cbn [mbind option_bind]. rewrite Er.
  eexists _, _. split; [done|]. split; [done|]. simpl. lia.
Qed.

Lemma run_safe_witness : small empty_server /\
  exists s' out, run empty_server [sample_prepare; sample_commit] = Some (s', out) /\ small s' /\
    length out = 2%nat.
Proof.
  split; [apply empty_small|]. apply run_safe; [apply empty_small|].
  split; [apply sample_wf; in_sample|]. intros s1 resp1 _.
  split; [apply sample_wf; in_sample|]. intros s2 resp2 _. exact I.
Defined.

(** Two-phase isolation on a block: once a prepare with a fresh version is
    agreed, then through any run of other requests that does not commit, roll back
    or quick-prepare this block, every other prepare of the block is answered with
    an abort, and the commit that ends the run installs exactly the block the
    agreed prepare computed, under its version; a later read of any range of the
    block returns those bytes. *)
Theorem prepare_commit_read {D} `{KVLaws D} (s s1 s2 s3 : server D) p reqs c g resp out ack rd
    (Hs : small s) (Hp : bounded s p) (Hpm : p.(req_msg) = two_pc_prepare)
    (Hep : handle s p.(req_msg) p.(req_header) p.(req_body) = Some (s1, resp))
    (Hagree : resp.(header) = set_type two_pc_prepare_agree p.(req_header))
    (Hfresh : p.(req_header).(version) <> 0 /\
              p.(req_header).(version) <> (touch (view s (as_string p.(req_header)))).(cver))
    (Hb : bounded_run s1 reqs)
    (Hres : Forall (fun r => resolves (as_string p.(req_header)) r = false) reqs)
    (Her : run s1 reqs = Some (s2, out))
    (Hc : bounded s2 c) (Hcm : c.(req_msg) = two_pc_commit_execute)
    (Hck : as_string c.(req_header) = as_string p.(req_header))
    (Hec : handle s2 c.(req_msg) c.(req_header) c.(req_body) = Some (s3, ack))
    (Hg : bounded s3 g) (Hgm : g.(req_msg) = get)
    (Hgk : as_string g.(req_header) = as_string p.(req_header))
    (Heg : handle s3 g.(req_msg) g.(req_header) g.(req_body) = Some (s3, rd)) :
  let k := as_string p.(req_header) in
  let final := overlay (Z.to_nat p.(req_header).(position)) p.(req_body)
                 (default [] (view s k).(contents)) in
  Forall2 (fun r resp => is_prepare_of k r ->
    resp.(header) = set_type two_pc_prepare_abort r.(req_header)) reqs out /\
  (view s3 k).(contents) = Some final /\
  (view s3 k).(cver) = p.(req_header).(version) /\
  rd.(data) = resize_to (Z.to_nat g.(req_header).(datasize))
                (drop (Z.to_nat g.(req_header).(position)) final).
Proof.
  intros k final. assert (block_key k) as Hk by apply as_string_block_key, Hp.
  pose proof (prepare_agreed s p s1 resp Hs Hp Hpm Hep Hagree) as Hv1. fold k in Hv1.
  pose proof (handle_small s p s1 resp Hs Hp Hep) as Hs1.
  destruct (busy_keeps_run k s1 reqs s2 out) as (Hs2 & Hv2 & Hall); auto.
  { rewrite Hv1. cbn [set_pending contents]. by rewrite touch_contents. }
  { rewrite Hv1. unfold busy. cbn [set_pending pver cver]. fold k in Hfresh. lia. }
  pose proof (commit_view s2 c s3 ack Hs2 Hc Hcm Hec) as Hv3.
  pose proof (handle_small s2 c s3 ack Hs2 Hc Hec) as Hs3.
  cbn zeta in Hv3. rewrite Hck in Hv3. fold k in Hv3. rewrite Hv2, Hv1 in Hv3.
  split_and!; [done|by rewrite Hv3..|].
  rewrite (read_data s3 g s3 rd final Hs3 Hg Hgm); [done| |done].
  rewrite Hgk. fold k. by rewrite Hv3.
Qed.

Lemma sample_get_bounded :
  bounded (after [sample_prepare; sample_other; sample_commit]) sample_get.
Proof.
  split_and!.
  - split; cbn [sample_get sample_header req_header type uuid blockid position datasize version salt];
      [apply leveldb_code_range|done|lia|lia|lia|lia|done].
  - done.
  - done.
  - intros _ c E. vm_compute in E. injection E as <-. done.
Qed.

(** The reply of the last request of a sample run. *)
Definition reply (s : server (gmap bytes bytes)) (r : request) : packet :=
  default (mk_packet r.(req_header) []) (snd <$> handle s r.(req_msg) r.(req_header) r.(req_body)).

Lemma prepare_commit_read_witness :
  (reply (after [sample_prepare; sample_other; sample_commit]) sample_get).(data) = [x41; x42; x43].
Proof.
  pose proof (prepare_commit_read empty_server (after [sample_prepare])
    (after [sample_prepare; sample_other]) (after [sample_prepare; sample_other; sample_commit])
    sample_prepare [sample_other] sample_commit sample_get
    (reply empty_server sample_prepare) [reply (after [sample_prepare]) sample_other]
    (reply (after [sample_prepare; sample_other]) sample_commit)
    (reply (after [sample_prepare; sample_other; sample_commit]) sample_get)) as P.
  destruct P as (_ & _ & _ & ->).
  - apply empty_small.
  - apply sample_wf; in_sample.
  - reflexivity.
  - vm_refl.
  - reflexivity.
  - split; vm_compute; discriminate.
  - split; [apply sample_wf; in_sample|]. intros. exact I.
  - repeat constructor.
  - vm_refl.
  - apply sample_wf; in_sample.
  - reflexivity.
  - reflexivity.
  - vm_refl.
  - apply sample_get_bounded.
  - reflexivity.
  - reflexivity.
  - vm_refl.
  - vm_refl.
Defined.

(** A rolled-back competitor destroys the winner's data: a writer whose
    prepare was agreed loses it when a second writer, whose prepare of the same
    block was aborted, rolls back (as the coordinator does on every block after one
    abort); the first writer's commit then stores an empty block with version 0, and
    is acknowledged. *)
Theorem rollback_discards_winner {D} `{KVLaws D} (s s1 s2 s3 : server D) p b c r1 r2 r3
    (Hs : small s) (Hp : bounded s p) (Hpm : p.(req_msg) = two_pc_prepare)
    (Hep : handle s p.(req_msg) p.(req_header) p.(req_body) = Some (s1, r1))
    (Hagree : r1.(header) = set_type two_pc_prepare_agree p.(req_header))
    (Hb : bounded s1 b) (Hbm : b.(req_msg) = two_pc_commit_rollback)
    (Hbk : as_string b.(req_header) = as_string p.(req_header))
    (Heb : handle s1 b.(req_msg) b.(req_header) b.(req_body) = Some (s2, r2))
    (Hc : bounded s2 c) (Hcm : c.(req_msg) = two_pc_commit_execute)
    (Hck : as_string c.(req_header) = as_string p.(req_header))
    (Hec : handle s2 c.(req_msg) c.(req_header) c.(req_body) = Some (s3, r3)) :
  (view s3 (as_string p.(req_header))).(contents) = Some [] /\
  (view s3 (as_string p.(req_header))).(cver) = 0 /\
  r3.(header) = set_type two_pc_commit_ack c.(req_header).
Proof.
  set (k := as_string p.(req_header)) in *.
  assert (block_key k) as Hk by apply as_string_block_key, Hp.
  pose proof (handle_small s p s1 r1 Hs Hp Hep) as Hs1.
  pose proof (handle_small s1 b s2 r2 Hs1 Hb Heb) as Hs2.
  pose proof (commit_view s2 c s3 r3 Hs2 Hc Hcm Hec) as Hv3. cbn zeta in Hv3. rewrite Hck in Hv3.
  destruct (handle_view s1 b s2 r2 k Hs1 Hb Hk Heb) as [(_ & t & d & _ & Hst)|[? _]]; [|done].
  rewrite Hbm in Hst. cbn [block_step] in Hst. apply pair_equal_spec in Hst as [_ Hv2].
  rewrite <- Hv2 in Hv3. split_and!; [by rewrite Hv3..|].
  destruct (handle_view s2 c s3 r3 k Hs2 Hc Hk Hec) as [(_ & t' & d' & -> & Hst)|[? _]]; [|done].
  rewrite Hcm in Hst. apply pair_equal_spec in Hst as [Ht _]. by injection Ht as <- <-.
Qed.

Lemma rollback_discards_winner_witness :
  (reply (after [sample_prepare]) sample_other).(header)
    = set_type two_pc_prepare_abort sample_other.(req_header) /\
  (view (after [sample_prepare; sample_rollback; sample_commit])
     (as_string sample_prepare.(req_header))).(contents) = Some [].
Proof.
  split; [vm_refl|].
  apply (rollback_discards_winner empty_server (after [sample_prepare])
    (after [sample_prepare; sample_rollback])
    (after [sample_prepare; sample_rollback; sample_commit])
    sample_prepare sample_rollback sample_commit
    (reply empty_server sample_prepare) (reply (after [sample_prepare]) sample_rollback)
    (reply (after [sample_prepare; sample_rollback]) sample_commit)).
  all: try apply empty_small.
  all: try (apply sample_wf; in_sample).
  all: vm_refl.
Defined.

(** The test for a pending log and the write of the new one are not one step:
    when two connections run the tests of two prepares of one free block before
    either writes, both prepares are agreed, whatever their versions, and the second
    write replaces the log of the first. *)
Theorem prepare_race {D} `{KVLaws D} (s : server D) p q
    (Hs : small s) (Hp : bounded s p) (Hpm : p.(req_msg) = two_pc_prepare)
    (Hq : bounded s q) (Hqm : q.(req_msg) = two_pc_prepare)
    (Hk : as_string q.(req_header) = as_string p.(req_header))
    (Hfree : busy (touch (view s (as_string p.(req_header)))) = false) :
  exists s1 s2 s3 s4 old,
    prepare_check s p.(req_header) = (s1, Some (Some old)) /\
    prepare_check s1 q.(req_header) = (s2, Some (Some old)) /\
    prepare_write s2 p.(req_header) p.(req_body) old = Some s3 /\
    prepare_write s3 q.(req_header) q.(req_body) old = Some s4 /\
    (view s4 (as_string p.(req_header))).(pver) = q.(req_header).(version) /\
    (view s4 (as_string p.(req_header))).(pending)
      = overlay (Z.to_nat q.(req_header).(position)) q.(req_body) old.
Proof.
  destruct p as [pm ph pb], q as [qm qh qb]. cbn [req_msg req_header req_body] in *.
  subst pm qm. set (k := as_string ph) in *.
  pose proof Hp as (Hph & Hpb & Hps & _). pose proof Hq as (Hqh & Hqb & Hqs & _).
  cbn [req_msg req_header req_body] in *.
  set (old := default [] (view s k).(contents)).
  destruct (prepare_check_spec s ph Hph) as (s1 & E1 & Hv1 & _). fold k in E1, Hv1.
  destruct (prepare_check_spec s1 qh Hqh) as (s2 & E2 & Hv2 & _). rewrite Hk in E2, Hv2.
  assert (touch (touch (view s k)) = touch (view s k)) as Htt.
  { unfold touch. by destruct (contents (view s k)) as [c|] eqn:E; rewrite ?E. }
  rewrite Hv1, Htt, Hfree, touch_contents in E2. rewrite Hfree in E1. rewrite Hv1, Htt in Hv2.
  assert (Z.of_nat (length old) < 2 ^ 32) as Hold.
  { destruct (Hs k (as_string_block_key _ Hph)) as (Hc & _). unfold old.
    destruct (contents (view s k)) eqn:E; [by apply Hc|simpl; lia]. }
  destruct (prepare_write_spec s2 ph pb old Hph) as (s3 & E3 & Hv3 & _); auto.
  destruct (prepare_write_spec s3 qh qb old Hqh) as (s4 & E4 & Hv4 & _); auto.
  rewrite Hk in Hv4. exists s1, s2, s3, s4, old. rewrite Hv4. split_and!; done.
Qed.

Lemma prepare_race_witness :
  exists s1 s2 s3 s4 old,
    prepare_check empty_server sample_prepare.(req_header) = (s1, Some (Some old)) /\
    prepare_check s1 sample_other.(req_header) = (s2, Some (Some old)) /\
    prepare_write s2 sample_prepare.(req_header) sample_prepare.(req_body) old = Some s3 /\
    prepare_write s3 sample_other.(req_header) sample_other.(req_body) old = Some s4 /\
    (view s4 (as_string sample_prepare.(req_header))).(pver) = 9 /\
    (view s4 (as_string sample_prepare.(req_header))).(pending) = overlay 0 [x5a] old.
Proof.
  apply (prepare_race empty_server sample_prepare sample_other).
  all: try apply empty_small.
  all: try (apply sample_wf; in_sample).
  all: vm_refl.
Defined.
