(* ===== verification/BlockClient.v ===== *)
(** * The test client of the block store ([ssbd/client.cpp])

    The program that the build makes beside the server: it reads and writes positions of one
    file in turn and waits for each answer.  Here it talks to the handlers of [Ssbd] through
    the bytes on the wire. *)
From Stdlib Require Import ZArith Lia.
From stdpp Require Import base tactics option list gmap strings.
From S2P Require Import Prelude Wire KvLog Ssbd.
Import leveldb_pack.

(** [genversion], from the microseconds since the epoch. *)
Definition genversion (micros : Z) : Z := u32 (Z.shiftr (u64 micros) 6).

Definition test_uuid : bytes := concat (replicate 15 [x07; x08]) ++ [x07; x09].

(** A packet made by [std::make_shared] is zero but for the fields that are assigned; the
    version is not among them. *)
Definition header_at (m : msg_t) (pos size : Z) : packet_header :=
  mk_header (code m) test_uuid (u32 (Z.quot pos 4096)) (u16 (Z.rem pos 4096)) size 0 (replicate 4 x00).

(** The packets of [write]: the version is the data, and behind it room for the buffer,
    which is not copied there. *)
Definition prepare_packet (version pos : Z) : packet :=
  mk_packet (header_at two_pc_prepare pos 0) (le_bytes 4 (hton 4 version)).

Definition commit_packet (version pos : Z) (buf : bytes) : packet :=
  mk_packet (header_at two_pc_commit_execute pos 0) (le_bytes 4 (hton 4 version) ++ replicate (length buf) x00).

Section client.
Context {D : Type} `{KVStore D}.

(** What is sent is served, and the answer is read: a header and its data. *)
Definition call (input : bytes) (s : server D) : option (server D * packet) :=
  '(s, out, rest) ← start_read_header s input;
  match out, rest with
  | [resp], Some _ => '(p, _) ← read_leveldb (serialize resp).2; Some (s, p)
  | _, _ => None
  end.

(** The answers are read, and not looked at; of the second the header only, so that data
    behind it, which no server sends, would be read as the next answer: [None]. *)
Definition client_write (micros pos : Z) (buf : bytes) (s : server D) : option (server D) :=
  let version := genversion micros in
  '(s, _) ← call (serialize (prepare_packet version pos)).2 s;
  '(s, resp) ← call (serialize (commit_packet version pos buf)).2 s;
  if decide (resp.(data) = []) then Some s else None.

Definition client_read (pos : Z) (s : server D) : option (server D * bytes) :=
  '(s, resp) ← call (serialize_header (mk_packet (header_at get pos 2) [])) s;
  Some (s, resp.(data)).

Fixpoint client_reads (n : nat) (i : Z) (s : server D) : option (server D) :=
  match n with
  | O => Some s
  | S n => '(s, _) ← client_read i s; client_reads n (i + 1) s
  end.

Fixpoint client_writes (n : nat) (micros : Z -> Z) (buf : bytes) (i : Z) (s : server D) : option (server D) :=
  match n with
  | O => Some s
  | S n => s ← client_write (micros i) i buf s; client_writes n micros buf (i + 1) s
  end.

(** [main], with the numbers of reads and writes, and the clock at each write. *)
Definition client_main (reads writes : nat) (micros : Z -> Z) (s : server D) : option (server D) :=
  s ← client_reads reads 0 s; client_writes writes micros (replicate 4096 x00) 0 s.

End client.

(** ** Calls *)

Lemma resize_to_le n b : (n <= length b)%nat -> resize_to n b = take n b.
Proof. intros Hn. unfold resize_to. replace (n - length b)%nat with O by lia. apply app_nil_r. Qed.

Definition position_ok (pos : Z) : Prop := 0 <= pos < 2 ^ 31.

Lemma header_wf m pos size : 0 <= size < 2 ^ 32 -> wf_header (header_at m pos size).
Proof.
  intros Hs. split; cbn [header_at type uuid blockid position datasize version salt]; try done; try lia.
  - apply leveldb_code_range.
  - apply wrap_range.
  - apply wrap_range.
Qed.

Definition key_at (pos : Z) : bytes := as_string (header_at get pos 0).

Section calls.
Context {D : Type} `{KVLaws D}.
Implicit Types (s : server D).

Lemma call_handles r s s' resp : framed r -> handle s r.(req_msg) r.(req_header) r.(req_body) = Some (s', resp) ->
  wf_header resp.(header) -> Z.of_nat (length resp.(data)) < 2 ^ 32 -> call (wire r) s = Some (s', (serialize resp).1).
Proof.
  intros Hr E Hh Hd. unfold call. rewrite <- (app_nil_r (wire r)), start_read_header_wire, E by done. cbn [mbind option_bind].
  rewrite <- (app_nil_r (serialize resp).2), (proj1 leveldb_roundtrip) by done. done.
Qed.

(** A request is answered, and does to its block what the protocol says. *)
Lemma call_spec r s : small s -> framed r -> bounded s r -> exists s' t d,
  call (wire r) s = Some (s', (serialize (mk_packet (set_type t r.(req_header)) d)).1) /\ small s' /\
  block_step r.(req_msg) (Z.to_nat r.(req_header).(position)) (Z.to_nat r.(req_header).(datasize)) r.(req_header).(version) r.(req_body)
    (view s (as_string r.(req_header))) = (t, d, view s' (as_string r.(req_header))) /\
  forall k, block_key k -> k <> as_string r.(req_header) -> view s' k = view s k.
Proof.
  intros Hs Hf Hb. destruct (handle_spec s _ _ _ (bounded_wf s r Hs Hb)) as (s' & t & d & b' & E & Hst & <- & Hv & _).
  exists s', t, d. split_and!; [|by eapply handle_small|done|done].
  apply call_handles; [done|done| |].
  - destruct Hf as ([] & _). split; cbn; done || apply leveldb_code_range.
  - cbn [data]. destruct Hf as ([] & _ & _). destruct (req_msg r); cbn [block_step] in Hst; repeat case_match; simplify_eq; cbn; lia || idtac.
    rewrite length_resize_to. lia.
Qed.

End calls.

(** The requests of the client, as the server sees them. *)
Definition prepare_request (version pos : Z) : request :=
  mk_request two_pc_prepare (header_at two_pc_prepare pos 4) (le_bytes 4 (hton 4 version)).

Definition commit_request (version pos : Z) (buf : bytes) : request :=
  mk_request two_pc_commit_execute (header_at two_pc_commit_execute pos (u32 (Z.of_nat (4 + length buf))))
    (le_bytes 4 (hton 4 version) ++ replicate (length buf) x00).

Definition get_request (pos : Z) : request := mk_request get (header_at get pos 2) [].

Lemma prepare_wire version pos : (serialize (prepare_packet version pos)).2 = wire (prepare_request version pos).
Proof. done. Qed.

Lemma commit_wire version pos buf : (serialize (commit_packet version pos buf)).2 = wire (commit_request version pos buf).
Proof. unfold serialize, commit_packet. cbn [data]. by rewrite length_app, length_le_bytes, length_replicate. Qed.

Lemma get_wire pos : serialize_header (mk_packet (header_at get pos 2) []) = wire (get_request pos).
Proof. unfold wire. cbn [get_request req_msg reads_body]. by rewrite app_nil_r. Qed.

Lemma request_keys version pos buf : as_string (prepare_request version pos).(req_header) = key_at pos /\
  as_string (commit_request version pos buf).(req_header) = key_at pos /\ as_string (get_request pos).(req_header) = key_at pos.
Proof. unfold key_at, as_string. cbn [prepare_request commit_request get_request req_header header_at uuid blockid]. done. Qed.

Lemma position_range pos : position_ok pos -> (header_at get pos 0).(position) = Z.rem pos 4096 /\ 0 <= Z.rem pos 4096 < 4096.
Proof.
  intros Hp. unfold position_ok in Hp. pose proof (Z.rem_bound_pos pos 4096 ltac:(lia) ltac:(lia)). split; [|done].
  cbn [header_at position]. apply wrap_small. change (modulus 2) with (2 ^ 16). lia.
Qed.

Lemma prepare_ok {D} `{KVStore D} version pos (s : server D) : position_ok pos -> framed (prepare_request version pos) /\ bounded s (prepare_request version pos).
Proof.
  intros Hp. pose proof (position_range pos Hp) as [Ep Hr]. cbn [header_at position] in Ep.
  split; split; [apply header_wf; lia|done|apply header_wf; lia|]. split_and!; [done| |done]. cbn. lia.
Qed.

Lemma commit_ok {D} `{KVStore D} version pos buf (s : server D) : position_ok pos -> Z.of_nat (length buf) < 2 ^ 31 ->
  framed (commit_request version pos buf) /\ bounded s (commit_request version pos buf).
Proof.
  intros Hp Hb. pose proof (position_range pos Hp) as [Ep Hr]. cbn [header_at position] in Ep.
  assert (u32 (Z.of_nat (4 + length buf)) = Z.of_nat (4 + length buf)) as Eu by (apply wrap_small; change (modulus 4) with (2 ^ 32); lia).
  assert (wf_header (commit_request version pos buf).(req_header)) as Hw by (apply header_wf; rewrite Eu; lia).
  assert (Hl : Z.of_nat (length (commit_request version pos buf).(req_body)) = (commit_request version pos buf).(req_header).(datasize)).
  { cbn [commit_request req_body req_header header_at datasize]. rewrite Eu, length_app, length_le_bytes, length_replicate. done. }
  split; split; [done|by split|done|]. split_and!; [done| |done]. cbn [commit_request req_header header_at position datasize] in *. lia.
Qed.

Lemma get_ok {D} `{KVStore D} pos (s : server D) : position_ok pos ->
  (forall c, db_get (key_at pos) s.(db_) = Some c -> Z.rem pos 4096 <= Z.of_nat (length c)) ->
  framed (get_request pos) /\ bounded s (get_request pos).
Proof.
  intros Hp Hc. pose proof (position_range pos Hp) as [Ep Hr]. cbn [header_at position] in Ep.
  split; split; [apply header_wf; lia|done|apply header_wf; lia|]. split_and!; [done|cbn; lia|]. intros _ c E. cbn [get_request req_header header_at position]. rewrite Ep. by apply Hc.
Qed.

Section writes.
Context {D : Type} `{KVLaws D}.
Implicit Types (s : server D).

(** What the version looks like in a block. *)
Definition version_bytes (micros : Z) : bytes := le_bytes 4 (hton 4 (genversion micros)).

Definition written (micros pos : Z) (b : block) : block :=
  let b := touch b in
  if busy b then promote b
  else
    let c := overlay (Z.to_nat (Z.rem pos 4096)) (version_bytes micros) (default [] b.(contents)) in
    mk_block (Some c) 0 0 c.

Lemma call_prepare v pos s : small s -> position_ok pos -> exists s' p,
  call (serialize (prepare_packet v pos)).2 s = Some (s', p) /\ small s' /\
  (let b := touch (view s (key_at pos)) in
   view s' (key_at pos) = if busy b then b else set_pending 0 (overlay (Z.to_nat (Z.rem pos 4096)) (le_bytes 4 (hton 4 v)) (default [] b.(contents))) b) /\
  forall k, block_key k -> k <> key_at pos -> view s' k = view s k.
Proof.
  intros Hs Hp. rewrite prepare_wire. destruct (prepare_ok v pos s Hp) as [Hf Hb].
  destruct (call_spec _ s Hs Hf Hb) as (s1 & t & d & -> & Hs1 & E & V). destruct (request_keys v pos []) as (K & _). rewrite K in E, V.
  destruct (position_range pos Hp) as [Ep _]. cbn [header_at position] in Ep. cbn [prepare_request req_msg req_header req_body header_at position version block_step] in E.
  rewrite Ep in E. eexists s1, _. split; [reflexivity|]. split; [done|]. split; [|exact V]. cbn zeta in *.
  destruct (busy (touch (view s (key_at pos)))); by apply pair_equal_spec in E as [_ <-].
Qed.

Lemma call_commit v pos buf s : small s -> position_ok pos -> Z.of_nat (length buf) < 2 ^ 31 -> exists s' p,
  call (serialize (commit_packet v pos buf)).2 s = Some (s', p) /\ p.(data) = [] /\ small s' /\ view s' (key_at pos) = promote (view s (key_at pos)) /\
  forall k, block_key k -> k <> key_at pos -> view s' k = view s k.
Proof.
  intros Hs Hp Hl. rewrite commit_wire. destruct (commit_ok v pos buf s Hp Hl) as [Hf Hb].
  destruct (call_spec _ s Hs Hf Hb) as (s1 & t & d & -> & Hs1 & E & V). destruct (request_keys v pos buf) as (_ & K & _). rewrite K in E, V.
  cbn [commit_request req_msg block_step] in E. apply pair_equal_spec in E as [Ed E]. injection Ed as _ <-.
  eexists s1, _. split; [reflexivity|]. by rewrite E.
Qed.

Lemma client_write_calls micros pos buf s s1 p1 s2 p2 : call (serialize (prepare_packet (genversion micros) pos)).2 s = Some (s1, p1) ->
  call (serialize (commit_packet (genversion micros) pos buf)).2 s1 = Some (s2, p2) -> p2.(data) = [] -> client_write micros pos buf s = Some s2.
Proof.
  intros C1 C2 Ed. unfold client_write.
  generalize dependent (serialize (prepare_packet (genversion micros) pos)). intros q C1.
  generalize dependent (serialize (commit_packet (genversion micros) pos buf)). intros q' C2.
  rewrite C1. cbn [mbind option_bind]. rewrite C2. by apply decide_True.
Qed.

Lemma client_write_spec micros pos buf s : small s -> position_ok pos -> Z.of_nat (length buf) < 2 ^ 31 -> exists s',
  client_write micros pos buf s = Some s' /\ small s' /\ view s' (key_at pos) = written micros pos (view s (key_at pos)) /\
  forall k, block_key k -> k <> key_at pos -> view s' k = view s k.
Proof.
  intros Hs Hp Hb. destruct (call_prepare (genversion micros) pos s Hs Hp) as (s1 & p1 & C1 & Hs1 & E1 & V1).
  destruct (call_commit (genversion micros) pos buf s1 Hs1 Hp Hb) as (s2 & p2 & C2 & Ed & Hs2 & E2 & V2).
  exists s2. split; [by eapply client_write_calls|]. split; [done|]. split; [|intros k Hk Hne; by rewrite V2, V1].
  rewrite E2. cbn zeta in E1. rewrite E1. unfold written, version_bytes. by destruct (busy (touch (view s (key_at pos)))).
Qed.

Lemma client_read_spec pos s : small s -> position_ok pos ->
  (forall c, db_get (key_at pos) s.(db_) = Some c -> Z.rem pos 4096 <= Z.of_nat (length c)) -> exists s',
  client_read pos s = Some (s', match (view s (key_at pos)).(contents) with Some c => resize_to 2 (drop (Z.to_nat (Z.rem pos 4096)) c) | None => [] end) /\
  small s' /\ forall k, block_key k -> view s' k = view s k.
Proof.
  intros Hs Hp Hc. unfold client_read. rewrite get_wire. destruct (get_ok pos s Hp Hc) as [Hf Hb].
  destruct (call_spec _ s Hs Hf Hb) as (s1 & t & d & -> & Hs1 & E & V). cbn [mbind option_bind]. exists s1.
  destruct (request_keys 0 pos []) as (_ & _ & K). rewrite K in E, V. destruct (position_range pos Hp) as [Ep _]. cbn [header_at position] in Ep.
  cbn [get_request req_msg req_header block_step header_at position datasize] in E. rewrite Ep in E.
  assert (view s1 (key_at pos) = view s (key_at pos) /\ d = match (view s (key_at pos)).(contents) with Some c => resize_to 2 (drop (Z.to_nat (Z.rem pos 4096)) c) | None => [] end) as [V' ->].
  { destruct (contents (view s (key_at pos))); apply pair_equal_spec in E as [Ed <-]; by injection Ed as _ <-. }
  split_and!; [done|done|]. intros k Hk. destruct (decide (k = key_at pos)) as [->|]; [done|by apply V].
Qed.

End writes.

(** ** Properties *)

(** C36. The test client does not write its buffer: whatever it is given, a write to an idle block
    leaves the four bytes of the version at the position, under version zero, and a read of
    the position returns the first two of them; no other block changes.  On a block for which
    another client has a prepare pending the write commits what that client has prepared,
    since the refusal is not looked at. *)
Theorem client_writes_version {D} `{KVLaws D} micros pos buf (s : server D)
    (Hs : small s) (Hp : position_ok pos) (Hb : Z.of_nat (length buf) < 2 ^ 31) :
  exists s', client_write micros pos buf s = Some s' /\
    (forall k, block_key k -> k <> key_at pos -> view s' k = view s k) /\
    (busy (touch (view s (key_at pos))) = true -> view s' (key_at pos) = promote (touch (view s (key_at pos)))) /\
    (busy (touch (view s (key_at pos))) = false ->
      let c := overlay (Z.to_nat (Z.rem pos 4096)) (version_bytes micros) (default [] (view s (key_at pos)).(contents)) in
      view s' (key_at pos) = mk_block (Some c) 0 0 c /\
      exists s'', client_read pos s' = Some (s'', take 2 (version_bytes micros))).
Proof.
  destruct (client_write_spec micros pos buf s Hs Hp Hb) as (s' & E & Hs' & V & Ho). exists s'. split; [done|]. split; [done|].
  unfold written in V. split; intros Hbusy; rewrite Hbusy in V; [done|]. rewrite touch_contents in V. cbn [default from_option id] in V. split; [done|].
  destruct (position_range pos Hp) as [_ Hr].
  destruct (client_read_spec pos s' Hs' Hp) as (s'' & -> & _).
  - intros c Ec. assert (contents (view s' (key_at pos)) = Some c) as Ec' by done. rewrite V in Ec'. injection Ec' as <-. rewrite length_overlay. lia.
  - exists s''. rewrite V. cbn [contents]. do 2 f_equal.
    pose proof (overlay_get (Z.to_nat (Z.rem pos 4096)) (version_bytes micros) (default [] (contents (view s (key_at pos))))) as Hg.
    pose proof (length_overlay (Z.to_nat (Z.rem pos 4096)) (version_bytes micros) (default [] (contents (view s (key_at pos))))) as Hl.
    set (ov := overlay _ _ _) in *. clearbody ov. change (length (version_bytes micros)) with 4%nat in *.
    rewrite mem_get_Some in Hg by lia. injection Hg as <-. rewrite take_take. apply resize_to_le. rewrite length_drop. lia.
Qed.

Lemma client_writes_version_witness : exists s', client_write 1000000 5 (lit "text") empty_server = Some s' /\
  (view s' (key_at 5)).(contents) = Some (replicate 5 x00 ++ version_bytes 1000000).
Proof.
  destruct (client_writes_version 1000000 5 (lit "text") empty_server empty_small) as (s' & E & _ & _ & Hw); [by split|cbn; lia|].
  exists s'. split; [exact E|]. destruct (Hw eq_refl) as [-> _]. reflexivity.
Defined.

(** The program on an empty server, with fewer rounds: of each version the first byte is left,
    and all of the last. *)
Example client_main_empty : (fun s => (view s (key_at 0)).(contents)) <$> client_main 3 3 (fun i => 64 * (i * 2 ^ 24 + 7)) empty_server =
  Some (Some [x00; x01; x02; x00; x00; x07]).
Proof. vm_compute. reflexivity. Qed.
