(* ===== verification/Connection.v ===== *)
(** * The client side of a block store connection ([libslsfs/slsfs/backend-ssbd.hpp])

    [backend::ssbd] keeps the requests it has sent in a map keyed by the request's
    (uuid, block, salt) and runs the callback of the request a response echoes. *)
From Stdlib Require Import ZArith Lia.
From stdpp Require Import base tactics option list gmap strings.
From S2P Require Import Prelude Wire.
Import leveldb_pack.

(** The key [packet_header_key_hash_compare] compares. *)
Definition job_key : Type := bytes * Z * bytes.
Definition key_of (h : packet_header) : job_key := (h.(uuid), h.(blockid), h.(salt)).

Lemma key_of_compare h1 h2 : packet_header_key_compare h1 h2 = true <-> key_of h1 = key_of h2.
Proof. unfold packet_header_key_compare. apply bool_decide_eq_true. Qed.

(** Headers the map takes for the same key have the same hash. *)
Lemma key_compare_hash h1 h2 :
  packet_header_key_compare h1 h2 = true -> packet_header_key_hash h1 = packet_header_key_hash h2.
Proof.
  rewrite key_of_compare. unfold key_of, packet_header_key_hash. by intros [= -> -> ->].
Qed.

Section connection.
(** A callback, by what it will be run with. *)
Context {C : Type}.

(** [detail::job]: the request and the callback connected to it. *)
Record job := mk_job { original_request : packet; next : C }.

(** [jobmap] *)
Local Abbreviation jobs := (gmap job_key job).

(** What [start_send_request] hands to the socket writer: a [get] keeps the
    [datasize] of its header, every other packet is serialized. *)
Definition sent_bytes (request : packet) : bytes :=
  match of_code request.(header).(type) with
  | Some get => serialize_header request
  | _ => (serialize request).2
  end.

(** [emplace] fails on a key that is outstanding, and the code asserts it did not. *)
Definition start_send_request (js : jobs) (request : packet) (on_response : C)
    : option (jobs * bytes) :=
  match js !! key_of request.(header) with
  | Some _ => None
  | None => Some (<[key_of request.(header) := mk_job request on_response]> js, sent_bytes request)
  end.

(** [start_read_one] and [start_read_one_body]: one response off the stream, its job
    looked up by the response's header, run and erased. *)
Definition start_read_one (js : jobs) (input : bytes) : option (jobs * (C * packet) * bytes) :=
  '(resp, input) ← read_leveldb input;
  job ← js !! key_of resp.(header);
  Some (delete (key_of resp.(header)) js, (job.(next), resp), input).

(** [job::cancel], run on every outstanding job when the connection is closed. *)
Definition cancel (j : job) : C * packet :=
  (j.(next), mk_packet (set_type err j.(original_request).(header)) []).

Definition close (js : jobs) : list (C * packet) := cancel <$> (map_to_list js).*2.

(** A connection that sends a list of requests. *)
Fixpoint send_all (js : jobs) (rs : list (packet * C)) : option (jobs * bytes) :=
  match rs with
  | [] => Some (js, [])
  | (r, c) :: rs =>
      '(js, b) ← start_send_request js r c;
      '(js, b') ← send_all js rs;
      Some (js, b ++ b')
  end.

(** The responses of a stream, to its end. *)
Fixpoint receive (n : nat) (js : jobs) (input : bytes) : option (jobs * list (C * packet)) :=
  match n with
  | O => Some (js, [])
  | S n =>
      '(js, ran, input) ← start_read_one js input;
      '(js, rest) ← receive n js input;
      Some (js, ran :: rest)
  end.

(** ** Responses find their requests *)

(** A server answers with the request's header, the type and [datasize] aside. *)
Definition answers (r resp : packet) : Prop :=
  key_of resp.(header) = key_of r.(header) /\
  wf_header resp.(header) /\ Z.of_nat (length resp.(data)) < 2 ^ 32.

Lemma read_response resp rest : wf_header resp.(header) -> Z.of_nat (length resp.(data)) < 2 ^ 32 ->
  read_leveldb ((serialize resp).2 ++ rest) = Some ((serialize resp).1, rest).
Proof.
  destruct resp as [h d]. cbn [header data]. intros Hh Hd.
  unfold serialize, read_leveldb. cbn [fst snd header data].
  rewrite (wrap_small 4) by (change (modulus 4) with (2 ^ 32); lia).
  set (h' := set_datasize _ h).
  assert (wf_header h') as Hh' by (destruct Hh; split; cbn; try done; lia).
  rewrite <- (assoc_L (++)), read_n_app by (by apply leveldb_pack_facts.leveldb_length_dump).
  cbn [mbind option_bind].
  rewrite <- (app_nil_r (dump h')), leveldb_pack_facts.leveldb_parse_dump_app by done.
  cbn [mbind option_bind]. by rewrite read_n_app by (cbn; lia).
Qed.

Definition outstanding (rs : list (packet * C)) : jobs :=
  list_to_map ((fun rc => (key_of rc.1.(header), mk_job rc.1 rc.2)) <$> rs).

Definition keys (rs : list (packet * C)) : list job_key := (fun rc => key_of rc.1.(header)) <$> rs.

Lemma outstanding_cons r c rs :
  outstanding ((r, c) :: rs) = <[key_of r.(header) := mk_job r c]> (outstanding rs).
Proof. done. Qed.

Lemma outstanding_lookup rs k : k ∉ keys rs -> outstanding rs !! k = None.
Proof.
  intros Hk. apply not_elem_of_list_to_map_1. rewrite <- list_fmap_compose. exact Hk.
Qed.

Lemma send_all_outstanding rs js : NoDup (keys rs) -> (forall k, k ∈ keys rs -> js !! k = None) ->
  send_all js rs = Some (outstanding rs ∪ js, concat ((fun rc => sent_bytes rc.1) <$> rs)).
Proof.
  revert js. induction rs as [|[r c] rs IH]; intros js Hn Hjs; cbn [send_all].
  - unfold outstanding. simpl. by rewrite (left_id_L ∅ (∪)).
  - unfold keys in Hn. simpl in Hn. apply NoDup_cons in Hn as [Hk Hn].
    unfold start_send_request. rewrite Hjs by left. cbn [mbind option_bind].
    rewrite IH; [|done|].
    + cbn [mbind option_bind]. do 2 f_equal. rewrite outstanding_cons.
      rewrite <- insert_union_r by (by apply outstanding_lookup). apply insert_union_l.
    + intros k Hk'. rewrite lookup_insert_ne; [apply Hjs; by right|]. intros <-. by apply Hk.
Qed.

Lemma outstanding_perm rs rs' : NoDup (keys rs) -> rs ≡ₚ rs' -> outstanding rs = outstanding rs'.
Proof.
  intros Hn Hp. apply list_to_map_proper; [|by rewrite Hp].
  rewrite <- list_fmap_compose. exact Hn.
Qed.

Lemma receive_outstanding rs resps rest : NoDup (keys rs) ->
  Forall2 (fun rc resp => answers rc.1 resp) rs resps ->
  receive (length resps) (outstanding rs) (concat ((fun p => (serialize p).2) <$> resps) ++ rest)
  = Some (∅, zip_with (fun rc resp => (rc.2, (serialize resp).1)) rs resps).
Proof.
  intros Hn Hf. induction Hf as [|[r c] resp rs resps (Ek & Hh & Hd) Hf IH].
  - done.
  - unfold keys in Hn. simpl in Hn. apply NoDup_cons in Hn as [Hk Hn]. simpl in Ek.
    cbn [length receive fmap list_fmap concat]. rewrite <- (assoc_L (++)).
    unfold start_read_one. rewrite read_response by done. cbn [mbind option_bind].
    change (key_of (header (serialize resp).1)) with (key_of (header resp)). rewrite Ek.
    rewrite outstanding_cons, lookup_insert_eq. cbn [mbind option_bind].
    rewrite delete_insert_id by (by apply outstanding_lookup).
    rewrite IH by done. done.
Qed.

End connection.
Arguments job : clear implicits.

(** ** Properties *)

(** C9. Every request gets its own answer: when a connection sends requests with
    distinct (uuid, block, salt), all are accepted, and whatever order the server
    answers them in, each callback is run exactly once with the answer to its own
    request, after which nothing is outstanding. *)
Theorem responses_find_requests {C : Type} (rs rs' : list (packet * C)) resps
    (Hn : NoDup (keys rs)) (Hp : rs ≡ₚ rs')
    (Ha : Forall2 (fun rc resp => answers rc.1 resp) rs' resps) :
  exists js, send_all ∅ rs = Some (js, concat ((fun rc => sent_bytes rc.1) <$> rs)) /\
    receive (length resps) js (concat ((fun p => (serialize p).2) <$> resps))
    = Some (∅, zip_with (fun rc resp => (rc.2, (serialize resp).1)) rs' resps).
Proof.
  exists (outstanding rs). split.
  - rewrite send_all_outstanding by done. by rewrite (right_id_L ∅ (∪)).
  - rewrite (outstanding_perm rs rs'), <- (app_nil_r (concat _)) by done.
    apply receive_outstanding; [|done]. unfold keys. by rewrite <- Hp.
Qed.

Definition sample_get (bid : Z) (s : byte) : packet :=
  create_request [s; x01; x01; x01] (replicate 32 x61) get 0 bid 0 3.
Definition sample_answer (bid : Z) (s : byte) : packet :=
  mk_packet (set_type ack (sample_get bid s).(header)) [s; s; s].

Lemma responses_find_requests_witness :
  exists js, send_all ∅ [(sample_get 0 x02, 0%nat); (sample_get 1 x03, 1%nat)]
      = Some (js, sent_bytes (sample_get 0 x02) ++ sent_bytes (sample_get 1 x03) ++ []) /\
    receive 2 js (concat ((fun p => (serialize p).2) <$> [sample_answer 1 x03; sample_answer 0 x02]))
    = Some (∅, [(1%nat, sample_answer 1 x03); (0%nat, sample_answer 0 x02)]).
Proof.
  apply (responses_find_requests [(sample_get 0 x02, 0%nat); (sample_get 1 x03, 1%nat)]
    [(sample_get 1 x03, 1%nat); (sample_get 0 x02, 0%nat)]
    [sample_answer 1 x03; sample_answer 0 x02]).
  - apply NoDup_cons. split; [|apply NoDup_singleton]. intros E%list_elem_of_singleton. discriminate.
  - apply perm_swap.
  - assert (forall b s, 0 <= b < 2 -> answers (sample_get b s) (sample_answer b s)) as Ha.
    { intros b s Hb. split; [done|]. split; [|done].
      split; first [done | apply (wrap_range 4) | apply (wrap_range 2)]. }
    repeat constructor; apply Ha; lia.
Defined.
