(* ===== verification/Coordinator.v ===== *)
(** * The two-phase-commit coordinator
    ([datafunction/storage-conf-ssbd-backend.hpp], lines 24-590 and 738-827)

    The requests each phase sends, and the state machines of the response handlers:
    a counter of outstanding requests and the conjunction of the answers.  What a
    handler does besides changing that state is a list of actions. *)
From Stdlib Require Import ZArith Lia.
From stdpp Require Import base tactics option list gmap strings.
From S2P Require Import Prelude Wire Request Stripe.

(** ** [detail::recoder]: the files whose last write was agreed *)
Module recoder.
Abbreviation recoder := (gset bytes).
Definition is_checked (uuid : bytes) (r : recoder) : bool := bool_decide (uuid ∈ r).
Definition mark_checked (uuid : bytes) (r : recoder) : recoder := {[uuid]} ∪ r.
Definition erase_checked (uuid : bytes) (r : recoder) : recoder * bool :=
  (r ∖ {[uuid]}, bool_decide (uuid ∈ r)).
End recoder.
Import recoder.

(** What the operations use of a [request_parser]: the accessors' values on the
    packet it was made from. *)
Record input := mk_input {
  in_uuid : bytes; in_position : Z; in_size : Z;
  in_name : bytes; in_key : bytes; in_data : bytes
}.

Definition parse_input (p : pack.packet) : option input :=
  let d := p.(pack.data) in
  pos ← request_parser.position d; size ← request_parser.size d;
  name ← request_parser.file_name d; key ← request_parser.file_key d;
  Some (mk_input (request_parser.uuid p) pos size name key (request_parser.data d)).

(** The packets the metadata operations make for themselves: a request naming the
    type, the operation, the position and the size, followed by the content.  The
    type byte of their header is never set. *)
Definition internal_request (op : operation_t) (position size : Z) : request :=
  mk_request (type_code file) (operation_code op) position size
    (replicate file_name_length x00) (replicate key_length x00).

Definition internal_packet (salt sequence : bytes) (key : bytes) (op : operation_t)
    (position size : Z) (content : bytes) : pack.packet :=
  pack.mk_packet
    (pack.mk_header 0 0 key 0 sequence salt)
    (store_request (request_to_network (internal_request op position size)) ++ content).

(** ** Requests *)
Section requests.

(** [pick seed skip n]: the value of [uniform_int_distribution(0, n-1)] drawn from
    [std::mt19937] seeded with [seed] after [skip] draws are discarded. *)
Variable pick : bytes -> Z -> Z -> Z.

Record config := mk_config {
  cfg_blocksize : Z;             (* [blocksize()] *)
  replication_size_ : Z;
  replication_start_index_ : Z   (* the number of hosts *)
}.

Variable cfg : config.

(** The salt [create_request] draws for a request. *)
Variable salts : Z -> bytes.

Definition headersize : Z := 0.

(** [fullsize] is the configured block size. *)
Definition blocksize (fullsize : Z) : Z := u32 (fullsize - headersize).

Definition select_replica (uuid : bytes) (partition replication_index : Z) : Z :=
  pick uuid (u64 (partition * (partition * replication_index))) cfg.(replication_start_index_).

(** [version]: microseconds since the epoch. *)
Definition version (now_us : Z) : Z := u32 (Z.shiftr now_us 6).

Definition pieces (i : input) : list chunk := split cfg.(cfg_blocksize) i.(in_position) i.(in_size).

(** Lines 167-199: one prepare per piece, carrying the piece's bytes.  Copying past
    the end of the payload is [None]. *)
Definition prepare_request (checked : bool) (selected_version : Z) (i : input) (c : chunk)
    : option (Z * leveldb_pack.packet) :=
  buf ← mem_get (Z.to_nat c.(buffer_pointer_offset)) (Z.to_nat c.(blockwritesize)) i.(in_data);
  let request := leveldb_pack.create_request (salts c.(blockid)) i.(in_uuid)
    (if checked then leveldb_pack.two_pc_prepare_quick else leveldb_pack.two_pc_prepare)
    selected_version c.(blockid) c.(offset) c.(blockwritesize) in
  Some (select_replica i.(in_uuid) c.(blockid) 0,
        leveldb_pack.mk_packet request.(leveldb_pack.header) buf).

Definition prepare_requests (r : recoder) (selected_version : Z) (i : input)
    : option (list (Z * leveldb_pack.packet)) :=
  mapM (prepare_request (is_checked i.(in_uuid) r) selected_version i) (pieces i).

(** Lines 257-281: a commit or a rollback per piece, without payload. *)
Definition commit_request (all_ssbd_agree : bool) (selected_version : Z) (i : input) (c : chunk)
    : Z * leveldb_pack.packet :=
  (select_replica i.(in_uuid) c.(blockid) 0,
   leveldb_pack.create_request (salts c.(blockid)) i.(in_uuid)
     (if all_ssbd_agree then leveldb_pack.two_pc_commit_execute
      else leveldb_pack.two_pc_commit_rollback)
     selected_version c.(blockid) c.(offset) 0).

Definition commit_requests (all_ssbd_agree : bool) (selected_version : Z) (i : input)
    : list (Z * leveldb_pack.packet) :=
  commit_request all_ssbd_agree selected_version i <$> pieces i.

(** Lines 535-562: the replicas are numbered from 1; nothing is put in the packets'
    payload. *)
Definition replication_request (selected_version : Z) (i : input) (c : chunk) (replica_index : Z)
    : Z * leveldb_pack.packet :=
  (cfg.(replication_start_index_) + select_replica i.(in_uuid) c.(blockid) replica_index,
   leveldb_pack.create_request (salts c.(blockid)) i.(in_uuid) leveldb_pack.replication
     selected_version c.(blockid) c.(offset) c.(blockwritesize)).

Definition replication_requests (selected_version : Z) (i : input)
    : list (Z * leveldb_pack.packet) :=
  c ← pieces i;
  replication_request selected_version i c <$> seqZ 1 (cfg.(replication_size_) - 1).

(** Lines 785-826. *)
Definition read_request (i : input) (c : chunk) : Z * leveldb_pack.packet :=
  (select_replica i.(in_uuid) c.(blockid) 0,
   leveldb_pack.create_request (salts c.(blockid)) i.(in_uuid) leveldb_pack.get 0
     c.(blockid) c.(offset) c.(blockwritesize)).

Definition read_requests (i : input) : list (Z * leveldb_pack.packet) :=
  read_request i <$> pieces i.

End requests.
Arguments select_replica : clear implicits.

(** ** Response handlers *)

Inductive action :=
| CancelTimer
| MarkChecked (uuid : bytes)
| EraseChecked (uuid : bytes)
| Reply (message : bytes)               (* invoking [next] *)
| StartCommit (all_ssbd_agree : bool)
| StartReplication.

(** The shared variables of a phase's callbacks. *)
Record phase := mk_phase { outstanding_requests : Z; all_ssbd_agree : bool }.

Definition phase_init : phase := mk_phase 0 true.

(** The increment before a request is sent. *)
Definition on_send (st : phase) : phase :=
  mk_phase (st.(outstanding_requests) + 1) st.(all_ssbd_agree).

Definition msg_ok : bytes := lit_buf "OK"%string.
Definition msg_pending : bytes := lit "Error: Found Pending 2PC Log"%string.
(** Of a [std::string] in the one phase and of a literal in the other. *)
Definition msg_pending_multi : bytes := lit_buf "Error: Found Pending 2PC Log"%string.
Definition msg_commit_error : bytes := lit_buf "Error: Commit Message Get Error Reply"%string.
Definition msg_replication_failed : bytes := lit_buf "Error: Replication Failed"%string.
Definition msg_timeout : bytes := lit_buf "Error: request timeout internally"%string.
Definition msg_read_timeout : bytes := lit_buf "Error: Read Request Timeout"%string.

(** Lines 201-244.  [message] is a local of the callback: the reply names what the
    last response was, not what the failing one was. *)
Definition prepare_response (uuid : bytes) (st : phase) (type : Z) : phase * list action :=
  let '(agree, message) :=
    match leveldb_pack.of_code type with
    | Some leveldb_pack.two_pc_prepare_agree => (st.(all_ssbd_agree), lit ""%string)
    | Some leveldb_pack.two_pc_prepare_abort => (false, lit "abort"%string)
    | _ => (false, lit "default"%string)
    end in
  let st := mk_phase (st.(outstanding_requests) - 1) agree in
  if st.(outstanding_requests) =? 0 then
    (st, [CancelTimer] ++
         (if agree then [MarkChecked uuid; Reply msg_ok]
          else [EraseChecked uuid; Reply (msg_pending ++ message)]) ++
         [StartCommit agree])
  else (st, []).

(** Lines 390-434: the same for the two files of a write and its metadata. *)
Definition prepare_response_multi (uuids : list bytes) (st : phase) (type : Z)
    : phase * list action :=
  let agree :=
    match leveldb_pack.of_code type with
    | Some leveldb_pack.two_pc_prepare_agree => st.(all_ssbd_agree)
    | _ => false
    end in
  let st := mk_phase (st.(outstanding_requests) - 1) agree in
  if st.(outstanding_requests) =? 0 then
    (st, [CancelTimer] ++
         (if agree then (MarkChecked <$> uuids) ++ [Reply msg_ok]
          else (EraseChecked <$> uuids) ++ [Reply msg_pending_multi]) ++
         [StartCommit agree])
  else (st, []).

(** Lines 283-311 and 482-516; [next] says whether a reply is wanted (both callers
    pass [nullptr]). *)
Definition commit_response (uuids : list bytes) (agree next : bool) (replication_size : Z)
    (st : phase) (type : Z) : phase * list action :=
  let early :=
    match leveldb_pack.of_code type with
    | Some leveldb_pack.two_pc_commit_ack => []
    | _ => if next then (EraseChecked <$> uuids) ++ [Reply msg_commit_error] else []
    end in
  let st := mk_phase (st.(outstanding_requests) - 1) st.(all_ssbd_agree) in
  if st.(outstanding_requests) =? 0 then
    (st, early ++ (if next then [Reply msg_ok] else []) ++
         (if agree && (1 <? replication_size) then [StartReplication] else []))
  else (st, early).

(** Lines 564-587. *)
Definition replication_response (uuid : bytes) (next : bool) (st : phase) (type : Z)
    : phase * list action :=
  match leveldb_pack.of_code type with
  | Some leveldb_pack.ack =>
      let st := mk_phase (st.(outstanding_requests) - 1) st.(all_ssbd_agree) in
      (st, if (st.(outstanding_requests) =? 0) && next then [Reply msg_ok] else [])
  | _ => (st, if next then [EraseChecked uuid; Reply msg_replication_failed] else [])
  end.

(** Lines 143-157, 325-342 and 746-761: the deadline timer; [None] is a timer that
    was cancelled. *)
Definition timer_fired (uuids : list bytes) (message : bytes) (expired : bool) : list action :=
  if expired then (EraseChecked <$> uuids) ++ [Reply message] else [].

(** What the actions do to the recoder. *)
Definition apply_action (a : action) (r : recoder) : recoder :=
  match a with
  | MarkChecked u => mark_checked u r
  | EraseChecked u => (erase_checked u r).1
  | _ => r
  end.

Definition apply_actions (acts : list action) (r : recoder) : recoder :=
  foldl (fun r a => apply_action a r) r acts.

Definition replies (acts : list action) : list bytes :=
  omap (fun a => match a with Reply m => Some m | _ => None end) acts.

Definition commits (acts : list action) : list bool :=
  omap (fun a => match a with StartCommit b => Some b | _ => None end) acts.

(** The events of a phase: a request leaving, a response arriving. *)
Inductive event := Sent | Response (type : Z).

Definition phase_step (handler : phase -> Z -> phase * list action) (st : phase) (e : event)
    : phase * list action :=
  match e with
  | Sent => (on_send st, [])
  | Response type => handler st type
  end.

Fixpoint phase_run (handler : phase -> Z -> phase * list action) (st : phase) (es : list event)
    : phase * list action :=
  match es with
  | [] => (st, [])
  | e :: es =>
      let '(st, acts) := phase_step handler st e in
      let '(st, acts') := phase_run handler st es in
      (st, acts ++ acts')
  end.

(** *** The accumulator of a read (lines 774-827)

    One slot per piece; a response fills its slot, whatever its type, and the
    response that finds every slot ready delivers the concatenation. *)
Abbreviation read_slots := (list (option bytes)).

Definition read_response (slots : read_slots) (index : nat) (buf : bytes)
    : read_slots * option bytes :=
  let slots := <[index := Some buf]> slots in
  (slots, concat (A := byte) <$> mapM id slots).

Fixpoint read_run (slots : read_slots) (resps : list (nat * bytes)) : read_slots * list bytes :=
  match resps with
  | [] => (slots, [])
  | (i, b) :: resps =>
      let '(slots, out) := read_response slots i b in
      let '(slots, outs) := read_run slots resps in
      (slots, match out with Some c => [c] | None => [] end ++ outs)
  end.

(** ** Lemmas *)

Definition agreed (type : Z) : bool :=
  bool_decide (leveldb_pack.of_code type = Some leveldb_pack.two_pc_prepare_agree).

Definition abort_suffix (type : Z) : bytes :=
  match leveldb_pack.of_code type with
  | Some leveldb_pack.two_pc_prepare_agree => []
  | Some leveldb_pack.two_pc_prepare_abort => lit "abort"%string
  | _ => lit "default"%string
  end.

Lemma prepare_response_spec uuid st type :
  prepare_response uuid st type =
  let agree := st.(all_ssbd_agree) && agreed type in
  (mk_phase (st.(outstanding_requests) - 1) agree,
   if st.(outstanding_requests) - 1 =? 0
   then if agree then [CancelTimer; MarkChecked uuid; Reply msg_ok; StartCommit true]
        else [CancelTimer; EraseChecked uuid; Reply (msg_pending ++ abort_suffix type);
              StartCommit false]
   else []).
Proof.
  unfold prepare_response, agreed, abort_suffix.
  destruct (leveldb_pack.of_code type) as [[]|]; cbn [outstanding_requests];
    case_bool_decide as Hd; try discriminate Hd;
    rewrite ?andb_true_r, ?andb_false_r; try congruence;
    destruct (_ =? 0), (all_ssbd_agree st); done.
Qed.

Lemma phase_run_app handler st es1 es2 :
  phase_run handler st (es1 ++ es2) =
  let '(st, a1) := phase_run handler st es1 in
  let '(st, a2) := phase_run handler st es2 in (st, a1 ++ a2).
Proof.
  revert st. induction es1 as [|e es1 IH]; intros st; cbn [phase_run app].
  - by destruct (phase_run handler st es2).
  - destruct (phase_step handler st e) as [st' a]. rewrite IH.
    destruct (phase_run handler st' es1) as [st'' a1].
    destruct (phase_run handler st'' es2) as [st3 a2]. by rewrite (assoc_L (++)).
Qed.

Lemma phase_run_sends handler st n :
  phase_run handler st (replicate n Sent)
  = (mk_phase (st.(outstanding_requests) + Z.of_nat n) st.(all_ssbd_agree), []).
Proof.
  revert st. induction n as [|n IH]; intros [o a]; cbn [replicate phase_run phase_step].
  - simpl. by rewrite Z.add_0_r.
  - rewrite IH. unfold on_send. cbn [outstanding_requests all_ssbd_agree app]. do 2 f_equal. lia.
Qed.

(** The answers to [n] outstanding requests: nothing happens before the last. *)
Lemma prepare_responses uuid types a : types <> [] ->
  phase_run (prepare_response uuid) (mk_phase (Z.of_nat (length types)) a) (Response <$> types) =
  let agree := a && forallb agreed types in
  (mk_phase 0 agree,
   if agree then [CancelTimer; MarkChecked uuid; Reply msg_ok; StartCommit true]
   else [CancelTimer; EraseChecked uuid;
         Reply (msg_pending ++ default [] (abort_suffix <$> last types)); StartCommit false]).
Proof.
  revert a. induction types as [|t types IH]; intros a Hne; [done|].
  cbn [fmap list_fmap phase_run phase_step]. rewrite prepare_response_spec.
  cbn [outstanding_requests all_ssbd_agree length forallb].
  replace (Z.of_nat (S (length types)) - 1) with (Z.of_nat (length types)) by lia.
  destruct types as [|t' types].
  - simpl. rewrite andb_true_r. by destruct (a && agreed t).
  - destruct (Z.eqb_spec (Z.of_nat (length (t' :: types))) 0) as [E|_]; [simpl in E; lia|].
    change (list_fmap Z event Response (t' :: types)) with (Response <$> (t' :: types)).
    rewrite IH by done. cbn zeta. rewrite <- (andb_assoc a). done.
Qed.

(** When each request is answered before the next one is sent, every answer
    completes the phase. *)
Lemma interleaved_responses uuid types a :
  let acts := (phase_run (prepare_response uuid) (mk_phase 0 a)
    (t ← types; [Sent; Response t])).2 in
  length (replies acts) = length types /\
  commits acts = (fun n => a && forallb agreed (take (S n) types)) <$> seq 0 (length types).
Proof.
  revert a. induction types as [|t types IH]; intros a; [done|].
  cbn [mbind list_bind app phase_run phase_step].
  unfold on_send. rewrite prepare_response_spec. cbn [outstanding_requests all_ssbd_agree Z.add Z.sub Z.eqb].
  specialize (IH (a && agreed t)).
  change (list_bind Z event (fun t => [Sent; Response t]) types) with (t ← types; [Sent; Response t]).
  replace (0 + 1 - 1) with 0 by lia. cbn [Z.eqb].
  destruct (phase_run _ (mk_phase 0 (a && agreed t)) _) as [st acts] eqn:E. cbn [snd] in *.
  destruct IH as [IH1 IH2]. unfold replies, commits in *. rewrite !omap_app, length_app, IH1, IH2.
  cbn [length seq fmap list_fmap]. split; [by destruct (a && agreed t)|].
  rewrite <- fmap_S_seq, <- list_fmap_compose.
  assert ((fun n => a && agreed t && forallb agreed (take (S n) types)) <$> seq 0 (length types)
    = ((fun n => a && forallb agreed (take (S n) (t :: types))) ∘ S) <$> seq 0 (length types)) as ->.
  { apply list_fmap_ext. intros. cbn [compose take forallb]. by rewrite andb_assoc. }
  cbn [take forallb]. rewrite andb_true_r. by destruct (a && agreed t).
Qed.

(** *** The read accumulator *)

Lemma mapM_id_Some (l : list bytes) : mapM id (Some <$> l) = Some l.
Proof. by apply mapM_fmap_Some. Qed.

Lemma mapM_id_None (l : read_slots) i : l !! i = Some None -> mapM id l = None.
Proof.
  intros E. apply mapM_None, Exists_exists. exists None. split; [|done].
  by eapply list_elem_of_lookup_2.
Qed.

(** The slots after some responses: filled where one arrived. *)
Lemma read_run_spec (bufs : list bytes) slots order :
  length slots = length bufs -> NoDup order -> order <> [] ->
  (forall i, i ∈ order -> (i < length bufs)%nat /\ slots !! i = Some None) ->
  (forall i b, slots !! i = Some (Some b) -> bufs !! i = Some b) ->
  (forall i, (i < length bufs)%nat -> i ∉ order -> slots !! i = Some (bufs !! i)) ->
  read_run slots ((fun i => (i, default [] (bufs !! i))) <$> order)
  = (Some <$> bufs, [concat bufs]).
Proof.
  revert slots. induction order as [|i order IH]; intros slots Hl Hn Hne Ho Hs Hr; [done|].
  apply NoDup_cons in Hn as [Hi Hn]. destruct (Ho i) as [Hlt Hnone]; [left|].
  destruct (lookup_lt_is_Some_2 bufs i Hlt) as [b Eb].
  cbn [fmap list_fmap read_run]. unfold read_response. rewrite Eb. change (default [] (Some b)) with b.
  destruct order as [|j order].
  - assert (<[i := Some b]> slots = Some <$> bufs) as ->.
    { apply list_eq. intros k. rewrite list_lookup_fmap.
      destruct (decide (k = i)) as [->|Hk].
      - rewrite list_lookup_insert_eq by lia. by rewrite Eb.
      - rewrite list_lookup_insert_ne by done. destruct (decide (k < length bufs)%nat).
        + rewrite Hr by (done || (intros ?%list_elem_of_singleton; done)).
          destruct (lookup_lt_is_Some_2 bufs k) as [c ->]; done.
        + rewrite !lookup_ge_None_2 by lia. done. }
    rewrite mapM_id_Some. done.
  - destruct (Ho j) as [Hjl Hj]; [right; left|].
    assert (i <> j) by (intros ->; apply Hi; left).
    rewrite (mapM_id_None _ j) by (by rewrite list_lookup_insert_ne). cbn [fmap option_fmap option_map].
    change (list_fmap _ _ ?f (j :: order)) with (f <$> (j :: order)).
    rewrite IH; [done|..].
    + by rewrite length_insert.
    + done.
    + done.
    + intros k Hk. destruct (Ho k) as [? ?]; [by right|]. split; [done|].
      rewrite list_lookup_insert_ne; [done|]. by intros ->.
    + intros k c. destruct (decide (k = i)) as [->|Hk].
      * rewrite list_lookup_insert_eq by lia. intros [= <-]. done.
      * rewrite list_lookup_insert_ne by done. apply Hs.
    + intros k Hk Hko. destruct (decide (k = i)) as [->|Hki].
      * rewrite list_lookup_insert_eq by lia. by rewrite Eb.
      * rewrite list_lookup_insert_ne by done. apply Hr; [done|]. by apply not_elem_of_cons.
Qed.

(** ** Properties *)

(** The prepare phase decides once, and commits exactly when every block agreed:
    when the requests have left before the first answer is handled, then whatever the
    answers are, the handlers act only on the last one: they cancel the timer, mark or
    erase the file, reply once - OK if and only if every answer is an agreement, in
    any order - and start the commit with that verdict. *)
Theorem prepare_decides_once uuid types (Hne : types <> []) :
  let acts := (phase_run (prepare_response uuid) phase_init
    (replicate (length types) Sent ++ (Response <$> types))).2 in
  commits acts = [forallb agreed types] /\
  length (replies acts) = 1%nat /\
  (replies acts = [msg_ok] <-> forallb agreed types = true) /\
  (forall types', types' ≡ₚ types -> forallb agreed types' = forallb agreed types) /\
  (forall r, is_checked uuid (apply_actions acts r) = forallb agreed types) /\
  (forall n, (n < length types)%nat ->
     (phase_run (prepare_response uuid) phase_init
        (replicate (length types) Sent ++ (Response <$> take n types))).2 = []).
Proof.
  intros acts. assert (acts = if forallb agreed types
    then [CancelTimer; MarkChecked uuid; Reply msg_ok; StartCommit true]
    else [CancelTimer; EraseChecked uuid;
          Reply (msg_pending ++ default [] (abort_suffix <$> last types)); StartCommit false]) as ->.
  { unfold acts. rewrite phase_run_app, phase_run_sends. cbn [phase_init outstanding_requests
      all_ssbd_agree]. rewrite Z.add_0_l, prepare_responses by done. done. }
  split_and!.
  - by destruct (forallb agreed types).
  - by destruct (forallb agreed types).
  - destruct (forallb agreed types); split; done.
  - clear. intros types' Hp. induction Hp; simpl; try congruence; by rewrite !andb_assoc, (andb_comm (agreed y)).
  - intros r. unfold apply_actions, is_checked.
    destruct (forallb agreed types); cbn [foldl apply_action fst]; [apply bool_decide_eq_true|
      apply bool_decide_eq_false]; unfold mark_checked, erase_checked; set_solver.
  - intros n Hn. rewrite phase_run_app, phase_run_sends. cbn [phase_init outstanding_requests
      all_ssbd_agree]. rewrite Z.add_0_l.
    enough (forall m a ts, (length ts < m)%nat ->
      (phase_run (prepare_response uuid) (mk_phase (Z.of_nat m) a) (Response <$> ts)).2 = []) as E.
    { specialize (E (length types) true (take n types)). rewrite length_take in E.
      destruct (phase_run _ _ _). simpl in *. apply E. lia. }
    clear. intros m a ts. revert m a. induction ts as [|t ts IH]; intros m a Hl; [done|].
    cbn [fmap list_fmap phase_run phase_step]. rewrite prepare_response_spec.
    cbn [outstanding_requests all_ssbd_agree]. simpl in Hl.
    destruct (Z.eqb_spec (Z.of_nat m - 1) 0) as [E|_]; [lia|].
    specialize (IH (m - 1)%nat (a && agreed t) ltac:(lia)).
    replace (Z.of_nat (m - 1)) with (Z.of_nat m - 1) in IH by lia.
    change (list_fmap Z event Response ts) with (Response <$> ts).
    destruct (phase_run _ _ _). simpl in *. by rewrite IH.
Qed.

Definition agree_code : Z := leveldb_pack.code leveldb_pack.two_pc_prepare_agree.
Definition abort_code : Z := leveldb_pack.code leveldb_pack.two_pc_prepare_abort.

Lemma prepare_decides_once_witness :
  commits (phase_run (prepare_response [x61]) phase_init
    ([Sent; Sent; Sent] ++ (Response <$> [agree_code; abort_code; agree_code]))).2 = [false].
Proof.
  destruct (prepare_decides_once [x61] [agree_code; abort_code; agree_code] ltac:(done)) as [E _].
  exact E.
Defined.

(** The counter is only right while answers wait for the sending loop: if each
    request of a write is answered before the loop sends the next one (the callbacks
    run on other threads), every answer is taken for the last - the client is
    answered once per block, the first answer being OK when the first block agreed,
    and a commit is started for every prefix of the answers, even though a later block
    aborts. *)
Theorem early_answers_decide_early uuid types (Hne : types <> []) :
  let acts := (phase_run (prepare_response uuid) phase_init (t ← types; [Sent; Response t])).2 in
  length (replies acts) = length types /\
  commits acts = (fun n => forallb agreed (take (S n) types)) <$> seq 0 (length types).
Proof. apply (interleaved_responses uuid types true). Qed.

Lemma early_answers_decide_early_witness :
  commits (phase_run (prepare_response [x61]) phase_init
    (t ← [agree_code; abort_code]; [Sent; Response t])).2 = [true; false] /\
  length (replies (phase_run (prepare_response [x61]) phase_init
    (t ← [agree_code; abort_code]; [Sent; Response t])).2) = 2%nat.
Proof.
  destruct (early_answers_decide_early [x61] [agree_code; abort_code] ltac:(done)) as [E1 E2].
  split; [exact E2|exact E1].
Defined.

(** A read delivers once and in order: whatever order the blocks' answers arrive
    in, the caller is called exactly once, with the blocks' bytes concatenated in the
    order of the file. *)
Theorem read_any_order (bufs : list bytes) order (Hp : order ≡ₚ seq 0 (length bufs))
    (Hne : bufs <> []) :
  (read_run (replicate (length bufs) None) ((fun i => (i, default [] (bufs !! i))) <$> order)).2
  = [concat bufs].
Proof.
  rewrite (read_run_spec bufs); [done|..].
  - apply length_replicate.
  - rewrite Hp. apply NoDup_seq.
  - intros ->. destruct bufs; [done|]. by apply Permutation_nil_cons in Hp.
  - intros i Hi. rewrite Hp in Hi. apply elem_of_seq in Hi. split; [lia|].
    apply lookup_replicate. split; [done|lia].
  - intros i b E. apply lookup_replicate in E as [E _]. done.
  - intros i Hi Hin. exfalso. apply Hin. rewrite Hp. apply elem_of_seq. lia.
Qed.

Lemma read_any_order_witness :
  (read_run [None; None; None] [(2%nat, [x43]); (0%nat, [x41]); (1%nat, [x42])]).2
  = [[x41; x42; x43]].
Proof.
  apply (read_any_order [[x41]; [x42]; [x43]] [2%nat; 0%nat; 1%nat]); [|done].
  change (seq 0 _) with [0%nat; 1%nat; 2%nat]. apply (Permutation_cons_append [0%nat; 1%nat]).
Defined.
