(* ===== verification/Cluster.v ===== *)
(** * Striped reads and writes against the block store servers

    The coordinator's requests delivered, through their bytes on the wire, to the
    servers of [Ssbd]; the two phases of a write and a read as runs of deliveries in
    any order; and the refinement of the whole to the striped file of [Stripe]. *)
From Stdlib Require Import ZArith Lia.
From stdpp Require Import base tactics option list gmap strings.
From S2P Require Import Prelude Wire KvLog Ssbd Request Stripe Connection Coordinator.
Import leveldb_pack recoder.

(** ** Delivery of one request *)
Section delivery.
Context {D : Type} `{KVStore D}.

(** The request as the server's connection parses it, and its one answer as the
    client parses that. *)
Definition deliver (s : server D) (p : packet) : option (server D * packet) :=
  '(s, out, _) ← start_read_header s (sent_bytes p);
  match out with
  | [resp] => '(resp, _) ← read_leveldb (serialize resp).2; Some (s, resp)
  | _ => None
  end.

(** [backend_list_]: the normal connections to the hosts, then the backup
    connections to the same hosts; [at] throws on any other index. *)
Local Abbreviation cluster := (list (server D)).

Definition host (cl : cluster) (index : Z) : nat := Z.to_nat index mod length cl.

Definition deliver_to (cl : cluster) (ip : Z * packet) : option (cluster * packet) :=
  if decide (0 <= ip.1 < 2 * Z.of_nat (length cl)) then
    s ← cl !! host cl ip.1;
    '(s, resp) ← deliver s ip.2;
    Some (<[host cl ip.1 := s]> cl, resp)
  else None.

Fixpoint deliver_all (cl : cluster) (reqs : list (Z * packet)) : option (cluster * list packet) :=
  match reqs with
  | [] => Some (cl, [])
  | r :: reqs =>
      '(cl, resp) ← deliver_to cl r;
      '(cl, resps) ← deliver_all cl reqs;
      Some (cl, resp :: resps)
  end.

End delivery.

Abbreviation cluster D := (list (server D)).

(** ** What the servers make of a packet the client sends *)

Definition server_request (p : packet) : Ssbd.request :=
  match of_code p.(header).(type) with
  | Some get => Ssbd.mk_request get p.(header) []
  | m => Ssbd.mk_request (default err m) (serialize p).1.(header) p.(data)
  end.

(** The packets a client sends. *)
Definition sendable (p : packet) : Prop :=
  wf_header p.(header) /\ Z.of_nat (length p.(data)) < 2 ^ 32 /\
  exists m, of_code p.(header).(type) = Some m /\ (reads_body m = false -> p.(data) = []).

Section deliver_facts.
Context {D : Type} `{KVLaws D}.
Implicit Types (s : server D) (cl : cluster D) (p : packet).

Lemma sent_bytes_wire p : sendable p ->
  framed (server_request p) /\ sent_bytes p = wire (server_request p) /\
  as_string (server_request p).(req_header) = as_string p.(header).
Proof.
  intros (Hh & Hd & m & Hm & Hb). unfold sent_bytes, server_request. rewrite Hm.
  assert (wf_header (serialize p).1.(header)) as Hh'.
  { unfold serialize. cbn [fst header]. destruct Hh. split; try done. apply (wrap_range 4). }
  assert (forall m', m = m' -> m' <> get ->
    framed (Ssbd.mk_request m' (serialize p).1.(header) p.(data)) /\
    (serialize p).2 = wire (Ssbd.mk_request m' (serialize p).1.(header) p.(data))) as Hother.
  { intros m' <- _. split.
    - split_and!; [done|done|]. cbn [req_msg req_body req_header]. destruct (reads_body m) eqn:E; [|by apply Hb].
      unfold serialize. cbn [fst header datasize set_datasize]. symmetry. apply wrap_small.
      change (modulus 4) with (2 ^ 32). lia.
    - unfold wire. cbn [req_msg req_body req_header]. unfold serialize. cbn [fst snd].
      destruct (reads_body m) eqn:E; [done|]. by rewrite Hb. }
  destruct m; cbn [default]; try (destruct (Hother _ eq_refl ltac:(done)); split_and!; done).
  split_and!; [split_and!; done| |done]. unfold wire, serialize_header. cbn. by rewrite app_nil_r.
Qed.

Lemma wf_set_type t h : wf_header h -> wf_header (set_type t h).
Proof. intros []. split; try done. apply leveldb_code_range. Qed.

(** The data of an answer is short. *)
Lemma block_step_data m pos size ver body b t d b' :
  block_step m pos size ver body b = (t, d, b') ->
  (length d <= size)%nat /\ (reads_body m = true -> d = []).
Proof.
  intros E. destruct m; cbn [block_step] in E; repeat case_match; simplify_eq; simpl;
    (split; [rewrite ?length_resize_to; lia|done]).
Qed.

(** Delivering a request is one step of the addressed block. *)
Lemma deliver_spec s p : sendable p -> small s -> bounded s (server_request p) ->
  let r := server_request p in
  let k := as_string p.(header) in
  exists s' t d b', deliver s p = Some (s', mk_packet (set_datasize (Z.of_nat (length d)) (set_type t r.(req_header))) d) /\
    block_step r.(req_msg) (Z.to_nat r.(req_header).(position)) (Z.to_nat r.(req_header).(datasize))
      r.(req_header).(version) r.(req_body) (view s k) = (t, d, b') /\
    view s' k = b' /\ small s' /\
    step_frame r.(req_msg) s s' k (Z.to_nat r.(req_header).(position)) r.(req_body).
Proof.
  intros Hp Hs Hb r k. destruct (sent_bytes_wire p Hp) as (Hf & Hw & Hk). fold r in Hf, Hw, Hk, Hb.
  destruct (handle_spec s _ _ _ (bounded_wf s r Hs Hb)) as (s' & t & d & b' & E & Hst & Hv & Hfr).
  exists s', t, d, b'. rewrite Hk in *. fold k in Hst, Hv, Hfr.
  split; [|split_and!; [done|done|by eapply handle_small|done]].
  unfold deliver. rewrite Hw, <- (app_nil_r (wire r)), start_read_header_wire by done.
  rewrite E. cbn [mbind option_bind].
  destruct (block_step_data _ _ _ _ _ _ _ _ _ Hst) as [Hd _].
  assert (wf_header r.(req_header)) as Hh by apply Hb.
  assert (Z.of_nat (length d) < 2 ^ 32) as Hd' by (destruct Hh; lia).
  rewrite <- (app_nil_r (serialize _).2), Connection.read_response; [|by apply wf_set_type|done].
  cbn [mbind option_bind]. unfold serialize. cbn [fst header data].
  by rewrite wrap_small by (change (modulus 4) with (2 ^ 32); lia).
Qed.

End deliver_facts.

(** ** Batches of requests to distinct blocks *)
Section batch.
Context {D : Type} `{KVLaws D}.
Implicit Types (s : server D) (cl : cluster D) (p : packet) (r : Z * packet).

Definition cluster_view cl (j : nat) (k : bytes) : block :=
  match cl !! j with Some s => view s k | None => mk_block None 0 0 [] end.

Definition target cl r : nat * bytes := (host cl r.1, as_string r.2.(header)).

Definition target_view cl r : block := cluster_view cl (target cl r).1 (target cl r).2.

(** One step of the block a packet addresses, and the packet the client gets back. *)
Definition packet_step p (b : block) : msg_t * bytes * block :=
  let r := server_request p in
  block_step r.(req_msg) (Z.to_nat r.(req_header).(position)) (Z.to_nat r.(req_header).(datasize))
    r.(req_header).(version) r.(req_body) b.

Definition answer p (b : block) : packet :=
  let '(t, d, _) := packet_step p b in
  mk_packet (set_datasize (Z.of_nat (length d)) (set_type t (server_request p).(req_header))) d.

Definition cluster_ok cl : Prop := cl <> [] /\ Forall small cl.

(** A packet every server can take: it has a connection to go to, it fits its buffers, and a read starts inside its
    block. *)
Definition deliverable cl r : Prop :=
  0 <= r.1 < 2 * Z.of_nat (length cl) /\ sendable r.2 /\
  (server_request r.2).(req_header).(position) + (server_request r.2).(req_header).(datasize) < 2 ^ 32 /\
  ((server_request r.2).(req_msg) = get -> forall c, (target_view cl r).(contents) = Some c ->
     (server_request r.2).(req_header).(position) <= Z.of_nat (length c)).

(** [cl'] differs from [cl] at most in the view of block [k] of host [j]. *)
Definition only_target cl cl' (t : nat * bytes) : Prop :=
  forall j k, block_key k -> (j, k) <> t -> cluster_view cl' j k = cluster_view cl j k.

Lemma host_lt cl i : cl <> [] -> (host cl i < length cl)%nat.
Proof. intros. unfold host. apply Nat.mod_upper_bound. by destruct cl. Qed.

Lemma deliver_to_spec cl r : cluster_ok cl -> deliverable cl r ->
  exists cl', deliver_to cl r = Some (cl', answer r.2 (target_view cl r)) /\
    cluster_ok cl' /\ length cl' = length cl /\
    target_view cl' r = (packet_step r.2 (target_view cl r)).2 /\
    only_target cl cl' (target cl r).
Proof.
  intros [Hne Hok] (Hidx & Hse & Hsum & Hget). destruct r as [i p]. cbn [fst snd] in *.
  pose proof (host_lt cl i Hne) as Hlt.
  destruct (lookup_lt_is_Some_2 cl _ Hlt) as [s Es].
  assert (target_view cl (i, p) = view s (as_string p.(header))) as Ev.
  { unfold target_view, cluster_view, target. cbn [fst snd]. by rewrite Es. }
  destruct (sent_bytes_wire p Hse) as ((Hh & _ & Hbody) & _ & Hk).
  assert (bounded s (server_request p)) as Hb.
  { split_and!; [done| |done|].
    - intros Em. by rewrite Em in Hbody.
    - intros Em c Ec. apply Hget; [done|]. rewrite Ev. rewrite Hk in Ec. exact Ec. }
  assert (small s) as Hs by (by eapply Forall_lookup_1).
  destruct (deliver_spec s p Hse Hs Hb) as (s' & t & d & b' & E & Hst & Hv & Hs' & Hf & _).
  exists (<[host cl i := s']> cl). unfold deliver_to. cbn [fst snd].
  rewrite decide_True, Es by done. cbn [mbind option_bind].
  rewrite E. cbn [mbind option_bind].
  assert (host (<[host cl i := s']> cl) i = host cl i) as Eh
    by (unfold host; by rewrite length_insert).
  rewrite Ev. unfold answer, packet_step. rewrite Hst. split_and!.
  - done.
  - split; [|by apply Forall_insert]. intros E0. apply (f_equal length) in E0.
    rewrite length_insert in E0. by destruct cl.
  - apply length_insert.
  - unfold target_view, cluster_view, target. cbn [fst snd]. rewrite Eh.
    by rewrite list_lookup_insert_eq by done.
  - intros j k Hkk Hne'. unfold cluster_view. unfold target in Hne'. cbn [fst snd] in Hne'.
    destruct (decide (j = host cl i)) as [->|Hj].
    + rewrite list_lookup_insert_eq, Es by done. apply Hf; [done|congruence].
    + by rewrite list_lookup_insert_ne.
Qed.

(** Hosts do not move. *)
Lemma target_length cl cl' r : length cl' = length cl -> target cl' r = target cl r.
Proof. intros E. unfold target, host. by rewrite E. Qed.

Lemma target_block_key cl r : sendable r.2 -> block_key (target cl r).2.
Proof. intros (Hh & _). by apply as_string_block_key. Qed.

(** A batch to pairwise distinct blocks: each request meets its block as the batch
    found it. *)
Lemma deliver_all_spec reqs cl : cluster_ok cl -> NoDup (target cl <$> reqs) ->
  Forall (deliverable cl) reqs ->
  exists cl', deliver_all cl reqs = Some (cl', (fun r => answer r.2 (target_view cl r)) <$> reqs) /\
    cluster_ok cl' /\ length cl' = length cl /\
    (forall r, r ∈ reqs -> target_view cl' r = (packet_step r.2 (target_view cl r)).2) /\
    (forall j k, block_key k -> (j, k) ∉ (target cl <$> reqs) ->
       cluster_view cl' j k = cluster_view cl j k).
Proof.
  revert cl. induction reqs as [|r reqs IH]; intros cl Hok Hn Hd.
  { exists cl. split_and!; try done. by intros r ?%elem_of_nil. }
  simpl in Hn. apply NoDup_cons in Hn as [Hr Hn]. apply Forall_cons in Hd as [Hd1 Hd].
  destruct (deliver_to_spec cl r Hok Hd1) as (cl1 & E1 & Hok1 & Hl1 & Hv1 & Hf1).
  assert (forall r', r' ∈ reqs -> sendable r'.2 -> target_view cl1 r' = target_view cl r') as Hsame.
  { intros r' Hin Hs. unfold target_view. rewrite (target_length cl cl1) by done.
    apply Hf1; [by apply target_block_key|]. rewrite <- surjective_pairing. intros E. apply Hr.
    rewrite <- E. by apply list_elem_of_fmap_2. }
  assert (target cl1 <$> reqs = target cl <$> reqs) as Et.
  { apply list_fmap_ext. intros. by apply target_length. }
  destruct (IH cl1) as (cl' & E & Hok' & Hl' & Hv' & Hf'); [done|by rewrite Et| |].
  { rewrite Forall_forall in Hd |- *. intros r' Hin. destruct (Hd r' Hin) as (Hidx & Hs & Hsum & Hg).
    split; [by rewrite Hl1|]. split_and!; [done|done|]. by rewrite Hsame. }
  rewrite Forall_forall in Hd.
  exists cl'. cbn [deliver_all]. rewrite E1. cbn [mbind option_bind]. rewrite E. cbn [mbind option_bind].
  split_and!.
  - do 2 f_equal. cbn [fmap list_fmap]. f_equal. apply list_fmap_ext. intros n r' Hin%list_elem_of_lookup_2.
    rewrite Hsame; [done|done|]. by apply Hd.
  - done.
  - congruence.
  - intros r' Hin. apply elem_of_cons in Hin as [->|Hin].
    + unfold target_view at 1. rewrite (target_length cl cl') by congruence. rewrite Hf'.
      * rewrite <- Hv1. unfold target_view. by rewrite (target_length cl cl1).
      * apply target_block_key, Hd1.
      * rewrite Et, <- surjective_pairing. done.
    + rewrite Hv' by done. rewrite Hsame; [done|done|]. by apply Hd.
  - intros j k Hk Hin. cbn [fmap list_fmap] in Hin. apply not_elem_of_cons in Hin as [Hne Hin].
    rewrite Hf'; [|done|by rewrite Et]. by apply Hf1.
Qed.

End batch.

(** ** Writing and reading a range *)

Section protocol.
Context {D : Type} `{KVStore D}.
Variable pick : bytes -> Z -> Z -> Z.
Variable cfg : config.
Variable salts : Z -> bytes.

(** The order in which requests reach the servers. *)
Variable shuffle : forall A : Type, list A -> list A.

(** [start_2pc_prepare] and the callbacks it leaves behind: the prepares, the verdict
    of the response handler, and the commits or rollbacks it starts. *)
Definition two_pc (cl : cluster D) (rec : recoder) (selected_version : Z) (i : input)
    : option (cluster D * recoder * list action) :=
  reqs ← prepare_requests pick cfg salts rec selected_version i;
  '(cl, resps) ← deliver_all cl (shuffle _ reqs);
  let events := replicate (length reqs) Sent
                ++ (Response <$> ((fun p => p.(header).(type)) <$> resps)) in
  let acts := (phase_run (prepare_response i.(in_uuid)) phase_init events).2 in
  match commits acts with
  | [] => Some (cl, rec, acts)
  | agree :: _ =>
      '(cl, acks) ← deliver_all cl (shuffle _ (commit_requests pick cfg salts agree selected_version i));
      Some (cl, apply_actions acts rec, acts)
  end.

(** [start_read]: the requests numbered by their place in the file; each response
    fills its slot.  A range of size 0 is answered at once. *)
Definition start_read (cl : cluster D) (i : input) : option (cluster D * list bytes) :=
  if i.(in_size) =? 0 then Some (cl, [[]])
  else
    let reqs := shuffle _ (imap pair (read_requests pick cfg salts i)) in
    '(cl, resps) ← deliver_all cl reqs.*2;
    let n := length (read_requests pick cfg salts i) in
    Some (cl, (read_run (replicate n None) (zip reqs.*1 ((fun p => p.(data)) <$> resps))).2).

(** The host and the key of block [b] of file [uuid]. *)
Definition block_host (cl : cluster D) (uuid : bytes) (b : Z) : nat :=
  host cl (select_replica pick cfg uuid b 0).

Definition file_block_key (uuid : bytes) (b : Z) : bytes := uuid ++ to_string b.

Definition file_view (cl : cluster D) (uuid : bytes) (b : Z) : block :=
  cluster_view cl (block_host cl uuid b) (file_block_key uuid b).

(** The striped file that the servers keep under a uuid. *)
Definition file_of (cl : cluster D) (uuid : bytes) : sfile := fun b =>
  if decide (0 <= b < 2 ^ 32) then (file_view cl uuid b).(contents) else None.

End protocol.

Section protocol_facts.
Context {D : Type} `{KVLaws D}.
Variable pick : bytes -> Z -> Z -> Z.
Variable cfg : config.
Variable salts : Z -> bytes.
Variable shuffle : forall A : Type, list A -> list A.
Implicit Types (cl : cluster D).

Record config_ok : Prop := {
  ok_blocksize : 0 < cfg.(cfg_blocksize) <= 2 ^ 16;
  ok_pick : forall seed skip n, 0 < n -> 0 <= pick seed skip n < n;
  ok_salts : forall b, length (salts b) = 4%nat;
  ok_shuffle : forall A (l : list A), shuffle A l ≡ₚ l
}.
Hypothesis Hcfg : config_ok.

Record input_ok (i : input) : Prop := {
  ok_uuid : length i.(in_uuid) = key_size;
  ok_position : 0 <= i.(in_position);
  ok_size : 0 < i.(in_size);
  ok_end : i.(in_position) + i.(in_size) < 2 ^ 32
}.

(** The configuration's hosts are the servers of the cluster. *)
Definition hosts_ok cl : Prop := cluster_ok cl /\ cfg.(replication_start_index_) = Z.of_nat (length cl).

Let bs := cfg.(cfg_blocksize).

Lemma bs_ok : 0 < bs < 2 ^ 32.
Proof. destruct Hcfg as [? _ _ _]. unfold bs. lia. Qed.

Lemma pieces_tiles i : input_ok i ->
  tiles bs i.(in_position) 0 (pieces cfg i) (i.(in_position) + i.(in_size)).
Proof. intros []. apply split_tiles; [apply bs_ok|lia..]. Qed.

Lemma piece_range i c : input_ok i -> c ∈ pieces cfg i ->
  0 <= c.(Stripe.blockid) < 2 ^ 32 /\ 0 <= c.(offset) < 2 ^ 16 /\
  0 < c.(blockwritesize) <= 2 ^ 16 /\ c.(offset) + c.(blockwritesize) <= bs /\
  0 <= c.(buffer_pointer_offset) /\
  c.(buffer_pointer_offset) + c.(blockwritesize) <= i.(in_size).
Proof.
  intros Hi Hc. pose proof (tiles_elem bs _ _ _ _ _ (pieces_tiles i Hi) Hc) as Ht.
  destruct Hcfg as [Hb _ _ _], Hi. fold bs in Hb. nia.
Qed.

(** The fields a piece's request carries unchanged. *)
Lemma create_request_fields i m ver c size : input_ok i -> c ∈ pieces cfg i ->
  0 <= size < 2 ^ 32 ->
  (create_request (salts c.(Stripe.blockid)) i.(in_uuid) m ver c.(Stripe.blockid)
    c.(offset) size).(header)
  = mk_header (code m) i.(in_uuid) c.(Stripe.blockid) c.(offset) size ver
      (salts c.(Stripe.blockid)).
Proof.
  intros Hi Hc Hs. pose proof (piece_range i c Hi Hc) as Hr. unfold create_request. cbn [header].
  by rewrite !wrap_small by
    (change (modulus 4) with (2 ^ 32); change (modulus 2) with (2 ^ 16); lia).
Qed.

Lemma create_request_fields' i m ver c size : input_ok i -> c ∈ pieces cfg i ->
  0 <= size < 2 ^ 32 ->
  create_request (salts c.(Stripe.blockid)) i.(in_uuid) m ver c.(Stripe.blockid) c.(offset) size
  = mk_packet (mk_header (code m) i.(in_uuid) c.(Stripe.blockid) c.(offset) size ver
      (salts c.(Stripe.blockid))) [].
Proof. intros Hi Hc Hs. rewrite <- create_request_fields by done. done. Qed.

Lemma create_request_wf i m ver c size : input_ok i -> c ∈ pieces cfg i ->
  0 <= size < 2 ^ 32 -> 0 <= ver < 2 ^ 32 ->
  wf_header (create_request (salts c.(Stripe.blockid)) i.(in_uuid) m ver c.(Stripe.blockid)
    c.(offset) size).(header).
Proof.
  intros Hi Hc Hs Hv. rewrite create_request_fields by done.
  pose proof (piece_range i c Hi Hc) as Hr. destruct Hi, Hcfg.
  split; cbn [type uuid blockid position datasize version salt];
    first [apply leveldb_code_range | done | lia | auto].
Qed.

(** *** A batch of one request per piece *)

Definition piece_packet (m : msg_t) (ver : Z) (i : input) (c : chunk) (size : Z) (d : bytes) : packet :=
  mk_packet (mk_header (code m) i.(in_uuid) c.(Stripe.blockid) c.(offset) size ver
    (salts c.(Stripe.blockid))) d.

Definition piece_request (m : msg_t) (ver : Z) (i : input) (size : chunk -> Z) (d : chunk -> bytes)
    (c : chunk) : Z * packet :=
  (select_replica pick cfg i.(in_uuid) c.(Stripe.blockid) 0, piece_packet m ver i c (size c) (d c)).

(** What a batch carries: sizes that are those of the payloads, except in a [get]. *)
Record batch_ok (m : msg_t) (ver : Z) (i : input) (size : chunk -> Z) (d : chunk -> bytes) : Prop := {
  bo_input : input_ok i;
  bo_version : 0 <= ver < 2 ^ 32;
  bo_size : forall c, c ∈ pieces cfg i -> 0 <= size c <= 2 ^ 16;
  bo_data : forall c, c ∈ pieces cfg i -> m <> get -> Z.of_nat (length (d c)) = size c;
  bo_body : reads_body m = false -> forall c, d c = []
}.

Section one_batch.
Context (m : msg_t) (ver : Z) (i : input) (size : chunk -> Z) (d : chunk -> bytes).
Hypothesis Hb : batch_ok m ver i size d.
Let req := piece_request m ver i size d.

Lemma piece_packet_request c : c ∈ pieces cfg i ->
  server_request (req c).2 = Ssbd.mk_request m (req c).2.(header) (d c).
Proof.
  intros Hc. unfold server_request, req, piece_request, piece_packet. cbn [snd header type data].
  rewrite leveldb_of_code_code. pose proof (bo_size _ _ _ _ _ Hb c Hc).
  destruct (decide (m = get)) as [->|Hm].
  - by rewrite (bo_body _ _ _ _ _ Hb).
  - pose proof (bo_data _ _ _ _ _ Hb c Hc Hm) as Hd.
    assert (u32 (Z.of_nat (length (d c))) = size c) as E
      by (rewrite Hd; apply wrap_small; change (modulus 4) with (2 ^ 32); lia).
    destruct m; try done; cbn [default]; unfold serialize, set_datasize; cbn [fst header type uuid
      blockid position datasize version salt data]; by rewrite E.
Qed.

Lemma piece_packet_step c b : c ∈ pieces cfg i ->
  packet_step (req c).2 b
  = block_step m (Z.to_nat c.(offset)) (Z.to_nat (size c)) ver (d c) b.
Proof. intros Hc. unfold packet_step. by rewrite piece_packet_request. Qed.

Lemma piece_sendable c : c ∈ pieces cfg i -> sendable (req c).2.
Proof.
  intros Hc. pose proof (piece_range i c (bo_input _ _ _ _ _ Hb) Hc) as Hr.
  pose proof (bo_size _ _ _ _ _ Hb c Hc) as Hs. destruct Hb as [[] Hv _ Hd Hn], Hcfg.
  split; [|split].
  - split; cbn [req piece_request piece_packet snd header type uuid blockid position datasize version salt];
      first [apply leveldb_code_range | done | lia | auto].
  - cbn [req piece_request piece_packet snd data]. destruct (decide (m = get)) as [->|Hm].
    + by rewrite Hn.
    + rewrite Hd by done. lia.
  - exists m. split; [apply leveldb_of_code_code|]. intros Hm. by apply Hn.
Qed.

Lemma piece_target cl c :
  target cl (req c) = (block_host pick cfg cl i.(in_uuid) c.(Stripe.blockid),
                       file_block_key i.(in_uuid) c.(Stripe.blockid)).
Proof. done. Qed.

Lemma piece_target_view cl c : target_view cl (req c) = file_view pick cfg cl i.(in_uuid) c.(Stripe.blockid).
Proof. done. Qed.

Lemma pieces_NoDup : NoDup (Stripe.blockid <$> pieces cfg i).
Proof.
  eapply tiles_NoDup; [apply bs_ok|]. apply pieces_tiles, (bo_input _ _ _ _ _ Hb).
Qed.

Lemma piece_targets_NoDup cl : NoDup (target cl <$> (req <$> pieces cfg i)).
Proof.
  rewrite <- list_fmap_compose. apply NoDup_fmap_2_strong; [|by eapply NoDup_fmap_1, pieces_NoDup].
  intros c c' Hc Hc' E. cbn [compose] in E. rewrite !piece_target in E.
  pose proof (piece_range i c (bo_input _ _ _ _ _ Hb) Hc).
  pose proof (piece_range i c' (bo_input _ _ _ _ _ Hb) Hc').
  eapply NoDup_fmap_inj_elem; [apply pieces_NoDup|done|done|].
  injection E as _ E. apply app_inv_head in E. apply to_string_inj in E; [done|lia..].
Qed.

Lemma piece_index cl c : hosts_ok cl -> 0 <= (req c).1 < 2 * Z.of_nat (length cl).
Proof.
  intros [[Hne _] Hn]. cbn [req piece_request fst]. unfold select_replica. rewrite Hn.
  pose proof (ok_pick Hcfg i.(in_uuid) (u64 (c.(Stripe.blockid) * (c.(Stripe.blockid) * 0)))
    (Z.of_nat (length cl))) as Hpk.
  assert (length cl <> 0)%nat by (by destruct cl). lia.
Qed.

Lemma piece_deliverable cl c : hosts_ok cl -> c ∈ pieces cfg i ->
  (m = get -> forall x, (file_view pick cfg cl i.(in_uuid) c.(Stripe.blockid)).(contents) = Some x ->
     c.(offset) <= Z.of_nat (length x)) ->
  deliverable cl (req c).
Proof.
  intros Hh Hc Hg. pose proof (piece_range i c (bo_input _ _ _ _ _ Hb) Hc) as Hr.
  pose proof (bo_size _ _ _ _ _ Hb c Hc) as Hs. split; [by apply piece_index|]. split; [by apply piece_sendable|].
  rewrite piece_packet_request by done. cbn [req_header req_msg].
  cbn [req piece_request piece_packet snd header position datasize]. split; [lia|].
  intros Em x Ex. by apply Hg.
Qed.

(** The whole batch, in any order. *)
Lemma piece_batch cl reqs : hosts_ok cl -> reqs ≡ₚ (req <$> pieces cfg i) ->
  (m = get -> forall c x, c ∈ pieces cfg i ->
     (file_view pick cfg cl i.(in_uuid) c.(Stripe.blockid)).(contents) = Some x ->
     c.(offset) <= Z.of_nat (length x)) ->
  exists cl', deliver_all cl reqs = Some (cl', (fun r => answer r.2 (target_view cl r)) <$> reqs) /\
    hosts_ok cl' /\ length cl' = length cl /\
    (forall c, c ∈ pieces cfg i ->
       file_view pick cfg cl' i.(in_uuid) c.(Stripe.blockid)
       = (block_step m (Z.to_nat c.(offset)) (Z.to_nat (size c)) ver (d c)
            (file_view pick cfg cl i.(in_uuid) c.(Stripe.blockid))).2) /\
    (forall uuid b, length uuid = key_size -> 0 <= b < 2 ^ 32 ->
       uuid <> i.(in_uuid) \/ b ∉ (Stripe.blockid <$> pieces cfg i) ->
       file_view pick cfg cl' uuid b = file_view pick cfg cl uuid b).
Proof.
  intros Hok Hp Hg. destruct (deliver_all_spec reqs cl (proj1 Hok)) as (cl' & E & Hok' & Hl & Hv & Hf).
  - rewrite Hp. apply piece_targets_NoDup.
  - rewrite Hp. apply Forall_fmap, Forall_forall. intros c Hc. apply piece_deliverable; [done|done|].
    intros Em x Ex. by eapply Hg.
  - exists cl'. split_and!; [done|split; [done|by rewrite Hl; apply Hok]|done| |].
    + intros c Hc. specialize (Hv (req c)). rewrite Hp in Hv.
      specialize (Hv (list_elem_of_fmap_2 req _ _ Hc)). rewrite piece_packet_step in Hv by done.
      by rewrite !piece_target_view in Hv.
    + intros uuid b Hu Hb' Hne. unfold file_view.
      assert (block_host pick cfg cl' uuid b = block_host pick cfg cl uuid b) as ->
        by (unfold block_host, host; by rewrite Hl).
      apply Hf; [by exists uuid, b|]. rewrite Hp, <- list_fmap_compose.
      intros (c & Ec & Hc)%list_elem_of_fmap. cbn [compose] in Ec. rewrite piece_target in Ec.
      injection Ec as _ Ec. pose proof (piece_range i c (bo_input _ _ _ _ _ Hb) Hc).
      apply app_inj_1 in Ec as [Eu Eb]; [|by rewrite Hu, (ok_uuid _ (bo_input _ _ _ _ _ Hb))].
      apply to_string_inj in Eb; [|lia..]. destruct Hne as [Hne|Hne]; [done|].
      apply Hne. rewrite Eb. by apply list_elem_of_fmap_2.
Qed.

End one_batch.

(** *** The batches of the protocol *)

Definition prepare_msg (rec : recoder) (i : input) : msg_t :=
  if is_checked i.(in_uuid) rec then two_pc_prepare_quick else two_pc_prepare.
Definition commit_msg (agree : bool) : msg_t :=
  if agree then two_pc_commit_execute else two_pc_commit_rollback.

Lemma prepare_requests_eq rec ver i : input_ok i -> i.(in_size) <= Z.of_nat (length i.(in_data)) ->
  prepare_requests pick cfg salts rec ver i
  = Some (piece_request (prepare_msg rec i) ver i blockwritesize (piece i.(in_data)) <$> pieces cfg i).
Proof.
  intros Hi Hd. unfold prepare_requests. apply mapM_Some_2, Forall2_fmap_r, Forall_Forall2_diag, Forall_forall.
  intros c Hc. pose proof (piece_range i c Hi Hc) as Hr. unfold prepare_request.
  rewrite mem_get_Some by lia. cbn [mbind option_bind].
  rewrite create_request_fields by (done || lia). done.
Qed.

Lemma commit_requests_eq agree ver i : input_ok i ->
  commit_requests pick cfg salts agree ver i
  = piece_request (commit_msg agree) ver i (fun _ => 0) (fun _ => []) <$> pieces cfg i.
Proof.
  intros Hi. apply list_fmap_ext. intros n c Hc%list_elem_of_lookup_2.
  unfold commit_request, piece_request, piece_packet.
  rewrite <- (create_request_fields i _ ver c 0) by (done || lia). done.
Qed.

Lemma read_requests_eq i : input_ok i ->
  read_requests pick cfg salts i
  = piece_request get 0 i blockwritesize (fun _ => []) <$> pieces cfg i.
Proof.
  intros Hi. apply list_fmap_ext. intros n c Hc%list_elem_of_lookup_2.
  pose proof (piece_range i c Hi Hc). unfold read_request, piece_request, piece_packet.
  rewrite <- (create_request_fields i _ 0 c c.(blockwritesize)) by (done || lia). done.
Qed.

Lemma prepare_batch_ok rec ver i : input_ok i -> 0 <= ver < 2 ^ 32 ->
  i.(in_size) <= Z.of_nat (length i.(in_data)) ->
  batch_ok (prepare_msg rec i) ver i blockwritesize (piece i.(in_data)).
Proof.
  intros Hi Hv Hd. split; [done|done|..].
  - intros c Hc. pose proof (piece_range i c Hi Hc). lia.
  - intros c Hc _. pose proof (piece_range i c Hi Hc). unfold piece.
    rewrite length_take, length_drop. lia.
  - unfold prepare_msg. by case_match.
Qed.

Lemma commit_batch_ok agree ver i : input_ok i -> 0 <= ver < 2 ^ 32 ->
  batch_ok (commit_msg agree) ver i (fun _ => 0) (fun _ => []).
Proof. intros. by split. Qed.

Lemma read_batch_ok i : input_ok i -> batch_ok get 0 i blockwritesize (fun _ => []).
Proof. intros Hi. split; try done. intros c Hc. pose proof (piece_range i c Hi Hc). lia. Qed.

(** A file is free to be written when this client was agreed the last time, or when
    no block of the range has a log pending. *)
Definition free (rec : recoder) (cl : cluster D) (i : input) : Prop :=
  is_checked i.(in_uuid) rec = true \/
  forall c, c ∈ pieces cfg i ->
    busy (touch (file_view pick cfg cl i.(in_uuid) c.(Stripe.blockid))) = false.

(** A prepare of a free block: agreed, its data pending. *)
Lemma prepare_step rec cl i c ver : free rec cl i -> c ∈ pieces cfg i ->
  let b := file_view pick cfg cl i.(in_uuid) c.(Stripe.blockid) in
  block_step (prepare_msg rec i) (Z.to_nat c.(offset)) (Z.to_nat c.(blockwritesize)) ver
    (piece i.(in_data) c) b
  = (two_pc_prepare_agree, [],
     set_pending ver (overlay (Z.to_nat c.(offset)) (piece i.(in_data) c) (default [] b.(contents)))
       (touch b)).
Proof.
  intros Hfree Hc b. unfold prepare_msg, free in *. fold b. destruct (is_checked _ rec).
  - cbn [block_step]. by rewrite touch_contents.
  - destruct Hfree as [?|Hfree]; [done|]. cbn [block_step]. specialize (Hfree c Hc). fold b in Hfree.
    by rewrite Hfree, touch_contents.
Qed.

Lemma answer_type cl m ver i size d c t d' b' : batch_ok m ver i size d -> c ∈ pieces cfg i ->
  block_step m (Z.to_nat c.(offset)) (Z.to_nat (size c)) ver (d c)
    (file_view pick cfg cl i.(in_uuid) c.(Stripe.blockid)) = (t, d', b') ->
  let r := piece_request m ver i size d c in
  (answer r.2 (target_view cl r)).(header).(type) = code t /\
  (answer r.2 (target_view cl r)).(data) = d'.
Proof.
  intros Hb Hc Hst r. unfold answer, r. rewrite piece_target_view.
  rewrite (piece_packet_step m ver i size d Hb) by done. by rewrite Hst.
Qed.

Lemma pieces_nonempty i : input_ok i -> pieces cfg i <> [].
Proof.
  intros Hi E. pose proof (pieces_tiles i Hi) as Ht. rewrite E in Ht. destruct Hi. simpl in Ht. lia.
Qed.

(** *** A write of a free range *)

(** The callbacks' actions on the answers of a phase. *)
Definition prepare_actions (uuid : bytes) (resps : list packet) : list action :=
  (phase_run (prepare_response uuid) phase_init
     (replicate (length resps) Sent ++ (Response <$> ((fun p => p.(header).(type)) <$> resps)))).2.

Lemma prepare_actions_eq uuid resps : resps <> [] ->
  let types := (fun p => p.(header).(type)) <$> resps in
  prepare_actions uuid resps =
  if forallb agreed types then [CancelTimer; MarkChecked uuid; Reply msg_ok; StartCommit true]
  else [CancelTimer; EraseChecked uuid;
        Reply (msg_pending ++ default [] (abort_suffix <$> last types)); StartCommit false].
Proof.
  intros Hne types. unfold prepare_actions. fold types.
  assert (length resps = length types) as -> by (symmetry; apply length_fmap).
  rewrite phase_run_app, phase_run_sends. cbn [phase_init outstanding_requests all_ssbd_agree].
  rewrite Z.add_0_l, prepare_responses; [done|]. unfold types. by destruct resps.
Qed.

(** The prepares of a free range: all agreed, the data pending, the contents as
    before. *)
Lemma prepare_free rec cl ver i : hosts_ok cl -> input_ok i -> 0 <= ver < 2 ^ 32 ->
  i.(in_size) <= Z.of_nat (length i.(in_data)) -> free rec cl i ->
  exists reqs cl1 resps, prepare_requests pick cfg salts rec ver i = Some reqs /\
    deliver_all cl (shuffle _ reqs) = Some (cl1, resps) /\ length resps = length reqs /\
    prepare_actions i.(in_uuid) resps
      = [CancelTimer; MarkChecked i.(in_uuid); Reply msg_ok; StartCommit true] /\
    hosts_ok cl1 /\ length cl1 = length cl /\
    (forall c, c ∈ pieces cfg i -> file_view pick cfg cl1 i.(in_uuid) c.(Stripe.blockid)
       = let b := file_view pick cfg cl i.(in_uuid) c.(Stripe.blockid) in
         set_pending ver
           (overlay (Z.to_nat c.(offset)) (piece i.(in_data) c) (default [] b.(contents))) (touch b)) /\
    (forall uuid b, length uuid = key_size -> 0 <= b < 2 ^ 32 ->
       uuid <> i.(in_uuid) \/ b ∉ (Stripe.blockid <$> pieces cfg i) ->
       file_view pick cfg cl1 uuid b = file_view pick cfg cl uuid b).
Proof.
  intros Hok Hi Hv Hd Hfree. rewrite prepare_requests_eq by done.
  set (reqs := _ <$> pieces cfg i). exists reqs.
  pose proof (ok_shuffle Hcfg _ reqs) as Hp.
  pose proof (prepare_batch_ok rec ver i Hi Hv Hd) as Hb1.
  destruct (piece_batch _ _ _ _ _ Hb1 cl (shuffle _ reqs) Hok Hp) as (cl1 & E & Hok1 & Hl1 & Hv1 & Hf1).
  { unfold prepare_msg. by case_match. }
  exists cl1. eexists. split; [done|]. split; [exact E|].
  split; [by rewrite length_fmap, Hp|]. split; [|split; [done|split; [done|split; [|done]]]].
  - rewrite prepare_actions_eq.
    + assert (forallb agreed ((fun p => p.(header).(type)) <$>
        ((fun r => answer r.2 (target_view cl r)) <$> shuffle _ reqs)) = true) as ->; [|done].
      apply forallb_forall. intros t Ht%list_elem_of_In. rewrite <- list_fmap_compose in Ht.
      apply list_elem_of_fmap in Ht as (r & -> & Hr). rewrite Hp in Hr.
      apply list_elem_of_fmap in Hr as (c & -> & Hc). cbn [compose].
      rewrite (proj1 (answer_type cl _ _ _ _ _ c _ _ _ Hb1 Hc (prepare_step rec cl i c ver Hfree Hc))).
      done.
    + intros Hnil. apply (f_equal length) in Hnil. rewrite length_fmap, Hp in Hnil.
      unfold reqs in Hnil. rewrite length_fmap in Hnil. simpl in Hnil.
      apply nil_length_inv in Hnil. by apply pieces_nonempty in Hnil.
  - intros c Hc. rewrite Hv1 by done. by rewrite prepare_step.
Qed.

Lemma two_pc_free rec cl ver i : hosts_ok cl -> input_ok i -> 0 <= ver < 2 ^ 32 ->
  i.(in_size) <= Z.of_nat (length i.(in_data)) -> free rec cl i ->
  exists cl', two_pc pick cfg salts shuffle cl rec ver i
      = Some (cl', mark_checked i.(in_uuid) rec,
              [CancelTimer; MarkChecked i.(in_uuid); Reply msg_ok; StartCommit true]) /\
    hosts_ok cl' /\ length cl' = length cl /\
    (forall c, c ∈ pieces cfg i -> file_view pick cfg cl' i.(in_uuid) c.(Stripe.blockid)
       = let b := file_view pick cfg cl i.(in_uuid) c.(Stripe.blockid) in
         let data := overlay (Z.to_nat c.(offset)) (piece i.(in_data) c) (default [] b.(contents)) in
         mk_block (Some data) ver ver data) /\
    (forall uuid b, length uuid = key_size -> 0 <= b < 2 ^ 32 ->
       uuid <> i.(in_uuid) \/ b ∉ (Stripe.blockid <$> pieces cfg i) ->
       file_view pick cfg cl' uuid b = file_view pick cfg cl uuid b).
Proof.
  intros Hok Hi Hv Hd Hfree.
  destruct (prepare_free rec cl ver i Hok Hi Hv Hd Hfree)
    as (reqs & cl1 & resps & E1 & E2 & El & Ea & Hok1 & Hl1 & Hv1 & Hf1).
  unfold two_pc. rewrite E1. cbn [mbind option_bind]. rewrite E2. cbn [mbind option_bind].
  rewrite <- El. change (phase_run _ _ _).2 with (prepare_actions i.(in_uuid) resps). rewrite Ea.
  cbn [commits omap list_omap]. rewrite commit_requests_eq by done.
  pose proof (commit_batch_ok true ver i Hi Hv) as Hb2.
  destruct (piece_batch _ _ _ _ _ Hb2 cl1 _ Hok1 (ok_shuffle Hcfg _ _)) as (cl' & -> & Hok' & Hl' & Hv' & Hf').
  { done. }
  exists cl'. split; [done|split; [done|split; [congruence|split]]].
  - intros c Hc. rewrite Hv', Hv1 by done. done.
  - intros uuid b Hu Hbb Hne. by rewrite Hf', Hf1.
Qed.

(** *** A read *)

Lemma length_pieces_read i : length (read_requests pick cfg salts i) = length (pieces cfg i).
Proof. unfold read_requests. by rewrite length_fmap. Qed.

Lemma read_piece_data cl i c : input_ok i -> c ∈ pieces cfg i ->
  let r := piece_request get 0 i blockwritesize (fun _ => []) c in
  (answer r.2 (target_view cl r)).(data) = read_chunk (file_of pick cfg cl i.(in_uuid)) c.
Proof.
  intros Hi Hc r. subst r. pose proof (piece_range i c Hi Hc) as Hr.
  set (b := file_view pick cfg cl i.(in_uuid) c.(Stripe.blockid)).
  destruct (block_step get (Z.to_nat c.(offset)) (Z.to_nat c.(blockwritesize)) 0 [] b) as [[t d] b'] eqn:E.
  destruct (answer_type cl get 0 i blockwritesize (fun _ => []) c t d b' (read_batch_ok i Hi) Hc E)
    as [_ ->].
  unfold read_chunk, file_of. rewrite decide_True by lia. fold b.
  cbn [block_step] in E. destruct (contents b); by simplify_eq.
Qed.

Lemma start_read_spec cl i : hosts_ok cl -> input_ok i ->
  (forall c x, c ∈ pieces cfg i ->
     (file_view pick cfg cl i.(in_uuid) c.(Stripe.blockid)).(contents) = Some x ->
     c.(offset) <= Z.of_nat (length x)) ->
  exists cl', start_read pick cfg salts shuffle cl i
      = Some (cl', [read_file bs (file_of pick cfg cl i.(in_uuid)) i.(in_position) i.(in_size)]) /\
    hosts_ok cl' /\
    (forall uuid b, length uuid = key_size -> 0 <= b < 2 ^ 32 ->
       file_view pick cfg cl' uuid b = file_view pick cfg cl uuid b).
Proof.
  intros Hok Hi Hg. unfold start_read.
  destruct (Z.eqb_spec i.(in_size) 0) as [E|_]; [destruct Hi; lia|].
  rewrite read_requests_eq by done.
  set (rr := _ <$> pieces cfg i). set (reqs := shuffle _ (imap pair rr)).
  assert (reqs ≡ₚ imap pair rr) as Hp by apply (ok_shuffle Hcfg).
  assert (reqs.*2 ≡ₚ rr) as Hp2 by (by rewrite Hp, imap_pair_snd).
  destruct (piece_batch _ _ _ _ _ (read_batch_ok i Hi) cl reqs.*2 Hok Hp2)
    as (cl' & -> & Hok' & Hl & Hv & Hf); [by intros _|]. cbn [mbind option_bind].
  set (bufs := (fun r => (answer r.2 (target_view cl r)).(data)) <$> rr).
  assert (zip reqs.*1 ((fun p => p.(data)) <$> ((fun r => answer r.2 (target_view cl r)) <$> reqs.*2))
    = (fun n => (n, default [] (bufs !! n))) <$> reqs.*1) as ->.
  { assert (Forall (fun nr => rr !! nr.1 = Some nr.2) reqs) as Hall.
    { apply Forall_forall. intros [n r]. rewrite Hp. apply elem_of_imap_pair. }
    clear -Hall. induction Hall as [|[n r] l Hr _ IH]; [done|].
    cbn [fmap list_fmap zip_with fst snd]. f_equal; [|exact IH].
    f_equal. unfold bufs. cbn [fst snd] in Hr. by rewrite list_lookup_fmap, Hr. }
  assert (length bufs = length rr) as Hlb by apply length_fmap.
  rewrite (read_run_spec bufs).
  - exists cl'. split_and!; [|done|].
    + assert (bufs = read_chunk (file_of pick cfg cl i.(in_uuid)) <$> pieces cfg i) as ->; [|done].
      unfold bufs, rr. rewrite <- list_fmap_compose. apply list_fmap_ext.
      intros n c Hc%list_elem_of_lookup_2. by apply read_piece_data.
    + intros uuid b Hu Hbb.
      destruct (decide (uuid = i.(in_uuid) /\ b ∈ (Stripe.blockid <$> pieces cfg i))) as [[-> Hin]|Hne].
      * apply list_elem_of_fmap in Hin as (c & -> & Hc). rewrite Hv by done.
        unfold block_step. by case_match.
      * apply Hf; [done|done|]. destruct (decide (uuid = in_uuid i)) as [->|]; [right|by left].
        intros Hin. by apply Hne.
  - by rewrite length_replicate.
  - rewrite Hp, imap_pair_fst. apply NoDup_seq.
  - intros E. assert (length reqs.*1 = 0%nat) as E0 by (by rewrite E).
    rewrite Hp, imap_pair_fst, length_seq in E0. unfold rr in E0. rewrite length_fmap in E0.
    apply nil_length_inv in E0. by apply pieces_nonempty in E0.
  - intros n Hn. rewrite Hp, imap_pair_fst in Hn. apply elem_of_seq in Hn. split; [lia|].
    apply lookup_replicate. split; [done|lia].
  - intros n b En. apply lookup_replicate in En as [En _]. done.
  - intros n Hn Hin. exfalso. apply Hin. rewrite Hp, imap_pair_fst. apply elem_of_seq. lia.
Qed.

(** *** The striped file after a write *)

Lemma piece_take data n c : (Z.to_nat c.(buffer_pointer_offset) + Z.to_nat c.(blockwritesize) <= n)%nat ->
  piece (take n data) c = piece data c.
Proof.
  intros Hn. unfold piece. rewrite skipn_firstn_comm, take_take. f_equal. lia.
Qed.

Lemma file_of_write cl i cl' : input_ok i -> i.(in_size) <= Z.of_nat (length i.(in_data)) ->
  (forall c, c ∈ pieces cfg i -> (file_view pick cfg cl' i.(in_uuid) c.(Stripe.blockid)).(contents)
     = Some (overlay (Z.to_nat c.(offset)) (piece i.(in_data) c)
         (default [] (file_view pick cfg cl i.(in_uuid) c.(Stripe.blockid)).(contents)))) ->
  (forall b, 0 <= b < 2 ^ 32 -> b ∉ (Stripe.blockid <$> pieces cfg i) ->
     file_view pick cfg cl' i.(in_uuid) b = file_view pick cfg cl i.(in_uuid) b) ->
  forall b, file_of pick cfg cl' i.(in_uuid) b
  = write_file bs (file_of pick cfg cl i.(in_uuid)) i.(in_position)
      (take (Z.to_nat i.(in_size)) i.(in_data)) b.
Proof.
  intros Hi Hd Hv Hf b. unfold write_file.
  replace (Z.of_nat (length (take _ _))) with i.(in_size) by (rewrite length_take; destruct Hi; lia).
  change (split bs i.(in_position) i.(in_size)) with (pieces cfg i).
  destruct (decide (b ∈ (Stripe.blockid <$> pieces cfg i))) as [Hin|Hin].
  - pose proof Hin as (c & -> & Hc)%list_elem_of_fmap. pose proof (piece_range i c Hi Hc).
    rewrite write_chunks_elem; [|eapply tiles_NoDup; [apply bs_ok|by apply pieces_tiles]|done].
    unfold file_of. rewrite !decide_True by lia. rewrite Hv by done. by rewrite piece_take by lia.
  - rewrite write_chunks_other by done. unfold file_of. case_decide; [|done].
    by rewrite Hf.
Qed.

(** *** A write that meets a pending log *)

Lemma block_step_contents m pos size ver body b : m = two_pc_prepare \/ m = two_pc_prepare_quick \/
  m = two_pc_commit_rollback \/ m = get ->
  forall c, b.(contents) = Some c -> (block_step m pos size ver body b).2.(contents) = Some c.
Proof.
  intros Hm c Hc. unfold block_step, touch.
  destruct Hm as [-> | [-> | [-> | ->]]]; rewrite ?Hc; repeat case_match; simpl; congruence.
Qed.

(** The contents a refused write leaves: blocks that did not exist are now empty. *)
Definition touched_contents (b : block) : option bytes := Some (default [] b.(contents)).

Lemma two_pc_busy rec cl ver i : hosts_ok cl -> input_ok i -> 0 <= ver < 2 ^ 32 ->
  i.(in_size) <= Z.of_nat (length i.(in_data)) -> is_checked i.(in_uuid) rec = false ->
  (exists c, c ∈ pieces cfg i /\
     busy (touch (file_view pick cfg cl i.(in_uuid) c.(Stripe.blockid))) = true) ->
  exists cl' suffix, two_pc pick cfg salts shuffle cl rec ver i
      = Some (cl', (erase_checked i.(in_uuid) rec).1,
              [CancelTimer; EraseChecked i.(in_uuid); Reply (msg_pending ++ suffix); StartCommit false]) /\
    hosts_ok cl' /\
    (forall c, c ∈ pieces cfg i ->
       let b := file_view pick cfg cl i.(in_uuid) c.(Stripe.blockid) in
       file_view pick cfg cl' i.(in_uuid) c.(Stripe.blockid)
       = mk_block (touched_contents b) (touch b).(cver) 0 []) /\
    (forall uuid b, length uuid = key_size -> 0 <= b < 2 ^ 32 ->
       uuid <> i.(in_uuid) \/ b ∉ (Stripe.blockid <$> pieces cfg i) ->
       file_view pick cfg cl' uuid b = file_view pick cfg cl uuid b).
Proof.
  intros Hok Hi Hv Hd Hchk (c0 & Hc0 & Hbusy). unfold two_pc. rewrite prepare_requests_eq by done.
  pose proof (prepare_batch_ok rec ver i Hi Hv Hd) as Hb1. unfold prepare_msg in *. rewrite Hchk in *.
  cbn [mbind option_bind]. set (reqs := _ <$> pieces cfg i).
  pose proof (ok_shuffle Hcfg _ reqs) as Hp.
  destruct (piece_batch _ _ _ _ _ Hb1 cl (shuffle _ reqs) Hok Hp) as (cl1 & -> & Hok1 & Hl1 & Hv1 & Hf1).
  { done. }
  cbn [mbind option_bind].
  set (types := (fun p => p.(header).(type)) <$> ((fun r => answer r.2 (target_view cl r)) <$> shuffle _ reqs)).
  assert (forallb agreed types = false) as Hagree.
  { apply not_true_iff_false. rewrite forallb_forall. intros Hall.
    set (r0 := piece_request two_pc_prepare ver i blockwritesize (piece i.(in_data)) c0) in *.
    assert ((answer r0.2 (target_view cl r0)).(header).(type) = code two_pc_prepare_abort) as Et.
    { eapply answer_type; [done|done|]. cbn [block_step]. by rewrite Hbusy. }
    specialize (Hall (code two_pc_prepare_abort)). discriminate Hall. rewrite <- Et.
    apply list_elem_of_In. unfold types. rewrite <- list_fmap_compose.
    assert (r0 ∈ shuffle _ reqs) as Hr0 by (rewrite Hp; by apply list_elem_of_fmap_2).
    exact (list_elem_of_fmap_2 (fun r : Z * packet => (answer r.2 (target_view cl r)).(header).(type))
      _ r0 Hr0). }
  set (resps := _ <$> shuffle _ reqs) in *.
  assert (length resps = length reqs) as Elr by (unfold resps; by rewrite length_fmap, Hp).
  rewrite <- Elr. change (phase_run _ _ _).2 with (prepare_actions i.(in_uuid) resps).
  rewrite prepare_actions_eq by (by intros E; unfold types in Hagree; rewrite E in Hagree).
  fold types. rewrite Hagree. cbn [commits omap list_omap].
  rewrite commit_requests_eq by done.
  pose proof (commit_batch_ok false ver i Hi Hv) as Hb2.
  destruct (piece_batch _ _ _ _ _ Hb2 cl1 _ Hok1 (ok_shuffle Hcfg _ _)) as (cl' & -> & Hok' & _ & Hv' & Hf').
  { done. }
  exists cl', (default [] (abort_suffix <$> last types)). split; [done|split; [done|split]].
  - intros c Hc. rewrite Hv', Hv1 by done.
    set (b := file_view pick cfg cl i.(in_uuid) c.(Stripe.blockid)). cbn [block_step commit_msg].
    unfold touched_contents. rewrite <- touch_contents. by destruct (busy (touch b)).
  - intros uuid b Hu Hbb Hneb. by rewrite Hf', Hf1.
Qed.

End protocol_facts.

(** ** Properties *)

Definition range_input (i : input) : input :=
  mk_input i.(in_uuid) i.(in_position) i.(in_size) i.(in_name) i.(in_key) [].

(** C1. End to end, through the bytes on the wire, for any placement function, any
    salts and any order in which the requests of each phase reach the servers: a
    striped write of a range none of whose blocks has a log pending (or whose file this
    client was last agreed on) is answered OK exactly once, leaves the file as the
    striped write of the buffer, leaves every other file as it was, and a read of the
    range then returns the buffer. *)
Theorem write_then_read {D} `{KVLaws D} pick cfg salts shuffle (cl : cluster D) rec ver i
    (Hcfg : config_ok pick cfg salts shuffle) (Hok : hosts_ok cfg cl) (Hi : input_ok i)
    (Hv : 0 <= ver < 2 ^ 32) (Hd : i.(in_size) <= Z.of_nat (length i.(in_data)))
    (Hfree : free pick cfg rec cl i) :
  exists cl' acts cl'',
    two_pc pick cfg salts shuffle cl rec ver i = Some (cl', mark_checked i.(in_uuid) rec, acts) /\
    replies acts = [msg_ok] /\
    (forall b, file_of pick cfg cl' i.(in_uuid) b
       = write_file cfg.(cfg_blocksize) (file_of pick cfg cl i.(in_uuid)) i.(in_position)
           (take (Z.to_nat i.(in_size)) i.(in_data)) b) /\
    (forall uuid b, length uuid = key_size -> uuid <> i.(in_uuid) ->
       file_of pick cfg cl' uuid b = file_of pick cfg cl uuid b) /\
    start_read pick cfg salts shuffle cl' (range_input i)
      = Some (cl'', [take (Z.to_nat i.(in_size)) i.(in_data)]).
Proof.
  destruct (two_pc_free pick cfg salts shuffle Hcfg rec cl ver i Hok Hi Hv Hd Hfree)
    as (cl' & E & Hok' & Hl & Hw & Hf).
  assert (input_ok (range_input i)) as Hi' by (by destruct Hi).
  assert (forall b, file_of pick cfg cl' i.(in_uuid) b
    = write_file cfg.(cfg_blocksize) (file_of pick cfg cl i.(in_uuid)) i.(in_position)
        (take (Z.to_nat i.(in_size)) i.(in_data)) b) as Hfile.
  { eapply file_of_write; try done.
    - intros c Hc. by rewrite Hw.
    - intros b Hbb Hnb. apply Hf; [apply Hi|done|by right]. }
  destruct (start_read_spec pick cfg salts shuffle Hcfg cl' (range_input i) Hok' Hi')
    as (cl'' & Er & _ & _).
  { intros c x Hc Ex. change (pieces cfg (range_input i)) with (pieces cfg i) in Hc.
    cbn [range_input in_uuid] in Ex. rewrite Hw in Ex by done. cbn [contents] in Ex. simplify_eq.
    rewrite length_overlay. pose proof (piece_range pick cfg salts shuffle Hcfg i c Hi Hc). lia. }
  eexists cl', _, cl''. split_and!; [done|done|done| |].
  - intros uuid b Hu Hne. unfold file_of. case_decide; [|done]. rewrite Hf; auto.
  - rewrite Er. do 3 f_equal. cbn [range_input in_uuid in_position in_size].
    assert (Z.of_nat (length (take (Z.to_nat (in_size i)) (in_data i))) = in_size i) as El
      by (rewrite length_take; destruct Hi; lia).
    transitivity (read_file cfg.(cfg_blocksize) (write_file cfg.(cfg_blocksize)
      (file_of pick cfg cl i.(in_uuid)) i.(in_position) (take (Z.to_nat i.(in_size)) i.(in_data)))
      i.(in_position) i.(in_size)).
    + unfold read_file. f_equal. apply list_fmap_ext. intros n c _. unfold read_chunk. by rewrite Hfile.
    + set (buf := take _ _) in *. clearbody buf. rewrite <- El. apply read_write_file.
      * apply (bs_ok pick cfg salts shuffle Hcfg).
      * apply Hi.
      * rewrite El. apply Hi.
Qed.

(** *** A concrete cluster for the witnesses *)

Definition sample_pick (seed : bytes) (skip n : Z) : Z := (be_val seed + skip) mod n.
Definition sample_cfg : config := mk_config 4 3 2.
Definition sample_salts (b : Z) : bytes := [x01; x02; x03; byte_of b].
Definition sample_shuffle (A : Type) (l : list A) : list A := rev l.
Definition sample_cluster : cluster (gmap bytes bytes) := [empty_server; empty_server].
Definition sample_input : input :=
  mk_input (replicate 32 x61) 6 6 [] [] [x41; x42; x43; x44; x45; x46; x47].

Lemma sample_config_ok : config_ok sample_pick sample_cfg sample_salts sample_shuffle.
Proof.
  split.
  - cbn. lia.
  - intros seed skip n Hn. by apply Z.mod_pos_bound.
  - done.
  - intros A l. symmetry. apply Permutation_rev.
Qed.

Lemma sample_hosts_ok : hosts_ok sample_cfg sample_cluster.
Proof. split; [split; [done|]|done].
  repeat (apply Forall_cons_2; [apply empty_small|]). apply Forall_nil_2. Qed.

Lemma sample_input_ok : input_ok sample_input.
Proof. split; cbn; (done || lia). Qed.

Lemma sample_free : free sample_pick sample_cfg ∅ sample_cluster sample_input.
Proof.
  right. intros c Hc. unfold touch, file_view, cluster_view.
  destruct (_ !! _) as [s|] eqn:E; [|done].
  assert (s = empty_server) as ->; [|done].
  apply list_elem_of_lookup_2 in E. unfold sample_cluster in E.
  apply elem_of_cons in E as [->|E]; [done|]. by apply list_elem_of_singleton in E.
Qed.

Lemma write_then_read_witness :
  exists cl' acts cl'',
    two_pc sample_pick sample_cfg sample_salts sample_shuffle sample_cluster ∅ 5 sample_input
      = Some (cl', mark_checked (replicate 32 x61) ∅, acts) /\
    start_read sample_pick sample_cfg sample_salts sample_shuffle cl' (range_input sample_input)
      = Some (cl'', [[x41; x42; x43; x44; x45; x46]]).
Proof.
  destruct (write_then_read sample_pick sample_cfg sample_salts sample_shuffle sample_cluster ∅ 5
    sample_input sample_config_ok sample_hosts_ok sample_input_ok ltac:(lia) ltac:(simpl; lia) sample_free)
    as (cl' & acts & cl'' & E & _ & _ & _ & Er).
  exists cl', acts, cl''. split; [exact E|exact Er].
Defined.

(** C6. A write that finds a pending log on any block of its range is refused as a
    whole: it is answered once, with an error, no existing byte of any file changes,
    and this client no longer counts as the file's writer.  But every pending log in
    the range is gone afterwards - the rival's too: each block is left with version 0
    and no data in its log. *)
Theorem busy_write_refused {D} `{KVLaws D} pick cfg salts shuffle (cl : cluster D) rec ver i
    (Hcfg : config_ok pick cfg salts shuffle) (Hok : hosts_ok cfg cl) (Hi : input_ok i)
    (Hv : 0 <= ver < 2 ^ 32) (Hd : i.(in_size) <= Z.of_nat (length i.(in_data)))
    (Hnot : is_checked i.(in_uuid) rec = false)
    (Hbusy : exists c, c ∈ pieces cfg i /\
       busy (touch (file_view pick cfg cl i.(in_uuid) c.(Stripe.blockid))) = true) :
  exists cl' rec' acts,
    two_pc pick cfg salts shuffle cl rec ver i = Some (cl', rec', acts) /\
    (exists suffix, replies acts = [msg_pending ++ suffix]) /\
    is_checked i.(in_uuid) rec' = false /\
    (forall uuid b x, length uuid = key_size -> file_of pick cfg cl uuid b = Some x ->
       file_of pick cfg cl' uuid b = Some x) /\
    (forall c, c ∈ pieces cfg i ->
       (file_view pick cfg cl' i.(in_uuid) c.(Stripe.blockid)).(pver) = 0 /\
       (file_view pick cfg cl' i.(in_uuid) c.(Stripe.blockid)).(pending) = []).
Proof.
  destruct (two_pc_busy pick cfg salts shuffle Hcfg rec cl ver i Hok Hi Hv Hd Hnot Hbusy)
    as (cl' & suffix & E & _ & Hw & Hf).
  eexists cl', _, _. split_and!; [done|by exists suffix| | |].
  - unfold is_checked, erase_checked. cbn [fst]. apply bool_decide_eq_false.
    intros [_ Hin]%elem_of_difference. by apply Hin, elem_of_singleton.
  - intros uuid b x Hu. unfold file_of. case_decide as Hb; [|done]. intros Ex.
    destruct (decide (uuid = i.(in_uuid))) as [->|Hne]; [|by rewrite Hf by auto].
    destruct (decide (b ∈ (Stripe.blockid <$> pieces cfg i))) as [Hin|Hin]; [|by rewrite Hf by auto].
    apply list_elem_of_fmap in Hin as (c & -> & Hc). rewrite Hw by done.
    cbn [contents touched_contents]. unfold touched_contents. by rewrite Ex.
  - intros c Hc. by rewrite Hw.
Qed.

(** The sample cluster after another client's prepare of block 1 of the sample file
    was agreed. *)
Definition rival_prepare : Z * packet :=
  (select_replica sample_pick sample_cfg (replicate 32 x61) 1 0,
   mk_packet (mk_header (code two_pc_prepare) (replicate 32 x61) 1 0 2 9 [x07; x07; x07; x07]) [x59; x5a]).

Definition contended_cluster : cluster (gmap bytes bytes) :=
  default [] (fst <$> deliver_all sample_cluster [rival_prepare]).

Lemma rival_deliverable : deliverable sample_cluster rival_prepare.
Proof.
  assert (Hh : wf_header rival_prepare.2.(header)) by (split; vm_compute; (done || lia)).
  split; [vm_compute; split; [discriminate|reflexivity]|]. split; [split; [exact Hh|]|].
  - split; [done|]. by exists two_pc_prepare.
  - split; [vm_compute; reflexivity|]. discriminate.
Qed.

Lemma contended_hosts_ok : hosts_ok sample_cfg contended_cluster.
Proof.
  destruct (deliver_to_spec sample_cluster rival_prepare (proj1 sample_hosts_ok) rival_deliverable)
    as (cl' & E & Hok & Hl & _).
  assert (contended_cluster = cl') as ->.
  { unfold contended_cluster. cbn [deliver_all]. rewrite E. done. }
  split; [done|]. by rewrite Hl.
Qed.

Lemma contended_busy : exists c, c ∈ pieces sample_cfg sample_input /\
  busy (touch (file_view sample_pick sample_cfg contended_cluster (replicate 32 x61) c.(Stripe.blockid))) = true.
Proof.
  exists (mk_chunk 1 2 0 2). split; [|vm_compute; reflexivity].
  assert (pieces sample_cfg sample_input = [mk_chunk 1 2 0 2; mk_chunk 2 0 2 4]) as -> by vm_refl.
  left.
Qed.

Lemma busy_write_refused_witness :
  exists cl' rec' acts,
    two_pc sample_pick sample_cfg sample_salts sample_shuffle contended_cluster ∅ 5 sample_input
      = Some (cl', rec', acts) /\
    exists suffix, replies acts = [msg_pending ++ suffix].
Proof.
  destruct (busy_write_refused sample_pick sample_cfg sample_salts sample_shuffle contended_cluster ∅ 5
    sample_input sample_config_ok contended_hosts_ok sample_input_ok ltac:(lia) ltac:(simpl; lia)
    ltac:(reflexivity) contended_busy) as (cl' & rec' & acts & E & Hr & _).
  exists cl', rec', acts. split; [exact E|exact Hr].
Defined.

(** OK means agreed, not committed: the client is answered when the prepares of
    its write are agreed, before any commit leaves; a read served in between still
    returns the old bytes of the range. *)
Theorem ok_precedes_commit {D} `{KVLaws D} pick cfg salts shuffle (cl : cluster D) rec ver i
    (Hcfg : config_ok pick cfg salts shuffle) (Hok : hosts_ok cfg cl) (Hi : input_ok i)
    (Hv : 0 <= ver < 2 ^ 32) (Hd : i.(in_size) <= Z.of_nat (length i.(in_data)))
    (Hfree : free pick cfg rec cl i)
    (Hold : forall c, c ∈ pieces cfg i -> exists x,
       file_of pick cfg cl i.(in_uuid) c.(Stripe.blockid) = Some x /\
       c.(offset) <= Z.of_nat (length x)) :
  exists reqs cl1 resps cl2,
    prepare_requests pick cfg salts rec ver i = Some reqs /\
    deliver_all cl (shuffle _ reqs) = Some (cl1, resps) /\
    replies (prepare_actions i.(in_uuid) resps) = [msg_ok] /\
    start_read pick cfg salts shuffle cl1 (range_input i)
      = Some (cl2, [read_file cfg.(cfg_blocksize) (file_of pick cfg cl i.(in_uuid))
                      i.(in_position) i.(in_size)]).
Proof.
  destruct (prepare_free pick cfg salts shuffle Hcfg rec cl ver i Hok Hi Hv Hd Hfree)
    as (reqs & cl1 & resps & E1 & E2 & _ & Ea & Hok1 & _ & Hv1 & _).
  assert (forall c, c ∈ pieces cfg i -> (file_view pick cfg cl1 i.(in_uuid) c.(Stripe.blockid)).(contents)
    = file_of pick cfg cl i.(in_uuid) c.(Stripe.blockid)) as Hsame.
  { intros c Hc. rewrite Hv1 by done. cbn [set_pending contents]. rewrite touch_contents.
    destruct (Hold c Hc) as (x & Ex & _). rewrite Ex. unfold file_of in Ex.
    case_decide; [|done]. by rewrite Ex. }
  assert (input_ok (range_input i)) as Hi' by (by destruct Hi).
  destruct (start_read_spec pick cfg salts shuffle Hcfg cl1 (range_input i) Hok1 Hi')
    as (cl2 & Er & _ & _).
  { intros c x Hc Ex. change (pieces cfg (range_input i)) with (pieces cfg i) in Hc.
    cbn [range_input in_uuid] in Ex. rewrite Hsame in Ex by done.
    destruct (Hold c Hc) as (x' & Ex' & Ho). congruence. }
  exists reqs, cl1, resps, cl2. split_and!; [done|done|by rewrite Ea|].
  rewrite Er. do 3 f_equal. cbn [range_input in_uuid in_position in_size]. unfold read_file.
  f_equal. apply list_fmap_ext. intros n c Hc%list_elem_of_lookup_2. change (c ∈ pieces cfg i) in Hc.
  unfold read_chunk. rewrite <- (Hsame c Hc). unfold file_of.
  pose proof (piece_range pick cfg salts shuffle Hcfg i c Hi Hc). by rewrite decide_True by lia.
Qed.

(** The sample cluster after the sample write, and a second write of the same range. *)
Definition written_cluster : cluster (gmap bytes bytes) :=
  default [] ((fun r => r.1.1) <$>
    two_pc sample_pick sample_cfg sample_salts sample_shuffle sample_cluster ∅ 5 sample_input).

Lemma written_hosts_ok : hosts_ok sample_cfg written_cluster.
Proof.
  destruct (two_pc_free sample_pick sample_cfg sample_salts sample_shuffle sample_config_ok ∅
    sample_cluster 5 sample_input sample_hosts_ok sample_input_ok ltac:(lia) ltac:(simpl; lia)
    sample_free) as (cl' & E & Hok & _).
  unfold written_cluster. by rewrite E.
Qed.

Definition second_input : input :=
  mk_input (replicate 32 x61) 6 6 [] [] [x31; x32; x33; x34; x35; x36].

Lemma second_pieces : pieces sample_cfg second_input = [mk_chunk 1 2 0 2; mk_chunk 2 0 2 4].
Proof. vm_refl. Qed.

Lemma ok_precedes_commit_witness :
  exists reqs cl1 resps cl2,
    prepare_requests sample_pick sample_cfg sample_salts {[replicate 32 x61]} 6 second_input = Some reqs /\
    deliver_all written_cluster (sample_shuffle _ reqs) = Some (cl1, resps) /\
    replies (prepare_actions (replicate 32 x61) resps) = [msg_ok] /\
    start_read sample_pick sample_cfg sample_salts sample_shuffle cl1 (range_input second_input)
      = Some (cl2, [[x41; x42; x43; x44; x45; x46]]).
Proof.
  destruct (ok_precedes_commit sample_pick sample_cfg sample_salts sample_shuffle written_cluster
    {[replicate 32 x61]} 6 second_input sample_config_ok written_hosts_ok)
    as (reqs & cl1 & resps & cl2 & E1 & E2 & E3 & E4).
  - split; cbn; (done || lia).
  - lia.
  - simpl. lia.
  - left. reflexivity.
  - rewrite second_pieces. intros c Hc. apply elem_of_cons in Hc as [->|Hc%list_elem_of_singleton].
    + exists [x00; x00; x41; x42]. split; [vm_refl|]. vm_compute. discriminate.
    + subst c. exists [x43; x44; x45; x46]. split; [vm_refl|]. vm_compute. discriminate.
  - exists reqs, cl1, resps, cl2. split; [exact E1|]. split; [exact E2|]. split; [exact E3|].
    rewrite E4. f_equal.
Defined.

(** The blocks of a file are not spread over the hosts: the number of draws
    [select_replica] skips is a multiple of the replica index, which is 0 for the copy
    that reads and writes use, so whatever the generator, every block of a file is on
    the one host its uuid selects. *)
Theorem primary_blocks_on_one_host {D} pick cfg (cl : cluster D) uuid b b' :
  select_replica pick cfg uuid b 0 = select_replica pick cfg uuid b' 0 /\
  block_host pick cfg cl uuid b = block_host pick cfg cl uuid b'.
Proof.
  assert (select_replica pick cfg uuid b 0 = select_replica pick cfg uuid b' 0) as E
    by (unfold select_replica; by rewrite !Z.mul_0_r).
  split; [done|]. unfold block_host. by rewrite E.
Qed.

(** Replication copies nothing: the packets of [start_replication] carry no
    payload, so a server that takes one acknowledges it and changes no byte of any
    replica. *)
Theorem replication_copies_nothing {D} `{KVLaws D} pick cfg salts shuffle (s : server D) ver i r
    (Hcfg : config_ok pick cfg salts shuffle) (Hi : input_ok i) (Hv : 0 <= ver < 2 ^ 32)
    (Hs : small s) (Hr : r ∈ replication_requests pick cfg salts ver i) :
  r.2.(data) = [] /\
  exists s' resp, deliver s r.2 = Some (s', resp) /\ resp.(header).(type) = code ack /\
    (forall k j, block_key k ->
       byte_or_zero (default [] (replica s' k)) j = byte_or_zero (default [] (replica s k)) j).
Proof.
  apply list_elem_of_bind in Hr as (c & Hr & Hc). apply list_elem_of_fmap in Hr as (n & -> & Hn).
  split; [done|]. pose proof (piece_range pick cfg salts shuffle Hcfg i c Hi Hc) as Hrange.
  unfold replication_request. cbn [snd]. rewrite (create_request_fields' pick cfg salts shuffle) by (done || lia).
  set (p := mk_packet _ _).
  assert (sendable p) as Hse.
  { split; [|split; [done|by exists replication]].
    pose proof (create_request_wf pick cfg salts shuffle Hcfg i replication ver c c.(blockwritesize)
      Hi Hc ltac:(lia) Hv) as Hh.
    by rewrite (create_request_fields' pick cfg salts shuffle) in Hh by (done || lia). }
  assert (bounded s (server_request p)) as Hb.
  { destruct (sent_bytes_wire p Hse) as ((? & _) & _). split_and!; [done|done| |done].
    change (position _ + datasize _) with (c.(offset) + 0). lia. }
  destruct (deliver_spec s p Hse Hs Hb) as (s' & t & d & b' & E & Hst & _ & _ & _ & Hother & Hrep).
  change (req_msg (server_request p)) with replication in *. cbn [block_step] in Hst. simplify_eq.
  eexists s', _. split; [exact E|]. split; [done|]. intros k j Hk.
  destruct (decide (k = as_string p.(header))) as [->|Hne]; [|by rewrite Hother by auto].
  rewrite Hrep by done. cbn [default from_option id]. rewrite byte_or_zero_overlay, decide_False; [done|].
  change (req_body (server_request p)) with (@nil byte). simpl. lia.
Qed.

Lemma replication_copies_nothing_witness :
  exists r, r ∈ replication_requests sample_pick sample_cfg sample_salts 5 sample_input /\ r.2.(data) = [].
Proof.
  set (rs := replication_requests sample_pick sample_cfg sample_salts 5 sample_input).
  destruct rs as [|r rs'] eqn:E; [vm_compute in E; discriminate|].
  exists r. split; [left|].
  apply (replication_copies_nothing sample_pick sample_cfg sample_salts sample_shuffle empty_server 5
    sample_input r sample_config_ok sample_input_ok ltac:(lia) empty_small).
  unfold rs in E. rewrite E. left.
Defined.
