(* ===== verification/Directory.v ===== *)
(** * Directories ([storage-conf-ssbd-backend.hpp], lines 598-736 and 829-2015)

    A directory is a file: a 64-byte [stats] with the number of entries, then one
    64-byte [filemeta_server] per entry.  Every metadata operation reads it and goes on
    from the content; each continuation is a function from the content to what it does
    next.  [None] is an access outside a buffer. *)
From Stdlib Require Import ZArith Lia.
From stdpp Require Import base tactics option list gmap strings.
From S2P Require Import Prelude Wire Request Stripe Coordinator.
Import meta.

(** What a continuation does: answer (after erasing a file from the recoder), read
    the directory again with a larger size, or start a write. *)
Inductive outcome :=
| Done (erased : option bytes) (reply : bytes)
| Reread (readsize : Z)
| Prepare (p : pack.packet)
| PrepareMulti (ps : list pack.packet)
| RenameParts (ptr1 : pack.packet) (filemeta : filemeta_server) (same_parent_dir : bool).

Definition err_no_dir : bytes := lit_buf "Error: No such directory"%string.
Definition err_file_exists : bytes := lit_buf "Error: File already exists"%string.
Definition err_dir_exists : bytes := lit_buf "Error: Directory already exists"%string.
Definition err_name_exists : bytes := lit_buf "Error: File name already exists"%string.
Definition err_not_found : bytes := lit_buf "Error: File not found"%string.

Definition default_readsize : Z := 4096.

(** The size of a directory with [count] entries, in [size_t]. *)
Definition dir_size (count : Z) : Z := u64 (64 + count * 64).

(** Octal digits, for the [{:o}] format of a 16-bit permission. *)
Fixpoint oct_aux (fuel : nat) (z : Z) (acc : bytes) : bytes :=
  match fuel with
  | O => acc
  | S f =>
      let acc := digit (z mod 8) :: acc in
      if z / 8 =? 0 then acc else oct_aux f (z / 8) acc
  end.
Definition to_octal (z : Z) : bytes := oct_aux 6 z [].

Section operations.

(** The clock, the time format of the C library, the draws of [header.gen()], and the
    bytes of a [stats] object that no one initialises. *)
Variable now_time_t : Z.
Variable format_time : Z -> bytes.
Variables salt sequence : bytes.
Variable uninitialised : bytes.

Definition now64 : Z := u64 now_time_t.

Definition dir_read_packet (key : bytes) (readsize : Z) : pack.packet :=
  internal_packet salt sequence key read 0 readsize [].

(** A write request for a whole file of that content. *)
Definition write_packet (key content : bytes) : pack.packet :=
  internal_packet salt sequence key write 0 (u32 (Z.of_nat (length content))) content.

(** The opening of every continuation: a content too short to hold [stats] is no
    directory; a content too short for its entries is read again. *)
Definition with_stat (erased : bytes) (file_content : bytes)
    (k : stats -> option outcome) : option outcome :=
  if decide (length file_content < 64)%nat then Some (Done (Some erased) err_no_dir)
  else
    stat ← load_stats file_content;
    let stat := stats_to_host stat in
    if dir_size stat.(file_count) >? Z.of_nat (length file_content)
    then Some (Reread (u32 (dir_size stat.(file_count))))
    else k stat.

Definition entry_name (m : filemeta_server) : bytes := until_nul m.(file_name).

(** The search loop: entries 1 to [count] in network format; the first whose name is
    [name], with its position. *)
Fixpoint find_entry (n : nat) (i : Z) (file_content name : bytes)
    : option (option (Z * filemeta_server)) :=
  match n with
  | O => Some None
  | S n =>
      let pos := u32 (i * 64) in
      b ← mem_get (Z.to_nat pos) 64 file_content;
      current ← load_filemeta_server b;
      if decide (entry_name current = name) then Some (Some (i, current))
      else find_entry n (u32 (i + 1)) file_content name
  end.

Definition search (stat : stats) (file_content name : bytes)
    : option (option (Z * filemeta_server)) :=
  find_entry (Z.to_nat stat.(file_count)) 1 file_content name.

(** [memcpy] of a name into a zeroed 34-byte field. *)
Definition name_field (name : bytes) : option bytes :=
  mem_set 0 (take 64 name) (replicate file_name_length x00).

(** Lines 1134-1160, and the same in [mkdir], [addfile_write]: a new entry at the end,
    and the count at the head. *)
Definition append_entry (stat : stats) (file_content : bytes) (entry : filemeta_server)
    : option bytes :=
  let count := u32 (stat.(file_count) + 1) in
  let position := u32 (count * 64) in
  let file_content := resize_to (Z.to_nat position + 64) file_content in
  file_content ← mem_set (Z.to_nat position) (store_filemeta_server entry) file_content;
  mem_set 0 (store_stats (stats_to_network (mk_stats count stat.(reserved)))) file_content.

Definition new_entry (owner permission : Z) (name : bytes) : option filemeta_server :=
  field ← name_field name;
  Some (to_network_format (mk_filemeta_server owner permission 0 now64 now64 field)).

(** Lines 1000-1022 and 1588-1614: the last entry over the removed one. *)
Definition remove_entry (stat : stats) (file_content : bytes) (i : Z) : option bytes :=
  if i <? stat.(file_count) then
    last ← mem_get (Z.to_nat (u64 (stat.(file_count) * 64))) 64 file_content;
    mem_set (Z.to_nat (u32 (i * 64))) last file_content
  else Some file_content.

(** *** [start_meta_add_file] *)
Definition add_file_continue (input : input) (file_content : bytes) : option outcome :=
  with_stat input.(in_uuid) file_content (fun stat =>
    m ← load_filemeta input.(in_data);
    let filemeta := filemeta_to_host m in
    found ← search stat file_content input.(in_name);
    match found with
    | Some _ => Some (Done None err_file_exists)
    | None =>
        entry ← new_entry filemeta.(fm_owner) filemeta.(fm_permission) input.(in_name);
        content ← append_entry stat file_content entry;
        Some (Prepare (write_packet input.(in_uuid) content))
    end).

(** *** [start_meta_init] writes a directory without entries. *)
Definition empty_stats : stats := mk_stats 0 uninitialised.

Definition init_packet (key : bytes) : pack.packet :=
  internal_packet salt sequence key write 0 64 (store_stats (stats_to_network empty_stats)).

Definition start_meta_init (input : input) : outcome := Prepare (init_packet input.(in_uuid)).

(** *** [start_meta_mkdir] *)
Definition mkdir_continue (input : input) (file_content : bytes) : option outcome :=
  with_stat input.(in_uuid) file_content (fun stat =>
    found ← search stat file_content input.(in_name);
    match found with
    | Some _ => Some (Done None err_dir_exists)
    | None =>
        m ← load_dirmeta input.(in_data);
        let dir_meta := dirmeta_to_host m in
        entry ← new_entry dir_meta.(dm_owner) dir_meta.(dm_permission) input.(in_name);
        content ← append_entry stat file_content entry;
        Some (PrepareMulti [write_packet input.(in_uuid) content; init_packet input.(in_key)])
    end).

(** *** [start_meta_delete_file] *)
Definition delete_file_continue (input : input) (file_content : bytes) : option outcome :=
  with_stat input.(in_uuid) file_content (fun stat =>
    found ← search stat file_content input.(in_name);
    match found with
    | None => Some (Done None err_not_found)
    | Some (i, _) =>
        content ← remove_entry stat file_content i;
        let count := u32 (stat.(file_count) - 1) in
        let content := resize_to (Z.to_nat (dir_size count)) content in
        content ← mem_set 0 (store_stats (stats_to_network (mk_stats count stat.(reserved)))) content;
        Some (Prepare (write_packet input.(in_uuid) content))
    end).

(** *** [start_meta_open_file] *)
Definition open_file_continue (input : input) (file_content : bytes) : option outcome :=
  with_stat input.(in_uuid) file_content (fun stat =>
    found ← search stat file_content input.(in_name);
    match found with
    | None => Some (Done None err_not_found)
    | Some _ => Some (Done None msg_ok)
    end).

(** *** [start_meta_ls] and [start_meta_get_stat] *)
Definition file_info (m : filemeta_server) : bytes :=
  lit "Owner: "%string ++ to_string m.(owner)
  ++ [x09] ++ lit "  Permission: "%string ++ to_octal m.(permission)
  ++ [x09] ++ lit "  Size: "%string ++ to_string m.(file_size) ++ lit " bytes"%string
  ++ [x09] ++ lit "  Created: "%string ++ format_time m.(creation_time)
  ++ [x09] ++ lit "  Modified: "%string ++ format_time m.(modification_time) ++ [x09; x0a].

Definition dir_info (m : filemeta_server) : bytes :=
  lit "Owner: "%string ++ to_string m.(owner)
  ++ [x09] ++ lit "  Permission: "%string ++ to_octal m.(permission)
  ++ [x09] ++ lit " Created: "%string ++ format_time m.(creation_time)
  ++ [x09] ++ lit "  Modified: "%string ++ format_time m.(modification_time) ++ [x09; x0a].

Fixpoint list_entries (n : nat) (i : Z) (file_content : bytes) : option bytes :=
  match n with
  | O => Some []
  | S n =>
      b ← mem_get (Z.to_nat (u32 (i * 64))) 64 file_content;
      m ← load_filemeta_server b;
      rest ← list_entries n (u32 (i + 1)) file_content;
      Some (entry_name m ++ [x0a] ++ file_info (to_host_format m) ++ rest)
  end.

Definition ls_continue (input : input) (file_content : bytes) : option outcome :=
  with_stat input.(in_uuid) file_content (fun stat =>
    entries ← list_entries (Z.to_nat stat.(file_count)) 1 file_content;
    Some (Done None (lit "Total: "%string ++ to_string stat.(file_count)
                     ++ lit " files/directories"%string ++ [x0a] ++ entries))).

Definition get_stat_continue (input : input) (is_directory : bool) (file_content : bytes)
    : option outcome :=
  with_stat input.(in_uuid) file_content (fun stat =>
    found ← search stat file_content input.(in_name);
    match found with
    | None => Some (Done None err_not_found)
    | Some (_, m) =>
        let total := (if is_directory then lit "Directory name: "%string
                      else lit "File name: "%string) ++ input.(in_name) ++ [x0a] in
        let m := to_host_format m in
        Some (Done None (total ++ (if is_directory then dir_info m else file_info m)))
    end).

(** *** [start_write]: the data to the file's key, and the file's entry - when there
    is one - with its new size and time *)
Definition update_entry (fullsize : Z) (input : input) (m : filemeta_server) : filemeta_server :=
  let m := to_host_format m in
  let size := new_file_size fullsize input.(in_position) input.(in_size) in
  to_network_format
    (mk_filemeta_server m.(owner) m.(permission)
       (u16 (if size >? m.(file_size) then size else m.(file_size)))
       m.(creation_time) now64 m.(file_name)).

Definition write_continue (fullsize : Z) (input : input) (file_content : bytes) : option outcome :=
  with_stat input.(in_uuid) file_content (fun stat =>
    found ← search stat file_content input.(in_name);
    content ← match found with
              | Some (i, m) =>
                  mem_set (Z.to_nat (u32 (i * 64)))
                    (store_filemeta_server (update_entry fullsize input m)) file_content
              | None => Some file_content
              end;
    let content := resize_to (Z.to_nat (dir_size stat.(file_count))) content in
    data ← mem_get 0 (Z.to_nat input.(in_size)) input.(in_data);
    Some (PrepareMulti [write_packet input.(in_uuid) content;
                        internal_packet salt sequence input.(in_key) write 0 input.(in_size) data])).

(** *** [start_create_and_write_file_single_request] *)
Definition create_and_write_continue (input : input) (file_content : bytes) : option outcome :=
  with_stat input.(in_uuid) file_content (fun stat =>
    m ← load_filemeta input.(in_data);
    let filemeta := filemeta_to_host m in
    found ← search stat file_content input.(in_name);
    match found with
    | Some _ => Some (Done None err_file_exists)
    | None =>
        entry ← new_entry filemeta.(fm_owner) filemeta.(fm_permission) input.(in_name);
        content ← append_entry stat file_content entry;
        let size := u32 (input.(in_size) - 4) in
        data ← mem_get 4 (Z.to_nat (u64 (input.(in_size) - 4))) input.(in_data);
        Some (PrepareMulti [write_packet input.(in_uuid) content;
                            internal_packet salt sequence input.(in_key) write 0 size data])
    end).

(** *** Renaming (lines 1361-1711)

    [start_meta_rename_file] edits the source directory; when the file moves to
    another directory, part 2 appends its entry there; part 3 copies its bytes to the
    new key; the parts join in a callback that starts one write of all of them. *)
Definition rename_continue (info : rename_info) (input : input) (file_content : bytes)
    : option outcome :=
  let parent_key := info.(file_parent_key) in
  let new_name := until_nul info.(new_file_name) in
  let same_parent_dir := pack.key_compare parent_key input.(in_uuid) in
  with_stat parent_key file_content (fun stat =>
    found ← search stat file_content input.(in_name);
    match found with
    | None => Some (Done None err_not_found)
    | Some (i, m) =>
        field ← name_field new_name;
        let m := mk_filemeta_server m.(owner) m.(permission) m.(file_size) m.(creation_time)
                   m.(modification_time) field in
        if same_parent_dir && bool_decide (new_name = input.(in_name))
        then Some (Done None err_name_exists)
        else
          content ← (if same_parent_dir
                     then mem_set (Z.to_nat (u32 (i * 64))) (store_filemeta_server m) file_content
                     else remove_entry stat file_content i);
          let count := if same_parent_dir then stat.(file_count) else u32 (stat.(file_count) - 1) in
          let content := resize_to (Z.to_nat (dir_size count)) content in
          content ← (if same_parent_dir then Some content
                     else mem_set 0 (store_stats (stats_to_network (mk_stats count stat.(reserved)))) content);
          Some (RenameParts (write_packet parent_key content) m same_parent_dir)
    end).

Inductive rename_sub_operation_t :=
| file_not_found | directory_not_found | file_name_already_exists | ok_part_2 | ok_part_3.

(** What a part hands to the join: an operation and its packet; [directory_not_found], when
    the directory of this key, which the recoder forgets, is not there; or a second read. *)
Inductive part :=
| Part (op : rename_sub_operation_t) (pack : option pack.packet)
| PartNoDirectory (uuid : bytes)
| PartReread (readsize : Z).

Definition rename_part_2_continue (input : input) (filemeta : filemeta_server) (new_file_name : bytes)
    (file_content : bytes) : option part :=
  if decide (length file_content < 64)%nat then Some (PartNoDirectory input.(in_uuid))
  else
    stat ← load_stats file_content;
    let stat := stats_to_host stat in
    if dir_size stat.(file_count) >? Z.of_nat (length file_content)
    then Some (PartReread (u32 (dir_size stat.(file_count))))
    else
      found ← search stat file_content new_file_name;
      match found with
      | Some _ => Some (Part file_name_already_exists None)
      | None =>
          content ← append_entry stat file_content filemeta;
          Some (Part ok_part_2 (Some (write_packet input.(in_uuid) content)))
      end.

(** Part 3 reads as many bytes as the entry records. *)
Definition rename_part_3_size (filemeta : filemeta_server) : Z := hton 2 filemeta.(file_size).

Definition rename_part_3_continue (new_file_key buf : bytes) : part :=
  Part ok_part_3 (Some (write_packet new_file_key buf)).

(** The join: counters, the packets of the parts, and the last error. *)
Record join := mk_join {
  outstanding : Z; all_requests_successful : bool; error_string : bytes;
  ptr2 : option pack.packet; ptr3 : option pack.packet
}.

Definition join_init (same_parent_dir : bool) : join :=
  mk_join (if same_parent_dir then 1 else 2) true [] None None.

Definition rename_join (ptr1 : pack.packet) (same_parent_dir : bool) (j : join)
    (op : rename_sub_operation_t) (pack : option pack.packet) : join * option outcome :=
  let j :=
    match op with
    | file_not_found => mk_join j.(outstanding) false (lit "File not found"%string) j.(ptr2) j.(ptr3)
    | directory_not_found =>
        mk_join j.(outstanding) false (lit "No such directory"%string) j.(ptr2) j.(ptr3)
    | file_name_already_exists =>
        mk_join j.(outstanding) false (lit "File name already exists"%string) j.(ptr2) j.(ptr3)
    | ok_part_2 => mk_join j.(outstanding) j.(all_requests_successful) j.(error_string) pack j.(ptr3)
    | ok_part_3 => mk_join j.(outstanding) j.(all_requests_successful) j.(error_string) j.(ptr2) pack
    end in
  let j := mk_join (j.(outstanding) - 1) j.(all_requests_successful) j.(error_string) j.(ptr2) j.(ptr3) in
  if j.(outstanding) =? 0 then
    if j.(all_requests_successful) then
      (j, Some (PrepareMulti (ptr1 :: (if same_parent_dir then [] else option_list j.(ptr2))
                                   ++ option_list j.(ptr3))))
    else (j, Some (Done None (lit "Error: "%string ++ j.(error_string))))
  else (j, None).

End operations.

(** *** Dispatch ([start_perform], [start_perform_metadata])

    An operation reads a file and goes on from its content, or acts at once. *)
Inductive start :=
| ReadThen (p : pack.packet) (k : bytes -> option outcome)
| ReadReply (p : pack.packet)        (* the bytes read are the answer *)
| Now (o : outcome)
| Nothing.

Section dispatch.
Variable now_time_t : Z.
Variable format_time : Z -> bytes.
Variables salt sequence : bytes.
Variable uninitialised : bytes.
Variable fullsize : Z.

Let read_dir := dir_read_packet salt sequence.

Definition start_meta_add_file (i : input) (readsize : Z) : start :=
  ReadThen (read_dir i.(in_uuid) readsize) (add_file_continue now_time_t salt sequence i).
Definition start_meta_mkdir (i : input) (readsize : Z) : start :=
  ReadThen (read_dir i.(in_uuid) readsize)
    (mkdir_continue now_time_t salt sequence uninitialised i).
Definition start_meta_delete_file (i : input) (readsize : Z) : start :=
  ReadThen (read_dir i.(in_uuid) readsize) (delete_file_continue salt sequence i).
Definition start_meta_open_file (i : input) (readsize : Z) : start :=
  ReadThen (read_dir i.(in_uuid) readsize) (open_file_continue i).
Definition start_meta_ls (i : input) (readsize : Z) : start :=
  ReadThen (read_dir i.(in_uuid) readsize) (ls_continue format_time i).
Definition start_meta_get_stat (i : input) (is_directory : bool) (readsize : Z) : start :=
  ReadThen (read_dir i.(in_uuid) readsize) (get_stat_continue format_time i is_directory).
Definition start_meta_rename_file (i : input) (readsize : Z) : option start :=
  info ← load_rename_info i.(in_data);
  Some (ReadThen (read_dir info.(file_parent_key) readsize) (rename_continue salt sequence info i)).
Definition start_create_and_write_file_single_request (i : input) (readsize : Z) : start :=
  ReadThen (read_dir i.(in_uuid) readsize) (create_and_write_continue now_time_t salt sequence i).
Definition start_write (i : input) (readsize : Z) : start :=
  ReadThen (read_dir i.(in_uuid) readsize) (write_continue now_time_t salt sequence fullsize i).
Definition start_read_file (i : input) : start :=
  ReadReply (internal_packet salt sequence i.(in_key) read i.(in_position) i.(in_size) []).

Definition start_perform (operation : Z) (i : input) : start :=
  match operation_of_code operation with
  | Some write => start_write i default_readsize
  | Some read => start_read_file i
  | None => Nothing
  end.

Definition start_perform_metadata (operation : Z) (i : input) : option start :=
  match meta_operation_of_code operation with
  | Some addfile => Some (start_meta_add_file i default_readsize)
  | Some init => Some (Now (start_meta_init salt sequence uninitialised i))
  | Some mkdir => Some (start_meta_mkdir i default_readsize)
  | Some ls => Some (start_meta_ls i default_readsize)
  | Some deletefile => Some (start_meta_delete_file i default_readsize)
  | Some rename_sameproxy => start_meta_rename_file i default_readsize
  | Some getstatfile => Some (start_meta_get_stat i false default_readsize)
  | Some getstatdir => Some (start_meta_get_stat i true default_readsize)
  | Some open => Some (start_meta_open_file i default_readsize)
  | Some addfile_write => Some (start_create_and_write_file_single_request i default_readsize)
  | Some close => Some Nothing
  | None => Some Nothing
  end.

End dispatch.

(** ** The abstract directory: a list of entries in host format *)

Definition net_entry (e : filemeta_server) : bytes := store_filemeta_server (to_network_format e).

Definition stats_block (n : Z) (reserved : bytes) : bytes :=
  store_stats (stats_to_network (mk_stats n reserved)).

Definition dir_blocks (reserved : bytes) (es : list filemeta_server) : list bytes :=
  stats_block (Z.of_nat (length es)) reserved :: (net_entry <$> es).

(** A buffer that holds a directory, possibly followed by other bytes (a read returns
    whole sizes, padded with zeros). *)
Record dir_content (content : bytes) (reserved : bytes) (es : list filemeta_server) : Prop := {
  dc_reserved : length reserved = 60%nat;
  dc_entries : Forall wf_filemeta_server es;
  dc_count : Z.of_nat (length es) < 2 ^ 25;
  dc_bytes : exists junk, content = concat (dir_blocks reserved es) ++ junk
}.

(** The exact image of a directory. *)
Definition encode_dir (reserved : bytes) (es : list filemeta_server) : bytes :=
  concat (dir_blocks reserved es).

(** Searching, and removing by overwriting with the last entry. *)
Definition lookup_name (name : bytes) (es : list filemeta_server) : option (nat * filemeta_server) :=
  list_find (fun e => entry_name e = name) es.

Definition swap_remove (i : nat) (es : list filemeta_server) : list filemeta_server :=
  match last es with
  | Some l => take (length es - 1) (<[i := l]> es)
  | None => []
  end.

(** *** Buffers made of 64-byte blocks *)

Lemma concat_blocks_length (bs : list bytes) : Forall (fun b => length b = 64%nat) bs ->
  length (concat bs) = (64 * length bs)%nat.
Proof. induction 1 as [|b bs Hb _ IH]; simpl; [done|]. rewrite length_app, Hb, IH. lia. Qed.

Lemma mem_get_block bs junk j b : Forall (fun b => length b = 64%nat) bs -> bs !! j = Some b ->
  mem_get (64 * j) 64 (concat bs ++ junk) = Some b.
Proof.
  intros Hf. revert j. induction Hf as [|b' bs Hb Hf IH]; intros [|j] E; simplify_eq/=.
  - rewrite <- (assoc_L (++)). by apply mem_get_app_exact.
  - rewrite <- (assoc_L (++)), mem_get_app_r by lia. rewrite <- (IH j E). f_equal. lia.
Qed.

Lemma mem_set_app_l pos src a b : (pos + length src <= length a)%nat ->
  mem_set pos src (a ++ b) = (fun a => a ++ b) <$> mem_set pos src a.
Proof.
  intros Hl. rewrite !mem_set_Some by (rewrite ?length_app; lia). cbn [fmap option_fmap option_map].
  rewrite take_app_le, drop_app_le by lia. by rewrite <- !(assoc_L (++)).
Qed.

Lemma mem_set_block bs junk j b : Forall (fun b => length b = 64%nat) bs -> (j < length bs)%nat ->
  length b = 64%nat ->
  mem_set (64 * j) b (concat bs ++ junk) = Some (concat (<[j := b]> bs) ++ junk).
Proof.
  intros Hf. revert j. induction Hf as [|b' bs Hb' Hf IH]; intros [|j] Hj Hb; simpl in Hj; try lia;
    cbn [concat]; rewrite <- (assoc_L (++)).
  - rewrite mem_set_app_l by lia. rewrite mem_set_Some by lia. cbn [fmap option_fmap option_map].
    rewrite Nat.mul_0_r, take_0, drop_ge by lia. rewrite app_nil_r. cbn [app insert list_insert concat].
    by rewrite <- (assoc_L (++)).
  - rewrite mem_set_app_r by lia. replace (64 * S j - length b')%nat with (64 * j)%nat by lia.
    rewrite IH by lia. cbn [fmap option_fmap option_map insert list_insert concat].
    by rewrite <- (assoc_L (++)).
Qed.

Lemma resize_to_app n a b : length a = n -> resize_to n (a ++ b) = a.
Proof.
  intros <-. unfold resize_to. rewrite take_app_length, length_app.
  replace (length a - (length a + length b))%nat with 0%nat by lia. apply app_nil_r.
Qed.

Lemma resize_to_grow n a : (length a <= n)%nat ->
  resize_to n a = a ++ replicate (n - length a) x00.
Proof. intros. unfold resize_to. by rewrite take_ge. Qed.

(** *** Entries and their images *)

Lemma wf_to_network e : wf_filemeta_server e -> wf_filemeta_server (to_network_format e).
Proof.
  intros []. split; cbn [to_network_format owner permission file_size creation_time
    modification_time file_name]; try done; apply hton_range; auto.
Qed.

Lemma to_host_network e : wf_filemeta_server e -> to_host_format (to_network_format e) = e.
Proof.
  intros []. destruct e. unfold to_host_format, to_network_format.
  cbn [owner permission file_size creation_time modification_time file_name] in *.
  by rewrite !ntoh_hton by auto.
Qed.

Lemma load_store_raw m rest : wf_filemeta_server m ->
  load_filemeta_server (store_filemeta_server m ++ rest) = Some m.
Proof.
  intros []. destruct m. cbn [owner permission file_size creation_time modification_time file_name] in *.
  unfold load_filemeta_server, store_filemeta_server. load_fields.
  cbn [owner permission file_size creation_time modification_time file_name].
  by rewrite !le_val_le_small by done.
Qed.

Lemma length_net_entry e : wf_filemeta_server e -> length (net_entry e) = 64%nat.
Proof. intros []. by apply length_store_filemeta_server. Qed.

Lemma length_stats_block n reserved : length reserved = 60%nat -> length (stats_block n reserved) = 64%nat.
Proof. intros. by apply length_store_stats. Qed.

Lemma dir_blocks_64 reserved es : length reserved = 60%nat -> Forall wf_filemeta_server es ->
  Forall (fun b => length b = 64%nat) (dir_blocks reserved es).
Proof.
  intros Hr Hes. apply Forall_cons. split; [by apply length_stats_block|].
  apply Forall_fmap. eapply Forall_impl; [done|]. apply length_net_entry.
Qed.

Lemma length_encode_dir reserved es : length reserved = 60%nat -> Forall wf_filemeta_server es ->
  length (encode_dir reserved es) = (64 * (1 + length es))%nat.
Proof.
  intros Hr Hes. unfold encode_dir. rewrite concat_blocks_length by (by apply dir_blocks_64).
  cbn [dir_blocks length]. by rewrite length_fmap.
Qed.

Lemma dir_size_small n : 0 <= n < 2 ^ 26 -> dir_size n = 64 * (n + 1).
Proof.
  intros Hn. unfold dir_size. rewrite wrap_small; [lia|]. change (modulus 8) with (2 ^ 64). lia.
Qed.

Section represented.
Context {content reserved : bytes} {es : list filemeta_server}.
Hypothesis Hdir : dir_content content reserved es.

Lemma dc_blocks : Forall (fun b => length b = 64%nat) (dir_blocks reserved es).
Proof. destruct Hdir. by apply dir_blocks_64. Qed.

Lemma dc_length : (64 * (1 + length es) <= length content)%nat.
Proof.
  destruct Hdir as [Hr Hes _ [junk ->]]. rewrite length_app.
  fold (encode_dir reserved es). rewrite length_encode_dir by done. lia.
Qed.

Lemma load_stats_dir : exists st, load_stats content = Some st /\
  stats_to_host st = mk_stats (Z.of_nat (length es)) reserved.
Proof.
  destruct Hdir as [Hr Hes Hc [junk E]].
  pose proof (load_store_stats (mk_stats (Z.of_nat (length es)) reserved)
    (concat (net_entry <$> es) ++ junk)) as Hst. cbn [file_count meta.reserved] in Hst.
  specialize (Hst ltac:(lia) Hr).
  assert (content = store_stats (stats_to_network (mk_stats (Z.of_nat (length es)) reserved))
    ++ concat (net_entry <$> es) ++ junk) as Ec.
  { rewrite E. unfold dir_blocks. cbn [concat]. by rewrite <- (assoc_L (++)). }
  rewrite <- Ec in Hst. destruct (load_stats content) as [st|]; [|done].
  exists st. split; [done|]. cbn [fmap option_fmap option_map] in Hst. by apply (inj Some) in Hst.
Qed.

(** Every continuation gets past its opening on a directory. *)
Lemma with_stat_dir erased k :
  with_stat erased content k = k (mk_stats (Z.of_nat (length es)) reserved).
Proof.
  pose proof dc_length as Hl. destruct load_stats_dir as (st & Est & Hst).
  pose proof (dc_count _ _ _ Hdir) as Hc.
  unfold with_stat. rewrite decide_False, Est by lia. cbn [mbind option_bind]. cbv zeta.
  rewrite Hst. cbn [file_count]. rewrite dir_size_small by lia.
  destruct (Z.gtb_spec (64 * (Z.of_nat (length es) + 1)) (Z.of_nat (length content))); [lia|done].
Qed.

Lemma mem_get_stats_entry j e : es !! j = Some e ->
  mem_get (64 * S j) 64 content = Some (net_entry e).
Proof.
  intros Ej. pose proof dc_blocks as Hb. destruct Hdir as [_ _ _ [junk ->]].
  apply mem_get_block; [done|].
  change (dir_blocks reserved es !! S j) with ((net_entry <$> es) !! j).
  by rewrite list_lookup_fmap, Ej.
Qed.

Lemma find_entry_spec n j name : (n = length es - j)%nat ->
  find_entry n (Z.of_nat j + 1) content name
  = Some ((fun p => (Z.of_nat (j + p.1) + 1, to_network_format p.2)) <$> lookup_name name (drop j es)).
Proof.
  pose proof (dc_count _ _ _ Hdir) as Hcount. pose proof (dc_entries _ _ _ Hdir) as Hwf.
  revert j. induction n as [|n IH]; intros j Hn.
  { rewrite drop_ge by lia. done. }
  destruct (lookup_lt_is_Some_2 es j) as [e Ej]; [lia|].
  pose proof (lookup_lt_Some _ _ _ Ej) as Hj.
  assert (wf_filemeta_server e) as Hwe by (by eapply Forall_lookup_1).
  cbn [find_entry]. rewrite !u32_small by lia.
  replace (Z.to_nat ((Z.of_nat j + 1) * 64)) with (64 * S j)%nat by lia.
  rewrite (mem_get_stats_entry j e Ej). cbn [mbind option_bind].
  unfold net_entry. rewrite <- (app_nil_r (store_filemeta_server _)).
  rewrite load_store_raw by (by apply wf_to_network). cbn [mbind option_bind].
  change (entry_name (to_network_format e)) with (entry_name e).
  rewrite (drop_S _ _ _ Ej). unfold lookup_name. cbn [list_find].
  destruct (decide (entry_name e = name)).
  - cbn [fmap option_fmap option_map fst snd]. rewrite Nat.add_0_r. done.
  - replace (Z.of_nat j + 1 + 1) with (Z.of_nat (S j) + 1) by lia. rewrite IH by lia.
    f_equal. unfold lookup_name.
    destruct (list_find _ (drop (S j) es)) as [[p e']|]; [|done].
    cbn [fmap option_fmap option_map prod_map fst snd]. do 3 f_equal. lia.
Qed.

Lemma search_spec name :
  search (mk_stats (Z.of_nat (length es)) reserved) content name
  = Some ((fun p => (Z.of_nat p.1 + 1, to_network_format p.2)) <$> lookup_name name es).
Proof.
  unfold search. cbn [file_count]. rewrite Nat2Z.id. apply (find_entry_spec _ 0). lia.
Qed.

(** Replacing the count at the head of a buffer that starts with blocks. *)
Lemma set_count bs junk b n : Forall (fun b => length b = 64%nat) (b :: bs) -> length reserved = 60%nat ->
  mem_set 0 (stats_block n reserved) (concat (b :: bs) ++ junk)
  = Some (concat (stats_block n reserved :: bs) ++ junk).
Proof.
  intros Hf Hr. change 0%nat with (64 * 0)%nat.
  rewrite mem_set_block by (done || (simpl; lia) || by apply length_stats_block). done.
Qed.

Lemma append_entry_spec e : wf_filemeta_server e ->
  append_entry (mk_stats (Z.of_nat (length es)) reserved) content (to_network_format e)
  = Some (encode_dir reserved (es ++ [e])).
Proof.
  intros He. pose proof dc_blocks as Hb. destruct Hdir as [Hr Hes Hc [junk Ec]].
  pose proof (length_encode_dir reserved es Hr Hes) as Hl. unfold encode_dir in Hl.
  unfold append_entry. cbn [file_count meta.reserved]. rewrite !u32_small by lia.
  set (P := Z.to_nat _). assert (P = length (concat (dir_blocks reserved es))) as -> by lia.
  assert (exists X, resize_to (length (concat (dir_blocks reserved es)) + 64) content
    = concat (dir_blocks reserved es) ++ X /\ length X = 64%nat) as (X & -> & HX).
  { exists (resize_to 64 junk). split; [|apply length_resize_to]. rewrite Ec. unfold resize_to.
    rewrite take_app_ge, length_app by lia. rewrite <- (assoc_L (++)). do 3 f_equal; lia. }
  fold (net_entry e). pose proof (length_net_entry e He) as Hne.
  rewrite mem_set_app_r, Nat.sub_diag by lia. rewrite mem_set_Some by lia.
  cbn [fmap option_fmap option_map mbind option_bind].
  rewrite take_0, drop_ge, app_nil_r by lia. cbn [app].
  replace (Z.of_nat (length es) + 1) with (Z.of_nat (length (es ++ [e]))) by (rewrite length_app; simpl; lia).
  fold (stats_block (Z.of_nat (length (es ++ [e]))) reserved). unfold dir_blocks.
  rewrite set_count by done. f_equal. unfold encode_dir, dir_blocks.
  rewrite fmap_app, app_comm_cons, concat_app. cbn [fmap list_fmap concat]. by rewrite app_nil_r.
Qed.

(** Overwriting an entry in place, and cutting the buffer at the end of the entries. *)
Lemma set_entry_spec j e' : (j < length es)%nat -> wf_filemeta_server e' ->
  (content' ← mem_set (Z.to_nat (u32 ((Z.of_nat j + 1) * 64))) (net_entry e') content;
   Some (resize_to (Z.to_nat (dir_size (Z.of_nat (length es)))) content'))
  = Some (encode_dir reserved (<[j := e']> es)).
Proof.
  intros Hj He. pose proof dc_blocks as Hb. destruct Hdir as [Hr Hes Hc [junk ->]].
  rewrite u32_small by lia. replace (Z.to_nat ((Z.of_nat j + 1) * 64)) with (64 * S j)%nat by lia.
  rewrite mem_set_block; [|done|unfold dir_blocks; cbn [length]; rewrite length_fmap; lia|by apply length_net_entry].
  cbn [mbind option_bind]. f_equal.
  change (<[S j := net_entry e']> (dir_blocks reserved es))
    with (stats_block (Z.of_nat (length es)) reserved :: <[j := net_entry e']> (net_entry <$> es)).
  rewrite <- list_fmap_insert. rewrite <- (length_insert es j e') at 2.
  fold (dir_blocks reserved (<[j := e']> es)). apply resize_to_app.
  fold (encode_dir reserved (<[j := e']> es)). rewrite length_encode_dir.
  - rewrite length_insert, dir_size_small by lia. lia.
  - done.
  - by apply Forall_insert.
Qed.

(** Removing an entry: the last one over it, the count decremented, the buffer cut. *)
Lemma remove_entry_spec j : (j < length es)%nat ->
  (content' ← remove_entry (mk_stats (Z.of_nat (length es)) reserved) content (Z.of_nat j + 1);
   let count := u32 (Z.of_nat (length es) - 1) in
   mem_set 0 (stats_block count reserved) (resize_to (Z.to_nat (dir_size count)) content'))
  = Some (encode_dir reserved (swap_remove j es)).
Proof.
  intros Hj. pose proof dc_blocks as Hb. pose proof mem_get_stats_entry as Hget.
  destruct Hdir as [Hr Hes Hc [junk Ec]].
  destruct (last es) as [l|] eqn:El; [|apply last_None in El; subst; simpl in Hj; lia].
  pose proof El as Ell. rewrite last_lookup in Ell.
  assert (exists es', length es' = length es /\ Forall wf_filemeta_server es' /\
    swap_remove j es = take (length es - 1) es' /\
    remove_entry (mk_stats (Z.of_nat (length es)) reserved) content (Z.of_nat j + 1)
    = Some (concat (stats_block (Z.of_nat (length es)) reserved :: (net_entry <$> es')) ++ junk))
    as (es' & Hl' & Hes' & Hsw & ->).
  { exists (<[j := l]> es). rewrite length_insert.
    assert (wf_filemeta_server l) as Hwl by (by eapply Forall_lookup_1).
    split; [done|]. split; [by apply Forall_insert|]. split; [unfold swap_remove; by rewrite El|].
    unfold remove_entry. cbn [file_count]. destruct (Z.ltb_spec (Z.of_nat j + 1) (Z.of_nat (length es))).
    - rewrite (wrap_small 8) by (change (modulus 8) with (2 ^ 64); lia). rewrite u32_small by lia.
      replace (Z.to_nat (Z.of_nat (length es) * 64)) with (64 * S (pred (length es)))%nat by lia.
      rewrite (Hget _ l) by done. cbn [mbind option_bind].
      replace (Z.to_nat ((Z.of_nat j + 1) * 64)) with (64 * S j)%nat by lia. rewrite Ec.
      rewrite mem_set_block; [|done|unfold dir_blocks; cbn [length]; rewrite length_fmap; lia|by apply length_net_entry].
      rewrite list_fmap_insert. done.
    - rewrite Ec. f_equal. rewrite list_fmap_insert, list_insert_id; [done|].
      rewrite list_lookup_fmap. replace j with (pred (length es)) by lia. by rewrite Ell. }
  cbn [mbind option_bind]. rewrite u32_small, dir_size_small by lia. cbv zeta.
  destruct (nil_or_length_pos es') as [->|Hpos]; [simpl in Hl'; lia|].
  destruct (exists_last (l := es')) as (init & x & ->); [by intros ->|].
  rewrite length_app in Hl'. simpl in Hl'. rewrite Hsw, take_app_length' by lia.
  rewrite fmap_app, app_comm_cons, concat_app, <- (assoc_L (++)).
  apply Forall_app in Hes' as [Hinit _].
  rewrite resize_to_app.
  - rewrite <- (app_nil_r (concat _)), set_count.
    + rewrite app_nil_r. unfold encode_dir, dir_blocks. do 4 f_equal. lia.
    + apply (Forall_cons_2); [by apply length_stats_block|].
      apply Forall_fmap. eapply Forall_impl; [done|]. apply length_net_entry.
    + done.
  - rewrite concat_blocks_length.
    + cbn [length]. rewrite length_fmap. lia.
    + apply Forall_cons_2; [by apply length_stats_block|].
      apply Forall_fmap. eapply Forall_impl; [done|]. apply length_net_entry.
Qed.

End represented.

(** *** Names *)

Definition pad_name (name : bytes) : bytes := name ++ replicate (file_name_length - length name) x00.

Lemma name_field_spec name : (length name <= file_name_length)%nat ->
  name_field name = Some (pad_name name).
Proof.
  intros Hn. unfold name_field, pad_name. unfold file_name_length in *.
  rewrite (take_ge name) by lia. rewrite mem_set_Some by (rewrite length_replicate; lia).
  rewrite take_0, drop_replicate. done.
Qed.

Lemma length_pad_name name : (length name <= file_name_length)%nat ->
  length (pad_name name) = file_name_length.
Proof. intros. unfold pad_name. rewrite length_app, length_replicate. lia. Qed.

Lemma until_nul_pad name : x00 ∉ name -> until_nul (pad_name name) = name.
Proof.
  intros Hn. unfold pad_name. destruct (file_name_length - length name)%nat as [|n].
  - rewrite app_nil_r. by apply until_nul_no_nul.
  - by apply until_nul_app_nul.
Qed.

(** A name a request can carry. *)
Definition valid_name (name : bytes) : Prop := (length name <= file_name_length)%nat /\ x00 ∉ name.

Lemma ntoh2_range z : 0 <= ntoh 2 z < 2 ^ 16.
Proof. apply (bswap_range 2). Qed.

(** The entry an [addfile] or [mkdir] makes. *)
Definition fresh_entry (now_time_t owner permission : Z) (name : bytes) : filemeta_server :=
  mk_filemeta_server owner permission 0 (now64 now_time_t) (now64 now_time_t) (pad_name name).

Lemma new_entry_spec now o p name : valid_name name ->
  new_entry now o p name = Some (to_network_format (fresh_entry now o p name)).
Proof. intros [Hn _]. unfold new_entry. by rewrite name_field_spec. Qed.

Lemma wf_fresh_entry now o p name : valid_name name -> 0 <= o < 2 ^ 16 -> 0 <= p < 2 ^ 16 ->
  wf_filemeta_server (fresh_entry now o p name).
Proof.
  intros [Hn _] Ho Hp. split; cbn [fresh_entry owner permission file_size creation_time
    modification_time file_name]; try done; try apply (wrap_range 8). by apply length_pad_name.
Qed.

Lemma entry_name_fresh now o p name : valid_name name -> entry_name (fresh_entry now o p name) = name.
Proof. intros [_ Hn]. by apply until_nul_pad. Qed.

(** *** Directories as maps *)

Definition names (es : list filemeta_server) : list bytes := entry_name <$> es.

Definition dir_map (es : list filemeta_server) : gmap bytes filemeta_server :=
  list_to_map ((fun e => (entry_name e, e)) <$> es).

Lemma names_fst es : ((fun e => (entry_name e, e)) <$> es).*1 = names es.
Proof. rewrite <- list_fmap_compose. done. Qed.

Lemma lookup_name_None name es : lookup_name name es = None <-> name ∉ names es.
Proof.
  unfold lookup_name. rewrite list_find_None, Forall_forall. unfold names. split.
  - intros Hf (e & -> & He)%list_elem_of_fmap. by apply (Hf e).
  - intros Hn e He <-. apply Hn. by apply list_elem_of_fmap_2.
Qed.

Lemma lookup_name_Some name es i e : lookup_name name es = Some (i, e) ->
  es !! i = Some e /\ entry_name e = name.
Proof. intros (? & ? & _)%list_find_Some. done. Qed.

Lemma dir_map_lookup name es : NoDup (names es) -> dir_map es !! name = snd <$> lookup_name name es.
Proof.
  intros Hn. unfold dir_map. destruct (lookup_name name es) as [[i e]|] eqn:E.
  - apply lookup_name_Some in E as [Ei <-]. apply elem_of_list_to_map_1.
    + by rewrite names_fst.
    + apply (list_elem_of_fmap_2 (fun e => (entry_name e, e))). by eapply list_elem_of_lookup_2.
  - apply lookup_name_None in E. apply not_elem_of_list_to_map_1. by rewrite names_fst.
Qed.

Lemma dir_map_perm es es' : NoDup (names es) -> es ≡ₚ es' -> dir_map es = dir_map es'.
Proof.
  intros Hn Hp. apply list_to_map_proper; [by rewrite names_fst|]. by rewrite Hp.
Qed.

Lemma dir_map_cons e es : dir_map (e :: es) = <[entry_name e := e]> (dir_map es).
Proof. done. Qed.

Lemma dir_map_snoc es e : NoDup (names (es ++ [e])) ->
  dir_map (es ++ [e]) = <[entry_name e := e]> (dir_map es).
Proof. intros Hn. rewrite (dir_map_perm _ (e :: es)); [done|done|]. by rewrite Permutation_app_comm. Qed.

Lemma swap_remove_perm i es e : es !! i = Some e -> e :: swap_remove i es ≡ₚ es.
Proof.
  intros Ei. pose proof (lookup_lt_Some _ _ _ Ei) as Hi.
  destruct (exists_last (l := es)) as (init & l & ->); [by intros ->|].
  unfold swap_remove. rewrite last_snoc, length_app. simpl length.
  replace (length init + 1 - 1)%nat with (length init) by lia. rewrite length_app in Hi. simpl in Hi.
  destruct (decide (i < length init)%nat) as [Hlt|Hge].
  - rewrite insert_app_l by done. rewrite take_app_length' by (by rewrite length_insert).
    rewrite lookup_app_l in Ei by done.
    rewrite insert_take_drop by done. rewrite <- Permutation_middle, (Permutation_app_comm init [l]).
    cbn [app]. rewrite <- (take_drop_middle init i e Ei) at 3. rewrite <- Permutation_middle.
    apply perm_swap.
  - assert (i = length init) as -> by lia. rewrite list_lookup_middle in Ei by done. simplify_eq.
    rewrite insert_app_r_alt by lia. rewrite take_app_length. by rewrite Permutation_app_comm.
Qed.

Lemma names_swap_remove i es e : es !! i = Some e -> entry_name e :: names (swap_remove i es) ≡ₚ names es.
Proof. intros Ei. exact (fmap_Permutation entry_name _ _ (swap_remove_perm i es e Ei)). Qed.

Lemma dir_map_swap_remove i es e : NoDup (names es) -> es !! i = Some e ->
  dir_map (swap_remove i es) = delete (entry_name e) (dir_map es).
Proof.
  intros Hn Ei. rewrite <- (dir_map_perm (e :: swap_remove i es) es).
  - rewrite dir_map_cons, delete_insert_id; [done|].
    apply not_elem_of_list_to_map_1. rewrite names_fst.
    rewrite <- (names_swap_remove i es e Ei) in Hn. by apply NoDup_cons in Hn as [? _].
  - by rewrite (names_swap_remove i es e Ei).
  - by apply swap_remove_perm.
Qed.

Lemma length_swap_remove i es : (i < length es)%nat -> length (swap_remove i es) = (length es - 1)%nat.
Proof.
  intros Hi. unfold swap_remove. destruct (last es) eqn:E; [|apply last_None in E; by subst].
  rewrite length_take, length_insert. lia.
Qed.

Lemma names_app es es' : names (es ++ es') = names es ++ names es'.
Proof. apply fmap_app. Qed.

Lemma NoDup_names_snoc es e : NoDup (names es) -> entry_name e ∉ names es -> NoDup (names (es ++ [e])).
Proof.
  intros Hn He. rewrite names_app. apply NoDup_app. split; [done|]. split; [|apply NoDup_singleton].
  intros x Hx ->%list_elem_of_singleton. done.
Qed.

Lemma dir_content_encode reserved es junk : length reserved = 60%nat -> Forall wf_filemeta_server es ->
  Z.of_nat (length es) < 2 ^ 25 -> dir_content (encode_dir reserved es ++ junk) reserved es.
Proof. intros. split; [done..|]. by exists junk. Qed.

Lemma load_filemeta_range b m : load_filemeta b = Some m ->
  0 <= (filemeta_to_host m).(fm_owner) < 2 ^ 16 /\ 0 <= (filemeta_to_host m).(fm_permission) < 2 ^ 16.
Proof. intros _. split; apply ntoh2_range. Qed.

Lemma load_dirmeta_range b m : load_dirmeta b = Some m ->
  0 <= (dirmeta_to_host m).(dm_owner) < 2 ^ 16 /\ 0 <= (dirmeta_to_host m).(dm_permission) < 2 ^ 16.
Proof. intros _. split; apply ntoh2_range. Qed.

(** ** What each continuation does on a directory *)
Section continuations.
Context {content reserved : bytes} {es : list filemeta_server}.
Hypothesis Hdir : dir_content content reserved es.
Variable now_time_t : Z.
Variable format_time : Z -> bytes.
Variables salt sequence uninitialised : bytes.

Let fresh := fresh_entry now_time_t.
Let write_packet := write_packet salt sequence.

(** Adding an entry is the same in three operations. *)
Lemma append_fresh owner permission name : valid_name name -> 0 <= owner < 2 ^ 16 -> 0 <= permission < 2 ^ 16 ->
  (entry ← new_entry now_time_t owner permission name;
   append_entry (mk_stats (Z.of_nat (length es)) reserved) content entry)
  = Some (encode_dir reserved (es ++ [fresh owner permission name])).
Proof.
  intros Hn Ho Hp. rewrite new_entry_spec by done. cbn [mbind option_bind].
  apply (append_entry_spec Hdir). by apply wf_fresh_entry.
Qed.

Lemma search_dir name : search (mk_stats (Z.of_nat (length es)) reserved) content name
  = Some (match lookup_name name es with
          | Some (j, e) => Some (Z.of_nat j + 1, to_network_format e)
          | None => None
          end).
Proof. rewrite (search_spec Hdir). f_equal. by destruct (lookup_name name es) as [[j e]|]. Qed.

Lemma add_file_dir i m : valid_name i.(in_name) -> load_filemeta i.(in_data) = Some m ->
  add_file_continue now_time_t salt sequence i content =
  Some (match lookup_name i.(in_name) es with
        | Some _ => Done None err_file_exists
        | None => Prepare (write_packet i.(in_uuid) (encode_dir reserved
            (es ++ [fresh (filemeta_to_host m).(fm_owner) (filemeta_to_host m).(fm_permission) i.(in_name)])))
        end).
Proof.
  intros Hn Hm. destruct (load_filemeta_range _ _ Hm) as [Ho Hp].
  unfold add_file_continue. rewrite (with_stat_dir Hdir), Hm. cbn [mbind option_bind]. cbv zeta.
  rewrite search_dir. cbn [mbind option_bind].
  destruct (lookup_name _ es) as [[j e]|]; [done|].
  pose proof (append_fresh _ _ _ Hn Ho Hp) as E.
  destruct (new_entry _ _ _ _) as [entry|]; [|done]. cbn [mbind option_bind] in *. by rewrite E.
Qed.

Lemma mkdir_dir i m : valid_name i.(in_name) -> load_dirmeta i.(in_data) = Some m ->
  mkdir_continue now_time_t salt sequence uninitialised i content =
  Some (match lookup_name i.(in_name) es with
        | Some _ => Done None err_dir_exists
        | None => PrepareMulti [write_packet i.(in_uuid) (encode_dir reserved
            (es ++ [fresh (dirmeta_to_host m).(dm_owner) (dirmeta_to_host m).(dm_permission) i.(in_name)]));
            init_packet salt sequence uninitialised i.(in_key)]
        end).
Proof.
  intros Hn Hm. destruct (load_dirmeta_range _ _ Hm) as [Ho Hp].
  unfold mkdir_continue. rewrite (with_stat_dir Hdir), search_dir, Hm. cbn [mbind option_bind].
  destruct (lookup_name _ es) as [[j e]|]; [done|]. cbv zeta.
  pose proof (append_fresh _ _ _ Hn Ho Hp) as E.
  destruct (new_entry _ _ _ _) as [entry|]; [|done]. cbn [mbind option_bind] in *. by rewrite E.
Qed.

Lemma delete_file_dir i : delete_file_continue salt sequence i content =
  Some (match lookup_name i.(in_name) es with
        | None => Done None err_not_found
        | Some (j, _) => Prepare (write_packet i.(in_uuid) (encode_dir reserved (swap_remove j es)))
        end).
Proof.
  unfold delete_file_continue. rewrite (with_stat_dir Hdir), search_dir. cbn [mbind option_bind].
  destruct (lookup_name _ es) as [[j e]|] eqn:E; [|done].
  apply lookup_name_Some in E as [Ej _]. pose proof (remove_entry_spec Hdir j (lookup_lt_Some _ _ _ Ej)) as Hr.
  destruct (remove_entry _ _ _) as [content'|]; [|done]. cbn [mbind option_bind] in *. cbv zeta in *.
  cbn [file_count meta.reserved]. unfold stats_block in Hr. by rewrite Hr.
Qed.

Lemma open_file_dir i : open_file_continue i content =
  Some (Done None (match lookup_name i.(in_name) es with None => err_not_found | Some _ => msg_ok end)).
Proof.
  unfold open_file_continue. rewrite (with_stat_dir Hdir), search_dir. cbn [mbind option_bind].
  by destruct (lookup_name _ es) as [[j e]|].
Qed.

Lemma get_stat_dir i is_directory : get_stat_continue format_time i is_directory content =
  Some (Done None (match lookup_name i.(in_name) es with
    | None => err_not_found
    | Some (_, e) => (if is_directory then lit "Directory name: "%string else lit "File name: "%string)
        ++ i.(in_name) ++ [x0a] ++ (if is_directory then dir_info format_time e else file_info format_time e)
    end)).
Proof.
  pose proof (dc_entries _ _ _ Hdir) as Hwf.
  unfold get_stat_continue. rewrite (with_stat_dir Hdir), search_dir. cbn [mbind option_bind].
  destruct (lookup_name _ es) as [[j e]|] eqn:E; [|done]. cbv zeta.
  apply lookup_name_Some in E as [Ej _].
  rewrite to_host_network by (by eapply Forall_lookup_1). by rewrite <- !(assoc_L (++)).
Qed.


Lemma list_entries_spec n j : (n = length es - j)%nat ->
  list_entries format_time n (Z.of_nat j + 1) content
  = Some (concat ((fun e => entry_name e ++ [x0a] ++ file_info format_time e) <$> drop j es)).
Proof.
  pose proof (dc_count _ _ _ Hdir) as Hcount. pose proof (dc_entries _ _ _ Hdir) as Hwf.
  revert j. induction n as [|n IH]; intros j Hn.
  { by rewrite drop_ge by lia. }
  destruct (lookup_lt_is_Some_2 es j) as [e Ej]; [lia|].
  pose proof (lookup_lt_Some _ _ _ Ej) as Hj.
  assert (wf_filemeta_server e) as Hwe by (by eapply Forall_lookup_1).
  cbn [list_entries]. rewrite !u32_small by lia.
  replace (Z.to_nat ((Z.of_nat j + 1) * 64)) with (64 * S j)%nat by lia.
  rewrite (mem_get_stats_entry Hdir j e Ej). cbn [mbind option_bind].
  unfold net_entry. rewrite <- (app_nil_r (store_filemeta_server _)).
  rewrite load_store_raw by (by apply wf_to_network). cbn [mbind option_bind].
  replace (Z.of_nat j + 1 + 1) with (Z.of_nat (S j) + 1) by lia. rewrite IH by lia.
  cbn [mbind option_bind]. rewrite to_host_network by done. rewrite (drop_S _ _ _ Ej).
  cbn [fmap list_fmap concat]. by rewrite <- !(assoc_L (++)).
Qed.

Lemma ls_dir i : ls_continue format_time i content =
  Some (Done None (lit "Total: "%string ++ to_string (Z.of_nat (length es))
    ++ lit " files/directories"%string ++ [x0a]
    ++ concat ((fun e => entry_name e ++ [x0a] ++ file_info format_time e) <$> es))).
Proof.
  unfold ls_continue. rewrite (with_stat_dir Hdir). cbn [file_count]. rewrite Nat2Z.id.
  by rewrite (list_entries_spec _ 0) by lia.
Qed.

Lemma create_and_write_dir i m : valid_name i.(in_name) -> load_filemeta i.(in_data) = Some m ->
  4 <= i.(in_size) < 2 ^ 32 -> i.(in_size) <= Z.of_nat (length i.(in_data)) ->
  create_and_write_continue now_time_t salt sequence i content =
  Some (match lookup_name i.(in_name) es with
        | Some _ => Done None err_file_exists
        | None => PrepareMulti [write_packet i.(in_uuid) (encode_dir reserved
            (es ++ [fresh (filemeta_to_host m).(fm_owner) (filemeta_to_host m).(fm_permission) i.(in_name)]));
            internal_packet salt sequence i.(in_key) write 0 (i.(in_size) - 4)
              (drop 4 (take (Z.to_nat i.(in_size)) i.(in_data)))]
        end).
Proof.
  intros Hn Hm Hs Hl. destruct (load_filemeta_range _ _ Hm) as [Ho Hp].
  unfold create_and_write_continue. rewrite (with_stat_dir Hdir), Hm. cbn [mbind option_bind]. cbv zeta.
  rewrite search_dir. cbn [mbind option_bind].
  destruct (lookup_name _ es) as [[j e]|]; [done|].
  pose proof (append_fresh _ _ _ Hn Ho Hp) as E.
  destruct (new_entry _ _ _ _) as [entry|]; [|done]. cbn [mbind option_bind] in *. rewrite E.
  cbn [mbind option_bind]. rewrite u32_small by lia.
  rewrite (wrap_small 8) by (change (modulus 8) with (2 ^ 64); lia).
  rewrite mem_get_Some by lia. cbn [mbind option_bind].
  rewrite take_drop_commute. by replace (4 + Z.to_nat (in_size i - 4))%nat with (Z.to_nat (in_size i)) by lia.
Qed.

(** The entry of a written file. *)
Definition written_entry (fullsize position size : Z) (e : filemeta_server) : filemeta_server :=
  mk_filemeta_server e.(owner) e.(permission)
    (u16 (Z.max (new_file_size fullsize position size) e.(file_size)))
    e.(creation_time) (now64 now_time_t) e.(file_name).

Lemma wf_written_entry fullsize position size e : wf_filemeta_server e ->
  wf_filemeta_server (written_entry fullsize position size e).
Proof.
  intros []. split; cbn [written_entry owner permission file_size creation_time
    modification_time file_name]; try done; apply (wrap_range 2) || apply (wrap_range 8).
Qed.

Lemma update_entry_spec fullsize i e : wf_filemeta_server e ->
  update_entry now_time_t fullsize i (to_network_format e)
  = to_network_format (written_entry fullsize i.(in_position) i.(in_size) e).
Proof.
  intros He. unfold update_entry. rewrite to_host_network by done. cbv zeta. f_equal.
  unfold written_entry. do 2 f_equal. destruct (Z.gtb_spec (new_file_size fullsize (in_position i) (in_size i)) (file_size e)); lia.
Qed.

(** Setting an entry, or leaving the entries, and writing the directory back. *)
Definition insert_found (found : option (nat * filemeta_server)) (f : filemeta_server -> filemeta_server)
    : list filemeta_server :=
  match found with Some (j, e) => <[j := f e]> es | None => es end.

Lemma write_dir fullsize i : 0 <= i.(in_size) -> i.(in_size) <= Z.of_nat (length i.(in_data)) ->
  write_continue now_time_t salt sequence fullsize i content =
  Some (PrepareMulti
    [write_packet i.(in_uuid) (encode_dir reserved
       (insert_found (lookup_name i.(in_name) es) (written_entry fullsize i.(in_position) i.(in_size))));
     internal_packet salt sequence i.(in_key) write 0 i.(in_size)
       (take (Z.to_nat i.(in_size)) i.(in_data))]).
Proof.
  intros Hs Hl. pose proof (dc_entries _ _ _ Hdir) as Hwf. pose proof (dc_length Hdir) as Hlen.
  unfold write_continue. rewrite (with_stat_dir Hdir), search_dir. cbn [mbind option_bind file_count].
  assert (mem_get 0 (Z.to_nat (in_size i)) (in_data i) = Some (take (Z.to_nat (in_size i)) (in_data i))) as Hg.
  { rewrite mem_get_Some by lia. by rewrite drop_0. }
  destruct (lookup_name _ es) as [[j e]|] eqn:E; cbn [insert_found].
  - apply lookup_name_Some in E as [Ej _]. assert (wf_filemeta_server e) as He by (by eapply Forall_lookup_1).
    rewrite update_entry_spec by done.
    pose proof (set_entry_spec Hdir j (written_entry fullsize i.(in_position) i.(in_size) e)
      (lookup_lt_Some _ _ _ Ej) (wf_written_entry _ _ _ _ He)) as Hset.
    unfold net_entry in Hset. destruct (mem_set _ _ content) as [content'|]; [|done].
    cbn [mbind option_bind] in *. apply (inj Some) in Hset. by rewrite Hset, Hg.
  - cbn [mbind option_bind]. rewrite Hg. cbn [mbind option_bind]. do 4 f_equal.
    destruct Hdir as [Hr _ Hc [junk ->]]. apply resize_to_app. fold (encode_dir reserved es).
    rewrite length_encode_dir, dir_size_small by (done || lia). lia.
Qed.

(** Renaming in the source directory. *)
Definition renamed_entry (name : bytes) (e : filemeta_server) : filemeta_server :=
  mk_filemeta_server e.(owner) e.(permission) e.(file_size) e.(creation_time) e.(modification_time)
    (pad_name name).

Lemma wf_renamed_entry name e : valid_name name -> wf_filemeta_server e -> wf_filemeta_server (renamed_entry name e).
Proof. intros [Hn _] []. split; try done. by apply length_pad_name. Qed.

Lemma rename_dir info i : valid_name (until_nul info.(new_file_name)) ->
  let new_name := until_nul info.(new_file_name) in
  let same := pack.key_compare info.(file_parent_key) i.(in_uuid) in
  rename_continue salt sequence info i content =
  Some (match lookup_name i.(in_name) es with
        | None => Done None err_not_found
        | Some (j, e) =>
            if same && bool_decide (new_name = i.(in_name)) then Done None err_name_exists
            else RenameParts (write_packet info.(file_parent_key)
                   (encode_dir reserved (if same then <[j := renamed_entry new_name e]> es
                                         else swap_remove j es)))
                   (to_network_format (renamed_entry new_name e)) same
        end).
Proof.
  intros Hn new_name same. pose proof (dc_entries _ _ _ Hdir) as Hwf.
  unfold rename_continue. rewrite (with_stat_dir Hdir), search_dir. cbn [mbind option_bind].
  destruct (lookup_name _ es) as [[j e]|] eqn:E; [|done].
  apply lookup_name_Some in E as [Ej _]. pose proof (lookup_lt_Some _ _ _ Ej) as Hj.
  assert (wf_filemeta_server e) as He by (by eapply Forall_lookup_1).
  fold new_name same. rewrite name_field_spec by apply Hn. cbn [mbind option_bind]. cbv zeta.
  destruct (same && bool_decide (new_name = in_name i)); [done|].
  change (mk_filemeta_server _ _ _ _ _ (pad_name new_name)) with (to_network_format (renamed_entry new_name e)).
  cbn [file_count meta.reserved]. destruct same; cbn [negb].
  - pose proof (set_entry_spec Hdir j (renamed_entry new_name e) Hj (wf_renamed_entry _ _ Hn He)) as Hset.
    unfold net_entry in Hset. destruct (mem_set _ _ content) as [content'|]; [|done].
    cbn [mbind option_bind] in *. apply (inj Some) in Hset. by rewrite Hset.
  - pose proof (remove_entry_spec Hdir j Hj) as Hr. destruct (remove_entry _ _ _) as [content'|]; [|done].
    cbn [mbind option_bind] in *. cbv zeta in *. unfold stats_block in Hr. by rewrite Hr.
Qed.

(** Part 2, in the destination directory. *)
Lemma rename_part_2_dir i e name : wf_filemeta_server e ->
  rename_part_2_continue salt sequence i (to_network_format e) name content =
  Some (match lookup_name name es with
        | Some _ => Part file_name_already_exists None
        | None => Part ok_part_2 (Some (write_packet i.(in_uuid) (encode_dir reserved (es ++ [e]))))
        end).
Proof.
  intros He. destruct (load_stats_dir Hdir) as (st & Est & Hst). pose proof (dc_length Hdir) as Hl.
  pose proof (dc_count _ _ _ Hdir) as Hc.
  unfold rename_part_2_continue. rewrite decide_False, Est by lia. cbn [mbind option_bind]. cbv zeta.
  rewrite Hst. cbn [file_count]. rewrite dir_size_small by lia.
  destruct (Z.gtb_spec (64 * (Z.of_nat (length es) + 1)) (Z.of_nat (length content))); [lia|].
  rewrite search_dir. cbn [mbind option_bind]. destruct (lookup_name name es) as [[j e']|]; [done|].
  by rewrite (append_entry_spec Hdir).
Qed.

End continuations.

(** ** Properties: a directory is a finite map from names to entries *)

Section packets.
Variables salt sequence : bytes.

Lemma wf_internal_request op position size : 0 <= position < 2 ^ 32 -> 0 <= size < 2 ^ 32 ->
  wf_request_header (internal_request op position size).
Proof. intros. split; try done. by destruct op. Qed.

Lemma wf_request_to_network r : wf_request_header r -> wf_request_header (request_to_network r).
Proof.
  intros []. split; cbn [request_to_network r_type r_operation r_position r_size r_file_name r_file_key];
    try done; apply hton_range; auto.
Qed.

Lemma length_internal_packet key op position size content : 0 <= position < 2 ^ 32 -> 0 <= size < 2 ^ 32 ->
  length (internal_packet salt sequence key op position size content).(pack.data)
  = (sizeof_request + length content)%nat.
Proof.
  intros. cbn [internal_packet pack.data]. rewrite length_app, length_store_request; [done|].
  by apply wf_request_to_network, wf_internal_request.
Qed.

(** The parser made from such a packet. *)
Lemma parse_internal_packet key op position size content : 0 <= position < 2 ^ 32 -> 0 <= size < 2 ^ 32 ->
  parse_input (internal_packet salt sequence key op position size content)
  = Some (mk_input key position size [] (replicate key_length x00) content).
Proof.
  intros Hp Hs. pose proof (wf_internal_request op position size Hp Hs) as Hwf.
  unfold parse_input. cbn [internal_packet pack.data]. cbv zeta.
  rewrite parser_position, parser_size, parser_file_name, parser_file_key, parser_data by done. done.
Qed.

End packets.

(** A packet that writes, under [key], the image of a directory with that map. *)
Definition stores (salt sequence reserved key : bytes) (m : gmap bytes filemeta_server)
    (p : pack.packet) : Prop :=
  exists es, p = write_packet salt sequence key (encode_dir reserved es) /\
    NoDup (names es) /\ Forall wf_filemeta_server es /\ dir_map es = m.

Lemma stores_intro salt sequence reserved key es m : NoDup (names es) -> Forall wf_filemeta_server es ->
  dir_map es = m -> stores salt sequence reserved key m (write_packet salt sequence key (encode_dir reserved es)).
Proof. intros. by exists es. Qed.

Lemma lookup_name_elem name es : lookup_name name es = None -> name ∉ names es.
Proof. apply lookup_name_None. Qed.

Lemma stores_snoc salt sequence reserved key es e : NoDup (names es) -> Forall wf_filemeta_server es ->
  wf_filemeta_server e -> entry_name e ∉ names es ->
  stores salt sequence reserved key (<[entry_name e := e]> (dir_map es))
    (write_packet salt sequence key (encode_dir reserved (es ++ [e]))).
Proof.
  intros Hn Hes He Hne. pose proof (NoDup_names_snoc es e Hn Hne).
  apply stores_intro; [done| |by apply dir_map_snoc]. apply Forall_app. split; [done|by constructor].
Qed.

Lemma stores_swap_remove salt sequence reserved key es j e : NoDup (names es) ->
  Forall wf_filemeta_server es -> es !! j = Some e ->
  stores salt sequence reserved key (delete (entry_name e) (dir_map es))
    (write_packet salt sequence key (encode_dir reserved (swap_remove j es))).
Proof.
  intros Hn Hes Ej. apply stores_intro; [| |by apply dir_map_swap_remove].
  - pose proof (names_swap_remove j es e Ej) as Hp. rewrite <- Hp in Hn. by apply NoDup_cons in Hn as [_ ?].
  - pose proof (swap_remove_perm j es e Ej) as Hp. rewrite <- Hp in Hes. by apply Forall_cons in Hes as [_ ?].
Qed.

Lemma insert_perm j (es : list filemeta_server) e e' : es !! j = Some e ->
  <[j := e']> es ≡ₚ e' :: swap_remove j es.
Proof.
  intros Ej. pose proof (swap_remove_perm j (<[j := e']> es) e') as Hp.
  pose proof (lookup_lt_Some _ _ _ Ej) as Hj. rewrite list_lookup_insert_eq in Hp by done.
  rewrite <- (Hp eq_refl). apply perm_skip.
  apply (Permutation_cons_inv (a := e')). rewrite (Hp eq_refl).
  rewrite insert_take_drop by done. rewrite <- Permutation_middle. apply perm_skip.
  apply (Permutation_cons_inv (a := e)). rewrite (swap_remove_perm j es e Ej).
  rewrite <- (take_drop_middle es j e Ej) at 3. by rewrite <- Permutation_middle.
Qed.

(** Replacing an entry, under the same or another name. *)
Lemma insert_entry_map es j e e' : NoDup (names es) -> es !! j = Some e ->
  (entry_name e' = entry_name e \/ entry_name e' ∉ names es) ->
  NoDup (names (<[j := e']> es)) /\
  dir_map (<[j := e']> es) = <[entry_name e' := e']> (delete (entry_name e) (dir_map es)).
Proof.
  intros Hn Ej Hne. pose proof (insert_perm j es e e' Ej) as Hp.
  pose proof (names_swap_remove j es e Ej) as Hps.
  assert (NoDup (names (e' :: swap_remove j es))) as Hn'.
  { assert (NoDup (entry_name e :: names (swap_remove j es))) as Hs by (by rewrite Hps).
    apply NoDup_cons in Hs as [Hs1 Hs2]. apply NoDup_cons. split; [|done].
    destruct Hne as [->|Hne]; [done|]. intros Hin. apply Hne. rewrite <- Hps. by apply list_elem_of_further. }
  assert (names (<[j := e']> es) ≡ₚ names (e' :: swap_remove j es)) as Hpn by (by apply fmap_Permutation).
  assert (NoDup (names (<[j := e']> es))) as Hnd by (by rewrite Hpn). split; [done|].
  rewrite (dir_map_perm _ (e' :: swap_remove j es)) by done.
  rewrite dir_map_cons. f_equal. by apply dir_map_swap_remove.
Qed.

(** [start_meta_init] and [mkdir] write a directory without entries. *)
Lemma init_packet_dir salt sequence uninit key : length uninit = 60%nat ->
  init_packet salt sequence uninit key = write_packet salt sequence key (encode_dir uninit []).
Proof.
  intros Hu. unfold init_packet, write_packet, encode_dir, dir_blocks. cbn [fmap list_fmap concat].
  rewrite app_nil_r, length_stats_block by done. done.
Qed.

(** An operation that makes an entry: refused when the map has the name; otherwise the
    first packet stores the map with the entry, and the others are as given. *)
Definition creates (salt sequence reserved key name : bytes) (es : list filemeta_server)
    (e : filemeta_server) (err : bytes) (others : list pack.packet) (o : option outcome) : Prop :=
  match dir_map es !! name with
  | Some _ => o = Some (Done None err)
  | None => exists p, (o = Some (Prepare p) /\ others = [] \/ o = Some (PrepareMulti (p :: others))) /\
      stores salt sequence reserved key (<[name := e]> (dir_map es)) p
  end.

(** Creating refines insertion into a map: on a directory with distinct names,
    [addfile], [mkdir] and [addfile_write] answer their error exactly when the name is
    taken, and otherwise write a directory with distinct names whose map is the old one
    with a fresh entry - owner and permission from the request, the current time, size
    0 - and nothing else changed; [mkdir] also writes an empty directory under the new
    key, [addfile_write] the data that follow the 4 bytes of metadata. *)
Theorem create_refines_insert content reserved es now salt sequence uninit i fm dm
    (Hdir : dir_content content reserved es) (Hu : NoDup (names es)) (Hn : valid_name i.(in_name))
    (Hfm : load_filemeta i.(in_data) = Some fm) (Hdm : load_dirmeta i.(in_data) = Some dm)
    (Hs : 4 <= i.(in_size) < 2 ^ 32) (Hl : i.(in_size) <= Z.of_nat (length i.(in_data)))
    (Hun : length uninit = 60%nat) :
  let file := fresh_entry now (filemeta_to_host fm).(fm_owner) (filemeta_to_host fm).(fm_permission) i.(in_name) in
  let dir := fresh_entry now (dirmeta_to_host dm).(dm_owner) (dirmeta_to_host dm).(dm_permission) i.(in_name) in
  creates salt sequence reserved i.(in_uuid) i.(in_name) es file err_file_exists []
    (add_file_continue now salt sequence i content) /\
  creates salt sequence reserved i.(in_uuid) i.(in_name) es dir err_dir_exists
    [write_packet salt sequence i.(in_key) (encode_dir uninit [])]
    (mkdir_continue now salt sequence uninit i content) /\
  creates salt sequence reserved i.(in_uuid) i.(in_name) es file err_file_exists
    [internal_packet salt sequence i.(in_key) write 0 (i.(in_size) - 4)
       (drop 4 (take (Z.to_nat i.(in_size)) i.(in_data)))]
    (create_and_write_continue now salt sequence i content).
Proof.
  intros file dir. destruct (load_filemeta_range _ _ Hfm) as [Ho Hp].
  destruct (load_dirmeta_range _ _ Hdm) as [Hdo Hdp]. pose proof (dc_entries _ _ _ Hdir) as Hwf.
  assert (forall o p, 0 <= o < 2 ^ 16 -> 0 <= p < 2 ^ 16 -> lookup_name i.(in_name) es = None ->
    stores salt sequence reserved i.(in_uuid) (<[i.(in_name) := fresh_entry now o p i.(in_name)]> (dir_map es))
      (write_packet salt sequence i.(in_uuid) (encode_dir reserved (es ++ [fresh_entry now o p i.(in_name)])))) as Hst.
  { intros o p Hoo Hpp Hnone. rewrite <- (entry_name_fresh now o p _ Hn) at 1.
    apply stores_snoc; [done|done|by apply wf_fresh_entry|].
    rewrite entry_name_fresh by done. by apply lookup_name_None. }
  unfold creates. rewrite (dir_map_lookup _ _ Hu).
  rewrite (add_file_dir Hdir now salt sequence i fm Hn Hfm).
  rewrite (mkdir_dir Hdir now salt sequence uninit i dm Hn Hdm).
  rewrite (create_and_write_dir Hdir now salt sequence i fm Hn Hfm Hs Hl).
  rewrite init_packet_dir by done.
  destruct (lookup_name i.(in_name) es) as [[j e]|] eqn:E; cbn [fmap option_fmap option_map snd].
  - done.
  - split_and!; eexists; (split; [|by apply Hst]); [left; done|right; done|right; done].
Qed.

(** Deleting refines deletion: [deletefile] answers an error exactly when the name
    is absent, and otherwise writes a directory with distinct names, one entry shorter,
    whose map is the old one without the name. *)
Theorem delete_refines_delete content reserved es salt sequence i
    (Hdir : dir_content content reserved es) (Hu : NoDup (names es)) :
  match dir_map es !! i.(in_name) with
  | None => delete_file_continue salt sequence i content = Some (Done None err_not_found)
  | Some _ => exists p, delete_file_continue salt sequence i content = Some (Prepare p) /\
      stores salt sequence reserved i.(in_uuid) (delete i.(in_name) (dir_map es)) p /\
      length p.(pack.data) = (sizeof_request + 64 * length es)%nat
  end.
Proof.
  pose proof (dc_entries _ _ _ Hdir) as Hwf. pose proof (dc_reserved _ _ _ Hdir) as Hr.
  rewrite (dir_map_lookup _ _ Hu), (delete_file_dir Hdir salt sequence i).
  destruct (lookup_name i.(in_name) es) as [[j e]|] eqn:E; cbn [fmap option_fmap option_map snd]; [|done].
  apply lookup_name_Some in E as [Ej <-]. pose proof (lookup_lt_Some _ _ _ Ej).
  pose proof (stores_swap_remove salt sequence reserved i.(in_uuid) es j e Hu Hwf Ej) as Hst.
  eexists. split; [done|]. split; [done|].
  unfold write_packet. rewrite length_internal_packet by (done || apply (wrap_range 4)).
  rewrite length_encode_dir, length_swap_remove; [lia|done|done|].
  pose proof (swap_remove_perm j es e Ej) as Hp. rewrite <- Hp in Hwf. by apply Forall_cons in Hwf as [_ ?].
Qed.

(** Looking up: [open] and the two [getstat] operations answer from the entry of
    the name in the map, and an error exactly when it has none; [ls] lists every entry
    of the map once, after their number. *)
Theorem lookups_read_the_map content reserved es format_time i
    (Hdir : dir_content content reserved es) (Hu : NoDup (names es)) :
  open_file_continue i content = Some (Done None
    (if dir_map es !! i.(in_name) then msg_ok else err_not_found)) /\
  get_stat_continue format_time i false content = Some (Done None
    (match dir_map es !! i.(in_name) with
     | Some e => lit "File name: "%string ++ i.(in_name) ++ [x0a] ++ file_info format_time e
     | None => err_not_found end)) /\
  get_stat_continue format_time i true content = Some (Done None
    (match dir_map es !! i.(in_name) with
     | Some e => lit "Directory name: "%string ++ i.(in_name) ++ [x0a] ++ dir_info format_time e
     | None => err_not_found end)) /\
  exists listed, listed ≡ₚ map_to_list (dir_map es) /\
    ls_continue format_time i content = Some (Done None
      (lit "Total: "%string ++ to_string (Z.of_nat (size (dir_map es))) ++ lit " files/directories"%string
       ++ [x0a] ++ concat ((fun ne => ne.1 ++ [x0a] ++ file_info format_time ne.2) <$> listed))).
Proof.
  rewrite (open_file_dir Hdir), !(get_stat_dir Hdir), (ls_dir Hdir), (dir_map_lookup _ _ Hu).
  destruct (lookup_name _ es) as [[j e]|]; cbn [fmap option_fmap option_map snd].
  all: split; [done|]; split; [done|]; split; [done|].
  all: exists ((fun e => (entry_name e, e)) <$> es).
  all: unfold dir_map; rewrite map_to_list_to_map by (by rewrite names_fst); split; [done|].
  all: rewrite <- list_fmap_compose; do 4 f_equal.
  all: by rewrite map_size_list_to_map, length_fmap by (by rewrite names_fst).
Qed.

(** The entries after a write, as a map. *)
Lemma insert_found_map now fullsize i es : NoDup (names es) -> Forall wf_filemeta_server es ->
  let es' := insert_found (es := es) (lookup_name i.(in_name) es)
    (written_entry now fullsize i.(in_position) i.(in_size)) in
  NoDup (names es') /\ Forall wf_filemeta_server es' /\
  dir_map es' = alter (written_entry now fullsize i.(in_position) i.(in_size)) i.(in_name) (dir_map es).
Proof.
  intros Hu Hwf. pose proof (dir_map_lookup i.(in_name) es Hu) as Em.
  destruct (lookup_name i.(in_name) es) as [[j e]|] eqn:E; cbn [insert_found]; cbv zeta;
    cbn [fmap option_fmap option_map snd] in Em.
  - apply lookup_name_Some in E as [Ej En]. pose proof (Forall_lookup_1 _ _ _ _ Hwf Ej) as He.
    set (e' := written_entry now fullsize i.(in_position) i.(in_size) e).
    destruct (insert_entry_map es j e e' Hu Ej) as [Hnd Hm]; [by left|].
    split; [done|]. split; [apply Forall_insert; [done|by apply wf_written_entry]|]. rewrite Hm.
    change (entry_name e') with (entry_name e). rewrite En, insert_delete_eq.
    apply map_eq. intros k. destruct (decide (k = in_name i)) as [->|Hk].
    + by rewrite lookup_alter_eq, Em, lookup_insert_eq.
    + by rewrite lookup_alter_ne, lookup_insert_ne by done.
  - split; [done|]. split; [done|]. apply map_eq. intros k. destruct (decide (k = in_name i)) as [->|Hk].
    + by rewrite lookup_alter_eq, Em.
    + by rewrite lookup_alter_ne.
Qed.

(** Writing: the directory is written back with the entry of the name, if there is
    one, at the larger of its size and the recorded size of the write modulo 2^16 and
    at the current time, every other entry unchanged.  The buffer is written in the same
    two-phase commit, also when the directory has no such entry, and at position 0 of
    the file whatever position the request names. *)
Theorem write_updates_entry content reserved es now salt sequence fullsize i
    (Hdir : dir_content content reserved es) (Hu : NoDup (names es))
    (Hs : 0 <= i.(in_size)) (Hl : i.(in_size) <= Z.of_nat (length i.(in_data))) :
  exists p, write_continue now salt sequence fullsize i content
    = Some (PrepareMulti [p; internal_packet salt sequence i.(in_key) write 0 i.(in_size)
                               (take (Z.to_nat i.(in_size)) i.(in_data))]) /\
  stores salt sequence reserved i.(in_uuid)
    (alter (written_entry now fullsize i.(in_position) i.(in_size)) i.(in_name) (dir_map es)) p.
Proof.
  rewrite (write_dir Hdir now salt sequence fullsize i Hs Hl). eexists. split; [done|].
  destruct (insert_found_map now fullsize i es Hu (dc_entries _ _ _ Hdir)) as (Hn & Hwf & Hm).
  by apply stores_intro.
Qed.

(** Renaming: an absent name is an error.  Inside one directory the new name must
    differ; when no other entry has it, the entry moves to the new name in the map and
    nothing else changes; when another entry has it the directory is still written, now
    with two entries of that name.  Towards another directory the entry leaves the map
    of this one and goes on, under the new name and otherwise unchanged, to the part
    that appends it there, which answers an error exactly when that name is taken. *)
Theorem rename_moves_entry content reserved es salt sequence info i content2 reserved2 es2 j2
    (Hdir : dir_content content reserved es) (Hu : NoDup (names es))
    (Hdir2 : dir_content content2 reserved2 es2) (Hu2 : NoDup (names es2))
    (Hn : valid_name (until_nul info.(new_file_name))) :
  let new_name := until_nul info.(new_file_name) in
  let parent := info.(file_parent_key) in
  match dir_map es !! i.(in_name) with
  | None => rename_continue salt sequence info i content = Some (Done None err_not_found)
  | Some e =>
      let e' := renamed_entry new_name e in
      if decide (parent = i.(in_uuid)) then
        if decide (new_name = i.(in_name)) then
          rename_continue salt sequence info i content = Some (Done None err_name_exists)
        else exists es', rename_continue salt sequence info i content
               = Some (RenameParts (write_packet salt sequence parent (encode_dir reserved es'))
                         (to_network_format e') true) /\
             if dir_map es !! new_name then ~ NoDup (names es')
             else NoDup (names es') /\ dir_map es' = <[new_name := e']> (delete i.(in_name) (dir_map es))
      else (exists p, rename_continue salt sequence info i content
              = Some (RenameParts p (to_network_format e') false) /\
            stores salt sequence reserved parent (delete i.(in_name) (dir_map es)) p) /\
           match dir_map es2 !! new_name with
           | Some _ => rename_part_2_continue salt sequence j2 (to_network_format e') new_name content2
                       = Some (Part file_name_already_exists None)
           | None => exists p, rename_part_2_continue salt sequence j2 (to_network_format e') new_name content2
                       = Some (Part ok_part_2 (Some p)) /\
                     stores salt sequence reserved2 j2.(in_uuid) (<[new_name := e']> (dir_map es2)) p
           end
  end.
Proof.
  intros new_name parent. pose proof (dc_entries _ _ _ Hdir) as Hwf. pose proof (dc_entries _ _ _ Hdir2) as Hwf2.
  rewrite (rename_dir Hdir salt sequence info i Hn). fold new_name parent.
  rewrite (dir_map_lookup _ _ Hu).
  destruct (lookup_name i.(in_name) es) as [[j e]|] eqn:E; cbn [fmap option_fmap option_map snd]; [|done].
  apply lookup_name_Some in E as [Ej En]. pose proof (Forall_lookup_1 _ _ _ _ Hwf Ej) as He.
  set (e' := renamed_entry new_name e).
  assert (entry_name e' = new_name) as En' by apply until_nul_pad, Hn.
  assert (wf_filemeta_server e') as He' by (by apply wf_renamed_entry).
  unfold pack.key_compare. destruct (decide (parent = in_uuid i)) as [Hp|Hp].
  - rewrite (bool_decide_eq_true_2 _ Hp). cbn [andb]. destruct (decide (new_name = in_name i)) as [Hm|Hm].
    { by rewrite bool_decide_eq_true_2. }
    rewrite bool_decide_eq_false_2 by done. eexists. split; [done|].
    rewrite (dir_map_lookup _ _ Hu). destruct (lookup_name new_name es) as [[k f]|] eqn:Ef;
      cbn [fmap option_fmap option_map].
    + apply lookup_name_Some in Ef as [Ek Enk]. intros Hnd.
      assert (j <> k) as Hjk by (intros ->; congruence).
      apply Hjk. apply (NoDup_lookup _ _ _ new_name Hnd); unfold names; rewrite list_lookup_fmap.
      * rewrite list_lookup_insert_eq by (by eapply lookup_lt_Some). by rewrite <- En'.
      * rewrite list_lookup_insert_ne, Ek by done. by rewrite <- Enk.
    + apply lookup_name_None in Ef. rewrite <- En' in Ef.
      destruct (insert_entry_map es j e e' Hu Ej) as [Hnd Hm']; [by right|]. by rewrite Hm', En', En.
  - rewrite (bool_decide_eq_false_2 _ Hp). cbn [andb]. split.
    + eexists. split; [done|]. rewrite <- En. by apply stores_swap_remove.
    + rewrite (rename_part_2_dir Hdir2 salt sequence j2 e' new_name He'), (dir_map_lookup _ _ Hu2).
      destruct (lookup_name new_name es2) as [[k f]|] eqn:Ef; cbn [fmap option_fmap option_map]; [done|].
      eexists. split; [done|]. apply lookup_name_None in Ef. rewrite <- En' in Ef |- * at 1.
      by apply stores_snoc.
Qed.

(** The join over the answers of the parts, in the order in which they come. *)
Fixpoint rename_join_run (ptr1 : pack.packet) (same_parent_dir : bool) (j : join)
    (parts : list (rename_sub_operation_t * option pack.packet)) : join * list outcome :=
  match parts with
  | [] => (j, [])
  | (op, p) :: parts =>
      let '(j, o) := rename_join ptr1 same_parent_dir j op p in
      let '(j, os) := rename_join_run ptr1 same_parent_dir j parts in
      (j, option_list o ++ os)
  end.

(** What part 2 answers, after its content was read. *)
Definition part_2_answer (op : rename_sub_operation_t) (p : option pack.packet) : Prop :=
  match op with
  | ok_part_2 => is_Some p
  | directory_not_found | file_name_already_exists => p = None
  | _ => False
  end.

(** Joining the parts of a rename: in whatever order the parts answer, exactly one
    thing is started, with the last answer - inside one directory the write of the
    directory and of the copied bytes; towards another one the write of both
    directories and of the copied bytes when part 2 has a packet, and otherwise its
    error, without any write. *)
Theorem rename_joins_once ptr1 p3 op2 p2 parts (H2 : part_2_answer op2 p2)
    (Hp : parts ≡ₚ [(op2, p2); (ok_part_3, Some p3)]) :
  (rename_join_run ptr1 true (join_init true) [(ok_part_3, Some p3)]).2 = [PrepareMulti [ptr1; p3]] /\
  (rename_join_run ptr1 false (join_init false) parts).2
  = [match op2, p2 with
     | ok_part_2, Some p2 => PrepareMulti [ptr1; p2; p3]
     | directory_not_found, _ => Done None (lit "Error: No such directory"%string)
     | _, _ => Done None (lit "Error: File name already exists"%string)
     end].
Proof.
  split; [done|].
  assert (parts = [(op2, p2); (ok_part_3, Some p3)] \/ parts = [(ok_part_3, Some p3); (op2, p2)]) as Hor.
  { symmetry in Hp. by apply Permutation_length_2_inv in Hp. }
  destruct op2; cbn [part_2_answer] in H2; try done.
  - subst. by destruct Hor as [->| ->].
  - subst. by destruct Hor as [->| ->].
  - destruct H2 as [q ->]. by destruct Hor as [->| ->].
Qed.

(** ** Witnesses: a directory with the entries [a] and [b] *)
Definition sample_reserved : bytes := replicate 60 x00.
Definition sample_key (b : byte) : bytes := replicate 32 b.
Definition sample_entry (name : bytes) : filemeta_server := fresh_entry 1700000000 7 420 name.
Definition sample_dir : list filemeta_server := [sample_entry [x61]; sample_entry [x62]].
Definition sample_content : bytes := encode_dir sample_reserved sample_dir.
Definition sample_meta : bytes := store_filemeta (filemeta_to_network (mk_filemeta 7 420)).
Definition sample_op (name : bytes) : input :=
  mk_input (sample_key x01) 0 6 name (sample_key x02) (sample_meta ++ [x68; x69]).

Lemma valid_sample b : b <> x00 -> valid_name [b].
Proof. intros Hb. split; [unfold file_name_length; simpl; lia|]. intros E%list_elem_of_singleton. done. Qed.

Lemma wf_sample b : b <> x00 -> wf_filemeta_server (sample_entry [b]).
Proof. intros. apply wf_fresh_entry; [by apply valid_sample|lia|lia]. Qed.

Lemma sample_names : NoDup (names sample_dir).
Proof. apply (bool_decide_unpack _). vm_compute. done. Qed.

Lemma sample_dir_content : dir_content sample_content sample_reserved sample_dir.
Proof.
  split.
  - by vm_compute.
  - repeat constructor; by apply wf_sample.
  - cbn [sample_dir length]. lia.
  - exists []. by rewrite app_nil_r.
Qed.

Lemma create_refines_insert_witness :
  creates [] [] sample_reserved (sample_key x01) [x63] sample_dir (sample_entry [x63]) err_file_exists []
    (add_file_continue 1700000000 [] [] (sample_op [x63]) sample_content) /\
  add_file_continue 1700000000 [] [] (sample_op [x61]) sample_content = Some (Done None err_file_exists).
Proof.
  destruct (create_refines_insert sample_content sample_reserved sample_dir 1700000000 [] [] sample_reserved
    (sample_op [x63]) (mk_filemeta (hton 2 7) (hton 2 420)) (mk_dirmeta (hton 2 7) (hton 2 420))
    sample_dir_content sample_names (valid_sample x63 ltac:(done)) ltac:(vm_refl) ltac:(vm_refl)
    ltac:(cbn [in_size sample_op]; lia) ltac:(vm_compute; discriminate) eq_refl) as [H1 _].
  split; [exact H1|vm_refl].
Defined.

Lemma delete_refines_delete_witness : exists p,
  delete_file_continue [] [] (sample_op [x61]) sample_content = Some (Prepare p) /\
  stores [] [] sample_reserved (sample_key x01) (delete [x61] (dir_map sample_dir)) p.
Proof.
  pose proof (delete_refines_delete sample_content sample_reserved sample_dir [] [] (sample_op [x61])
    sample_dir_content sample_names) as Hd.
  assert (dir_map sample_dir !! in_name (sample_op [x61]) = Some (sample_entry [x61])) as E by vm_refl.
  rewrite E in Hd. destruct Hd as (p & H1 & H2 & _). exists p. split; [exact H1|exact H2].
Defined.

Lemma lookups_read_the_map_witness :
  open_file_continue (sample_op [x62]) sample_content = Some (Done None msg_ok) /\
  open_file_continue (sample_op [x63]) sample_content = Some (Done None err_not_found).
Proof.
  destruct (lookups_read_the_map sample_content sample_reserved sample_dir (fun _ => []) (sample_op [x62])
    sample_dir_content sample_names) as [H1 _].
  split; [rewrite H1; vm_refl|vm_refl].
Defined.

Lemma write_updates_entry_witness : exists p,
  write_continue 1700000100 [] [] 4096 (sample_op [x61]) sample_content
  = Some (PrepareMulti [p; internal_packet [] [] (sample_key x02) write 0 6 (sample_meta ++ [x68; x69])]) /\
  stores [] [] sample_reserved (sample_key x01)
    (alter (written_entry 1700000100 4096 0 6) [x61] (dir_map sample_dir)) p.
Proof.
  destruct (write_updates_entry sample_content sample_reserved sample_dir 1700000100 [] [] 4096
    (sample_op [x61]) sample_dir_content sample_names) as (p & H1 & H2).
  - cbn [in_size sample_op]. lia.
  - vm_compute. discriminate.
  - exists p. split; [exact H1|exact H2].
Defined.

Definition sample_rename (parent : byte) (new_name : bytes) : rename_info :=
  mk_rename_info (sample_key x04) (sample_key parent) (pad_name new_name).

(** Renaming [a] to the name of the other entry leaves two entries of that name. *)
Lemma rename_moves_entry_witness : exists es',
  rename_continue [] [] (sample_rename x01 [x62]) (sample_op [x61]) sample_content
  = Some (RenameParts (write_packet [] [] (sample_key x01) (encode_dir sample_reserved es'))
            (to_network_format (renamed_entry [x62] (sample_entry [x61]))) true) /\
  ~ NoDup (names es').
Proof.
  pose proof (rename_moves_entry sample_content sample_reserved sample_dir [] []
    (sample_rename x01 [x62]) (sample_op [x61]) sample_content sample_reserved sample_dir (sample_op [x61])
    sample_dir_content sample_names sample_dir_content sample_names (valid_sample x62 ltac:(done))) as Hr.
  cbv zeta in Hr.
  assert (dir_map sample_dir !! in_name (sample_op [x61]) = Some (sample_entry [x61])) as E by vm_refl.
  rewrite E in Hr. rewrite decide_True in Hr by done. rewrite decide_False in Hr by (by vm_compute).
  destruct Hr as (es' & H1 & H2). exists es'. split; [exact H1|].
  assert (dir_map sample_dir !! until_nul (new_file_name (sample_rename x01 [x62]))
    = Some (sample_entry [x62])) as E2 by vm_refl.
  rewrite E2 in H2. exact H2.
Defined.

Definition sample_part : pack.packet := internal_packet [] [] [] read 0 0 [].

Lemma rename_joins_once_witness :
  (rename_join_run sample_part false (join_init false)
     [(ok_part_3, Some sample_part); (file_name_already_exists, None)]).2
  = [Done None (lit "Error: File name already exists"%string)].
Proof.
  apply (rename_joins_once sample_part sample_part file_name_already_exists None); [reflexivity|].
  apply perm_swap.
Defined.
