(* ===== verification/Filesystem.v ===== *)
(** * Metadata operations against the block store servers

    The multi-input two-phase commit of [storage-conf-ssbd-backend.hpp] (lines 315-525)
    over the servers, and the metadata operations of [Directory] from the read of the
    directory to the last commit. *)
From Stdlib Require Import ZArith Lia.
From stdpp Require Import base tactics option list gmap strings.
From S2P Require Import Prelude Wire KvLog Ssbd Request Stripe Connection Coordinator Cluster Directory.
Import leveldb_pack recoder.

(** ** [start_2pc_prepare_multi_inputs] and [start_2pc_commit_multi_inputs] *)
Section multi.
Context {D : Type} `{KVStore D}.
Variable pick : bytes -> Z -> Z -> Z.
Variable cfg : config.
Variable salts : Z -> bytes.
Variable shuffle : forall A : Type, list A -> list A.

Definition prepare_requests_multi (rec : recoder) (selected_version : Z) (inputs : list input)
    : option (list (Z * packet)) :=
  concat (A := Z * packet) <$> mapM (prepare_requests pick cfg salts rec selected_version) inputs.

Definition commit_requests_multi (agree : bool) (selected_version : Z) (inputs : list input)
    : list (Z * packet) :=
  i ← inputs; commit_requests pick cfg salts agree selected_version i.

Definition two_pc_multi (cl : cluster D) (rec : recoder) (selected_version : Z) (inputs : list input)
    : option (cluster D * recoder * list action) :=
  reqs ← prepare_requests_multi rec selected_version inputs;
  '(cl, resps) ← deliver_all cl (shuffle _ reqs);
  let events := replicate (length reqs) Sent
                ++ (Response <$> ((fun p => p.(header).(type)) <$> resps)) in
  let acts := (phase_run (prepare_response_multi (in_uuid <$> inputs)) phase_init events).2 in
  match commits acts with
  | [] => Some (cl, rec, acts)
  | agree :: _ =>
      '(cl, acks) ← deliver_all cl (shuffle _ (commit_requests_multi agree selected_version inputs));
      Some (cl, apply_actions acts rec, acts)
  end.

End multi.

(** *** The response handler *)

(** What the last response of the phase does. *)
Definition multi_actions (uuids : list bytes) (agree : bool) : list action :=
  [CancelTimer] ++ (if agree then (MarkChecked <$> uuids) ++ [Reply msg_ok]
                    else (EraseChecked <$> uuids) ++ [Reply msg_pending_multi]) ++ [StartCommit agree].


Lemma prepare_response_multi_spec uuids st type :
  prepare_response_multi uuids st type =
  let agree := st.(all_ssbd_agree) && agreed type in
  (mk_phase (st.(outstanding_requests) - 1) agree,
   if st.(outstanding_requests) - 1 =? 0
   then multi_actions uuids agree else []).
Proof.
  unfold prepare_response_multi, agreed, multi_actions.
  destruct (leveldb_pack.of_code type) as [[]|]; cbn [outstanding_requests];
    case_bool_decide as Hd; try discriminate Hd;
    rewrite ?andb_true_r, ?andb_false_r; try congruence;
    destruct (_ =? 0), (all_ssbd_agree st); done.
Qed.

Lemma prepare_responses_multi (uuids : list bytes) types a : types <> [] ->
  phase_run (prepare_response_multi uuids) (mk_phase (Z.of_nat (length types)) a) (Response <$> types) =
  let agree := a && forallb agreed types in
  (mk_phase 0 agree, multi_actions uuids agree).
Proof.
  revert a. induction types as [|t types IH]; intros a Hne; [done|].
  cbn [fmap list_fmap phase_run phase_step]. rewrite prepare_response_multi_spec.
  cbn [outstanding_requests all_ssbd_agree length forallb].
  replace (Z.of_nat (S (length types)) - 1) with (Z.of_nat (length types)) by lia.
  destruct types as [|t' types].
  - simpl. rewrite andb_true_r, app_nil_r. by destruct (a && agreed t).
  - destruct (Z.eqb_spec (Z.of_nat (length (t' :: types))) 0) as [E|_]; [simpl in E; lia|].
    change (list_fmap Z event Response (t' :: types)) with (Response <$> (t' :: types)).
    rewrite IH by done. cbn zeta. rewrite <- (andb_assoc a). done.
Qed.

Lemma commits_multi (uuids : list bytes) (agree : bool) :
  commits (multi_actions uuids agree) = [agree].
Proof.
  unfold commits, multi_actions. destruct agree; rewrite !omap_app; cbn [omap list_omap app];
    rewrite app_nil_r; by induction uuids.
Qed.

Lemma replies_multi (uuids : list bytes) (agree : bool) :
  replies (multi_actions uuids agree) = [if agree then msg_ok else msg_pending_multi].
Proof.
  unfold replies, multi_actions. destruct agree; rewrite !omap_app; cbn [omap list_omap app];
    rewrite ?app_nil_r; by induction uuids.
Qed.

(** *** A batch of pieces of several files *)
Section multi_facts.
Context {D : Type} `{KVLaws D}.
Variable pick : bytes -> Z -> Z -> Z.
Variable cfg : config.
Variable salts : Z -> bytes.
Variable shuffle : forall A : Type, list A -> list A.
Hypothesis Hcfg : config_ok pick cfg salts shuffle.
Implicit Types (cl : cluster D).

Section one_batch.
Context (m : input -> msg_t) (ver : Z) (size : chunk -> Z) (d : input -> chunk -> bytes).
Context (inputs : list input).
Hypothesis Hb : forall i, i ∈ inputs -> batch_ok cfg (m i) ver i size (d i).
Hypothesis Hm : forall i, i ∈ inputs -> m i <> get.
Hypothesis Hn : NoDup (in_uuid <$> inputs).

Let req (i : input) : chunk -> Z * packet := piece_request pick cfg salts (m i) ver i size (d i).

Definition multi_requests : list (Z * packet) := i ← inputs; req i <$> pieces cfg i.

Lemma multi_elem r : r ∈ multi_requests <-> exists i c, i ∈ inputs /\ c ∈ pieces cfg i /\ r = req i c.
Proof.
  unfold multi_requests. rewrite list_elem_of_bind. split.
  - intros (i & (c & -> & Hc)%list_elem_of_fmap & Hi). by exists i, c.
  - intros (i & c & Hi & Hc & ->). exists i. split; [by apply list_elem_of_fmap_2|done].
Qed.

Lemma multi_targets_NoDup cl : NoDup (target cl <$> multi_requests).
Proof.
  unfold multi_requests. clear Hm. induction inputs as [|i rest IH]; [constructor|].
  cbn [mbind list_bind fmap list_fmap] in *. apply NoDup_cons in Hn as [Hi Hn'].
  rewrite fmap_app. apply NoDup_app. split; [|split].
  - apply (piece_targets_NoDup pick cfg salts shuffle Hcfg). apply Hb. left.
  - intros t (r & -> & (c & -> & Hc)%list_elem_of_fmap)%list_elem_of_fmap Ht.
    apply list_elem_of_fmap in Ht as (r' & E & Hr').
    apply list_elem_of_bind in Hr' as (i' & (c' & -> & Hc')%list_elem_of_fmap & Hi').
    unfold req in E. rewrite !piece_target in E. injection E as _ E.
    apply Hi. apply app_inj_1 in E as [-> _].
    + by apply list_elem_of_fmap_2.
    + rewrite (ok_uuid _ (bo_input _ _ _ _ _ _ (Hb i ltac:(left)))).
      by rewrite (ok_uuid _ (bo_input _ _ _ _ _ _ (Hb i' ltac:(right; done)))).
  - apply IH; [|done]. intros i' Hi'. apply Hb. by right.
Qed.

Lemma multi_batch cl reqs : hosts_ok cfg cl -> reqs ≡ₚ multi_requests ->
  exists cl', deliver_all cl reqs = Some (cl', (fun r => answer r.2 (target_view cl r)) <$> reqs) /\
    hosts_ok cfg cl' /\ length cl' = length cl /\
    (forall i c, i ∈ inputs -> c ∈ pieces cfg i ->
       file_view pick cfg cl' i.(in_uuid) c.(Stripe.blockid)
       = (block_step (m i) (Z.to_nat c.(offset)) (Z.to_nat (size c)) ver (d i c)
            (file_view pick cfg cl i.(in_uuid) c.(Stripe.blockid))).2) /\
    (forall uuid b, length uuid = key_size -> 0 <= b < 2 ^ 32 ->
       (forall i, i ∈ inputs -> uuid = i.(in_uuid) -> b ∉ (Stripe.blockid <$> pieces cfg i)) ->
       file_view pick cfg cl' uuid b = file_view pick cfg cl uuid b).
Proof.
  intros Hok Hp. destruct (deliver_all_spec reqs cl (proj1 Hok)) as (cl' & E & Hok' & Hl & Hv & Hf).
  - rewrite Hp. apply multi_targets_NoDup.
  - rewrite Hp. apply Forall_forall. intros r (i & c & Hi & Hc & ->)%multi_elem.
    apply (piece_deliverable pick cfg salts shuffle Hcfg); [by apply Hb|done|done|].
    intros Em. by apply Hm in Em.
  - exists cl'. split; [done|]. split; [split; [done|by rewrite Hl; apply Hok]|]. split; [done|]. split.
    + intros i c Hi Hc. specialize (Hv (req i c)). rewrite Hp in Hv.
      rewrite multi_elem in Hv. specialize (Hv (ex_intro _ i (ex_intro _ c (conj Hi (conj Hc eq_refl))))).
      unfold req in Hv. rewrite (piece_packet_step pick cfg salts) in Hv by (done || by apply Hb).
      by rewrite !piece_target_view in Hv.
    + intros uuid b Hu Hb' Hne. unfold file_view.
      assert (block_host pick cfg cl' uuid b = block_host pick cfg cl uuid b) as ->
        by (unfold block_host, host; by rewrite Hl).
      apply Hf; [by exists uuid, b|]. rewrite Hp.
      intros (r & Ec & (i & c & Hi & Hc & ->)%multi_elem)%list_elem_of_fmap.
      unfold req in Ec. rewrite piece_target in Ec. injection Ec as _ Ec.
      pose proof (bo_input _ _ _ _ _ _ (Hb i Hi)) as Hii.
      pose proof (piece_range pick cfg salts shuffle Hcfg i c Hii Hc).
      apply app_inj_1 in Ec as [Eu Eb]; [|by rewrite Hu, (ok_uuid _ Hii)].
      apply to_string_inj in Eb; [|lia..]. apply (Hne i Hi Eu). rewrite Eb. by apply list_elem_of_fmap_2.
Qed.

End one_batch.

(** *** A write of several free files *)

Record writable (rec : recoder) cl (i : input) : Prop := {
  wr_input : input_ok i;
  wr_data : i.(in_size) <= Z.of_nat (length i.(in_data));
  wr_free : free pick cfg rec cl i
}.

Lemma prepare_requests_multi_eq rec ver inputs cl : (forall i, i ∈ inputs -> writable rec cl i) ->
  prepare_requests_multi pick cfg salts rec ver inputs
  = Some (multi_requests (prepare_msg rec) ver blockwritesize (fun i => piece i.(in_data)) inputs).
Proof.
  intros Hw. unfold prepare_requests_multi, multi_requests.
  assert (mapM (prepare_requests pick cfg salts rec ver) inputs
    = Some ((fun i => piece_request pick cfg salts (prepare_msg rec i) ver i blockwritesize
        (piece i.(in_data)) <$> pieces cfg i) <$> inputs)) as ->.
  { apply mapM_Some_2, Forall2_fmap_r, Forall_Forall2_diag, Forall_forall. intros i Hi.
    destruct (Hw i Hi). by apply (prepare_requests_eq pick cfg salts shuffle Hcfg). }
  cbn [fmap option_fmap option_map]. f_equal. clear Hw. induction inputs as [|i rest IH]; [done|].
  cbn [fmap list_fmap concat mbind list_bind]. f_equal. apply IH.
Qed.

Lemma commit_requests_multi_eq agree ver inputs : (forall i, i ∈ inputs -> input_ok i) ->
  commit_requests_multi pick cfg salts agree ver inputs
  = multi_requests (fun _ => commit_msg agree) ver (fun _ => 0) (fun _ _ => []) inputs.
Proof.
  intros Hi. unfold commit_requests_multi, multi_requests. induction inputs as [|i rest IH]; [done|].
  cbn [mbind list_bind]. f_equal.
  - apply (commit_requests_eq pick cfg salts shuffle Hcfg), Hi. left.
  - apply IH. intros i' Hi'. apply Hi. by right.
Qed.

Lemma multi_requests_nonempty m ver size d i inputs : input_ok i ->
  multi_requests m ver size d (i :: inputs) <> [].
Proof.
  intros Hi E. unfold multi_requests in E. cbn [mbind list_bind] in E. apply app_eq_nil in E as [E _].
  apply fmap_nil_inv in E. by apply (pieces_nonempty pick cfg salts shuffle Hcfg) in E.
Qed.

Lemma two_pc_multi_free rec cl ver inputs : hosts_ok cfg cl -> 0 <= ver < 2 ^ 32 -> inputs <> [] ->
  NoDup (in_uuid <$> inputs) -> (forall i, i ∈ inputs -> writable rec cl i) ->
  exists cl', two_pc_multi pick cfg salts shuffle cl rec ver inputs
      = Some (cl', apply_actions (multi_actions (in_uuid <$> inputs) true) rec,
              multi_actions (in_uuid <$> inputs) true) /\
    hosts_ok cfg cl' /\ length cl' = length cl /\
    (forall i c, i ∈ inputs -> c ∈ pieces cfg i ->
       (file_view pick cfg cl' i.(in_uuid) c.(Stripe.blockid)).(contents)
       = Some (overlay (Z.to_nat c.(offset)) (piece i.(in_data) c)
           (default [] (file_view pick cfg cl i.(in_uuid) c.(Stripe.blockid)).(contents)))) /\
    (forall uuid b, length uuid = key_size -> 0 <= b < 2 ^ 32 ->
       (forall i, i ∈ inputs -> uuid = i.(in_uuid) -> b ∉ (Stripe.blockid <$> pieces cfg i)) ->
       file_view pick cfg cl' uuid b = file_view pick cfg cl uuid b).
Proof.
  intros Hok Hv Hne Hn Hw. unfold two_pc_multi. rewrite (prepare_requests_multi_eq rec ver inputs cl Hw).
  cbn [mbind option_bind]. set (reqs := multi_requests _ _ _ _ inputs).
  pose proof (ok_shuffle _ _ _ _ Hcfg _ reqs) as Hp.
  assert (forall i, i ∈ inputs -> batch_ok cfg (prepare_msg rec i) ver i blockwritesize (piece i.(in_data))) as Hb1.
  { intros i Hi. destruct (Hw i Hi). by apply (prepare_batch_ok pick cfg salts shuffle Hcfg). }
  destruct (multi_batch (prepare_msg rec) ver blockwritesize (fun i => piece i.(in_data)) inputs Hb1)
    with (cl := cl) (reqs := shuffle _ reqs) as (cl1 & E1 & Hok1 & Hl1 & Hv1 & Hf1); [|done|done|done|].
  { intros i _. unfold prepare_msg. by case_match. }
  rewrite E1. cbn [mbind option_bind].
  set (resps := (fun r => answer r.2 (target_view cl r)) <$> shuffle _ reqs).
  set (types := (fun p => p.(header).(type)) <$> resps).
  assert (length reqs = length types) as -> by (unfold types, resps; by rewrite !length_fmap, Hp).
  assert (forallb agreed types = true) as Hagr.
  { apply forallb_forall. intros t Ht%list_elem_of_In. unfold types, resps in Ht.
    rewrite <- list_fmap_compose in Ht. apply list_elem_of_fmap in Ht as (r & -> & Hr).
    rewrite Hp in Hr. apply multi_elem in Hr as (i & c & Hi & Hc & ->). cbn [compose].
    rewrite (proj1 (answer_type pick cfg salts cl _ _ _ _ _ c _ _ _ (Hb1 i Hi) Hc
      (prepare_step pick cfg rec cl i c ver (wr_free _ _ _ (Hw i Hi)) Hc))). done. }
  assert (types <> []) as Hnil.
  { intros E%fmap_nil_inv. apply fmap_nil_inv in E. rewrite E in Hp. apply Permutation_nil_l in Hp. symmetry in Hp.
    destruct inputs as [|i rest]; [done|]. apply (multi_requests_nonempty _ _ _ _ i rest) in Hp; [done|].
    apply (wr_input rec cl). apply Hw. left. }
  rewrite phase_run_app, phase_run_sends. cbn [phase_init outstanding_requests all_ssbd_agree].
  rewrite Z.add_0_l, prepare_responses_multi, Hagr by done. cbn [andb]. cbv zeta. rewrite app_nil_l. cbn [snd].
  rewrite commits_multi.
  assert (forall i, i ∈ inputs -> input_ok i) as Hii by (intros i Hi; apply (wr_input rec cl), Hw, Hi).
  rewrite (commit_requests_multi_eq true ver inputs Hii).
  destruct (multi_batch (fun _ => commit_msg true) ver (fun _ => 0) (fun _ _ => []) inputs)
    with (cl := cl1) (reqs := shuffle _ (multi_requests (fun _ => commit_msg true) ver (fun _ => 0)
      (fun _ _ => []) inputs)) as (cl2 & E2 & Hok2 & Hl2 & Hv2 & Hf2);
    [|done|done|done|apply (ok_shuffle _ _ _ _ Hcfg)|].
  { intros i Hi. apply commit_batch_ok; [by apply Hii|done]. }
  rewrite E2. cbn [mbind option_bind]. exists cl2.
  split; [done|]. split; [done|]. split; [congruence|]. split.
  - intros i c Hi Hc. rewrite Hv2, Hv1 by done.
    by rewrite (prepare_step pick cfg rec cl i c ver (wr_free _ _ _ (Hw i Hi)) Hc).
  - intros uuid b Hu Hbb Hnot. by rewrite Hf2, Hf1.
Qed.

End multi_facts.

(** ** A metadata operation, from the directory read to the last commit *)
Section operations.
Context {D : Type} `{KVStore D}.
Variable pick : bytes -> Z -> Z -> Z.
Variable cfg : config.
Variable salts : Z -> bytes.
Variable shuffle : forall A : Type, list A -> list A.
Variable now_time_t : Z.
Variable format_time : Z -> bytes.
Variables salt sequence uninitialised : bytes.

(** [start_read] on a packet the operation made, up to the one invocation of its
    callback. *)
Definition read_packet (cl : cluster D) (p : pack.packet) : option (cluster D * bytes) :=
  i ← parse_input p;
  '(cl, outs) ← start_read pick cfg salts shuffle cl i;
  match outs with [content] => Some (cl, content) | _ => None end.

(** The operation started with a read size, and again with a larger one when its
    continuation asks for it.  Without an answer the result is [None] in second
    position. *)
Fixpoint run_reads (fuel : nat) (cl : cluster D) (op : Z -> start) (readsize : Z)
    : option (cluster D * option outcome) :=
  match fuel with
  | O => None
  | S fuel =>
      match op readsize with
      | ReadThen p k =>
          '(cl, content) ← read_packet cl p;
          o ← k content;
          match o with
          | Reread readsize => run_reads fuel cl op readsize
          | _ => Some (cl, Some o)
          end
      | ReadReply p => '(cl, content) ← read_packet cl p; Some (cl, Some (Done None content))
      | Now o => Some (cl, Some o)
      | Nothing => Some (cl, None)
      end
  end.

(** What follows the continuation: an answer, or a two-phase commit and its answers. *)
Definition finish (cl : cluster D) (rec : recoder) (selected_version : Z) (o : outcome)
    : option (cluster D * recoder * list bytes) :=
  match o with
  | Done erased reply =>
      Some (cl, match erased with Some u => (erase_checked u rec).1 | None => rec end, [reply])
  | Prepare p =>
      i ← parse_input p;
      '(cl, rec, acts) ← two_pc pick cfg salts shuffle cl rec selected_version i;
      Some (cl, rec, replies acts)
  | PrepareMulti ps =>
      inputs ← mapM parse_input ps;
      '(cl, rec, acts) ← two_pc_multi pick cfg salts shuffle cl rec selected_version inputs;
      Some (cl, rec, replies acts)
  | Reread _ | RenameParts _ _ _ => None
  end.

(** The parts of a rename: their reads, and the join of what they answer.  Part 2 may
    read twice; when there is no directory its version is asked for anew. *)
Fixpoint run_part_2 (fuel : nat) (cl : cluster D) (rec : recoder) (i : input) (filemeta : meta.filemeta_server)
    (new_file_name : bytes) (readsize : Z)
    : option (cluster D * recoder * (rename_sub_operation_t * option pack.packet)) :=
  match fuel with
  | O => None
  | S fuel =>
      '(cl, content) ← read_packet cl (dir_read_packet salt sequence i.(in_uuid) readsize);
      p ← rename_part_2_continue salt sequence i filemeta new_file_name content;
      match p with
      | Part op pack => Some (cl, rec, (op, pack))
      | PartNoDirectory uuid => Some (cl, (erase_checked uuid rec).1, (directory_not_found, None))
      | PartReread readsize => run_part_2 fuel cl rec i filemeta new_file_name readsize
      end
  end.

Definition run_part_3 (cl : cluster D) (i : input) (new_file_key : bytes) (readsize : Z)
    : option (cluster D * (rename_sub_operation_t * option pack.packet)) :=
  '(cl, buf) ← read_packet cl (internal_packet salt sequence i.(in_key) read 0 readsize []);
  match rename_part_3_continue salt sequence new_file_key buf with
  | Part op pack => Some (cl, (op, pack))
  | PartNoDirectory _ | PartReread _ => None
  end.

Definition run_rename_parts (cl : cluster D) (rec : recoder) (i : input) (info : meta.rename_info) (ptr1 : pack.packet)
    (filemeta : meta.filemeta_server) (same_parent_dir : bool) : option (cluster D * recoder * list outcome) :=
  '(cl, rec, part2) ← (if same_parent_dir then Some (cl, rec, [])
                       else '(cl, rec, a) ← run_part_2 2 cl rec i filemeta (until_nul info.(meta.new_file_name))
                                              default_readsize; Some (cl, rec, [a]));
  '(cl, part3) ← run_part_3 cl i info.(meta.new_file_key) (rename_part_3_size filemeta);
  let parts := shuffle _ (part2 ++ [part3]) in
  Some (cl, rec, (rename_join_run ptr1 same_parent_dir (join_init same_parent_dir) parts).2).

(** The metadata operations as functions of the read size. *)
Definition meta_start (op : meta_operation_t) (i : input) (readsize : Z) : option start :=
  match op with
  | addfile => Some (start_meta_add_file now_time_t salt sequence i readsize)
  | init => Some (Now (start_meta_init salt sequence uninitialised i))
  | mkdir => Some (start_meta_mkdir now_time_t salt sequence uninitialised i readsize)
  | ls => Some (start_meta_ls format_time salt sequence i readsize)
  | deletefile => Some (start_meta_delete_file salt sequence i readsize)
  | rename_sameproxy => start_meta_rename_file salt sequence i readsize
  | getstatfile => Some (start_meta_get_stat format_time salt sequence i false readsize)
  | getstatdir => Some (start_meta_get_stat format_time salt sequence i true readsize)
  | open => Some (start_meta_open_file salt sequence i readsize)
  | addfile_write =>
      Some (start_create_and_write_file_single_request now_time_t salt sequence i readsize)
  | Request.close => Some Nothing
  end.

(** The whole operation; two reads are enough for a directory (see below). *)
Definition metadata_operation (cl : cluster D) (rec : recoder) (selected_version : Z)
    (op : meta_operation_t) (i : input) : option (cluster D * recoder * list bytes) :=
  _ ← meta_start op i default_readsize;
  '(cl, o) ← run_reads 2 cl (fun n => default Nothing (meta_start op i n)) default_readsize;
  match o with
  | None => Some (cl, rec, [])
  | Some (RenameParts ptr1 filemeta same) =>
      info ← meta.load_rename_info i.(in_data);
      '(cl, rec, os) ← run_rename_parts cl rec i info ptr1 filemeta same;
      match os with
      | [o] => finish cl rec selected_version o
      | _ => None
      end
  | Some o => finish cl rec selected_version o
  end.

(** A file operation. *)
Definition file_operation (cl : cluster D) (rec : recoder) (selected_version : Z)
    (op : operation_t) (i : input) : option (cluster D * recoder * list bytes) :=
  '(cl, o) ← run_reads 2 cl
    (fun n => match op with
              | write => start_write now_time_t salt sequence cfg.(cfg_blocksize) i n
              | read => start_read_file salt sequence i
              end) default_readsize;
  match o with
  | None => Some (cl, rec, [])
  | Some o => finish cl rec selected_version o
  end.

(** They start as [start_perform] and [start_perform_metadata] dispatch. *)
Lemma meta_start_dispatch op i :
  start_perform_metadata now_time_t format_time salt sequence uninitialised (meta_operation_code op) i
  = meta_start op i default_readsize.
Proof. unfold start_perform_metadata. rewrite meta_operation_of_code_code. by destruct op. Qed.

End operations.

Section operation_facts.
Context {D : Type} `{KVLaws D}.
Variable pick : bytes -> Z -> Z -> Z.
Variable cfg : config.
Variable salts : Z -> bytes.
Variable shuffle : forall A : Type, list A -> list A.
Hypothesis Hcfg : config_ok pick cfg salts shuffle.
Variables salt sequence : bytes.
Implicit Types (cl : cluster D).

Let bs := cfg.(cfg_blocksize).

(** A file that holds a directory. *)
Record dir_stored (f : sfile) (reserved : bytes) (es : list meta.filemeta_server) : Prop := {
  ds_reserved : length reserved = 60%nat;
  ds_entries : Forall meta.wf_filemeta_server es;
  ds_count : Z.of_nat (length es) < 2 ^ 25;
  ds_bytes : forall j, 0 <= j < Z.of_nat (length (encode_dir reserved es)) ->
    byte_at bs f j = encode_dir reserved es !! Z.to_nat j
}.

(** Clusters that show every file alike. *)
Definition same_files cl cl' : Prop :=
  forall uuid b, length uuid = key_size -> 0 <= b < 2 ^ 32 ->
    file_view pick cfg cl' uuid b = file_view pick cfg cl uuid b.

Lemma same_files_refl cl : same_files cl cl.
Proof. done. Qed.
Lemma same_files_trans cl1 cl2 cl3 : same_files cl1 cl2 -> same_files cl2 cl3 -> same_files cl1 cl3.
Proof. intros H1 H2 uuid b Hu Hb. by rewrite H2, H1. Qed.

Lemma same_files_of cl cl' uuid b : same_files cl cl' -> length uuid = key_size ->
  file_of pick cfg cl' uuid b = file_of pick cfg cl uuid b.
Proof. intros Hs Hu. unfold file_of. case_decide; [|done]. by rewrite Hs. Qed.

Lemma byte_at_ext f f' j : (forall b, f' b = f b) -> byte_at bs f' j = byte_at bs f j.
Proof. intros E. unfold byte_at. by rewrite E. Qed.

Lemma dir_stored_ext f f' reserved es : (forall b, f' b = f b) -> dir_stored f reserved es ->
  dir_stored f' reserved es.
Proof. intros E []. split; [done..|]. intros j Hj. rewrite (byte_at_ext f) by done. auto. Qed.

(** *** Reading from the head of a file *)

Lemma read_packet_head cl key n : hosts_ok cfg cl -> length key = key_size -> 0 < n < 2 ^ 32 ->
  exists cl', read_packet pick cfg salts shuffle cl (dir_read_packet salt sequence key n)
      = Some (cl', read_file bs (file_of pick cfg cl key) 0 n) /\
    hosts_ok cfg cl' /\ same_files cl cl'.
Proof.
  intros Hok Hk Hn. unfold read_packet, dir_read_packet.
  rewrite parse_internal_packet by (done || lia). cbn [mbind option_bind].
  set (i := mk_input key 0 n [] _ []).
  assert (input_ok i) as Hi by (split; cbn; (done || lia)).
  destruct (start_read_spec pick cfg salts shuffle Hcfg cl i Hok Hi) as (cl' & -> & Hok' & Hs).
  - intros c x Hc _. pose proof (pieces_tiles pick cfg salts shuffle Hcfg i Hi) as Ht.
    rewrite (tiles_aligned bs (bs_ok pick cfg salts shuffle Hcfg) _ _ _ _ c Ht); [lia|done|done].
  - exists cl'. done.
Qed.

(** The opening of a continuation on the head of a directory that is longer. *)
Lemma with_stat_short reserved es n erased k : length reserved = 60%nat ->
  Forall meta.wf_filemeta_server es -> Z.of_nat (length es) < 2 ^ 25 -> 64 <= n ->
  n < Z.of_nat (length (encode_dir reserved es)) ->
  with_stat erased (take (Z.to_nat n) (encode_dir reserved es)) k
  = Some (Reread (64 * (1 + Z.of_nat (length es)))).
Proof.
  intros Hr Hes Hc Hn Hlt. pose proof (length_encode_dir reserved es Hr Hes) as Hl.
  unfold with_stat. rewrite decide_False by (rewrite length_take; lia).
  unfold encode_dir, dir_blocks. cbn [concat].
  rewrite take_app_ge by (rewrite length_stats_block; lia).
  pose proof (load_store_stats (meta.mk_stats (Z.of_nat (length es)) reserved)
    (take (Z.to_nat n - length (stats_block (Z.of_nat (length es)) reserved)) (concat (net_entry <$> es)))) as Hst.
  cbn [meta.file_count meta.reserved] in Hst. specialize (Hst ltac:(lia) Hr).
  fold (stats_block (Z.of_nat (length es)) reserved) in Hst.
  destruct (meta.load_stats _) as [st|]; [|done].
  cbn [fmap option_fmap option_map] in Hst. apply (inj Some) in Hst.
  cbn [mbind option_bind]. cbv zeta. rewrite Hst. cbn [meta.file_count]. rewrite dir_size_small by lia.
  destruct (Z.gtb_spec (64 * (Z.of_nat (length es) + 1))
    (Z.of_nat (length (stats_block (Z.of_nat (length es)) reserved ++
       take (Z.to_nat n - length (stats_block (Z.of_nat (length es)) reserved)) (concat (net_entry <$> es))))))
    as [_|Hge].
  - do 2 f_equal. rewrite u32_small by lia. lia.
  - rewrite length_app, length_take, length_stats_block in Hge by done. lia.
Qed.

(** Reading a directory: at most two reads, whatever its size, and the continuation
    runs on a buffer that holds it. *)
Lemma run_reads_dir cl key reserved es op erased kk o : hosts_ok cfg cl -> length key = key_size ->
  dir_stored (file_of pick cfg cl key) reserved es ->
  (forall n, op n = ReadThen (dir_read_packet salt sequence key n)
                      (fun content => with_stat erased content (kk content))) ->
  (forall content, dir_content content reserved es -> with_stat erased content (kk content) = Some o) ->
  (forall n, o <> Reread n) ->
  exists cl', run_reads pick cfg salts shuffle 2 cl op default_readsize = Some (cl', Some o) /\
    hosts_ok cfg cl' /\ same_files cl cl'.
Proof.
  intros Hok Hk Hd Hop Ho Hre. pose proof (bs_ok pick cfg salts shuffle Hcfg) as Hbs.
  assert (forall fuel cl1 n, hosts_ok cfg cl1 -> same_files cl cl1 -> 0 < n < 2 ^ 32 ->
    Z.of_nat (length (encode_dir reserved es)) <= n ->
    exists cl', run_reads pick cfg salts shuffle (S fuel) cl1 op n = Some (cl', Some o) /\
      hosts_ok cfg cl' /\ same_files cl cl') as Hlong.
  { intros fuel cl1 n Hok1 Hs1 Hn Hle. cbn [run_reads]. rewrite Hop.
    destruct (read_packet_head cl1 key n Hok1 Hk Hn) as (cl2 & -> & Hok2 & Hs2). cbn [mbind option_bind].
    exists cl2. split; [|split; [done|by eapply same_files_trans]].
    destruct Hd as [Hr Hes Hc Hby].
    pose proof (read_file_holding bs Hbs (file_of pick cfg cl1 key) (encode_dir reserved es)) as Hread.
    specialize (Hread ltac:(intros j Hj; rewrite (byte_at_ext (file_of pick cfg cl key));
      [by apply Hby|intros b; by apply same_files_of]) n ltac:(lia)).
    rewrite decide_True in Hread by done. destruct Hread as [junk ->].
    rewrite Ho by (by apply dir_content_encode). cbn [mbind option_bind].
    destruct o; try done. by destruct (Hre readsize). }
  pose proof Hd as [Hr Hes Hc Hby]. pose proof (length_encode_dir reserved es Hr Hes) as Hl.
  destruct (decide (Z.of_nat (length (encode_dir reserved es)) <= default_readsize)) as [Hle|Hgt].
  { by apply (Hlong 1%nat). }
  remember 1%nat as fuel eqn:Ef. cbn [run_reads]. rewrite Hop.
  destruct (read_packet_head cl key default_readsize Hok Hk ltac:(done)) as (cl1 & -> & Hok1 & Hs1).
  cbn [mbind option_bind].
  pose proof (read_file_holding bs Hbs (file_of pick cfg cl key) (encode_dir reserved es) Hby
    default_readsize ltac:(done)) as Hread.
  rewrite decide_False in Hread by done. rewrite Hread.
  unfold default_readsize in Hgt. rewrite with_stat_short by (done || lia || (unfold default_readsize; lia)).
  cbn [mbind option_bind]. subst fuel. apply Hlong; [done|done|lia|lia].
Qed.

(** *** Writing whole files *)

(** The parser of a packet that writes [content] at the head of file [key]. *)
Definition write_input (key content : bytes) : input :=
  mk_input key 0 (Z.of_nat (length content)) [] (replicate key_length x00) content.

Lemma parse_write_packet key content : Z.of_nat (length content) < 2 ^ 32 ->
  parse_input (write_packet salt sequence key content) = Some (write_input key content).
Proof.
  intros Hl. unfold write_packet. rewrite u32_small by lia.
  by rewrite parse_internal_packet by lia.
Qed.

(** [cl'] has the file [key] of [cl] overwritten from its head. *)
Definition head_written cl cl' (key content : bytes) : Prop :=
  forall b, file_of pick cfg cl' key b = write_file bs (file_of pick cfg cl key) 0 content b.

Lemma head_written_stored cl cl' key reserved es : head_written cl cl' key (encode_dir reserved es) ->
  length reserved = 60%nat -> Forall meta.wf_filemeta_server es -> Z.of_nat (length es) < 2 ^ 25 ->
  dir_stored (file_of pick cfg cl' key) reserved es.
Proof.
  intros Hw Hr Hes Hc. pose proof (length_encode_dir reserved es Hr Hes) as Hl. split; [done..|].
  intros j Hj. rewrite (byte_at_ext _ _ j Hw).
  rewrite (write_file_byte_at bs (bs_ok pick cfg salts shuffle Hcfg)) by lia.
  rewrite decide_True by lia. f_equal. lia.
Qed.

Lemma free_same rec cl cl' i : same_files cl cl' -> input_ok i -> free pick cfg rec cl i ->
  free pick cfg rec cl' i.
Proof.
  intros Hs Hi [Hch|Hf]; [by left|]. right. intros c Hc.
  pose proof (piece_range pick cfg salts shuffle Hcfg i c Hi Hc). rewrite Hs; [by apply Hf|apply Hi|lia].
Qed.

Lemma finish_prepare cl rec ver key content : hosts_ok cfg cl -> 0 <= ver < 2 ^ 32 ->
  length key = key_size -> 0 < Z.of_nat (length content) < 2 ^ 32 ->
  free pick cfg rec cl (write_input key content) ->
  exists cl', finish pick cfg salts shuffle cl rec ver (Prepare (write_packet salt sequence key content))
      = Some (cl', mark_checked key rec, [msg_ok]) /\
    hosts_ok cfg cl' /\ head_written cl cl' key content /\
    (forall uuid b, length uuid = key_size -> uuid <> key ->
       file_of pick cfg cl' uuid b = file_of pick cfg cl uuid b).
Proof.
  intros Hok Hv Hk Hl Hfree. cbn [finish]. rewrite parse_write_packet by lia. cbn [mbind option_bind].
  set (i := write_input key content) in *.
  assert (input_ok i) as Hi by (split; cbn; (done || lia)).
  destruct (two_pc_free pick cfg salts shuffle Hcfg rec cl ver i Hok Hi Hv) as (cl' & -> & Hok' & _ & Hw & Hf);
    [cbn; lia|done|].
  cbn [mbind option_bind]. exists cl'. split; [done|]. split; [done|]. split.
  - intros b. rewrite (file_of_write pick cfg salts shuffle Hcfg cl i cl' Hi).
    + cbn [i write_input in_uuid in_position in_size in_data]. by rewrite take_ge by lia.
    + cbn. lia.
    + intros c Hc. by rewrite Hw.
    + intros b' Hb' Hnb. apply Hf; [done|done|by right].
  - intros uuid b Hu Hne. unfold file_of. case_decide; [|done]. rewrite Hf; [done|done|done|by left].
Qed.

Lemma apply_multi_actions uuids rec : apply_actions (multi_actions uuids true) rec
  = foldl (fun r u => mark_checked u r) rec uuids.
Proof.
  unfold apply_actions, multi_actions. cbn [app foldl apply_action]. rewrite !foldl_app.
  cbn [foldl apply_action]. revert rec. induction uuids as [|u uuids IH]; intros rec; [done|]. apply IH.
Qed.

(** Several whole files in one commit. *)
Lemma finish_multi cl rec ver (files : list (bytes * bytes)) : hosts_ok cfg cl -> 0 <= ver < 2 ^ 32 ->
  files <> [] -> NoDup files.*1 ->
  (forall key content, (key, content) ∈ files -> length key = key_size /\
     0 < Z.of_nat (length content) < 2 ^ 32 /\ free pick cfg rec cl (write_input key content)) ->
  exists cl', finish pick cfg salts shuffle cl rec ver
        (PrepareMulti ((fun kc => write_packet salt sequence kc.1 kc.2) <$> files))
      = Some (cl', foldl (fun r u => mark_checked u r) rec files.*1, [msg_ok]) /\
    hosts_ok cfg cl' /\
    (forall key content, (key, content) ∈ files -> head_written cl cl' key content) /\
    (forall uuid b, length uuid = key_size -> uuid ∉ files.*1 ->
       file_of pick cfg cl' uuid b = file_of pick cfg cl uuid b).
Proof.
  intros Hok Hv Hne Hn Hf. cbn [finish].
  set (inputs := (fun kc => write_input kc.1 kc.2) <$> files).
  assert (mapM parse_input ((fun kc => write_packet salt sequence kc.1 kc.2) <$> files) = Some inputs) as ->.
  { apply mapM_Some_2, Forall2_fmap_l, Forall2_fmap_r, Forall_Forall2_diag, Forall_forall.
    intros [k c] Hin. destruct (Hf k c Hin) as (_ & Hl & _). apply parse_write_packet. cbn [fst snd]. lia. }
  cbn [mbind option_bind].
  assert (in_uuid <$> inputs = files.*1) as Euu by (unfold inputs; by rewrite <- list_fmap_compose).
  assert (forall i, i ∈ inputs -> writable pick cfg rec cl i) as Hw.
  { intros i ([k c] & -> & Hin)%list_elem_of_fmap. destruct (Hf k c Hin) as (Hk & Hl & Hfr).
    split; cbn [fst snd]; [split; cbn; (done || lia)|cbn; lia|done]. }
  destruct (two_pc_multi_free pick cfg salts shuffle Hcfg rec cl ver inputs Hok Hv) as (cl' & E & Hok' & _ & Hw' & Hf').
  { unfold inputs. by destruct files. }
  { by rewrite Euu. }
  { done. }
  rewrite E. cbn [mbind option_bind]. exists cl'. rewrite Euu, replies_multi, apply_multi_actions.
  split; [done|]. split; [done|]. split.
  - intros key content Hin. destruct (Hf key content Hin) as (Hk & Hl & _).
    set (i := write_input key content).
    assert (i ∈ inputs) as Hi by (apply (list_elem_of_fmap_2 (fun kc => write_input kc.1 kc.2) _ _ Hin)).
    intros b. rewrite (file_of_write pick cfg salts shuffle Hcfg cl i cl' (wr_input _ _ _ _ _ (Hw i Hi))).
    + cbn [i write_input in_uuid in_position in_size in_data]. by rewrite take_ge by lia.
    + apply (wr_data _ _ _ _ _ (Hw i Hi)).
    + intros c Hc. by apply Hw'.
    + intros b' Hb' Hnb. apply Hf'; [done|done|]. intros i' Hi' Eu.
      assert (i' = i) as ->; [|done].
      apply (NoDup_fmap_inj_elem in_uuid inputs); [by rewrite Euu|done|done|by symmetry].
  - intros uuid b Hu Hnot. unfold file_of. case_decide; [|done]. rewrite Hf'; [done|done|done|].
    intros i Hi Eu. exfalso. apply Hnot. rewrite <- Euu, Eu. by apply list_elem_of_fmap_2.
Qed.

End operation_facts.

(** ** Sessions of operations on one directory *)
Section sessions.
Context {D : Type} `{KVLaws D}.
Variable pick : bytes -> Z -> Z -> Z.
Variable cfg : config.
Variable salts : Z -> bytes.
Variable shuffle : forall A : Type, list A -> list A.
Variable format_time : Z -> bytes.
Variables salt sequence uninitialised : bytes.
Implicit Types (cl : cluster D).

(** One client request: when it comes, the version it is given, and what it asks. *)
Record step := mk_step {
  st_now : Z; st_version : Z; st_op : meta_operation_t; st_input : input
}.

Definition run_step cl (rec : recoder) (s : step) : option (cluster D * recoder * list bytes) :=
  metadata_operation pick cfg salts shuffle s.(st_now) format_time salt sequence uninitialised
    cl rec s.(st_version) s.(st_op) s.(st_input).

Fixpoint run_session cl (rec : recoder) (steps : list step) : option (cluster D * recoder * list bytes) :=
  match steps with
  | [] => Some (cl, rec, [])
  | s :: steps =>
      '(cl, rec, rs) ← run_step cl rec s;
      '(cl, rec, rs') ← run_session cl rec steps;
      Some (cl, rec, rs ++ rs')
  end.

(** What the directory promises: a map from names to entries. *)
Definition created_entry (s : step) : meta.filemeta_server :=
  let m := default (meta.mk_filemeta 0 0) (meta.filemeta_to_host <$> meta.load_filemeta s.(st_input).(in_data)) in
  fresh_entry s.(st_now) m.(meta.fm_owner) m.(meta.fm_permission) s.(st_input).(in_name).

Definition spec_step (m : gmap bytes meta.filemeta_server) (s : step)
    : gmap bytes meta.filemeta_server * bytes :=
  let name := s.(st_input).(in_name) in
  match s.(st_op), m !! name with
  | addfile, Some _ => (m, err_file_exists)
  | addfile, None => (<[name := created_entry s]> m, msg_ok)
  | deletefile, Some _ => (delete name m, msg_ok)
  | deletefile, None => (m, err_not_found)
  | _, Some _ => (m, msg_ok)
  | _, None => (m, err_not_found)
  end.

Fixpoint spec_session (m : gmap bytes meta.filemeta_server) (steps : list step)
    : gmap bytes meta.filemeta_server * list bytes :=
  match steps with
  | [] => (m, [])
  | s :: steps =>
      let '(m, r) := spec_step m s in
      let '(m, rs) := spec_session m steps in (m, r :: rs)
  end.

(** The requests of a session: [addfile], [deletefile] and [open] on directory [key]. *)
Record step_ok (key : bytes) (s : step) : Prop := {
  so_op : s.(st_op) = addfile \/ s.(st_op) = deletefile \/ s.(st_op) = open;
  so_key : s.(st_input).(in_uuid) = key;
  so_version : 0 <= s.(st_version) < 2 ^ 32;
  so_name : valid_name s.(st_input).(in_name);
  so_meta : s.(st_op) = addfile -> is_Some (meta.load_filemeta s.(st_input).(in_data))
}.

(** No write of the file is refused: this client was agreed last, or no block of it has
    a log pending. *)
Definition idle (rec : recoder) cl (key : bytes) : Prop :=
  is_checked key rec = true \/
  forall b, 0 <= b < 2 ^ 32 -> busy (touch (file_view pick cfg cl key b)) = false.

(** The servers keep, under [key], a directory of at most [n] entries with the map [m]. *)
Definition holds_map (rec : recoder) cl (key : bytes) (n : nat) (m : gmap bytes meta.filemeta_server) : Prop :=
  hosts_ok cfg cl /\ length key = key_size /\ idle rec cl key /\
  exists reserved es, dir_stored cfg (file_of pick cfg cl key) reserved es /\ NoDup (names es) /\
    dir_map es = m /\ (length es <= n)%nat.

Hypothesis Hcfg : config_ok pick cfg salts shuffle.

Lemma idle_same rec cl cl' key : same_files pick cfg cl cl' -> length key = key_size ->
  idle rec cl key -> idle rec cl' key.
Proof. intros Hs Hk [?|Hi]; [by left|]. right. intros b Hb. rewrite Hs by done. by apply Hi. Qed.

Lemma idle_free rec cl key content : idle rec cl key -> input_ok (write_input key content) ->
  free pick cfg rec cl (write_input key content).
Proof.
  intros [?|Hi] Hin; [by left|]. right. intros c Hc.
  pose proof (piece_range pick cfg salts shuffle Hcfg _ c Hin Hc). apply Hi. lia.
Qed.

Lemma idle_checked rec cl key : idle (mark_checked key rec) cl key.
Proof. left. unfold is_checked, mark_checked. apply bool_decide_eq_true_2. set_solver. Qed.

(** An operation that only answers. *)
Lemma answers_hold rec cl key n m cl1 reply ver : holds_map rec cl key n m -> hosts_ok cfg cl1 ->
  same_files pick cfg cl cl1 ->
  exists cl' rec', finish pick cfg salts shuffle cl1 rec ver (Done None reply) = Some (cl', rec', [reply]) /\
    holds_map rec' cl' key (S n) m.
Proof.
  intros (Hok & Hk & Hi & reserved & es & Hd & Hn & Hm & Hl) Hok1 Hs. exists cl1, rec. split; [done|].
  split; [done|]. split; [done|]. split; [by eapply idle_same|]. exists reserved, es.
  split; [|split; [done|split; [done|lia]]].
  eapply dir_stored_ext; [|done]. intros b. by apply (same_files_of pick cfg).
Qed.

(** An operation that writes the directory. *)
Lemma writes_hold rec cl key n m cl1 reserved es ver : holds_map rec cl key n m -> hosts_ok cfg cl1 ->
  same_files pick cfg cl cl1 -> 0 <= ver < 2 ^ 32 ->
  length reserved = 60%nat -> Forall meta.wf_filemeta_server es -> NoDup (names es) ->
  (length es <= S n)%nat -> Z.of_nat (S n) < 2 ^ 25 ->
  exists cl' rec', finish pick cfg salts shuffle cl1 rec ver
      (Prepare (write_packet salt sequence key (encode_dir reserved es))) = Some (cl', rec', [msg_ok]) /\
    holds_map rec' cl' key (S n) (dir_map es).
Proof.
  intros (Hok & Hk & Hi & _) Hok1 Hs Hv Hr Hwf Hn Hl Hb.
  pose proof (length_encode_dir reserved es Hr Hwf) as Hle.
  assert (input_ok (write_input key (encode_dir reserved es))) as Hin
    by (split; cbn [write_input in_uuid in_position in_size]; (done || lia)).
  destruct (finish_prepare pick cfg salts shuffle Hcfg salt sequence cl1 rec ver key (encode_dir reserved es))
    as (cl' & E & Hok' & Hw & _); [done|done|done|lia| |].
  { apply idle_free; [by eapply idle_same|done]. }
  exists cl', (mark_checked key rec). split; [done|]. split; [done|]. split; [done|].
  split; [apply idle_checked|]. exists reserved, es.
  split; [|done]. eapply (head_written_stored pick cfg salts shuffle Hcfg); try done. lia.
Qed.

(** An entry is appended, or one is taken out. *)
Lemma append_holds rec cl key n cl1 reserved es e ver : holds_map rec cl key n (dir_map es) -> hosts_ok cfg cl1 ->
  same_files pick cfg cl cl1 -> 0 <= ver < 2 ^ 32 -> length reserved = 60%nat -> Forall meta.wf_filemeta_server es ->
  NoDup (names es) -> (length es <= n)%nat -> Z.of_nat (S n) < 2 ^ 25 -> meta.wf_filemeta_server e -> entry_name e ∉ names es ->
  exists cl' rec', finish pick cfg salts shuffle cl1 rec ver
      (Prepare (write_packet salt sequence key (encode_dir reserved (es ++ [e])))) = Some (cl', rec', [msg_ok]) /\
    holds_map rec' cl' key (S n) (<[entry_name e := e]> (dir_map es)).
Proof.
  intros Hh Hok1 Hs Hv Hr Hwf Hu Hl Hn He El. pose proof (NoDup_names_snoc es e Hu El).
  rewrite <- dir_map_snoc by done. eapply writes_hold; try done; [|rewrite length_app; simpl; lia].
  apply Forall_app. split; [done|by apply Forall_singleton].
Qed.

Lemma remove_holds rec cl key n cl1 reserved es j e ver : holds_map rec cl key n (dir_map es) -> hosts_ok cfg cl1 ->
  same_files pick cfg cl cl1 -> 0 <= ver < 2 ^ 32 -> length reserved = 60%nat -> Forall meta.wf_filemeta_server es ->
  NoDup (names es) -> (length es <= n)%nat -> Z.of_nat (S n) < 2 ^ 25 -> es !! j = Some e ->
  exists cl' rec', finish pick cfg salts shuffle cl1 rec ver
      (Prepare (write_packet salt sequence key (encode_dir reserved (swap_remove j es)))) = Some (cl', rec', [msg_ok]) /\
    holds_map rec' cl' key (S n) (delete (entry_name e) (dir_map es)).
Proof.
  intros Hh Hok1 Hs Hv Hr Hwf Hu Hl Hn Ej. pose proof (lookup_lt_Some _ _ _ Ej) as Hj.
  rewrite <- (dir_map_swap_remove j es e) by done. pose proof (swap_remove_perm j es e Ej) as Hperm.
  eapply writes_hold; try done; [| |rewrite length_swap_remove by done; lia].
  - rewrite <- Hperm in Hwf. by apply Forall_cons in Hwf as [_ ?].
  - pose proof (names_swap_remove j es e Ej) as Hpn. rewrite <- Hpn in Hu. by apply NoDup_cons in Hu as [_ ?].
Qed.

Lemma run_step_spec rec cl key n m s : holds_map rec cl key n m -> step_ok key s -> Z.of_nat (S n) < 2 ^ 25 ->
  exists cl' rec', run_step cl rec s = Some (cl', rec', [(spec_step m s).2]) /\
    holds_map rec' cl' key (S n) (spec_step m s).1.
Proof.
  intros Hh [Hop Hkey Hver Hname Hmeta] Hn. pose proof Hh as (Hok & Hk & Hi & reserved & es & Hd & Hu & Hm & Hl).
  pose proof Hd as [Hr Hwf Hc _]. destruct s as [now ver op i]. cbn [st_now st_version st_op st_input] in *.
  subst key m.
  unfold run_step, metadata_operation, spec_step, created_entry. cbn [st_now st_version st_op st_input].
  rewrite (dir_map_lookup _ _ Hu).
  set (st := meta_start now format_time salt sequence uninitialised op i).
  assert (forall o, (exists erased kk, (forall n, default Nothing (st n)
      = ReadThen (dir_read_packet salt sequence (in_uuid i) n)
          (fun content => with_stat erased content (kk content))) /\
      forall content, dir_content content reserved es -> with_stat erased content (kk content) = Some o) ->
    (forall n, o <> Reread n) ->
    exists cl1, run_reads pick cfg salts shuffle 2 cl (fun n => default Nothing (st n)) default_readsize
      = Some (cl1, Some o) /\ hosts_ok cfg cl1 /\ same_files pick cfg cl cl1) as Hreads.
  { intros o (erased & kk & Hst & Ho') Hre. by eapply (run_reads_dir pick cfg salts shuffle Hcfg salt sequence). }
  assert (is_Some (st default_readsize)) as [? ->] by (by destruct Hop as [->|[->| ->]]).
  cbn [mbind option_bind]. destruct Hop as [->|[->| ->]].
  - destruct (Hmeta eq_refl) as [fm Hfm]. destruct (load_filemeta_range _ _ Hfm) as [Ho Hp]. rewrite Hfm.
    destruct (Hreads _ (ex_intro _ _ (ex_intro _ _ (conj (fun n => eq_refl)
      (fun content Hd => add_file_dir Hd now salt sequence i fm Hname Hfm))))) as (cl1 & -> & Hok1 & Hs1).
    { intros k. by destruct (lookup_name _ es) as [[]|]. }
    cbn [mbind option_bind].
    destruct (lookup_name (in_name i) es) as [[j e]|] eqn:El; cbn [fmap option_fmap option_map snd fst].
    + by apply answers_hold with (cl := cl).
    + apply lookup_name_None in El. cbn [default from_option id].
      set (e := fresh_entry now _ _ (in_name i)).
      assert (meta.wf_filemeta_server e) as He by (by apply wf_fresh_entry).
      assert (entry_name e = in_name i) as En by (by apply entry_name_fresh).
      rewrite <- En in El |- *. by eapply append_holds.
  - destruct (Hreads _ (ex_intro _ _ (ex_intro _ _ (conj (fun n => eq_refl)
      (fun content Hd => delete_file_dir Hd salt sequence i))))) as (cl1 & -> & Hok1 & Hs1).
    { intros k. by destruct (lookup_name _ es) as [[]|]. }
    cbn [mbind option_bind].
    destruct (lookup_name (in_name i) es) as [[j e]|] eqn:El; cbn [fmap option_fmap option_map snd fst].
    + apply lookup_name_Some in El as [Ej <-]. by eapply remove_holds.
    + by apply answers_hold with (cl := cl).
  - destruct (Hreads _ (ex_intro _ _ (ex_intro _ _ (conj (fun n => eq_refl)
      (fun content Hd => open_file_dir Hd i))))) as (cl1 & -> & Hok1 & Hs1).
    { intros k. by destruct (lookup_name _ es) as [[]|]. }
    cbn [mbind option_bind].
    destruct (lookup_name (in_name i) es) as [[j e]|]; cbn [fmap option_fmap option_map snd fst];
      by apply answers_hold with (cl := cl).
Qed.

(** [init] makes an empty directory, whatever the file held before. *)
Lemma run_init_spec rec cl key s : hosts_ok cfg cl -> length key = key_size -> idle rec cl key ->
  s.(st_op) = init -> s.(st_input).(in_uuid) = key -> 0 <= s.(st_version) < 2 ^ 32 ->
  length uninitialised = 60%nat ->
  exists cl', run_step cl rec s = Some (cl', mark_checked key rec, [msg_ok]) /\
    holds_map (mark_checked key rec) cl' key 0 ∅.
Proof.
  intros Hok Hk Hi Hop Hu Hv Hun. destruct s as [now ver op i]. cbn [st_now st_version st_op st_input] in *.
  subst op key. unfold run_step, metadata_operation. cbn [st_now st_version st_op st_input].
  cbn [meta_start mbind option_bind run_reads default from_option id]. unfold start_meta_init.
  rewrite init_packet_dir by done.
  pose proof (length_encode_dir uninitialised [] Hun ltac:(constructor)) as Hl. cbn [length] in Hl.
  assert (input_ok (write_input (in_uuid i) (encode_dir uninitialised []))) as Hin
    by (split; cbn [write_input in_uuid in_position in_size]; (done || lia)).
  destruct (finish_prepare pick cfg salts shuffle Hcfg salt sequence cl rec ver (in_uuid i)
    (encode_dir uninitialised [])) as (cl' & -> & Hok' & Hw & _); [done|done|done|lia|by apply idle_free|].
  exists cl'. split; [done|]. split; [done|]. split; [done|].
  split; [apply idle_checked|]. exists uninitialised, []. split; [|split; [constructor|done]].
  eapply (head_written_stored pick cfg salts shuffle Hcfg); try done.
Qed.

(** An operation that writes the directory and one other file. *)
Lemma writes_hold_two rec cl key n m cl1 reserved es key2 content2 ver : holds_map rec cl key n m ->
  hosts_ok cfg cl1 -> same_files pick cfg cl cl1 -> 0 <= ver < 2 ^ 32 ->
  length reserved = 60%nat -> Forall meta.wf_filemeta_server es -> NoDup (names es) ->
  (length es <= S n)%nat -> Z.of_nat (S n) < 2 ^ 25 ->
  key2 <> key -> length key2 = key_size -> idle rec cl key2 -> 0 < Z.of_nat (length content2) < 2 ^ 32 ->
  exists cl' rec', finish pick cfg salts shuffle cl1 rec ver
      (PrepareMulti [write_packet salt sequence key (encode_dir reserved es);
                     write_packet salt sequence key2 content2]) = Some (cl', rec', [msg_ok]) /\
    holds_map rec' cl' key (S n) (dir_map es) /\ head_written pick cfg cl1 cl' key2 content2 /\
    idle rec' cl' key2.
Proof.
  intros (Hok & Hk & Hi & _) Hok1 Hs Hv Hr Hwf Hn Hl Hb Hne Hk2 Hi2 Hl2.
  pose proof (length_encode_dir reserved es Hr Hwf) as Hle.
  destruct (finish_multi pick cfg salts shuffle Hcfg salt sequence cl1 rec ver
    [(key, encode_dir reserved es); (key2, content2)] Hok1 Hv) as (cl' & E & Hok' & Hw & _).
  { done. }
  { cbn [fmap list_fmap fst]. apply NoDup_cons. split; [|apply NoDup_singleton].
    intros E%list_elem_of_singleton. by symmetry in E. }
  { intros k c Hin. apply elem_of_cons in Hin as [[= -> ->]|Hin%list_elem_of_singleton]; [|simplify_eq].
    - split; [done|]. split; [lia|]. apply idle_free; [by eapply idle_same|].
      split; cbn [write_input in_uuid in_position in_size]; (done || lia).
    - split; [done|]. split; [lia|]. apply idle_free; [by eapply idle_same|].
      split; cbn [write_input in_uuid in_position in_size]; (done || lia). }
  exists cl'. eexists. split; [exact E|]. cbn [fmap list_fmap fst foldl].
  split; [|split; [apply Hw; right; left|apply idle_checked]].
  split; [done|]. split; [done|]. split.
  - left. unfold is_checked, mark_checked. apply bool_decide_eq_true_2. apply elem_of_union_r, elem_of_union_l. by apply elem_of_singleton.
  - exists reserved, es. split; [|done].
    eapply (head_written_stored pick cfg salts shuffle Hcfg); [apply Hw; left|done|done|lia].
Qed.

Lemma run_mkdir_spec rec cl key n m now ver i dm : holds_map rec cl key n m -> i.(in_uuid) = key ->
  0 <= ver < 2 ^ 32 -> valid_name i.(in_name) -> meta.load_dirmeta i.(in_data) = Some dm ->
  Z.of_nat (S n) < 2 ^ 25 -> i.(in_key) <> key -> length i.(in_key) = key_size -> idle rec cl i.(in_key) ->
  length uninitialised = 60%nat ->
  exists cl' rec' reply, run_step cl rec (mk_step now ver mkdir i) = Some (cl', rec', [reply]) /\
    match m !! i.(in_name) with
    | Some _ => reply = err_dir_exists /\ holds_map rec' cl' key (S n) m
    | None => reply = msg_ok /\
        holds_map rec' cl' key (S n)
          (<[i.(in_name) := fresh_entry now (meta.dirmeta_to_host dm).(meta.dm_owner)
                             (meta.dirmeta_to_host dm).(meta.dm_permission) i.(in_name)]> m) /\
        holds_map rec' cl' i.(in_key) 0 ∅
    end.
Proof.
  intros Hh Hkey Hver Hname Hdm Hn Hne Hk2 Hi2 Hun.
  pose proof Hh as (Hok & Hk & Hi & reserved & es & Hd & Hu & Hm & Hl).
  pose proof Hd as [Hr Hwf Hc _]. subst key m. destruct (load_dirmeta_range _ _ Hdm) as [Ho Hp].
  unfold run_step, metadata_operation. cbn [st_now st_version st_op st_input]. rewrite (dir_map_lookup _ _ Hu).
  set (st := meta_start now format_time salt sequence uninitialised mkdir i).
  destruct (run_reads_dir pick cfg salts shuffle Hcfg salt sequence cl (in_uuid i) reserved es
    (fun n => default Nothing (st n)) (in_uuid i) _ _ Hok Hk Hd (fun n => eq_refl)
    (fun content Hd => mkdir_dir Hd now salt sequence uninitialised i dm Hname Hdm)) as (cl1 & E1 & Hok1 & Hs1).
  { intros k. by destruct (lookup_name _ es) as [[]|]. }
  assert (is_Some (st default_readsize)) as [? ->] by done. cbn [mbind option_bind].
  rewrite E1. cbn [mbind option_bind]. rewrite init_packet_dir by done.
  destruct (lookup_name (in_name i) es) as [[j e]|] eqn:El; cbn [fmap option_fmap option_map snd fst].
  - destruct (answers_hold rec cl (in_uuid i) n (dir_map es) cl1 err_dir_exists ver Hh Hok1 Hs1)
      as (cl' & rec' & E & Hh'). by exists cl', rec', err_dir_exists.
  - apply lookup_name_None in El. set (e := fresh_entry now _ _ (in_name i)).
    assert (meta.wf_filemeta_server e) as He by (by apply wf_fresh_entry).
    assert (entry_name e = in_name i) as En by (by apply entry_name_fresh).
    rewrite <- En in El. pose proof (NoDup_names_snoc es e Hu El).
    assert (<[in_name i := e]> (dir_map es) = dir_map (es ++ [e])) as ->
      by (rewrite dir_map_snoc by done; by rewrite En).
    pose proof (length_encode_dir uninitialised [] Hun ltac:(constructor)) as Hle. cbn [length] in Hle.
    destruct (writes_hold_two rec cl (in_uuid i) n (dir_map es) cl1 reserved (es ++ [e]) (in_key i)
      (encode_dir uninitialised []) ver Hh Hok1 Hs1 Hver Hr) as (cl' & rec' & E & Hh' & Hw & Hi');
      [|done|rewrite length_app; simpl; lia|done..|lia|].
    { apply Forall_app. split; [done|by apply Forall_singleton]. }
    exists cl', rec', msg_ok. split; [done|]. split; [done|]. split; [done|].
    split; [apply Hh'|]. split; [done|]. split; [done|]. exists uninitialised, [].
    split; [|split; [constructor|done]].
    eapply (head_written_stored pick cfg salts shuffle Hcfg); [exact Hw|done|constructor|done].
Qed.

(** A write of a file, and a read of its head. *)
Definition written_data (i : input) : bytes := take (Z.to_nat i.(in_size)) i.(in_data).

Lemma run_write_spec rec cl key n m now ver i : holds_map rec cl key n m -> i.(in_uuid) = key ->
  0 <= ver < 2 ^ 32 -> 0 < i.(in_size) < 2 ^ 32 -> i.(in_size) <= Z.of_nat (length i.(in_data)) ->
  Z.of_nat (S n) < 2 ^ 25 -> i.(in_key) <> key -> length i.(in_key) = key_size -> idle rec cl i.(in_key) ->
  exists cl' rec', file_operation pick cfg salts shuffle now salt sequence cl rec ver write i
      = Some (cl', rec', [msg_ok]) /\
    holds_map rec' cl' key (S n)
      (alter (written_entry now cfg.(cfg_blocksize) i.(in_position) i.(in_size)) i.(in_name) m) /\
    (forall b, file_of pick cfg cl' i.(in_key) b
       = write_file cfg.(cfg_blocksize) (file_of pick cfg cl i.(in_key)) 0 (written_data i) b) /\
    idle rec' cl' i.(in_key).
Proof.
  intros Hh Hkey Hver Hs Hl Hn Hne Hk2 Hi2.
  pose proof Hh as (Hok & Hk & Hi & reserved & es & Hd & Hu & Hm & Hle).
  pose proof Hd as [Hr Hwf Hc _]. subst key m. unfold file_operation.
  destruct (run_reads_dir pick cfg salts shuffle Hcfg salt sequence cl (in_uuid i) reserved es
    (start_write now salt sequence cfg.(cfg_blocksize) i) (in_uuid i) _ _ Hok Hk Hd (fun n => eq_refl)
    (fun content Hd => write_dir Hd now salt sequence cfg.(cfg_blocksize) i ltac:(lia) Hl))
    as (cl1 & E1 & Hok1 & Hs1); [done|].
  change (fun n => start_write now salt sequence (cfg_blocksize cfg) i n)
    with (start_write now salt sequence (cfg_blocksize cfg) i). rewrite E1. cbn [mbind option_bind].
  assert (length (written_data i) = Z.to_nat (in_size i)) as Hld by (unfold written_data; rewrite length_take; lia).
  assert (internal_packet salt sequence (in_key i) write 0 (in_size i) (take (Z.to_nat (in_size i)) (in_data i))
    = write_packet salt sequence (in_key i) (written_data i)) as ->.
  { unfold write_packet. rewrite Hld, Z2Nat.id, u32_small by lia. done. }
  destruct (insert_found_map now cfg.(cfg_blocksize) i es Hu Hwf) as (Hn' & Hwf' & Hm').
  destruct (writes_hold_two rec cl (in_uuid i) n (dir_map es) cl1 reserved _ (in_key i) (written_data i) ver
    Hh Hok1 Hs1 Hver Hr Hwf' Hn') as (cl' & rec' & E & Hh' & Hw & Hi'); [|done..|lia|].
  { unfold insert_found. destruct (lookup_name _ _) as [[]|]; rewrite ?length_insert; lia. }
  exists cl', rec'. split; [done|]. split; [by rewrite <- Hm'|]. split; [|done].
  intros b. rewrite Hw. apply write_file_ext. intros b'. by apply (same_files_of pick cfg).
Qed.

Lemma run_read_spec rec cl now ver i n : hosts_ok cfg cl -> length i.(in_key) = key_size ->
  i.(in_position) = 0 -> i.(in_size) = n -> 0 < n < 2 ^ 32 ->
  exists cl', file_operation pick cfg salts shuffle now salt sequence cl rec ver read i
    = Some (cl', rec, [read_file cfg.(cfg_blocksize) (file_of pick cfg cl i.(in_key)) 0 n]).
Proof.
  intros Hok Hk Hp Hs Hn. unfold file_operation. cbn [run_reads]. unfold start_read_file. rewrite Hp, Hs.
  destruct (read_packet_head pick cfg salts shuffle Hcfg salt sequence cl (in_key i) n Hok Hk Hn) as (cl' & E & _).
  unfold dir_read_packet in E. rewrite E. by exists cl'.
Qed.

Lemma run_session_spec steps rec cl key n m : holds_map rec cl key n m -> Forall (step_ok key) steps ->
  Z.of_nat (n + length steps) < 2 ^ 25 ->
  exists cl' rec', run_session cl rec steps = Some (cl', rec', (spec_session m steps).2) /\
    holds_map rec' cl' key (n + length steps) (spec_session m steps).1.
Proof.
  revert rec cl n m. induction steps as [|s steps IH]; intros rec cl n m Hh Hst Hn.
  { exists cl, rec. cbn [run_session spec_session fst snd length]. by rewrite Nat.add_0_r. }
  apply Forall_cons in Hst as [Hs Hst]. cbn [length] in Hn.
  destruct (run_step_spec rec cl key n m s Hh Hs ltac:(lia)) as (cl1 & rec1 & E1 & Hh1).
  destruct (spec_step m s) as [m1 r1] eqn:Es. cbn [fst snd] in *.
  destruct (IH rec1 cl1 (S n) m1 Hh1 Hst ltac:(lia)) as (cl2 & rec2 & E2 & Hh2).
  exists cl2, rec2. cbn [run_session spec_session]. rewrite Es, E1. cbn [mbind option_bind].
  rewrite E2. cbn [mbind option_bind]. destruct (spec_session m1 steps) as [m2 rs]. cbn [fst snd] in *.
  split; [done|]. cbn [length]. by rewrite Nat.add_succ_r.
Qed.

End sessions.

(** C2. Any session of [addfile], [deletefile] and [open] requests on one directory,
    each served from the directory read through the last commit by striped two-phase
    commits over the servers, answers every request once and exactly as a map from
    names to entries would, for any placement, salts and order of delivery; the servers
    are left with a directory that stands for the map the session ends with.  No
    request runs out of its two reads. *)
Theorem session_refines_map {D} `{KVLaws D} pick cfg salts shuffle format_time salt sequence uninit
    (cl : cluster D) rec key n m steps
    (Hcfg : config_ok pick cfg salts shuffle) (Hm : holds_map pick cfg rec cl key n m)
    (Hs : Forall (step_ok key) steps) (Hn : Z.of_nat (n + length steps) < 2 ^ 25) :
  exists cl' rec',
    run_session pick cfg salts shuffle format_time salt sequence uninit cl rec steps
      = Some (cl', rec', (spec_session m steps).2) /\
    holds_map pick cfg rec' cl' key (n + length steps) (spec_session m steps).1.
Proof. by apply run_session_spec. Qed.

(** *** A concrete session *)
Definition fs_key : bytes := replicate 32 x61.
Definition fs_step (op : meta_operation_t) (name : byte) : step :=
  mk_step 1700000000 5 op (mk_input fs_key 0 4 [name] (replicate 32 x62) sample_meta).
Definition fs_session : list step :=
  [fs_step addfile x61; fs_step addfile x61; fs_step addfile x62; fs_step open x61;
   fs_step deletefile x61; fs_step open x61; fs_step open x62].

Lemma sample_idle rec key : idle sample_pick sample_cfg rec sample_cluster key.
Proof.
  right. intros b Hb. unfold touch, file_view, cluster_view.
  destruct (_ !! _) as [s|] eqn:E; [|done]. assert (s = empty_server) as ->; [|done].
  apply list_elem_of_lookup_2 in E. unfold sample_cluster in E.
  apply elem_of_cons in E as [->|E]; [done|]. by apply list_elem_of_singleton in E.
Qed.

Lemma fs_idle : idle sample_pick sample_cfg ∅ sample_cluster fs_key.
Proof. apply sample_idle. Qed.

Lemma fs_steps_ok : Forall (step_ok fs_key) fs_session.
Proof.
  assert (forall op name, op = addfile \/ op = deletefile \/ op = open -> name <> x00 ->
    step_ok fs_key (fs_step op name)) as Hok.
  { intros op name Hop Hn. split; cbn [fs_step st_op st_input st_version in_uuid in_name in_data];
      [done|done|lia|by apply valid_sample|by eexists]. }
  unfold fs_session. repeat (apply Forall_cons_2; [apply Hok; [auto|done]|]). apply Forall_nil_2.
Qed.

Lemma session_refines_map_witness : exists cl rec cl' rec',
  holds_map sample_pick sample_cfg rec cl fs_key 0 ∅ /\
  run_session sample_pick sample_cfg sample_salts sample_shuffle (fun _ => []) [] [] sample_reserved
    cl rec fs_session
  = Some (cl', rec', [msg_ok; err_file_exists; msg_ok; msg_ok; msg_ok; err_not_found; msg_ok]).
Proof.
  destruct (run_init_spec sample_pick sample_cfg sample_salts sample_shuffle (fun _ => []) [] []
    sample_reserved sample_config_ok ∅ sample_cluster fs_key (fs_step init x61) sample_hosts_ok eq_refl
    fs_idle eq_refl eq_refl ltac:(cbn [fs_step st_version]; lia) eq_refl) as (cl & _ & Hm). set (rec := mark_checked fs_key ∅) in Hm.
  destruct (session_refines_map sample_pick sample_cfg sample_salts sample_shuffle (fun _ => []) [] []
    sample_reserved cl rec fs_key 0 ∅ fs_session sample_config_ok Hm fs_steps_ok
    ltac:(cbn [fs_session length]; lia)) as (cl' & rec' & E & _).
  exists cl, rec, cl', rec'. split; [exact Hm|]. rewrite E. reflexivity.
Defined.

(** [mkdir] on the servers: answered once; when the name is taken nothing changes,
    otherwise one two-phase commit leaves the parent with the new entry and, under the
    new key, an empty directory ready for further operations. *)
Theorem mkdir_makes_directory {D} `{KVLaws D} pick cfg salts shuffle format_time salt sequence uninit
    (cl : cluster D) rec n m now ver i dm
    (Hcfg : config_ok pick cfg salts shuffle) (Hm : holds_map pick cfg rec cl i.(in_uuid) n m)
    (Hv : 0 <= ver < 2 ^ 32) (Hname : valid_name i.(in_name))
    (Hdm : meta.load_dirmeta i.(in_data) = Some dm) (Hn : Z.of_nat (S n) < 2 ^ 25)
    (Hne : i.(in_key) <> i.(in_uuid)) (Hk : length i.(in_key) = key_size)
    (Hidle : idle pick cfg rec cl i.(in_key)) (Hun : length uninit = 60%nat) :
  exists cl' rec' reply,
    run_step pick cfg salts shuffle format_time salt sequence uninit cl rec (mk_step now ver mkdir i)
      = Some (cl', rec', [reply]) /\
    match m !! i.(in_name) with
    | Some _ => reply = err_dir_exists /\ holds_map pick cfg rec' cl' i.(in_uuid) (S n) m
    | None => reply = msg_ok /\
        holds_map pick cfg rec' cl' i.(in_uuid) (S n)
          (<[i.(in_name) := fresh_entry now (meta.dirmeta_to_host dm).(meta.dm_owner)
                             (meta.dirmeta_to_host dm).(meta.dm_permission) i.(in_name)]> m) /\
        holds_map pick cfg rec' cl' i.(in_key) 0 ∅
    end.
Proof. by apply run_mkdir_spec. Qed.

Definition fs_mkdir : input := mk_input fs_key 0 4 [x64] (replicate 32 x62) sample_meta.

Lemma mkdir_makes_directory_witness : exists cl rec cl' rec' m,
  run_step sample_pick sample_cfg sample_salts sample_shuffle (fun _ => []) [] [] sample_reserved
    cl rec (mk_step 1700000000 5 mkdir fs_mkdir) = Some (cl', rec', [msg_ok]) /\
  holds_map sample_pick sample_cfg rec' cl' fs_key 1 m /\
  holds_map sample_pick sample_cfg rec' cl' (replicate 32 x62) 0 ∅.
Proof.
  set (rec0 := {[replicate 32 x62 : bytes]} : recoder).
  assert (idle sample_pick sample_cfg rec0 sample_cluster fs_key) as Hi.
  { destruct fs_idle as [?|Hi]; [done|by right]. }
  destruct (run_init_spec sample_pick sample_cfg sample_salts sample_shuffle (fun _ => []) [] []
    sample_reserved sample_config_ok rec0 sample_cluster fs_key (fs_step init x61) sample_hosts_ok eq_refl
    Hi eq_refl eq_refl ltac:(cbn [fs_step st_version]; lia) eq_refl) as (cl & _ & Hm).
  destruct (mkdir_makes_directory sample_pick sample_cfg sample_salts sample_shuffle (fun _ => []) [] []
    sample_reserved cl (mark_checked fs_key rec0) 0 ∅ 1700000000 5 fs_mkdir
    (meta.mk_dirmeta (hton 2 7) (hton 2 420)) sample_config_ok Hm) as (cl' & rec' & reply & E & Hr);
    [lia|by apply valid_sample|reflexivity|lia|discriminate|reflexivity| |reflexivity|].
  { left. vm_compute. reflexivity. }
  rewrite lookup_empty in Hr. destruct Hr as (-> & H1 & H2).
  exists cl, (mark_checked fs_key rec0), cl', rec'. eexists. split; [exact E|]. split; [exact H1|exact H2].
Defined.

(** C5. Writing a file on the servers: one two-phase commit, answered OK once, leaves
    the directory with the entry of the name updated - if there is one - and the file
    with the buffer at its head; a read of as many bytes from position 0 then returns
    the buffer. *)
Theorem file_write_then_read {D} `{KVLaws D} pick cfg salts shuffle salt sequence
    (cl : cluster D) rec n m now ver i j
    (Hcfg : config_ok pick cfg salts shuffle) (Hm : holds_map pick cfg rec cl i.(in_uuid) n m)
    (Hv : 0 <= ver < 2 ^ 32) (Hs : 0 < i.(in_size) < 2 ^ 32)
    (Hl : i.(in_size) <= Z.of_nat (length i.(in_data))) (Hn : Z.of_nat (S n) < 2 ^ 25)
    (Hne : i.(in_key) <> i.(in_uuid)) (Hk : length i.(in_key) = key_size)
    (Hidle : idle pick cfg rec cl i.(in_key))
    (Hj : j.(in_key) = i.(in_key) /\ j.(in_position) = 0 /\ j.(in_size) = i.(in_size)) :
  exists cl' rec' cl'',
    file_operation pick cfg salts shuffle now salt sequence cl rec ver write i = Some (cl', rec', [msg_ok]) /\
    holds_map pick cfg rec' cl' i.(in_uuid) (S n)
      (alter (written_entry now cfg.(cfg_blocksize) i.(in_position) i.(in_size)) i.(in_name) m) /\
    file_operation pick cfg salts shuffle now salt sequence cl' rec' ver read j
      = Some (cl'', rec', [take (Z.to_nat i.(in_size)) i.(in_data)]).
Proof.
  destruct (run_write_spec pick cfg salts shuffle salt sequence Hcfg rec cl (in_uuid i) n m now ver i Hm eq_refl
    Hv Hs Hl Hn Hne Hk Hidle) as (cl' & rec' & E & Hm' & Hw & _).
  destruct Hj as (Hjk & Hjp & Hjs).
  destruct (run_read_spec pick cfg salts shuffle salt sequence Hcfg rec' cl' now ver j (in_size i))
    as (cl'' & E'); [apply Hm'|by rewrite Hjk|done|done|done|].
  exists cl', rec', cl''. split; [done|]. split; [done|]. rewrite E', Hjk. do 3 f_equal.
  assert (length (written_data i) = Z.to_nat (in_size i)) as Hld by (unfold written_data; rewrite length_take; lia).
  rewrite (read_file_ext _ _ _ _ _ Hw). fold (written_data i).
  assert (in_size i = Z.of_nat (length (written_data i))) as -> by lia.
  apply read_write_file; [apply (bs_ok pick cfg salts shuffle Hcfg)|done|lia].
Qed.

Definition fs_write : input := mk_input fs_key 7 2 [x64] (replicate 32 x62) [x68; x69].
Definition fs_read : input := mk_input fs_key 0 2 [x64] (replicate 32 x62) [].

(** The write names position 7; its bytes are read back from position 0. *)
Lemma file_write_then_read_witness : exists cl rec cl' rec' cl'',
  file_operation sample_pick sample_cfg sample_salts sample_shuffle 1700000000 [] [] cl rec 5 write fs_write
    = Some (cl', rec', [msg_ok]) /\
  file_operation sample_pick sample_cfg sample_salts sample_shuffle 1700000000 [] [] cl' rec' 5 read fs_read
    = Some (cl'', rec', [[x68; x69]]).
Proof.
  set (rec0 := {[replicate 32 x62 : bytes]} : recoder).
  assert (idle sample_pick sample_cfg rec0 sample_cluster fs_key) as Hi.
  { destruct fs_idle as [?|Hi]; [done|by right]. }
  destruct (run_init_spec sample_pick sample_cfg sample_salts sample_shuffle (fun _ => []) [] []
    sample_reserved sample_config_ok rec0 sample_cluster fs_key (fs_step init x61) sample_hosts_ok eq_refl
    Hi eq_refl eq_refl ltac:(cbn [fs_step st_version]; lia) eq_refl) as (cl & _ & Hm).
  destruct (file_write_then_read sample_pick sample_cfg sample_salts sample_shuffle [] []
    cl (mark_checked fs_key rec0) 0 ∅ 1700000000 5 fs_write fs_read sample_config_ok Hm)
    as (cl' & rec' & cl'' & E & _ & E');
    [lia|cbn [fs_write in_size]; lia|cbn [fs_write in_size in_data length]; lia|lia|discriminate|reflexivity| |
     split; [reflexivity|split; reflexivity]|].
  { left. vm_compute. reflexivity. }
  exists cl, (mark_checked fs_key rec0), cl', rec', cl''. split; [exact E|exact E'].
Defined.
