(* ===== verification/Cache.v ===== *)
(** * The block cache of a data function ([caching.hpp], [proxy-command.hpp])

    An index of cached blocks per file and an LRU list that bounds their total size.
    The linked list between [head] and [tail] is a list, most recent first; the map [m]
    from entries to nodes is a finite map.  [None] is undefined behaviour (a read
    outside a buffer, the removal of the sentinel [head]), a call that waits for a lock
    its own thread holds, or a loop that does not end. *)
From Stdlib Require Import ZArith Lia.
From stdpp Require Import base tactics option list gmap strings.
From S2P Require Import Prelude Wire Request Coordinator.

Abbreviation block_map := (gmap Z bytes).
Abbreviation caching_map := (gmap bytes block_map).

Record cache_entry := mk_entry { file_key_ : bytes; block_id_ : Z; data_size_ : Z }.

#[global] Instance cache_entry_eq_dec : EqDecision cache_entry.
Proof. solve_decision. Defined.

(** What [cache_entry_compare] looks at. *)
Definition entry_key (e : cache_entry) : bytes * Z := (e.(file_key_), e.(block_id_)).

(** ** [LRUCache] *)
Record LRUCache := mk_lru {
  nodes : list cache_entry;                     (* from [head] to [tail] *)
  m : gmap (bytes * Z) cache_entry;             (* entries to their nodes *)
  cur_size_ : Z;
  evictions : Z
}.

(** The nodes without the one of a key; the keys of the list are distinct. *)
Definition others (k : bytes * Z) (es : list cache_entry) : list cache_entry :=
  filter (fun e => entry_key e <> k) es.

Definition addnode (temp : cache_entry) (l : LRUCache) : LRUCache :=
  mk_lru (temp :: l.(nodes)) l.(m) (s32 (l.(cur_size_) + temp.(data_size_))) l.(evictions).

Definition deletenode (temp : cache_entry) (l : LRUCache) : LRUCache :=
  mk_lru (others (entry_key temp) l.(nodes)) l.(m)
    (s32 (l.(cur_size_) - temp.(data_size_))) l.(evictions).

(** The cache: the index, the LRU structure and the counters.  [block_limit_] and the
    policy are fixed. *)
Record cache := mk_cache {
  caching_map_ : caching_map; lru_cache_ : LRUCache; cache_hits_ : Z; block_counter_ : Z
}.

Record config := mk_config { cap : Z; fifo : bool }.

Definition with_lru (l : LRUCache) (c : cache) : cache :=
  mk_cache c.(caching_map_) l c.(cache_hits_) c.(block_counter_).
Definition with_map (mp : caching_map) (c : cache) : cache :=
  mk_cache mp c.(lru_cache_) c.(cache_hits_) c.(block_counter_).

(** [delete_entry_from_cache]; [held] is the file whose accessor the caller holds. *)
Definition delete_entry_from_cache (held : option bytes) (entry : cache_entry) (c : cache)
    : option cache :=
  match c.(caching_map_) !! entry.(file_key_) with
  | None => Some c
  | Some blocks =>
      if decide (held = Some entry.(file_key_)) then None
      else
        let l := c.(lru_cache_) in
        let ret := bool_decide (is_Some (blocks !! entry.(block_id_))) in
        let l := mk_lru l.(nodes) l.(m) l.(cur_size_) (l.(evictions) + if ret then 1 else 0) in
        let blocks := delete entry.(block_id_) blocks in
        let mp := if decide (blocks = ∅) then delete entry.(file_key_) c.(caching_map_)
                  else <[entry.(file_key_) := blocks]> c.(caching_map_) in
        Some (mk_cache mp l c.(cache_hits_) c.(block_counter_))
  end.

(** The eviction loop of [set].  With an empty list [tail->prev] is [head], whose links
    are not set. *)
Fixpoint evict (fuel : nat) (cap : Z) (held : option bytes) (key : cache_entry) (c : cache)
    : option cache :=
  match fuel with
  | O => None
  | S fuel =>
      let l := c.(lru_cache_) in
      if u32 (l.(cur_size_) + key.(data_size_)) >? cap then
        match last l.(nodes) with
        | None => None
        | Some victim =>
            c ← delete_entry_from_cache held victim c;
            let l := c.(lru_cache_) in
            let l := mk_lru l.(nodes) (delete (entry_key victim) l.(m)) l.(cur_size_) l.(evictions) in
            evict fuel cap held key (with_lru (deletenode victim l) c)
        end
      else Some c
  end.

Definition lru_set (cfg : config) (held : option bytes) (key : cache_entry) (c : cache) : option cache :=
  let l := c.(lru_cache_) in
  let l := match l.(m) !! entry_key key with
           | Some existing =>
               deletenode existing (mk_lru l.(nodes) (delete (entry_key key) l.(m)) l.(cur_size_) l.(evictions))
           | None => l
           end in
  c ← evict (S (length l.(nodes))) cfg.(cap) held key (with_lru l c);
  let l := addnode key c.(lru_cache_) in
  Some (with_lru (mk_lru l.(nodes) (<[entry_key key := key]> l.(m)) l.(cur_size_) l.(evictions)) c).

(** ** [cache] *)

Definition blocksize : Z := 4096.

(** The loop steps by a block from the first byte of the range. *)
Fixpoint block_ids_loop (fuel : nat) (currentpos endpos : Z) : option (list Z) :=
  match fuel with
  | O => None
  | S fuel =>
      if currentpos <? endpos then
        rest ← block_ids_loop fuel (u32 (currentpos + blocksize)) endpos;
        Some (currentpos / blocksize :: rest)
      else Some []
  end.

Definition get_block_ids (i : input) : option (list Z) :=
  let endpos := u32 (i.(in_position) + i.(in_size)) in
  if i.(in_size) =? 0 then Some []
  else block_ids_loop (S (Z.to_nat (i.(in_size) / blocksize + 1))) i.(in_position) endpos.

(** The loop of [read_from_cache] over the block numbers. *)
Fixpoint read_blocks (cfg : config) (uuid : bytes) (blocks : block_map) (ids : list Z) (c : cache)
    (to_return : bytes) : option (cache * option bytes) :=
  match ids with
  | [] => Some (c, Some to_return)
  | block_id :: ids =>
      match blocks !! block_id with
      | Some data =>
          c ← (if cfg.(fifo) then Some c
               else lru_set cfg (Some uuid) (mk_entry uuid block_id (Z.of_nat (length data))) c);
          read_blocks cfg uuid blocks ids c (to_return ++ data)
      | None => Some (c, None)
      end
  end.

Definition read_from_cache (cfg : config) (i : input) (c : cache) : option (cache * option bytes) :=
  match c.(caching_map_) !! i.(in_uuid) with
  | None => Some (c, None)
  | Some blocks =>
      ids ← get_block_ids i;
      '(c, r) ← read_blocks cfg i.(in_uuid) blocks ids c [];
      match r with
      | Some buf => Some (mk_cache c.(caching_map_) c.(lru_cache_) (c.(cache_hits_) + 1) c.(block_counter_), Some buf)
      | None => Some (c, None)
      end
  end.

(** The bytes of [data] that go to a block. *)
Definition copy_size (i : input) (block_id : Z) : Z :=
  Z.min blocksize (u32 (i.(in_size) - (block_id - i.(in_position) / blocksize) * blocksize)).

Definition block_slice (i : input) (data : bytes) (block_id : Z) : option bytes :=
  mem_get (Z.to_nat (u32 ((block_id - i.(in_position) / blocksize) * blocksize)))
    (Z.to_nat (copy_size i block_id)) data.

Fixpoint write_found (cfg : config) (i : input) (data : bytes) (ids : list Z) (c : cache) : option cache :=
  match ids with
  | [] => Some c
  | block_id :: ids =>
      toEmplace ← block_slice i data block_id;
      c ← lru_set cfg None (mk_entry i.(in_uuid) block_id (copy_size i block_id)) c;
      let c := match c.(caching_map_) !! i.(in_uuid) with
               | Some blocks => with_map (<[i.(in_uuid) := emplace block_id toEmplace blocks]> c.(caching_map_)) c
               | None => c
               end in
      write_found cfg i data ids c
  end.

Fixpoint write_new (cfg : config) (i : input) (data : bytes) (ids : list Z) (blocks : block_map) (c : cache)
    : option (cache * block_map) :=
  match ids with
  | [] => Some (c, blocks)
  | block_id :: ids =>
      toEmplace ← block_slice i data block_id;
      c ← lru_set cfg None (mk_entry i.(in_uuid) block_id (copy_size i block_id)) c;
      let c := mk_cache c.(caching_map_) c.(lru_cache_) c.(cache_hits_)
                 (u32 (c.(block_counter_) + copy_size i block_id)) in
      write_new cfg i data ids (emplace block_id toEmplace blocks) c
  end.

Definition write_to_cache (cfg : config) (i : input) (data : bytes) (c : cache) : option cache :=
  ids ← get_block_ids i;
  match c.(caching_map_) !! i.(in_uuid) with
  | Some _ => write_found cfg i data ids c
  | None =>
      '(c, blocks) ← write_new cfg i data ids ∅ c;
      Some (with_map (emplace i.(in_uuid) blocks c.(caching_map_)) c)
  end.

Definition empty_cache : cache := mk_cache ∅ (mk_lru [] ∅ 0 0) 0 0.

(** ** [proxy_command::start_storage_perform] on a file request

    The storage may answer with a buffer; the cache is filled after the answer. *)
Section worker.
Context {St : Type}.
Variable start_perform : St -> Z -> input -> option (St * option bytes).

Definition start_storage_perform (cfg : config) (enable_cache_ : bool) (c : cache) (st : St)
    (operation : Z) (i : input) : option (cache * St * option bytes) :=
  if operation =? operation_code write then
    '(st, buf) ← start_perform st operation i;
    c ← (if enable_cache_ && bool_decide (is_Some buf) then write_to_cache cfg i i.(in_data) c else Some c);
    Some (c, st, buf)
  else
    '(c, cached_file) ← read_from_cache cfg i c;
    match cached_file with
    | Some buf => Some (c, st, Some buf)
    | None =>
        '(st, buf) ← start_perform st operation i;
        match buf with
        | Some data =>
            c ← (if enable_cache_ then write_to_cache cfg i data c else Some c);
            Some (c, st, Some data)
        | None => Some (c, st, None)
        end
    end.

(** [storage_perform], for storages that answer at once: the cache is written first. *)
Variable perform : St -> Z -> input -> option (St * bytes).

Definition storage_perform (cfg : config) (c : cache) (st : St) (operation : Z) (i : input)
    : option (cache * St * bytes) :=
  if operation =? operation_code write then
    buf ← mem_get 0 (Z.to_nat i.(in_size)) i.(in_data);
    c ← write_to_cache cfg i buf c;
    '(st, v) ← perform st operation i;
    Some (c, st, v)
  else
    '(c, cached_file) ← read_from_cache cfg i c;
    match cached_file with
    | Some buf => Some (c, st, buf)
    | None =>
        '(st, data) ← perform st operation i;
        c ← write_to_cache cfg i data c;
        Some (c, st, data)
    end.

End worker.

(** ** The LRU structure *)

Definition total (es : list cache_entry) : Z := foldr (fun e n => e.(data_size_) + n) 0 es.

Definition node_map (es : list cache_entry) : gmap (bytes * Z) cache_entry :=
  list_to_map ((fun e => (entry_key e, e)) <$> es).

(** The list and the map agree, and the size is the sum of the entries' sizes. *)
Record lru_shape (l : LRUCache) : Prop := {
  ls_nodup : NoDup (entry_key <$> l.(nodes));
  ls_map : l.(m) = node_map l.(nodes);
  ls_sizes : Forall (fun e => 0 <= e.(data_size_)) l.(nodes);
  ls_size : l.(cur_size_) = total l.(nodes)
}.

Record lru_ok (cap : Z) (l : LRUCache) : Prop := {
  lo_shape : lru_shape l;
  lo_cap : total l.(nodes) <= cap
}.

(** The specification of eviction: the most recent entries that fit a budget. *)
Fixpoint keep (budget : Z) (es : list cache_entry) : list cache_entry :=
  match es with
  | [] => []
  | e :: es => if e.(data_size_) <=? budget then e :: keep (budget - e.(data_size_)) es else []
  end.

(** A block leaves the index; a file without blocks leaves it too. *)
Definition drop_block (mp : caching_map) (e : cache_entry) : caching_map :=
  match mp !! e.(file_key_) with
  | None => mp
  | Some blocks =>
      let blocks := delete e.(block_id_) blocks in
      if decide (blocks = ∅) then delete e.(file_key_) mp else <[e.(file_key_) := blocks]> mp
  end.

Lemma total_app es es' : total (es ++ es') = total es + total es'.
Proof. induction es as [|e es IH]; simpl; lia. Qed.

Lemma total_nonneg es : Forall (fun e => 0 <= e.(data_size_)) es -> 0 <= total es.
Proof. induction 1; simpl; lia. Qed.

Lemma total_perm es es' : es ≡ₚ es' -> total es = total es'.
Proof. induction 1; simpl; lia. Qed.

Lemma keep_all budget es : Forall (fun e => 0 <= e.(data_size_)) es -> total es <= budget -> keep budget es = es.
Proof.
  intros Hf. revert budget. induction Hf as [|e es He Hf IH]; intros budget Hb; simpl in *; [done|].
  pose proof (total_nonneg es Hf). destruct (Z.leb_spec e.(data_size_) budget); [|lia].
  rewrite IH by lia. done.
Qed.

Lemma keep_app budget es es' : Forall (fun e => 0 <= e.(data_size_)) es -> total es <= budget ->
  keep budget (es ++ es') = es ++ keep (budget - total es) es'.
Proof.
  intros Hf. revert budget. induction Hf as [|e es He Hf IH]; intros budget Hb; simpl in *.
  - by rewrite Z.sub_0_r.
  - pose proof (total_nonneg es Hf). destruct (Z.leb_spec e.(data_size_) budget); [|lia].
    rewrite IH by lia. do 3 f_equal. lia.
Qed.

Lemma keep_snoc budget es x : Forall (fun e => 0 <= e.(data_size_)) (es ++ [x]) ->
  budget < total (es ++ [x]) -> keep budget (es ++ [x]) = keep budget es.
Proof.
  revert budget. induction es as [|e es IH]; intros budget Hf Hb; simpl in *.
  - destruct (Z.leb_spec x.(data_size_) budget); [lia|done].
  - apply Forall_cons in Hf as [He Hf]. destruct (_ <=? _); [|done]. rewrite IH by (done || lia). done.
Qed.

Lemma keep_prefix budget es : exists es', es = keep budget es ++ es'.
Proof.
  revert budget. induction es as [|e es IH]; intros budget; simpl; [by exists []|].
  destruct (_ <=? _); [|by eexists]. destruct (IH (budget - e.(data_size_))) as [es' E].
  exists es'. cbn [app]. by rewrite <- E.
Qed.

Lemma keep_total budget es : 0 <= budget -> total (keep budget es) <= budget.
Proof.
  revert budget. induction es as [|e es IH]; intros budget Hb; simpl; [done|].
  destruct (Z.leb_spec e.(data_size_) budget); simpl; [|done].
  pose proof (IH (budget - e.(data_size_))). lia.
Qed.

Lemma s32_small z : - 2 ^ 31 <= z < 2 ^ 31 -> s32 z = z.
Proof. intros. unfold s32. rewrite Z.mod_small by lia. lia. Qed.

Lemma node_map_fst es : ((fun e => (entry_key e, e)) <$> es).*1 = entry_key <$> es.
Proof. by rewrite <- list_fmap_compose. Qed.

Lemma node_map_lookup es k : NoDup (entry_key <$> es) ->
  node_map es !! k = list_find (fun e => entry_key e = k) es ≫= fun p => Some p.2.
Proof.
  intros Hn. unfold node_map. destruct (list_find _ es) as [[i e]|] eqn:E; cbn [mbind option_bind].
  - apply list_find_Some in E as (Ei & <- & _). apply elem_of_list_to_map_1; [by rewrite node_map_fst|].
    apply (list_elem_of_fmap_2 (fun e => (entry_key e, e))). by eapply list_elem_of_lookup_2.
  - apply not_elem_of_list_to_map_1. rewrite node_map_fst. intros (e & -> & He)%list_elem_of_fmap.
    apply list_find_None in E. rewrite Forall_forall in E. by apply (E e).
Qed.

Lemma others_notin es k : k ∉ (entry_key <$> es) -> others k es = es.
Proof.
  induction es as [|x es IH]; intros Hk; [done|]. cbn [fmap list_fmap] in Hk.
  apply not_elem_of_cons in Hk as [Hx Hk]. unfold others. rewrite filter_cons.
  rewrite decide_True by (by intros E; apply Hx). f_equal. by apply IH.
Qed.

Lemma others_perm es e : NoDup (entry_key <$> es) -> e ∈ es -> es ≡ₚ e :: others (entry_key e) es.
Proof.
  induction es as [|x es IH]; intros Hn He; [by apply elem_of_nil in He|].
  cbn [fmap list_fmap] in Hn. apply NoDup_cons in Hn as [Hx Hn]. unfold others.
  rewrite filter_cons. apply elem_of_cons in He as [->|He].
  - rewrite decide_False by (by intros []). fold (others (entry_key x) es). by rewrite others_notin.
  - rewrite decide_True.
    + rewrite (IH Hn He) at 1. apply perm_swap.
    + intros E. apply Hx. rewrite E. by apply list_elem_of_fmap_2.
Qed.

Lemma others_app k es es' : others k (es ++ es') = others k es ++ others k es'.
Proof. apply filter_app. Qed.

Lemma elem_of_others k es e : e ∈ others k es <-> entry_key e <> k /\ e ∈ es.
Proof. unfold others. by rewrite list_elem_of_filter. Qed.

Lemma others_keys k es : NoDup (entry_key <$> es) ->
  NoDup (entry_key <$> others k es) /\ k ∉ (entry_key <$> others k es).
Proof.
  intros Hn. split.
  - induction es as [|x es IH]; [done|]. cbn [fmap list_fmap] in Hn. apply NoDup_cons in Hn as [Hx Hn].
    unfold others. rewrite filter_cons. destruct (decide _); [|by apply IH].
    cbn [fmap list_fmap]. apply NoDup_cons. split; [|by apply IH].
    intros (y & E & [_ Hy]%elem_of_others)%list_elem_of_fmap. apply Hx. rewrite E. by apply list_elem_of_fmap_2.
  - intros (y & -> & [Hne _]%elem_of_others)%list_elem_of_fmap. done.
Qed.

Lemma node_map_cons e es : node_map (e :: es) = <[entry_key e := e]> (node_map es).
Proof. done. Qed.

Lemma node_map_others k es : NoDup (entry_key <$> es) -> node_map (others k es) = delete k (node_map es).
Proof.
  intros Hn. induction es as [|x es IH]; [symmetry; apply delete_empty|].
  cbn [fmap list_fmap] in Hn. apply NoDup_cons in Hn as [Hx Hn].
  unfold others. rewrite filter_cons. destruct (decide _) as [Hne|He].
  - rewrite !node_map_cons, delete_insert_ne by (by intros ->; apply Hne). f_equal. by apply IH.
  - assert (entry_key x = k) as <- by (destruct (decide (entry_key x = k)); [done|by exfalso]).
    rewrite node_map_cons. fold (others (entry_key x) es). rewrite others_notin by done.
    rewrite delete_insert_id; [done|]. apply not_elem_of_list_to_map_1. by rewrite node_map_fst.
Qed.

(** ** Eviction *)

Lemma delete_entry_spec e c :
  exists n, delete_entry_from_cache None e c
    = Some (mk_cache (drop_block c.(caching_map_) e)
              (mk_lru c.(lru_cache_).(nodes) c.(lru_cache_).(m) c.(lru_cache_).(cur_size_) n)
              c.(cache_hits_) c.(block_counter_)).
Proof.
  unfold delete_entry_from_cache, drop_block. destruct c as [mp [ns mm cs ev] h b]. cbn [caching_map_ lru_cache_].
  destruct (mp !! file_key_ e) as [blocks|]; [|by exists ev].
  rewrite decide_False by done. by eexists.
Qed.

(** What the loop leaves: the entries that fit, and the index without the others. *)
Lemma evict_spec cap key es c fuel : c.(lru_cache_).(nodes) = es -> lru_shape c.(lru_cache_) ->
  total es < 2 ^ 31 -> 0 <= key.(data_size_) <= cap -> cap < 2 ^ 31 -> (length es < fuel)%nat ->
  exists c' n, evict fuel cap None key c = Some c' /\
    let kept := keep (cap - key.(data_size_)) es in
    c' = mk_cache (foldl drop_block c.(caching_map_) (reverse (drop (length kept) es)))
           (mk_lru kept (node_map kept) (total kept) n) c.(cache_hits_) c.(block_counter_).
Proof.
  revert c fuel. induction es as [|x es IH] using rev_ind; intros c fuel Hes Hsh Ht Hk Hcap Hfuel;
    (destruct fuel as [|fuel]; [simpl in Hfuel; lia|]); pose proof Hsh as [Hnd Hm Hsz Hcur]; rewrite Hes in *.
  - cbn [evict]. rewrite Hcur. cbn [total foldr]. rewrite u32_small by lia.
    destruct (Z.gtb_spec (0 + key.(data_size_)) cap); [lia|]. exists c, c.(lru_cache_).(evictions).
    split; [done|]. destruct c as [mp [ns mm cs ev] h b]. cbn in *. by subst.
  - rewrite length_app in Hfuel. simpl in Hfuel. pose proof (total_nonneg _ Hsz) as Htn.
    cbn [evict]. rewrite Hcur, u32_small by lia.
    destruct (Z.gtb_spec (total (es ++ [x]) + key.(data_size_)) cap) as [Hgt|Hle].
    + rewrite Hes, last_snoc. destruct (delete_entry_spec x c) as [n ->]. cbn [mbind option_bind].
      cbn [lru_cache_ with_lru deletenode nodes m cur_size_ evictions caching_map_ cache_hits_ block_counter_].
      rewrite Hes, Hm, Hcur. rewrite fmap_app in Hnd. apply NoDup_app in Hnd as (Hn1 & Hn2 & _).
      assert (entry_key x ∉ (entry_key <$> es)) as Hx by (intros Hin; apply (Hn2 _ Hin); left).
      assert (others (entry_key x) (es ++ [x]) = es) as Efl.
      { rewrite others_app, others_notin by done. unfold others. rewrite filter_cons, decide_False by (by intros []). apply app_nil_r. }
      unfold deletenode, with_lru.
      cbn [lru_cache_ nodes m cur_size_ evictions caching_map_ cache_hits_ block_counter_]. rewrite Efl.
      apply Forall_app in Hsz as [Hsz1 Hsz2]. rewrite Forall_singleton in Hsz2.
      pose proof (total_nonneg _ Hsz1). rewrite total_app in Ht, Htn |- *. cbn [total foldr] in Ht, Htn |- *.
      rewrite s32_small by lia. replace (total es + (x.(data_size_) + 0) - x.(data_size_)) with (total es) by lia.
      assert (delete (entry_key x) (node_map (es ++ [x])) = node_map es) as ->.
      { rewrite <- node_map_others.
        - by rewrite Efl.
        - rewrite fmap_app. apply NoDup_app. split; [done|split; [done|apply NoDup_singleton]]. }
      destruct (IH (mk_cache (drop_block c.(caching_map_) x) (mk_lru es (node_map es) (total es) n)
        c.(cache_hits_) c.(block_counter_)) fuel) as (c' & n' & E & Hc'); [done| |lia|lia|done|lia|].
      { by split. }
      exists c', n'. split; [exact E|]. cbv zeta in Hc' |- *.
      rewrite total_app in Hgt. cbn [total foldr] in Hgt.
      rewrite keep_snoc; [|apply Forall_app; split; [done|by apply Forall_singleton]|rewrite total_app; simpl; lia].
      rewrite Hc'. cbn [caching_map_ lru_cache_ cache_hits_ block_counter_]. f_equal.
      destruct (keep_prefix (cap - key.(data_size_)) es) as [es' Ep].
      rewrite drop_app_le; [|rewrite Ep at 2; rewrite length_app; lia].
      by rewrite reverse_snoc.
    + rewrite keep_all by (done || lia). exists c, c.(lru_cache_).(evictions). split; [done|].
      rewrite drop_all. destruct c as [mp [ns mm cs ev] h b]. cbn in *. by subst.
Qed.

(** [set] is LRU: the entry comes first, then the most recent others that fit. *)
Lemma lru_set_spec cfg e c : lru_ok cfg.(cap) c.(lru_cache_) -> 0 <= e.(data_size_) <= cfg.(cap) ->
  cfg.(cap) < 2 ^ 31 ->
  exists c' n, lru_set cfg None e c = Some c' /\
    let rest := others (entry_key e) c.(lru_cache_).(nodes) in
    let kept := keep (cfg.(cap) - e.(data_size_)) rest in
    c' = mk_cache (foldl drop_block c.(caching_map_) (reverse (drop (length kept) rest)))
           (mk_lru (e :: kept) (node_map (e :: kept)) (total (e :: kept)) n) c.(cache_hits_) c.(block_counter_).
Proof.
  intros [[Hnd Hm Hsz Hcur] Hcap] He Hc. destruct c as [mp [ns mm cs ev] h b].
  cbn [lru_cache_ nodes m cur_size_ caching_map_ cache_hits_ block_counter_] in *. subst mm cs.
  pose proof (total_nonneg _ Hsz) as Htn. destruct (others_keys (entry_key e) ns Hnd) as [Hn1 Hn2].
  assert (Forall (fun e => 0 <= e.(data_size_)) (others (entry_key e) ns)) as Hsz'.
  { rewrite Forall_forall in Hsz |- *. intros x [_ Hx]%elem_of_others. by apply Hsz. }
  assert (exists l, match node_map ns !! entry_key e with
     | Some existing => deletenode existing (mk_lru ns (delete (entry_key e) (node_map ns)) (total ns) ev)
     | None => mk_lru ns (node_map ns) (total ns) ev end = l /\ nodes l = others (entry_key e) ns /\
     lru_shape l /\ total (nodes l) <= total ns /\ evictions l = ev) as (l & El & Hnl & Hsl & Htl & Hev).
  { eexists. split; [done|]. rewrite node_map_lookup by done.
    destruct (list_find _ ns) as [[i x]|] eqn:Ef; cbn [mbind option_bind].
    - apply list_find_Some in Ef as (Ei & Ex & _). apply list_elem_of_lookup_2 in Ei. cbn [snd].
      pose proof (total_perm _ _ (others_perm ns x Hnd Ei)) as Htp. rewrite Ex in Htp.
      change (total (x :: others (entry_key e) ns)) with (x.(data_size_) + total (others (entry_key e) ns)) in Htp.
      pose proof (total_nonneg _ Hsz').
      assert (0 <= x.(data_size_)) by (rewrite Forall_forall in Hsz; by apply (Hsz x)).
      unfold deletenode. cbn [nodes m cur_size_ evictions]. rewrite Ex.
      split; [done|]. split; [split; cbn [nodes m cur_size_]|split; [lia|done]]; [done| |done|].
      + by rewrite node_map_others.
      + rewrite s32_small by lia. lia.
    - assert (entry_key e ∉ (entry_key <$> ns)) as Hne.
      { intros (x & E & Hx)%list_elem_of_fmap. apply list_find_None in Ef. rewrite Forall_forall in Ef.
        by apply (Ef x Hx). }
      rewrite (others_notin ns) by done. cbn [nodes]. by split_and!. }
  unfold lru_set. cbn [lru_cache_ nodes m cur_size_ evictions]. rewrite El.
  destruct (evict_spec cfg.(cap) e (others (entry_key e) ns)
    (with_lru l (mk_cache mp (mk_lru ns (node_map ns) (total ns) ev) h b)) (S (length l.(nodes))))
    as (c' & n & E & ->); [done|done|rewrite <- Hnl; lia|done|done|rewrite Hnl; lia|].
  rewrite E. cbn [mbind option_bind with_lru lru_cache_ caching_map_ cache_hits_ block_counter_ addnode nodes m
    cur_size_ evictions].
  set (kept := keep _ _).
  assert (total kept <= cfg.(cap) - e.(data_size_)) as Hkt by (apply keep_total; lia).
  assert (0 <= total kept) as Hkn.
  { apply total_nonneg. destruct (keep_prefix (cfg.(cap) - e.(data_size_)) (others (entry_key e) ns)) as [es' Ep].
    fold kept in Ep. rewrite Ep in Hsz'. by apply Forall_app in Hsz' as [? _]. }
  assert (s32 (total kept + e.(data_size_)) = total (e :: kept)) as Hs.
  { change (total (e :: kept)) with (e.(data_size_) + total kept). rewrite s32_small by lia. lia. }
  eexists _, n. split; [done|]. cbv zeta. fold kept. by rewrite <- Hs.
Qed.

Lemma lru_ok_intro cap es n : NoDup (entry_key <$> es) -> Forall (fun e => 0 <= e.(data_size_)) es ->
  total es <= cap -> lru_ok cap (mk_lru es (node_map es) (total es) n).
Proof. intros. by repeat split. Qed.

(** The entries [set] leaves are well formed and within the capacity. *)
Lemma lru_set_ok cfg es e n : NoDup (entry_key <$> es) -> Forall (fun e => 0 <= e.(data_size_)) es ->
  0 <= e.(data_size_) <= cfg.(cap) ->
  let kept := keep (cfg.(cap) - e.(data_size_)) (others (entry_key e) es) in
  lru_ok cfg.(cap) (mk_lru (e :: kept) (node_map (e :: kept)) (total (e :: kept)) n).
Proof.
  intros Hn Hs He kept. destruct (others_keys (entry_key e) es Hn) as [Hn1 Hn2].
  destruct (keep_prefix (cfg.(cap) - e.(data_size_)) (others (entry_key e) es)) as [es' Ep]. fold kept in Ep.
  assert (total kept <= cfg.(cap) - e.(data_size_)) as Hkt by (apply keep_total; lia).
  rewrite Ep, fmap_app in Hn1. rewrite Ep, fmap_app in Hn2. apply lru_ok_intro.
  - cbn [fmap list_fmap]. apply NoDup_cons. split; [|by apply NoDup_app in Hn1 as [? _]].
    intros Hin. apply Hn2. apply elem_of_app. by left.
  - apply Forall_cons. split; [lia|]. apply Forall_forall. intros x Hx.
    rewrite Forall_forall in Hs. apply Hs. assert (x ∈ others (entry_key e) es) as Ho.
    { rewrite Ep. apply elem_of_app. by left. }
    by apply elem_of_others in Ho as [_ ?].
  - change (total (e :: kept)) with (e.(data_size_) + total kept). lia.
Qed.

(** Setting an entry that is there, at its size, only moves it to the front, whatever
    lock is held. *)
Lemma lru_set_again cfg held e c : lru_ok cfg.(cap) c.(lru_cache_) -> e ∈ c.(lru_cache_).(nodes) ->
  cfg.(cap) < 2 ^ 31 ->
  lru_set cfg held e c = Some (with_lru (mk_lru (e :: others (entry_key e) c.(lru_cache_).(nodes))
      (node_map (e :: others (entry_key e) c.(lru_cache_).(nodes)))
      (total c.(lru_cache_).(nodes)) c.(lru_cache_).(evictions)) c).
Proof.
  intros [[Hnd Hm Hsz Hcur] Hcap] He Hc. destruct c as [mp [ns mm cs ev] h b].
  cbn [lru_cache_ nodes m cur_size_ evictions caching_map_ cache_hits_ block_counter_] in *. subst mm cs.
  pose proof (total_perm _ _ (others_perm ns e Hnd He)) as Htp.
  change (total (e :: others (entry_key e) ns)) with (e.(data_size_) + total (others (entry_key e) ns)) in Htp.
  assert (Forall (fun e => 0 <= e.(data_size_)) (others (entry_key e) ns)) as Hsz'.
  { rewrite Forall_forall in Hsz |- *. intros x [_ Hx]%elem_of_others. by apply Hsz. }
  pose proof (total_nonneg _ Hsz'). assert (0 <= e.(data_size_)) by (rewrite Forall_forall in Hsz; by apply (Hsz e)).
  unfold lru_set. cbn [lru_cache_ nodes m cur_size_ evictions].
  assert (node_map ns !! entry_key e = Some e) as ->.
  { apply elem_of_list_to_map_1; [by rewrite node_map_fst|].
    by apply (list_elem_of_fmap_2 (fun e => (entry_key e, e))). }
  unfold deletenode, with_lru. cbn [lru_cache_ nodes m cur_size_ evictions caching_map_ cache_hits_ block_counter_].
  rewrite s32_small by lia. cbn [evict lru_cache_ cur_size_]. rewrite u32_small by lia.
  destruct (Z.gtb_spec (total ns - e.(data_size_) + e.(data_size_)) cfg.(cap)); [lia|].
  cbn [mbind option_bind lru_cache_ caching_map_ cache_hits_ block_counter_ addnode nodes m cur_size_ evictions].
  rewrite s32_small by lia. do 3 f_equal; [|lia].
  by rewrite node_map_cons, node_map_others.
Qed.

(** ** Block numbers of an aligned range *)

Definition block_count (size : Z) : Z := (size + blocksize - 1) / blocksize.

Lemma block_ids_loop_spec fuel n first endpos : 0 <= first ->
  first * blocksize + (Z.of_nat n - 1) * blocksize < endpos <= first * blocksize + Z.of_nat n * blocksize ->
  endpos + blocksize < 2 ^ 32 -> (n < fuel)%nat ->
  block_ids_loop fuel (first * blocksize) endpos = Some (seqZ first (Z.of_nat n)).
Proof.
  revert fuel first. unfold blocksize. induction n as [|n IH]; intros fuel first Hf He Hb Hn;
    (destruct fuel as [|fuel]; [lia|]); cbn [block_ids_loop]; unfold blocksize.
  - destruct (Z.ltb_spec (first * 4096) endpos); [lia|]. done.
  - destruct (Z.ltb_spec (first * 4096) endpos); [|lia]. rewrite u32_small by lia.
    replace (first * 4096 + 4096) with ((first + 1) * 4096) by lia. rewrite (IH fuel (first + 1)) by lia.
    cbn [mbind option_bind]. rewrite Z.div_mul by lia. rewrite (seqZ_cons first) by lia.
    do 2 f_equal. by replace (Z.pred (Z.of_nat (S n))) with (Z.of_nat n) by lia.
Qed.

Record aligned (i : input) (first : Z) : Prop := {
  al_first : 0 <= first;
  al_position : i.(in_position) = first * blocksize;
  al_size : 0 < i.(in_size);
  al_end : i.(in_position) + i.(in_size) + blocksize < 2 ^ 32
}.

Lemma block_count_range size : 0 < size ->
  0 < block_count size /\ (block_count size - 1) * blocksize < size <= block_count size * blocksize.
Proof.
  intros Hs. unfold block_count, blocksize.
  pose proof (Z.div_mod (size + 4096 - 1) 4096 ltac:(lia)).
  pose proof (Z.mod_pos_bound (size + 4096 - 1) 4096 ltac:(lia)). lia.
Qed.

Lemma get_block_ids_aligned i first : aligned i first ->
  get_block_ids i = Some (seqZ first (block_count i.(in_size))).
Proof.
  intros [Hf Hp Hs He]. pose proof (block_count_range _ Hs) as Hr. unfold blocksize in *. unfold get_block_ids.
  destruct (Z.eqb_spec i.(in_size) 0); [lia|]. rewrite u32_small, Hp by lia.
  rewrite <- (Z2Nat.id (block_count i.(in_size))) by lia. apply block_ids_loop_spec; unfold blocksize; try lia.
  pose proof (Z.div_mod i.(in_size) 4096 ltac:(lia)). pose proof (Z.mod_pos_bound i.(in_size) 4096 ltac:(lia)). lia.
Qed.

(** The slices of an aligned range, in order, are the buffer. *)
Definition slice (i : input) (data : bytes) (first block_id : Z) : bytes :=
  take (Z.to_nat (Z.min blocksize (i.(in_size) - (block_id - first) * blocksize)))
    (drop (Z.to_nat ((block_id - first) * blocksize)) data).

Lemma block_slice_aligned i first data block_id : aligned i first ->
  i.(in_size) <= Z.of_nat (length data) -> first <= block_id < first + block_count i.(in_size) ->
  copy_size i block_id = Z.min blocksize (i.(in_size) - (block_id - first) * blocksize) /\
  0 < copy_size i block_id <= i.(in_size) /\
  block_slice i data block_id = Some (slice i data first block_id).
Proof.
  intros [Hf Hp Hs He] Hl Hb. pose proof (block_count_range _ Hs) as Hr. unfold blocksize in *.
  unfold block_slice, copy_size, slice, blocksize. rewrite Hp, Z.div_mul by lia.
  rewrite !u32_small by lia. split; [done|]. split; [lia|].
  rewrite mem_get_Some by lia. done.
Qed.

Lemma slices_concat i first data : aligned i first -> i.(in_size) <= Z.of_nat (length data) ->
  concat (slice i data first <$> seqZ first (block_count i.(in_size))) = take (Z.to_nat i.(in_size)) data.
Proof.
  intros [Hf Hp Hs He] Hl. pose proof (block_count_range _ Hs) as Hr. unfold blocksize in *.
  assert (forall n : nat, Z.of_nat n <= block_count i.(in_size) ->
    concat (slice i data first <$> seqZ first (Z.of_nat n))
    = take (Z.to_nat (Z.min i.(in_size) (Z.of_nat n * 4096))) data) as Hn.
  { intros n. induction n as [|n IH]; intros Hn; [by rewrite Z.mul_0_l, Z.min_r by lia|].
    rewrite seqZ_S, fmap_app, concat_app, IH by lia. cbn [fmap list_fmap concat].
    rewrite app_nil_r. unfold slice, blocksize.
    replace (first + Z.of_nat n - first) with (Z.of_nat n) by lia.
    rewrite Z.min_r by lia.
    replace (Z.to_nat (Z.min i.(in_size) (Z.of_nat (S n) * 4096)))
      with (Z.to_nat (Z.of_nat n * 4096) + Z.to_nat (Z.min 4096 (i.(in_size) - Z.of_nat n * 4096)))%nat by lia.
    by rewrite <- take_take_drop. }
  rewrite <- (Z2Nat.id (block_count i.(in_size))) by lia. rewrite Hn by lia. f_equal. lia.
Qed.

(** ** Caching a new file *)

Lemma drop_block_none mp e uuid : mp !! uuid = None -> drop_block mp e !! uuid = None.
Proof.
  intros Hn. unfold drop_block. destruct (mp !! e.(file_key_)) as [blocks|] eqn:E; [|done].
  assert (e.(file_key_) <> uuid) as Hne by congruence. case_decide.
  - by rewrite lookup_delete_ne.
  - by rewrite lookup_insert_ne.
Qed.

Lemma drop_blocks_none l mp uuid : mp !! uuid = None -> foldl drop_block mp l !! uuid = None.
Proof. revert mp. induction l as [|e l IH]; intros mp Hn; [done|]. apply IH. by apply drop_block_none. Qed.

Section new_file.
Context (cfg : config) (i : input) (data : bytes) (first : Z).
Hypothesis Hal : aligned i first.
Hypothesis Hdata : i.(in_size) <= Z.of_nat (length data).
Hypothesis Hsize : i.(in_size) <= cfg.(cap).
Hypothesis Hcap : cfg.(cap) < 2 ^ 31.

Definition cached_entry (id : Z) : cache_entry := mk_entry i.(in_uuid) id (copy_size i id).

Lemma cached_entry_inj (ids : list Z) id : id ∉ ids -> (i.(in_uuid), id) ∉ (entry_key <$> (cached_entry <$> ids)).
Proof.
  intros Hn Hin. rewrite <- list_fmap_compose in Hin. apply list_elem_of_fmap in Hin as (id' & E & Hid).
  injection E as ->. done.
Qed.

(** One block is put in front of those of the file that were cached before it; none of
    them is evicted. *)
Lemma set_cached_spec (done_ : list Z) rest id c : lru_ok cfg.(cap) c.(lru_cache_) ->
  c.(lru_cache_).(nodes) = reverse (cached_entry <$> done_) ++ rest -> id ∉ done_ ->
  0 <= copy_size i id -> copy_size i id + total (cached_entry <$> done_) <= cfg.(cap) ->
  c.(caching_map_) !! i.(in_uuid) = None ->
  exists c1 kept, lru_set cfg None (cached_entry id) c = Some c1 /\ lru_ok cfg.(cap) c1.(lru_cache_) /\
    c1.(lru_cache_).(nodes) = reverse (cached_entry <$> (done_ ++ [id])) ++ kept /\
    c1.(caching_map_) !! i.(in_uuid) = None.
Proof.
  intros Hok Hnodes Hid Hcs Htot Hmp. pose proof Hok as [[Hnd _ Hsz _] _]. rewrite Hnodes in Hsz, Hnd.
  pose proof (proj1 (Forall_app _ _ _) Hsz) as [Hszd Hszr]. pose proof (total_nonneg _ Hszd) as Hnn.
  assert (total (reverse (cached_entry <$> done_)) = total (cached_entry <$> done_)) as Hrev
    by (apply total_perm; by rewrite reverse_Permutation).
  assert (others (entry_key (cached_entry id)) (reverse (cached_entry <$> done_)) = reverse (cached_entry <$> done_)) as Hothers.
  { apply others_notin. rewrite fmap_reverse. intros Hin. rewrite elem_of_reverse in Hin. exact (cached_entry_inj done_ id Hid Hin). }
  assert (cfg.(cap) - copy_size i id >= total (reverse (cached_entry <$> done_))) as Hroom by lia.
  destruct (lru_set_spec cfg (cached_entry id) c Hok) as (c1 & n & -> & E1); [cbn [cached_entry data_size_]; lia|done|].
  cbv zeta in E1. rewrite Hnodes, others_app, Hothers, keep_app in E1 by (done || (cbn [cached_entry data_size_]; lia)).
  pose proof (lru_set_ok cfg (reverse (cached_entry <$> done_) ++ rest) (cached_entry id) n Hnd Hsz) as Hso.
  cbv zeta in Hso. rewrite others_app, Hothers, keep_app in Hso by (done || (cbn [cached_entry data_size_]; lia)).
  set (kept := keep _ (others _ rest)) in E1, Hso. exists c1, kept. rewrite E1. cbn [lru_cache_ nodes caching_map_].
  split; [done|]. split; [apply Hso; cbn [cached_entry data_size_]; lia|].
  split; [|by apply drop_blocks_none]. rewrite fmap_app. cbn [fmap list_fmap]. by rewrite reverse_snoc.
Qed.

Lemma write_new_spec (ids done_ : list Z) rest (blocks : block_map) c : lru_ok cfg.(cap) c.(lru_cache_) ->
  c.(lru_cache_).(nodes) = reverse (cached_entry <$> done_) ++ rest -> NoDup (done_ ++ ids) ->
  (forall id, id ∈ done_ ++ ids -> first <= id < first + block_count i.(in_size)) ->
  total (cached_entry <$> (done_ ++ ids)) <= cfg.(cap) ->
  (forall id, id ∈ ids -> blocks !! id = None) -> c.(caching_map_) !! i.(in_uuid) = None ->
  exists c' blocks' rest', write_new cfg i data ids blocks c = Some (c', blocks') /\
    lru_ok cfg.(cap) c'.(lru_cache_) /\ c'.(caching_map_) !! i.(in_uuid) = None /\
    c'.(lru_cache_).(nodes) = reverse (cached_entry <$> (done_ ++ ids)) ++ rest' /\
    (forall id, blocks' !! id = if decide (id ∈ ids) then Some (slice i data first id) else blocks !! id).
Proof.
  revert done_ rest blocks c. induction ids as [|id ids IH]; intros done_ rest blocks c Hok Hnodes Hn Hids Htot Hbl Hmp.
  { exists c, blocks, rest. rewrite app_nil_r. split; [done|]. split; [done|]. split; [done|]. split; [done|].
    intros id. by rewrite decide_False by apply not_elem_of_nil. }
  destruct (block_slice_aligned i first data id Hal Hdata) as (_ & Hcs & Hbs).
  { apply Hids. apply elem_of_app. right. left. }
  cbn [write_new]. rewrite Hbs. cbn [mbind option_bind]. fold (cached_entry id).
  assert (id ∉ done_) as Hid by (apply NoDup_app in Hn as (_ & Hn & _); intros Hin; apply (Hn id Hin); left).
  pose proof Htot as Htot'. rewrite fmap_app, total_app in Htot'. cbn [fmap list_fmap] in Htot'.
  change (total (?x :: ?l)) with (x.(data_size_) + total l) in Htot'. change (data_size_ (cached_entry id)) with (copy_size i id) in Htot'.
  assert (0 <= total (cached_entry <$> ids)) as Htids.
  { apply total_nonneg, Forall_forall. intros e (id' & -> & Hin)%list_elem_of_fmap. cbn [cached_entry data_size_].
    destruct (block_slice_aligned i first data id' Hal Hdata) as (_ & Hcs' & _); [|lia].
    apply Hids. apply elem_of_app. right. by right. }
  destruct (set_cached_spec done_ rest id c) as (c1 & kept & -> & Hok1 & Hn1 & Hmp1); [done|done|done|lia|lia|done|].
  cbn [mbind option_bind].
  destruct (IH (done_ ++ [id]) kept (emplace id (slice i data first id) blocks)
    (mk_cache c1.(caching_map_) c1.(lru_cache_) c1.(cache_hits_) (u32 (c1.(block_counter_) + copy_size i id))))
    as (c' & blocks' & rest' & E & Hok' & Hmp' & Hn' & Hb'); [done|done|by rewrite <- (assoc_L (++))..| |done|].
  - intros id' Hin. unfold emplace. rewrite (Hbl id) by left.
    rewrite lookup_insert_ne; [apply Hbl; by right|]. intros ->.
    apply NoDup_app in Hn as (_ & _ & Hn). by apply NoDup_cons in Hn as [? _].
  - exists c', blocks', rest'. rewrite <- (assoc_L (++)) in Hn'. split; [done|]. split; [done|]. split; [done|].
    split; [done|]. intros id'. rewrite Hb'. unfold emplace. rewrite (Hbl id) by left.
    destruct (decide (id' ∈ ids)) as [Hin|Hin].
    + by rewrite decide_True by (by right).
    + destruct (decide (id' = id)) as [->|Hne].
      * rewrite decide_True by left. by rewrite lookup_insert_eq.
      * rewrite decide_False, lookup_insert_ne by (done || (intros [?|?]%elem_of_cons; done)). done.
Qed.

Lemma total_cached ids : (forall id, id ∈ ids -> first <= id < first + block_count i.(in_size)) ->
  total (cached_entry <$> ids)
  = foldr (fun id n => Z.min blocksize (i.(in_size) - (id - first) * blocksize) + n) 0 ids.
Proof.
  induction ids as [|id ids IH]; intros Hids; [done|]. cbn [fmap list_fmap total foldr].
  destruct (block_slice_aligned i first data id Hal Hdata) as (Hc & _ & _); [apply Hids; left|].
  cbn [cached_entry data_size_]. rewrite Hc. f_equal. apply IH. intros id' Hin. apply Hids. by right.
Qed.

Lemma total_blocks : total (cached_entry <$> seqZ first (block_count i.(in_size))) <= i.(in_size).
Proof.
  rewrite total_cached by (intros id Hid%elem_of_seqZ; lia).
  destruct Hal as [Hf Hp Hs He]. pose proof (block_count_range _ Hs) as Hr. unfold blocksize in *.
  assert (forall n : nat, Z.of_nat n <= block_count i.(in_size) ->
    foldr (fun id n => Z.min 4096 (i.(in_size) - (id - first) * 4096) + n) 0
      (seqZ (first + (block_count i.(in_size) - Z.of_nat n)) (Z.of_nat n))
    <= Z.max 0 (i.(in_size) - (block_count i.(in_size) - Z.of_nat n) * 4096)) as Hn.
  { induction n as [|n IH]; intros Hn; [simpl; lia|].
    rewrite seqZ_cons by lia. cbn [foldr].
    replace (Z.succ (first + (block_count (in_size i) - Z.of_nat (S n))))
      with (first + (block_count i.(in_size) - Z.of_nat n)) by lia.
    replace (Z.pred (Z.of_nat (S n))) with (Z.of_nat n) by lia. specialize (IH ltac:(lia)). lia. }
  specialize (Hn (Z.to_nat (block_count i.(in_size))) ltac:(lia)). rewrite Z2Nat.id in Hn by lia.
  rewrite Z.sub_diag, Z.add_0_r in Hn. lia.
Qed.

(** Reading blocks that are all there and in the LRU list at their sizes. *)
Lemma read_blocks_spec (ids : list Z) (blocks : block_map) c acc : lru_ok cfg.(cap) c.(lru_cache_) ->
  (forall id, id ∈ ids -> blocks !! id = Some (slice i data first id) /\
     cached_entry id ∈ c.(lru_cache_).(nodes) /\ Z.of_nat (length (slice i data first id)) = copy_size i id) ->
  exists c', read_blocks cfg i.(in_uuid) blocks ids c acc
    = Some (c', Some (acc ++ concat (slice i data first <$> ids))) /\
    c'.(caching_map_) = c.(caching_map_) /\ lru_ok cfg.(cap) c'.(lru_cache_) /\
    c'.(lru_cache_).(nodes) ≡ₚ c.(lru_cache_).(nodes).
Proof.
  revert c acc. induction ids as [|id ids IH]; intros c acc Hok Hids.
  { exists c. cbn [read_blocks fmap list_fmap concat]. by rewrite app_nil_r. }
  destruct (Hids id) as (Eb & Hin & Hlen); [left|]. cbn [read_blocks]. rewrite Eb, Hlen. fold (cached_entry id).
  assert (exists c1, (if cfg.(fifo) then Some c else lru_set cfg (Some i.(in_uuid)) (cached_entry id) c) = Some c1 /\
    c1.(caching_map_) = c.(caching_map_) /\ lru_ok cfg.(cap) c1.(lru_cache_) /\
    c1.(lru_cache_).(nodes) ≡ₚ c.(lru_cache_).(nodes)) as (c1 & -> & Hm1 & Hok1 & Hp1).
  { destruct cfg.(fifo); [by exists c|]. rewrite lru_set_again by done. eexists. split; [done|].
    cbn [with_lru caching_map_ lru_cache_ nodes].
    pose proof Hok as [[Hnd _ Hsz _] Hc]. pose proof (others_perm _ _ Hnd Hin) as Hp.
    split; [done|]. split; [|by symmetry]. rewrite (total_perm _ _ Hp). apply lru_ok_intro.
    - assert (entry_key <$> (cached_entry id :: others (entry_key (cached_entry id)) (nodes (lru_cache_ c)))
        ≡ₚ (entry_key <$> nodes (lru_cache_ c))) as Hpk by (apply fmap_Permutation; by symmetry).
      by rewrite Hpk.
    - by rewrite <- Hp.
    - by rewrite <- (total_perm _ _ Hp). }
  cbn [mbind option_bind].
  destruct (IH c1 (acc ++ slice i data first id) Hok1) as (c' & E & Hm' & Hok' & Hp').
  { intros id' Hin'. destruct (Hids id') as (? & ? & ?); [by right|]. split; [done|]. split; [|done]. by rewrite Hp1. }
  exists c'. rewrite E. cbn [fmap list_fmap concat]. rewrite (assoc_L (++)). split; [done|].
  split; [congruence|]. split; [done|]. by rewrite Hp'.
Qed.

(** A write of a file the cache does not know, and a read of its range. *)
Lemma write_read_new c j : lru_ok cfg.(cap) c.(lru_cache_) -> c.(caching_map_) !! i.(in_uuid) = None ->
  j.(in_uuid) = i.(in_uuid) -> j.(in_position) = i.(in_position) -> j.(in_size) = i.(in_size) ->
  exists c' c'', write_to_cache cfg i data c = Some c' /\ lru_ok cfg.(cap) c'.(lru_cache_) /\
    read_from_cache cfg j c' = Some (c'', Some (take (Z.to_nat i.(in_size)) data)) /\
    lru_ok cfg.(cap) c''.(lru_cache_).
Proof.
  intros Hok Hmp Hju Hjp Hjs. pose proof (block_count_range _ (al_size _ _ Hal)) as Hr.
  unfold write_to_cache. rewrite (get_block_ids_aligned i first Hal). cbn [mbind option_bind]. rewrite Hmp.
  destruct (write_new_spec (seqZ first (block_count i.(in_size))) [] (nodes (lru_cache_ c)) ∅ c)
    as (c' & blocks' & rest' & -> & Hok' & Hmp' & Hn' & Hb').
  { done. } { done. } { apply NoDup_seqZ. } { intros id Hid%elem_of_seqZ. lia. }
  { pose proof total_blocks. cbn [app]. lia. } { intros. apply lookup_empty. } { done. }
  cbn [mbind option_bind]. set (c1 := with_map _ c').
  assert (c1.(caching_map_) !! i.(in_uuid) = Some blocks') as Em1.
  { cbn [c1 with_map caching_map_]. unfold emplace. rewrite Hmp'. by rewrite lookup_insert_eq. }
  exists c1. unfold read_from_cache. rewrite Hju, Em1.
  assert (get_block_ids j = get_block_ids i) as -> by (unfold get_block_ids; by rewrite Hjp, Hjs).
  rewrite (get_block_ids_aligned i first Hal). cbn [mbind option_bind].
  destruct (read_blocks_spec (seqZ first (block_count i.(in_size))) blocks' c1 [])
    as (c2 & E2 & _ & Hok2 & _); [done| |].
  { intros id Hid. pose proof Hid as Hid'%elem_of_seqZ.
    destruct (block_slice_aligned i first data id Hal Hdata) as (Hcs & Hcp & Hbs); [lia|].
    rewrite Hb', decide_True by done. split; [done|]. split.
    - cbn [c1 with_map lru_cache_]. rewrite Hn'. apply elem_of_app. left. rewrite elem_of_reverse. cbn [app].
      by apply list_elem_of_fmap_2.
    - unfold block_slice in Hbs. apply mem_get_length in Hbs. lia. }
  rewrite E2. cbn [mbind option_bind app]. eexists. split; [done|]. split; [done|]. split.
  - by rewrite (slices_concat i first data Hal Hdata).
  - done.
Qed.

End new_file.

(** ** A block that is cached *)

Lemma drop_block_keep mp e uuid b blocks old : entry_key e <> (uuid, b) -> mp !! uuid = Some blocks ->
  blocks !! b = Some old -> exists blocks', drop_block mp e !! uuid = Some blocks' /\ blocks' !! b = Some old.
Proof.
  intros Hne Em Eb. unfold drop_block. destruct (mp !! e.(file_key_)) as [bl|] eqn:E; [|by exists blocks].
  destruct (decide (e.(file_key_) = uuid)) as [<-|Hk].
  - rewrite Em in E. injection E as <-. assert (e.(block_id_) <> b) as Hb by (by intros <-; apply Hne).
    assert (delete e.(block_id_) blocks !! b = Some old) as Ed by (by rewrite lookup_delete_ne).
    case_decide as He; [by rewrite He, lookup_empty in Ed|]. exists (delete e.(block_id_) blocks).
    by rewrite lookup_insert_eq.
  - exists blocks. split; [|done]. case_decide; [by rewrite lookup_delete_ne|by rewrite lookup_insert_ne].
Qed.

Lemma drop_blocks_keep l mp uuid b blocks old : (forall e, e ∈ l -> entry_key e <> (uuid, b)) ->
  mp !! uuid = Some blocks -> blocks !! b = Some old ->
  exists blocks', foldl drop_block mp l !! uuid = Some blocks' /\ blocks' !! b = Some old.
Proof.
  revert mp blocks. induction l as [|e l IH]; intros mp blocks Hl Em Eb; [by exists blocks|].
  destruct (drop_block_keep mp e uuid b blocks old) as (bl & Em' & Eb'); [apply Hl; left|done|done|].
  apply (IH _ bl); [|done|done]. intros e' He'. apply Hl. by right.
Qed.

(** A range of at most a block's length touches, for the cache, the block it starts in. *)
Lemma get_block_ids_one i : 0 <= i.(in_position) -> 0 < i.(in_size) <= blocksize ->
  i.(in_position) + i.(in_size) + blocksize < 2 ^ 32 -> get_block_ids i = Some [i.(in_position) / blocksize].
Proof.
  unfold blocksize. intros Hp Hs He. unfold get_block_ids, blocksize.
  destruct (Z.eqb_spec i.(in_size) 0); [lia|]. rewrite u32_small by lia.
  remember (Z.to_nat (i.(in_size) / 4096 + 1)) as fuel eqn:Ef.
  pose proof (Z.div_pos i.(in_size) 4096 ltac:(lia) ltac:(lia)). destruct fuel as [|fuel]; [lia|].
  cbn [block_ids_loop]. unfold blocksize.
  destruct (Z.ltb_spec i.(in_position) (i.(in_position) + i.(in_size))); [|lia]. rewrite u32_small by lia.
  destruct (Z.ltb_spec (i.(in_position) + 4096) (i.(in_position) + i.(in_size))); [lia|]. done.
Qed.

(** ** Properties *)

(** C11. [set] is a least-recently-used policy with a size bound: on a well-formed list
    within its capacity it ends, and leaves the new entry in front of the longest run of
    the most recent others that fits beside it; the list and the map still agree, the
    total stays within the capacity, and exactly the blocks of the entries that fell off
    leave the index, last used first. *)
Theorem set_is_lru cfg c e (Hok : lru_ok cfg.(cap) c.(lru_cache_))
    (He : 0 <= e.(data_size_) <= cfg.(cap)) (Hcap : cfg.(cap) < 2 ^ 31) :
  let rest := others (entry_key e) c.(lru_cache_).(nodes) in
  let kept := keep (cfg.(cap) - e.(data_size_)) rest in
  exists c', lru_set cfg None e c = Some c' /\
    c'.(lru_cache_).(nodes) = e :: kept /\ lru_ok cfg.(cap) c'.(lru_cache_) /\
    (exists dropped, rest = kept ++ dropped /\
       c'.(caching_map_) = foldl drop_block c.(caching_map_) (reverse dropped)) /\
    (forall es es', rest = es ++ es' -> total es <= cfg.(cap) - e.(data_size_) -> (length es <= length kept)%nat).
Proof.
  intros rest kept. pose proof Hok as [[Hnd Hm Hsz _] _].
  destruct (lru_set_spec cfg e c Hok He Hcap) as (c' & n & E & Ec'). cbv zeta in Ec'. fold rest kept in Ec'.
  exists c'. split; [done|]. rewrite Ec'. cbn [lru_cache_ nodes caching_map_]. split; [done|].
  split; [by apply lru_set_ok|]. split.
  - destruct (keep_prefix (cfg.(cap) - e.(data_size_)) rest) as [dropped Ed]. fold kept in Ed.
    exists dropped. split; [done|]. do 2 f_equal. rewrite Ed at 1. by rewrite drop_app_length.
  - intros es es' Er Ht. unfold kept. rewrite Er, keep_app; [rewrite length_app; lia| |done].
    assert (Forall (fun e => 0 <= e.(data_size_)) rest) as Hr.
    { rewrite Forall_forall in Hsz |- *. intros x [_ Hx]%elem_of_others. by apply Hsz. }
    rewrite Er in Hr. by apply Forall_app in Hr as [? _].
Qed.

Definition cache_key : bytes := replicate 32 x61.
Definition cache_e (b size : Z) : cache_entry := mk_entry cache_key b size.
Definition cache_input (pos size : Z) (key : byte) (d : bytes) : input :=
  mk_input cache_key pos size [] (replicate 32 key) d.
Definition cache_nodes : list cache_entry := [cache_e 1 4; cache_e 2 4; cache_e 3 4].
Definition cache_sample : cache := mk_cache ∅ (mk_lru cache_nodes (node_map cache_nodes) 12 0) 0 0.

Lemma cache_sample_ok cap : 12 <= cap -> lru_ok cap cache_sample.(lru_cache_).
Proof.
  intros Hc. apply lru_ok_intro.
  - apply (bool_decide_unpack _). vm_compute. done.
  - repeat (apply Forall_cons; split; [cbn; lia|]). by apply Forall_nil.
  - cbn. lia.
Qed.

Lemma set_is_lru_witness : exists c', lru_set (mk_config 12 false) None (cache_e 4 6) cache_sample = Some c' /\
  c'.(lru_cache_).(nodes) = [cache_e 4 6; cache_e 1 4].
Proof.
  destruct (set_is_lru (mk_config 12 false) cache_sample (cache_e 4 6)) as (c' & E & En & _).
  - apply cache_sample_ok. cbn. lia.
  - cbn. lia.
  - cbn. lia.
  - exists c'. split; [exact E|]. rewrite En. vm_compute. reflexivity.
Defined.

(** The cache answers a read of an aligned range that was just written, with the
    written bytes and without asking the storage - for every file of the same
    directory: blocks are kept under the key of the directory, so that the answer is
    the same whichever file of it the read names. *)
Theorem cache_serves_directory {St} (start_perform : St -> Z -> input -> option (St * option bytes))
    cfg c st st' buf i j first
    (Hok : lru_ok cfg.(cap) c.(lru_cache_)) (Hnew : c.(caching_map_) !! i.(in_uuid) = None)
    (Hal : aligned i first) (Hdata : i.(in_size) <= Z.of_nat (length i.(in_data)))
    (Hsize : i.(in_size) <= cfg.(cap)) (Hcap : cfg.(cap) < 2 ^ 31)
    (Hst : start_perform st (operation_code write) i = Some (st', Some buf))
    (Hj : j.(in_uuid) = i.(in_uuid) /\ j.(in_position) = i.(in_position) /\ j.(in_size) = i.(in_size)) :
  exists c' c'',
    start_storage_perform start_perform cfg true c st (operation_code write) i = Some (c', st', Some buf) /\
    start_storage_perform start_perform cfg true c' st' (operation_code read) j
      = Some (c'', st', Some (take (Z.to_nat i.(in_size)) i.(in_data))) /\
    lru_ok cfg.(cap) c''.(lru_cache_).
Proof.
  destruct Hj as (Hju & Hjp & Hjs).
  destruct (write_read_new cfg i i.(in_data) first Hal Hdata Hsize Hcap c j Hok Hnew Hju Hjp Hjs)
    as (c' & c'' & Ew & _ & Er & Hok'').
  exists c', c''. unfold start_storage_perform. rewrite Z.eqb_refl, Hst.
  change (operation_code read =? operation_code write) with false.
  cbn [mbind option_bind andb]. rewrite bool_decide_eq_true_2 by done. rewrite Ew.
  cbn [mbind option_bind]. rewrite Er. done.
Qed.

(** A storage that keeps one buffer per file key. *)
Definition cache_storage (st : gmap bytes bytes) (op : Z) (i : input)
    : option (gmap bytes bytes * option bytes) :=
  match operation_of_code op with
  | Some write => Some (<[i.(in_key) := i.(in_data)]> st, Some msg_ok)
  | _ => Some (st, Some (default [] (st !! i.(in_key))))
  end.

(** The read of file [c] returns what was written to file [b]. *)
Lemma cache_serves_directory_witness : exists c' c'' st',
  start_storage_perform cache_storage (mk_config 64 false) true empty_cache ∅
    (operation_code write) (cache_input 0 3 x62 [x01; x02; x03]) = Some (c', st', Some msg_ok) /\
  start_storage_perform cache_storage (mk_config 64 false) true c' st'
    (operation_code read) (cache_input 0 3 x63 []) = Some (c'', st', Some [x01; x02; x03]) /\
  cache_storage st' (operation_code read) (cache_input 0 3 x63 []) = Some (st', Some []).
Proof.
  destruct (cache_serves_directory cache_storage (mk_config 64 false) empty_cache ∅
    {[replicate 32 x62 : bytes := [x01; x02; x03]]} msg_ok (cache_input 0 3 x62 [x01; x02; x03])
    (cache_input 0 3 x63 []) 0) as (c' & c'' & E1 & E2 & _).
  - apply lru_ok_intro; [apply NoDup_nil_2|by apply Forall_nil|cbn; lia].
  - reflexivity.
  - split; unfold blocksize; cbn; lia.
  - cbn. lia.
  - cbn. lia.
  - cbn. lia.
  - vm_refl.
  - split; [reflexivity|split; reflexivity].
  - exists c', c'', {[replicate 32 x62 : bytes := [x01; x02; x03]]}.
    split; [exact E1|]. split; [exact E2|]. vm_refl.
Defined.

(** A cached block is never updated: a write of a range inside one block that is
    in the index leaves the old block there ([emplace] does not replace), under either
    policy; with the FIFO policy, a read of at most a block's length from anywhere in
    that block then returns the whole old block, from its start. *)
Theorem cached_block_frozen cfg c i j data blocks b old
    (Hok : lru_ok cfg.(cap) c.(lru_cache_)) (Hf : c.(caching_map_) !! i.(in_uuid) = Some blocks)
    (Hb : blocks !! b = Some old) (Hcap : cfg.(cap) < 2 ^ 31)
    (Hi : 0 <= i.(in_position) /\ i.(in_position) / blocksize = b /\ 0 < i.(in_size) <= blocksize /\
          i.(in_position) + i.(in_size) + blocksize < 2 ^ 32)
    (Hdata : i.(in_size) <= Z.of_nat (length data)) (Hsize : i.(in_size) <= cfg.(cap))
    (Hj : j.(in_uuid) = i.(in_uuid) /\ 0 <= j.(in_position) /\ j.(in_position) / blocksize = b /\
          0 < j.(in_size) <= blocksize /\ j.(in_position) + j.(in_size) + blocksize < 2 ^ 32) :
  exists c' blocks', write_to_cache cfg i data c = Some c' /\ lru_ok cfg.(cap) c'.(lru_cache_) /\
    c'.(caching_map_) !! i.(in_uuid) = Some blocks' /\ blocks' !! b = Some old /\
    (cfg.(fifo) = true -> exists c'', read_from_cache cfg j c' = Some (c'', Some old)).
Proof.
  destruct Hi as (Hp & Hpb & Hs & He), Hj as (Hju & Hjp & Hjb & Hjs & Hje).
  unfold write_to_cache. rewrite get_block_ids_one, Hpb by done. cbn [mbind option_bind]. rewrite Hf.
  assert (copy_size i b = i.(in_size)) as Hcs.
  { unfold copy_size. rewrite Hpb, Z.sub_diag, Z.mul_0_l, Z.sub_0_r. unfold blocksize in *. rewrite u32_small by lia. lia. }
  cbn [write_found]. unfold block_slice. rewrite Hcs, Hpb, Z.sub_diag, Z.mul_0_l.
  rewrite (u32_small 0), mem_get_Some by lia.
  cbn [mbind option_bind]. set (e := mk_entry _ b _).
  destruct (lru_set_spec cfg e c Hok) as (c1 & n & -> & E1); [cbn; lia|done|]. cbn [mbind option_bind]. cbv zeta in E1.
  pose proof Hok as [[Hnd _ Hsz _] _].
  assert (lru_ok cfg.(cap) c1.(lru_cache_)) as Hok1 by (rewrite E1; cbn [lru_cache_]; apply lru_set_ok; [done|done|cbn; lia]).
  destruct (drop_blocks_keep (reverse (drop (length (keep (cap cfg - data_size_ e) (others (entry_key e) (nodes (lru_cache_ c)))))
    (others (entry_key e) (nodes (lru_cache_ c))))) c.(caching_map_) i.(in_uuid) b blocks old) as (bl & Em & Eb); [|done|done|].
  { intros x Hx. rewrite elem_of_reverse in Hx. apply list_elem_of_lookup in Hx as [k Hk].
    rewrite lookup_drop in Hk. apply list_elem_of_lookup_2 in Hk. by apply elem_of_others in Hk as [? _]. }
  assert (c1.(caching_map_) !! i.(in_uuid) = Some bl) as -> by (by rewrite E1).
  assert (emplace b (take (Z.to_nat i.(in_size)) (drop (Z.to_nat 0) data)) bl = bl) as ->
    by (unfold emplace; by rewrite Eb).
  eexists _, bl. split; [done|]. split; [done|]. cbn [with_map caching_map_]. rewrite lookup_insert_eq.
  split; [done|]. split; [done|]. intros Hfifo. unfold read_from_cache. cbn [with_map caching_map_].
  rewrite Hju, lookup_insert_eq, get_block_ids_one, Hjb by done. cbn [mbind option_bind read_blocks].
  rewrite Eb, Hfifo. cbn [mbind option_bind app]. by eexists.
Qed.

Definition cache_old : cache :=
  mk_cache {[cache_key := {[0 := [x01; x02; x03]]}]}
    (mk_lru [cache_e 0 3] (node_map [cache_e 0 3]) 3 0) 0 3.

Lemma cached_block_frozen_witness : exists c' c'',
  write_to_cache (mk_config 64 true) (cache_input 0 3 x62 []) [x07; x08; x09] cache_old = Some c' /\
  read_from_cache (mk_config 64 true) (cache_input 1 1 x62 []) c' = Some (c'', Some [x01; x02; x03]).
Proof.
  destruct (cached_block_frozen (mk_config 64 true) cache_old (cache_input 0 3 x62 []) (cache_input 1 1 x62 [])
    [x07; x08; x09] {[0 := [x01; x02; x03]]} 0 [x01; x02; x03]) as (c' & bl & E & _ & _ & _ & Hr).
  - apply lru_ok_intro; [apply NoDup_singleton|by repeat constructor|cbn; lia].
  - vm_refl.
  - vm_refl.
  - cbn. lia.
  - split_and!; vm_compute; done.
  - cbn. lia.
  - cbn. lia.
  - split_and!; vm_compute; done.
  - destruct (Hr eq_refl) as [c'' Er]. exists c', c''. split; [exact E|exact Er].
Defined.

(** Writing 4 bytes to block 0, then 1 byte to it, then 4 bytes to block 1, with room
    for 6 bytes. *)
Definition drifted : option cache :=
  c1 ← write_to_cache (mk_config 6 false) (cache_input 0 4 x62 []) [x01; x02; x03; x04] empty_cache;
  c2 ← write_to_cache (mk_config 6 false) (cache_input 0 1 x62 []) [x05] c1;
  write_to_cache (mk_config 6 false) (cache_input 4096 4 x62 []) [x06; x07; x08; x09] c2.

(** What is checked of the cache after the three writes, by evaluation. *)
Definition stuck (c : cache) : bool :=
  let l := c.(lru_cache_) in
  let read fifo := read_from_cache (mk_config 6 fifo) (cache_input 0 4 x62 []) c in
  bool_decide (NoDup (entry_key <$> l.(nodes))) && bool_decide (l.(m) = node_map l.(nodes)) &&
  bool_decide (Forall (fun e => 0 <= e.(data_size_)) l.(nodes)) && (l.(cur_size_) =? total l.(nodes)) &&
  (total l.(nodes) <=? 6) && bool_decide (snd <$> read false = None) &&
  bool_decide (snd <$> read true = Some (Some [x01; x02; x03; x04])).

Lemma stuck_correct c : stuck c = true -> lru_ok 6 c.(lru_cache_) /\
  read_from_cache (mk_config 6 false) (cache_input 0 4 x62 []) c = None /\
  option_map snd (read_from_cache (mk_config 6 true) (cache_input 0 4 x62 []) c)
    = Some (Some [x01; x02; x03; x04]).
Proof.
  unfold stuck. rewrite !andb_true_iff, !bool_decide_eq_true, Z.eqb_eq, Z.leb_le.
  intros ((((((? & ?) & ?) & ?) & ?) & Hr) & ?). split; [by split|]. split; [|done].
  by apply fmap_None in Hr.
Qed.

(** The sizes the LRU list records drift from those of the cached blocks, and a
    read can then wait for a lock that it holds itself: after three writes the list is
    well formed and within its capacity, but the read of block 0 does not return, while
    with the FIFO policy it returns. *)
Theorem read_waits_for_itself :
  exists c, drifted = Some c /\ lru_ok 6 c.(lru_cache_) /\
    read_from_cache (mk_config 6 false) (cache_input 0 4 x62 []) c = None /\
    option_map snd (read_from_cache (mk_config 6 true) (cache_input 0 4 x62 []) c)
      = Some (Some [x01; x02; x03; x04]).
Proof.
  assert (match drifted with Some c => stuck c | None => false end = true) as H by vm_refl.
  destruct drifted as [c|]; [|discriminate]. exists c. split; [done|]. by apply stuck_correct.
Qed.
