(* ===== verification/Launcher.v ===== *)
(** * The admission of requests by the proxy ([launcher.hpp], [worker.hpp])

    The proxy's [launcher] keeps which files are open, which are being opened, and
    which directories a rename has locked.  A request is admitted to a worker, or
    answered at once: [start_trigger_post] decides which, and puts the decision in the
    type of the packet it schedules.  The answers of workers to [open] and [rename]
    update the tables. *)
From Stdlib Require Import ZArith Lia.
From stdpp Require Import base tactics option list gmap strings.
From S2P Require Import Prelude Wire Request.
Import pack.

(** The tables: concurrent hash maps from keys to counters. *)
Record launcher := mk_launcher {
  opened_files : gmap bytes Z;
  locked_files_for_open : gmap bytes Z;
  locked_directories_for_rename : gmap bytes Z
}.

Definition empty_launcher : launcher := mk_launcher ∅ ∅ ∅.

(** The proxy's [meta_operation_t] has two more operations than the workers'. *)
Inductive proxy_operation := Shared (op : meta_operation_t) | Lock | Unlock.

#[global] Instance proxy_operation_eq_dec : EqDecision proxy_operation.
Proof. solve_decision. Defined.

Definition proxy_operation_of_code (z : Z) : option proxy_operation :=
  match meta_operation_of_code z with
  | Some op => Some (Shared op)
  | None => if z =? 11 then Some Lock else if z =? 12 then Some Unlock else None
  end.

Definition err_parent_locked : bytes := lit_buf "Error: Parent directory is locked"%string.
Definition err_delete_opened : bytes := lit_buf "Error: Cannot delete opened/locked file"%string.
Definition err_rename_opened : bytes := lit_buf "Error: Cannot rename opened/locked file"%string.
Definition err_not_open : bytes := lit_buf "Error: File is not open"%string.
Definition text_ok : bytes := lit_buf "OK"%string.

Definition has_type (t : msg_t) (p : packet) : packet := mk_packet (set_type t p.(header)) p.(data).
Definition has_data (d : bytes) (p : packet) : packet := mk_packet p.(header) d.

Definition is_metadata (refdata : bytes) : option bool :=
  t ← request_parser.type refdata; Some (bool_decide (type_of_code t = Some metadata)).

(** A counter is created at 1 or incremented. *)
Definition increment (k : bytes) (mp : gmap bytes Z) : gmap bytes Z :=
  <[k := default 0 (mp !! k) + 1]> mp.

(** Decremented when at least 1, and erased at 0. *)
Definition decrement (k : bytes) (n : Z) (mp : gmap bytes Z) : gmap bytes Z :=
  if n >=? 1 then if n - 1 =? 0 then delete k mp else <[k := n - 1]> mp else mp.

Definition emplace_key (k : bytes) (v : Z) (mp : gmap bytes Z) : gmap bytes Z :=
  match mp !! k with Some _ => mp | None => <[k := v]> mp end.

(** The metadata branch of [start_trigger_post] (lines 484-579). *)
Definition admit_metadata (l : launcher) (op : option proxy_operation) (file_key : bytes) (p : packet)
    : option (launcher * packet) :=
  let in_use := bool_decide (is_Some (l.(locked_files_for_open) !! file_key) \/
                             is_Some (l.(opened_files) !! file_key)) in
  match op with
  | Some (Shared open) =>
      match l.(opened_files) !! file_key with
      | Some n => Some (mk_launcher (<[file_key := n + 1]> l.(opened_files)) l.(locked_files_for_open)
                          l.(locked_directories_for_rename), has_type proxy_send_ip p)
      | None => Some (mk_launcher l.(opened_files) (increment file_key l.(locked_files_for_open))
                        l.(locked_directories_for_rename), p)
      end
  | Some (Shared deletefile) =>
      Some (l, if in_use then has_type proxy_send_error (has_data err_delete_opened p)
               else has_type worker_push_request p)
  | Some (Shared rename_sameproxy) =>
      if in_use then Some (l, has_type proxy_send_error (has_data err_rename_opened p))
      else
        info ← meta.load_rename_info (request_parser.data p.(data));
        Some (mk_launcher l.(opened_files) l.(locked_files_for_open)
                (emplace_key info.(meta.file_parent_key) 1 l.(locked_directories_for_rename)),
              has_type worker_push_request p)
  | Some (Shared close) =>
      match l.(opened_files) !! file_key with
      | Some n => Some (mk_launcher (decrement file_key n l.(opened_files)) l.(locked_files_for_open)
                          l.(locked_directories_for_rename),
                        has_type proxy_send_ok (if n >=? 1 then has_data text_ok p else p))
      | None => Some (l, has_type proxy_send_error (has_data err_not_open p))
      end
  | Some Lock | Some Unlock =>
      Some (mk_launcher l.(opened_files) l.(locked_files_for_open)
              (emplace_key p.(header).(key) 0 l.(locked_directories_for_rename)),
            has_type proxy_send_ok (has_data text_ok p))
  | _ => Some (l, has_type worker_push_request p)
  end.

(** [start_trigger_post] without direct communication, up to [schedule].  When the
    directory is locked the payload is replaced before the request in it is looked at:
    [freed] is what is then found at its old place. *)
Definition start_trigger_post (freed : bytes) (l : launcher) (p : packet) : option (launcher * packet) :=
  file_key ← request_parser.file_key p.(data);
  match l.(locked_directories_for_rename) !! p.(header).(key) with
  | Some _ =>
      let p := has_data err_parent_locked (has_type proxy_send_error p) in
      md ← is_metadata freed;
      op ← (if (md : bool) then request_parser.meta_operation freed else Some 0);
      if md && bool_decide (proxy_operation_of_code op = Some Unlock)
      then Some (mk_launcher l.(opened_files) l.(locked_files_for_open)
                   (delete p.(header).(key) l.(locked_directories_for_rename)), has_data text_ok p)
      else Some (l, p)
  | None =>
      md ← is_metadata p.(data);
      if (md : bool) then
        op ← request_parser.meta_operation p.(data);
        admit_metadata l (proxy_operation_of_code op) file_key p
      else
        Some (l, if bool_decide (is_Some (l.(opened_files) !! file_key)) then has_type worker_push_request p
                 else has_type proxy_send_error (has_data err_not_open p))
  end.

Definition on_worker_finished_opening_a_file (l : launcher) (file_key : bytes) (success : bool) : launcher :=
  let opened := if success then increment file_key l.(opened_files) else l.(opened_files) in
  let locked :=
    match l.(locked_files_for_open) !! file_key with
    | Some n => if success then delete file_key l.(locked_files_for_open)
                else decrement file_key n l.(locked_files_for_open)
    | None => l.(locked_files_for_open)
    end in
  mk_launcher opened locked l.(locked_directories_for_rename).

Definition on_worker_finished_renaming_file (l : launcher) (parent_key : bytes) : launcher :=
  mk_launcher l.(opened_files) l.(locked_files_for_open)
    (delete parent_key l.(locked_directories_for_rename)).

(** ** Runs of the proxy *)

(** What a packet asks: a metadata operation or file I/O, and the file it names. *)
Definition asks (op : proxy_operation) (k : bytes) (p : packet) : bool :=
  bool_decide (is_metadata p.(data) = Some true) &&
  bool_decide ((request_parser.meta_operation p.(data) ≫= proxy_operation_of_code) = Some op) &&
  bool_decide (request_parser.file_key p.(data) = Some k).

Definition answered (t : msg_t) (p : packet) : bool := bool_decide (p.(header).(type) = code t).

(** A client's request with the packet it is scheduled as, and the answers of workers. *)
Inductive event :=
| Request (p scheduled : packet)
| Opened (file_key : bytes) (success : bool)
| Renamed (parent_key : bytes).

Inductive step : launcher -> event -> launcher -> Prop :=
| step_request freed l p l' p' : p.(header).(type) = code trigger ->
    start_trigger_post freed l p = Some (l', p') -> step l (Request p p') l'
| step_opened l k success : step l (Opened k success) (on_worker_finished_opening_a_file l k success)
| step_renamed l k : step l (Renamed k) (on_worker_finished_renaming_file l k).

Inductive run : list event -> launcher -> Prop :=
| run_nil : run [] empty_launcher
| run_snoc tr l e l' : run tr l -> step l e l' -> run (tr ++ [e]) l'.

(** Handles of a file: gained by an [open] a worker confirms or the proxy grants, and
    given back by a [close] that is answered OK. *)
Definition gained (k : bytes) (e : event) : Z :=
  match e with
  | Request p p' =>
      if asks (Shared open) k p && answered proxy_send_ip p' then 1
      else if asks (Shared close) k p && answered proxy_send_ok p' then -1 else 0
  | Opened k' true => if decide (k' = k) then 1 else 0
  | _ => 0
  end.

Definition handles (k : bytes) (tr : list event) : Z := foldr (fun e n => gained k e + n) 0 tr.













(** The types the proxy gives are told apart by their codes. *)
Lemma answered_has_type t t' p : answered t (has_type t' p) = bool_decide (t = t').
Proof.
  unfold answered. apply bool_decide_ext. cbn. split; [|by intros ->].
  intros E. assert (of_code (code t') = of_code (code t)) as Eo by (by f_equal).
  rewrite !of_code_code in Eo. congruence.
Qed.

Lemma answered_has_data t d p : answered t (has_data d p) = answered t p.
Proof. done. Qed.






Lemma asks_inv op k p : asks op k p = true -> is_metadata p.(data) = Some true /\
  request_parser.file_key p.(data) = Some k /\
  exists o, request_parser.meta_operation p.(data) = Some o /\ proxy_operation_of_code o = Some op.
Proof.
  unfold asks. intros [[E1 E2]%andb_prop E3]%andb_prop. apply bool_decide_eq_true in E1, E2, E3.
  split; [done|]. split; [done|]. destruct (request_parser.meta_operation _) as [o|]; [|done]. by exists o.
Qed.



(** ** Properties *)


(** *** Concrete requests *)
Definition sample_file : bytes := replicate 32 x62.
Definition sample_directory : bytes := replicate 32 x61.
Definition metadata_request (op : Z) : packet :=
  mk_packet (mk_header (code trigger) 0 sample_directory 0 [] [])
    (store_request (request_to_network (mk_request (type_code metadata) op 0 0 (replicate 34 x00) sample_file))).
Definition open_request : packet := metadata_request 7.
Definition close_request : packet := metadata_request 8.
Definition delete_request : packet := metadata_request 4.
Definition unlock_request : packet := metadata_request 12.
Definition file_request : packet :=
  mk_packet (mk_header (code trigger) 0 sample_directory 0 [] [])
    (store_request (request_to_network (mk_request (type_code file) 1 0 4 (replicate 34 x00) sample_file))).

(** One request of a run, with the packet it is scheduled as. *)
Lemma run_request freed tr l p l' p' : run tr l -> p.(header).(type) = code trigger ->
  start_trigger_post freed l p = Some (l', p') -> run (tr ++ [Request p p']) l'.
Proof. intros Hr Ht E. eapply run_snoc; [done|]. by econstructor. Qed.




(** [unlock] of a directory that is not locked locks it: the request is answered
    OK, and from then on every request for that directory - whatever it asks - is
    answered with an error by the proxy, and changes nothing, as long as the freed
    memory it looks at does not show an [unlock]. *)
Theorem unlock_locks freed l p k
    (Ha : asks Unlock k p = true) (Hfree : l.(locked_directories_for_rename) !! p.(header).(key) = None) :
  exists l' p', start_trigger_post freed l p = Some (l', p') /\ answered proxy_send_ok p' = true /\
    is_Some (l'.(locked_directories_for_rename) !! p.(header).(key)) /\
    forall freed' q k', q.(header).(key) = p.(header).(key) -> request_parser.file_key q.(data) = Some k' ->
      is_metadata freed' = Some false ->
      start_trigger_post freed' l' q = Some (l', has_data err_parent_locked (has_type proxy_send_error q)).
Proof.
  apply asks_inv in Ha as (Em & Ek & o & Eo & Eop).
  eexists _, _. unfold start_trigger_post at 1. rewrite Ek. cbn [mbind option_bind]. rewrite Hfree, Em.
  cbn [mbind option_bind]. rewrite Eo. cbn [mbind option_bind]. rewrite Eop. cbn [admit_metadata].
  split; [done|]. split; [by rewrite answered_has_type|]. cbn [locked_directories_for_rename].
  unfold emplace_key. rewrite Hfree. split; [by rewrite lookup_insert_eq|].
  intros freed' q k' Hq Hk' Hf. unfold start_trigger_post. rewrite Hk'. cbn [mbind option_bind locked_directories_for_rename].
  rewrite Hq, lookup_insert_eq, Hf. done.
Qed.

Lemma unlock_locks_witness : exists l' p',
  start_trigger_post [] empty_launcher unlock_request = Some (l', p') /\ answered proxy_send_ok p' = true /\
  start_trigger_post (replicate 2 x00) l' open_request
    = Some (l', has_data err_parent_locked (has_type proxy_send_error open_request)).
Proof.
  destruct (unlock_locks [] empty_launcher unlock_request sample_file) as (l' & p' & E & Ha & _ & Hall).
  - vm_compute. reflexivity.
  - vm_compute. reflexivity.
  - exists l', p'. split; [exact E|]. split; [exact Ha|].
    apply (Hall _ _ sample_file); vm_compute; reflexivity.
Defined.

(** Opens that workers have not answered yet. *)
Definition in_flight (k : bytes) (tr : list event) : Z :=
  foldr (fun e n => match e with
    | Request p p' => if asks (Shared open) k p && answered trigger p' then 1 else 0
    | Opened k' _ => if decide (k' = k) then -1 else 0
    | Renamed _ => 0 end + n) 0 tr.

(** Two opens leave together; the first is confirmed and closed. *)
Definition overlapping_opens : list event :=
  [Request open_request open_request; Request open_request open_request; Opened sample_file true;
   Request close_request (has_type proxy_send_ok (has_data text_ok close_request))].

(** The lock taken while a file is being opened does not survive the first answer:
    in a run where two opens are sent to workers and one of them is confirmed and
    closed, the other still being in flight, a [deletefile] of the file is sent to a
    worker; when the other open is confirmed the file it opens is the deleted one. *)
Theorem delete_admitted_while_opening :
  exists l, run overlapping_opens l /\ in_flight sample_file overlapping_opens = 1 /\
    asks (Shared deletefile) sample_file delete_request = true /\
    start_trigger_post [] l delete_request = Some (l, has_type worker_push_request delete_request) /\
    handles sample_file (overlapping_opens ++ [Opened sample_file true]) = 1.
Proof.
  exists empty_launcher. split; [|split; [vm_refl|split; [vm_refl|split; vm_refl]]].
  change overlapping_opens with (((([] ++ [Request open_request open_request])
    ++ [Request open_request open_request]) ++ [Opened sample_file true])
    ++ [Request close_request (has_type proxy_send_ok (has_data text_ok close_request))]).
  eapply (run_request [] _ (mk_launcher {[sample_file := 1]} ∅ ∅)); [|done|vm_refl].
  assert (mk_launcher {[sample_file := 1]} ∅ ∅
    = on_worker_finished_opening_a_file (mk_launcher ∅ {[sample_file := 2]} ∅) sample_file true) as -> by vm_refl.
  eapply run_snoc; [|constructor].
  eapply (run_request [] _ (mk_launcher ∅ {[sample_file := 1]} ∅)); [|done|vm_refl].
  eapply (run_request []); [constructor|done|vm_refl].
Qed.
