(* ===== verification/SocketWriter.v ===== *)
(** * The socket writer ([socket-writer.hpp])

    Packets for one socket are queued and written one at a time.  The proxy, the
    workers and the block store share the file; [socket_writer] is the version [v1].
    A call of [start_write_socket] and the completion of a write run on any thread of
    the [io_context]: the model has both the runs in which they do not overlap
    ([start_write_socket], [on_written]) and their interleavings, one shared access at
    a time ([exec]). *)
From Stdlib Require Import ZArith Lia.
From stdpp Require Import base tactics option list.
From S2P Require Import Prelude Wire.

Section jobs.
Context {Packet : Type} (serialize : Packet -> bytes).

(** [bufptr] is null unless the caller serialized the packet; [next] names the
    callback. *)
Record write_job := mk_job { job_pack : Packet; bufptr : option bytes; next : nat }.

(** The bytes given to [async_write]. *)
Definition job_bytes (j : write_job) : bytes :=
  match j.(bufptr) with Some b => b | None => serialize j.(job_pack) end.

(** The members that change, the [async_write]s of the socket that have not
    completed, and what the outside has seen: the writes in the order they were
    started, and the callbacks that were invoked, with the presence of an error. *)
Record writer := mk_writer {
  write_queue_ : list write_job;
  is_writing_ : bool;
  in_flight : list write_job;
  started : list write_job;
  called : list (write_job * bool)
}.

Definition empty_writer : writer := mk_writer [] false [] [] [].

Definition set_writing (b : bool) (w : writer) : writer :=
  mk_writer w.(write_queue_) b w.(in_flight) w.(started) w.(called).
Definition push (j : write_job) (w : writer) : writer :=
  mk_writer (w.(write_queue_) ++ [j]) w.(is_writing_) w.(in_flight) w.(started) w.(called).

(** [try_pop], and [async_write] of the job that was popped. *)
Definition pop_and_write (w : writer) : option writer :=
  match w.(write_queue_) with
  | [] => None
  | j :: q => Some (mk_writer q w.(is_writing_) (w.(in_flight) ++ [j]) (w.(started) ++ [j]) w.(called))
  end.

(** The completion of the [i]-th write in flight invokes its callback. *)
Definition complete (i : nat) (ec : bool) (w : writer) : option writer :=
  j ← w.(in_flight) !! i;
  Some (mk_writer w.(write_queue_) w.(is_writing_) (delete i w.(in_flight)) w.(started)
          (w.(called) ++ [(j, ec)])).

End jobs.
Arguments write_job : clear implicits.
Arguments writer : clear implicits.

(** ** [v1] *)
Module v1.
Section v1.
Context {Packet : Type}.
Implicit Types (j : write_job Packet) (w : writer Packet).

Definition start_write_one_packet w : writer Packet :=
  match pop_and_write w with Some w => w | None => set_writing false w end.

Definition start_write_socket j w : writer Packet :=
  let w := push j w in
  if w.(is_writing_) then w else start_write_one_packet (set_writing true w).

Definition on_written (i : nat) (ec : bool) w : option (writer Packet) :=
  w ← complete i ec w;
  Some (if ec then set_writing false w else start_write_one_packet w).

(** A run in which calls and completions do not overlap; [None] completes a write
    that is not in flight. *)
Inductive event := Call (j : write_job Packet) | Written (ec : bool).

Definition serial_step (e : event) w : option (writer Packet) :=
  match e with
  | Call j => Some (start_write_socket j w)
  | Written ec => on_written 0 ec w
  end.

Fixpoint serial (es : list event) w : option (writer Packet) :=
  match es with
  | [] => Some w
  | e :: es => w ← serial_step e w; serial es w
  end.

(** The jobs of the calls of a run. *)
Definition jobs (es : list event) : list (write_job Packet) :=
  omap (fun e => match e with Call j => Some j | Written _ => None end) es.

(** *** Interleavings

    A thread stands before its next access to the shared state: the push and the test
    of [start_write_socket], the store that follows the test, the pop of
    [start_write_one_packet] and the store of [false]. *)
Inductive pc := Push (j : write_job Packet) | Test | Set_ | Pop | Clear.

Record system := mk_system { shared : writer Packet; threads : list pc; pushed : list (write_job Packet) }.

Definition init : system := mk_system empty_writer [] [].

(** What the scheduler does: a thread calls [start_write_socket], the [i]-th thread
    takes a step, or the [i]-th write completes. *)
Inductive choice := Enter (j : write_job Packet) | Run (i : nat) | Complete (i : nat) (ec : bool).

Definition goto (i : nat) (p : pc) (s : system) : list pc := <[i := p]> s.(threads).
Definition leave (i : nat) (s : system) : list pc := delete i s.(threads).

Definition exec (c : choice) (s : system) : option system :=
  let w := s.(shared) in
  match c with
  | Enter j => Some (mk_system w (s.(threads) ++ [Push j]) s.(pushed))
  | Run i =>
      p ← s.(threads) !! i;
      Some match p with
      | Push j => mk_system (push j w) (goto i Test s) (s.(pushed) ++ [j])
      | Test => mk_system w (if w.(is_writing_) then leave i s else goto i Set_ s) s.(pushed)
      | Set_ => mk_system (set_writing true w) (goto i Pop s) s.(pushed)
      | Pop => match pop_and_write w with
               | Some w => mk_system w (leave i s) s.(pushed)
               | None => mk_system w (goto i Clear s) s.(pushed)
               end
      | Clear => mk_system (set_writing false w) (leave i s) s.(pushed)
      end
  | Complete i ec =>
      w ← complete i ec w;
      Some (mk_system w (s.(threads) ++ [if ec then Clear else Pop]) s.(pushed))
  end.

Fixpoint execs (cs : list choice) (s : system) : option system :=
  match cs with
  | [] => Some s
  | c :: cs => s ← exec c s; execs cs s
  end.

End v1.
End v1.

(** ** [v2]: every call and every completed write post [start_write_packet] to the
    strand; nothing tests whether a write is in flight. *)
Module v2.
Section v2.
Context {Packet : Type}.
Implicit Types (j : write_job Packet) (w : writer Packet).

Record state := mk_state { base : writer Packet; posted : nat }.

Definition start_write_socket j (s : state) : state :=
  mk_state (push j s.(base)) (S s.(posted)).

(** A posted [start_write_packet] runs. *)
Definition start_write_packet (s : state) : option state :=
  match s.(posted) with
  | O => None
  | S n => Some (mk_state (default s.(base) (pop_and_write s.(base))) n)
  end.

Definition on_written (i : nat) (ec : bool) (s : state) : option state :=
  w ← complete i ec s.(base);
  Some (mk_state w (if ec then s.(posted) else S s.(posted))).

Inductive event := Call (j : write_job Packet) | Packet_ | Written (i : nat) (ec : bool).

Definition step (e : event) (s : state) : option state :=
  match e with
  | Call j => Some (start_write_socket j s)
  | Packet_ => start_write_packet s
  | Written i ec => on_written i ec s
  end.

Fixpoint steps (es : list event) (s : state) : option state :=
  match es with
  | [] => Some s
  | e :: es => s ← step e s; steps es s
  end.

End v2.
End v2.

(** ** Lemmas *)

Lemma delete_insert_list {A} (l : list A) i (x : A) : delete i (<[i := x]> l) = delete i l.
Proof. revert i. induction l as [|y l IH]; intros [|i]; cbn; [done..|]. f_equal. apply IH. Qed.

Section facts.
Context {Packet : Type}.
Implicit Types (j : write_job Packet) (w : writer Packet) (s : v1.system (Packet := Packet)).
Import v1.

(** The jobs of the calls that have not pushed yet. *)
Definition pending (ts : list pc) : list (write_job Packet) :=
  omap (fun p => match p with Push j => Some j | _ => None end) ts.

Definition entered (cs : list choice) : list (write_job Packet) :=
  omap (fun c => match c with Enter j => Some j | _ => None end) cs.

Lemma pending_cons p ts : pending (p :: ts) = pending [p] ++ pending ts.
Proof. by destruct p. Qed.

Lemma pending_insert ts i p q : ts !! i = Some p ->
  pending [p] = pending [q] -> pending (<[i := q]> ts) = pending ts.
Proof.
  revert i. induction ts as [|r ts IH]; intros [|i] Hi E; [done|done| |].
  - cbn in Hi. injection Hi as ->. cbn [insert list_insert]. by rewrite pending_cons, <- E, <- pending_cons.
  - cbn [insert list_insert]. rewrite (pending_cons r), (pending_cons r ts). f_equal. by apply IH.
Qed.

Lemma pending_delete ts i p : ts !! i = Some p -> pending ts ≡ₚ pending [p] ++ pending (delete i ts).
Proof.
  intros Hi. unfold pending. rewrite (delete_Permutation ts i p Hi) at 1. by destruct p.
Qed.

Lemma pending_set ts i p q : ts !! i = Some p -> pending (<[i := q]> ts) ≡ₚ pending [q] ++ pending (delete i ts).
Proof.
  intros Hi. rewrite (pending_delete (<[i := q]> ts) i q).
  - by rewrite delete_insert_list.
  - by eapply list_lookup_insert_eq, lookup_lt_Some.
Qed.

(** What holds after every shared access. *)
Record consistent (cs : list choice) s : Prop := {
  ct_fifo : s.(pushed) = s.(shared).(started) ++ s.(shared).(write_queue_);
  ct_once : s.(shared).(started) ≡ₚ s.(shared).(in_flight) ++ s.(shared).(called).*1;
  ct_entered : entered cs ≡ₚ s.(pushed) ++ pending s.(threads)
}.

Lemma entered_snoc cs c : entered (cs ++ [c]) = entered cs ++ entered [c].
Proof. apply omap_app. Qed.

Lemma pop_and_write_fifo w w' : pop_and_write w = Some w' ->
  w'.(started) ++ w'.(write_queue_) = w.(started) ++ w.(write_queue_) /\
  w'.(called) = w.(called) /\
  (w.(started) ≡ₚ w.(in_flight) ++ w.(called).*1 -> w'.(started) ≡ₚ w'.(in_flight) ++ w'.(called).*1).
Proof.
  unfold pop_and_write. destruct w as [[|j q] f fl st cl]; cbn; [done|]. intros [= <-]. cbn.
  split; [by rewrite <- (assoc_L (++))|]. split; [done|]. intros ->. solve_Permutation.
Qed.

Lemma complete_once i ec w w' : complete i ec w = Some w' ->
  w'.(started) = w.(started) /\ w'.(write_queue_) = w.(write_queue_) /\
  w'.(in_flight) ++ w'.(called).*1 ≡ₚ w.(in_flight) ++ w.(called).*1.
Proof.
  unfold complete. destruct (w.(in_flight) !! i) as [j|] eqn:Ej; [|done]. intros [= <-]. cbn.
  split_and!; [done..|]. rewrite (delete_Permutation _ _ _ Ej) at 2. rewrite fmap_app. cbn.
  solve_Permutation.
Qed.

Lemma exec_consistent cs s c s' : consistent cs s -> exec c s = Some s' -> consistent (cs ++ [c]) s'.
Proof.
  intros [Hf Ho He] E. destruct c as [j|i|i ec]; cbn in E.
  - simplify_eq/=. split; [done|done|]. cbn. rewrite entered_snoc, He. unfold pending. rewrite omap_app.
    cbn. by rewrite (assoc_L (++)).
  - destruct (s.(threads) !! i) as [p|] eqn:Hi; [|done]. cbn in E. injection E as <-.
    assert (entered (cs ++ [Run i]) = entered cs) as Hc by (rewrite entered_snoc; apply app_nil_r).
    destruct p as [j| | | |].
    + split; cbn; [by rewrite Hf, (assoc_L (++))|done|].
      rewrite Hc, He, (pending_delete _ _ _ Hi). unfold goto. rewrite (pending_set _ _ _ _ Hi). cbn.
      solve_Permutation.
    + destruct (is_writing_ _); split; cbn; try done.
      * by rewrite Hc, He, (pending_delete _ _ _ Hi).
      * unfold goto. by rewrite Hc, He, (pending_insert _ _ _ _ Hi).
    + split; cbn; [done|done|]. unfold goto. by rewrite Hc, He, (pending_insert _ _ _ _ Hi).
    + destruct (pop_and_write _) as [w'|] eqn:Ep.
      * apply pop_and_write_fifo in Ep as (Eq & _ & Hp). split; cbn; [by rewrite Hf, Eq|by apply Hp|].
        by rewrite Hc, He, (pending_delete _ _ _ Hi).
      * split; cbn; [done|done|]. unfold goto. by rewrite Hc, He, (pending_insert _ _ _ _ Hi).
    + split; cbn; [done|done|]. by rewrite Hc, He, (pending_delete _ _ _ Hi).
  - destruct (complete i ec _) as [w'|] eqn:Ec; [|done]. cbn in E. injection E as <-.
    apply complete_once in Ec as (Es & Eq & Hp). split; cbn.
    + by rewrite Hf, Es, Eq.
    + by rewrite Es, Hp.
    + rewrite entered_snoc. cbn. rewrite app_nil_r, He. unfold pending. rewrite omap_app.
      destruct ec; cbn; by rewrite app_nil_r.
Qed.

Lemma execs_consistent cs0 cs s s' : consistent cs0 s -> execs cs s = Some s' -> consistent (cs0 ++ cs) s'.
Proof.
  revert cs0 s. induction cs as [|c cs IH]; intros cs0 s Hs E; cbn in E.
  - simplify_eq. by rewrite app_nil_r.
  - destruct (exec c s) as [s1|] eqn:Es; [|done]. cbn in E.
    rewrite (cons_middle c cs0 cs), (assoc_L (++)). eapply IH; [by eapply exec_consistent|done].
Qed.

(** *** Runs without overlap and without errors *)

Definition fault_free (e : event (Packet := Packet)) : Prop := e <> Written true.

(** The jobs of the calls are, in order, those done, the one in flight and the queue. *)
Record delivering (js : list (write_job Packet)) w : Prop := {
  dl_jobs : js = w.(called).*1 ++ w.(in_flight) ++ w.(write_queue_);
  dl_called : Forall (fun c => c.2 = false) w.(called);
  dl_started : w.(started) = w.(called).*1 ++ w.(in_flight);
  dl_busy : if w.(is_writing_) then length w.(in_flight) = 1%nat
            else w.(in_flight) = [] /\ w.(write_queue_) = []
}.

Lemma start_one_delivering js w : delivering js w \/ w.(is_writing_) = true /\
    js = w.(called).*1 ++ w.(in_flight) ++ w.(write_queue_) /\ Forall (fun c => c.2 = false) w.(called) /\
    w.(started) = w.(called).*1 ++ w.(in_flight) /\ w.(in_flight) = [] ->
  w.(in_flight) = [] -> w.(is_writing_) = true ->
  delivering js (start_write_one_packet w).
Proof.
  intros H Hf Hw. assert (js = w.(called).*1 ++ w.(write_queue_) /\ Forall (fun c => c.2 = false) w.(called) /\
    w.(started) = w.(called).*1) as (Hj & Hc & Hs).
  { destruct H as [[Hj Hc Hs Hb]|(_ & Hj & Hc & Hs & _)]; rewrite Hf in Hj, Hs; cbn in Hj;
      rewrite ?app_nil_r in Hs; done. }
  unfold start_write_one_packet, pop_and_write. destruct w as [[|j q] f fl st cl]; cbn in *; subst;
    split; cbn; rewrite ?app_nil_r; done.
Qed.

Lemma serial_step_delivering js w e : delivering js w -> fault_free e ->
  (forall ec, e = Written ec -> w.(in_flight) <> []) ->
  exists w', serial_step e w = Some w' /\ delivering (js ++ jobs [e]) w'.
Proof.
  intros [Hj Hc Hs Hb] He Hf. destruct e as [j|[]]; cbn [serial_step]; [|by destruct (He eq_refl)|].
  - eexists. split; [done|]. unfold start_write_socket. cbn [is_writing_ push].
    destruct (w.(is_writing_)) eqn:Ew.
    + split; cbn; rewrite ?Ew; try done. by rewrite Hj, <- !(assoc_L (++)).
    + destruct Hb as [Hf0 Hq]. apply start_one_delivering; [|done|done].
      right. cbn. rewrite Hf0, Hq in *. split_and!; try done. by rewrite Hj, !app_nil_r.
  - specialize (Hf false eq_refl). unfold on_written, complete.
    destruct (w.(is_writing_)) eqn:Ew; [|by destruct Hb]. destruct (w.(in_flight)) as [|j [|]] eqn:Ef; try done.
    cbn [lookup list_lookup mbind option_bind]. eexists. split; [done|].
    apply start_one_delivering; [|done|done]. right. cbn. rewrite fmap_app, Hs.
    rewrite Hj, <- !(assoc_L (++)), app_nil_r. split_and!; try done. apply Forall_app. by split; [|apply Forall_singleton].
Qed.

Lemma jobs_app es es' : jobs (Packet := Packet) (es ++ es') = jobs es ++ jobs es'.
Proof. apply omap_app. Qed.

Lemma serial_delivering es js w w' : delivering js w -> Forall fault_free es -> serial es w = Some w' ->
  delivering (js ++ jobs es) w'.
Proof.
  revert js w. induction es as [|e es IH]; intros js w Hd Hes E; cbn in E.
  - simplify_eq. by rewrite app_nil_r.
  - apply Forall_cons in Hes as [He Hes]. destruct (serial_step e w) as [w1|] eqn:E1; [|done]. cbn in E.
    destruct (serial_step_delivering js w e Hd He) as (w1' & E1' & Hd1).
    + intros ec -> Hf. cbn in E1. unfold on_written, complete in E1. by rewrite Hf in E1.
    + rewrite E1 in E1'. simplify_eq. change (e :: es) with ([e] ++ es).
    rewrite jobs_app, (assoc_L (++)). by eapply IH.
Qed.

(** The completions still due empty the queue. *)
Lemma serial_drains js w : delivering js w ->
  exists w', serial (replicate (length w.(in_flight) + length w.(write_queue_)) (Written false)) w = Some w' /\
    delivering js w' /\ w'.(in_flight) = [] /\ w'.(write_queue_) = [].
Proof.
  remember (length w.(in_flight) + length w.(write_queue_))%nat as n eqn:En. revert w En.
  induction n as [|n IH]; intros w En Hd; cbn [replicate serial].
  - exists w. destruct (w.(in_flight)), (w.(write_queue_)); done.
  - destruct (serial_step_delivering js w (Written false) Hd) as (w1 & E1 & Hd1); [done| |].
    { intros _ _ Hf. destruct Hd as [_ _ _ Hb]. rewrite Hf in Hb, En. destruct (w.(is_writing_)); [done|].
      destruct Hb as [_ Hq]. by rewrite Hq in En. }
    rewrite E1. cbn [mbind option_bind]. cbn in Hd1. rewrite app_nil_r in Hd1.
    destruct (IH w1) as (w' & E' & Hw'); [|done|].
    + destruct Hd as [Hj _ _ _], Hd1 as [Hj1 _ _ _]. cbn in E1. unfold on_written, complete in E1.
      destruct (w.(in_flight) !! 0%nat) as [j|] eqn:Ej; [|done]. cbn in E1.
      apply (f_equal length) in Hj, Hj1. rewrite Hj1 in Hj. rewrite !length_app, !length_fmap in Hj.
      assert (w1.(called) = w.(called) ++ [(j, false)]) as Hcl.
      { unfold start_write_one_packet, pop_and_write in E1. cbn in E1.
        destruct (w.(write_queue_)); cbn in E1; by simplify_eq/=. }
      rewrite Hcl, length_app in Hj. cbn in Hj. lia.
    + exists w'. by rewrite E'.
Qed.

Lemma faultless_pairs (l : list (write_job Packet * bool)) : Forall (fun c => c.2 = false) l ->
  l = (fun j => (j, false)) <$> l.*1.
Proof.
  induction 1 as [|[j b] l Hb Hl IH]; [done|]. cbn in Hb. subst. cbn [fmap list_fmap fst]. by f_equal.
Qed.

Lemma delivering_empty : delivering [] empty_writer.
Proof. by split. Qed.
End facts.

(** ** Serial runs are interleavings *)
Section embedding.
Context {Packet : Type}.
Import v1.
Implicit Types (j : write_job Packet) (w : writer Packet).

Lemma execs_app cs cs' (s : system (Packet := Packet)) : execs (cs ++ cs') s = execs cs s ≫= execs cs'.
Proof. revert s. induction cs as [|c cs IH]; intros s; [done|]. cbn [execs app].
  destruct (exec c s) as [s1|]; [apply IH|done]. Qed.

Lemma call_is_schedule j w ps : exists cs,
  execs (Enter j :: cs) (mk_system w [] ps) = Some (mk_system (start_write_socket j w) [] (ps ++ [j])).
Proof.
  destruct w as [q f fl st cl]. exists (replicate (if f then 2 else 4) (Run 0)).
  destruct f; [done|]. by destruct q.
Qed.

Lemma written_is_schedule ec w w' ps : on_written 0 ec w = Some w' -> exists cs,
  execs (Complete 0 ec :: cs) (mk_system w [] ps) = Some (mk_system w' [] ps).
Proof.
  unfold on_written. destruct (complete 0 ec w) as [w1|] eqn:E; [|done]. cbn. intros [= <-].
  rewrite E. cbn. destruct ec; [by exists [Run 0]|].
  unfold start_write_one_packet. destruct (pop_and_write w1) as [w2|] eqn:Ep.
  - exists [Run 0]. cbn. by rewrite Ep.
  - exists [Run 0; Run 0]. cbn. by rewrite Ep.
Qed.

Lemma serial_is_schedule es w w' ps : serial es w = Some w' -> exists cs,
  execs cs (mk_system w [] ps) = Some (mk_system w' [] (ps ++ jobs es)).
Proof.
  revert w ps. induction es as [|e es IH]; intros w ps E; cbn in E.
  - simplify_eq. exists []. cbn. by rewrite app_nil_r.
  - destruct (serial_step e w) as [w1|] eqn:E1; [|done]. cbn in E.
    destruct (IH w1 (ps ++ jobs [e]) E) as [cs2 E2].
    assert (exists cs1, execs cs1 (mk_system w [] ps) = Some (mk_system w1 [] (ps ++ jobs [e]))) as [cs1 Ecs].
    { destruct e as [j|ec]; cbn in E1.
      - simplify_eq. destruct (call_is_schedule j w ps) as [cs Ecs]. by eexists.
      - destruct (written_is_schedule ec w w1 ps E1) as [cs Ecs]. eexists. cbn. rewrite app_nil_r. done. }
    exists (cs1 ++ cs2). rewrite execs_app, Ecs. cbn [mbind option_bind]. rewrite E2. do 2 f_equal.
    change (e :: es) with ([e] ++ es). by rewrite jobs_app, (assoc_L (++)).
Qed.
End embedding.

Section v2_facts.
Context {Packet : Type}.
Import v2.
Implicit Types (s : state (Packet := Packet)).

Lemma v2_step_posted e s s' : step e s = Some s' ->
  (length s.(base).(write_queue_) <= s.(posted))%nat -> (length s'.(base).(write_queue_) <= s'.(posted))%nat.
Proof.
  destruct e as [j| |i ec]; cbn.
  - intros [= <-]. cbn. rewrite length_app. cbn. lia.
  - unfold start_write_packet, pop_and_write. destruct (posted s); [done|].
    destruct (write_queue_ (base s)) as [|j q] eqn:Eq; intros [= <-]; cbn; rewrite ?Eq; cbn; lia.
  - unfold on_written, complete. destruct (in_flight (base s) !! i); [|done]. intros [= <-]. cbn.
    destruct ec; lia.
Qed.

Lemma v2_steps_posted es s s' : steps es s = Some s' ->
  (length s.(base).(write_queue_) <= s.(posted))%nat -> (length s'.(base).(write_queue_) <= s'.(posted))%nat.
Proof.
  revert s. induction es as [|e es IH]; intros s E; cbn in E; [by simplify_eq|].
  destruct (step e s) as [s1|] eqn:E1; [|done]. cbn in E. intros H.
  eapply IH, v2_step_posted; done.
Qed.

Lemma v2_drains s : (length s.(base).(write_queue_) <= s.(posted))%nat ->
  exists s', steps (replicate s.(posted) Packet_) s = Some s' /\ s'.(base).(write_queue_) = [].
Proof.
  destruct s as [w n]. revert w. induction n as [|n IH]; intros w H; cbn in H.
  - eexists. split; [done|]. cbn. destruct (write_queue_ w); [done|cbn in H; lia].
  - cbn [posted replicate steps]. cbn [step]. unfold start_write_packet. cbn [posted base mbind option_bind].
    apply IH. unfold pop_and_write. destruct (write_queue_ w) eqn:E; cbn; [rewrite E; cbn|]; cbn in H; lia.
Qed.
End v2_facts.

(** ** Properties *)

(** A job of the proxy: a packet that is serialized when it is written. *)
Definition packet_job (n : nat) (p : pack.packet) : write_job pack.packet := mk_job p None n.

Definition sends_packet (j : write_job pack.packet) : Prop :=
  j.(bufptr) = None /\ pack.wf_header j.(job_pack).(pack.header) /\
  Z.of_nat (length j.(job_pack).(pack.data)) < 2 ^ 32.

(** C13. Whenever calls and completions do not overlap and writes succeed, at most one
    write is in flight at any time, and the completions that are still due deliver
    everything: after as many completions as there are jobs queued or in flight, the
    writer is idle, every callback has been invoked once, in the order of the calls
    and without an error, and the peer reads exactly the packets of the calls, in
    order, from the bytes written. *)
Theorem serial_delivers (es : list (v1.event (Packet := pack.packet))) w
    (Hes : Forall fault_free es) (E : v1.serial es empty_writer = Some w)
    (Hjs : Forall sends_packet (v1.jobs es)) :
  (length w.(in_flight) <= 1)%nat /\
  exists w', v1.serial (replicate (length w.(in_flight) + length w.(write_queue_)) (v1.Written false)) w = Some w' /\
    w'.(in_flight) = [] /\ w'.(write_queue_) = [] /\ w'.(is_writing_) = false /\
    w'.(called) = (fun j => (j, false)) <$> v1.jobs es /\
    read_packs (length (v1.jobs es))
      (concat (job_bytes (fun p => (pack.serialize p).2) <$> w'.(started)))
    = Some ((fun j => (pack.serialize j.(job_pack)).1) <$> v1.jobs es, []).
Proof.
  pose proof (serial_delivering es [] _ w delivering_empty Hes E) as Hd. cbn [app] in Hd.
  split; [destruct Hd as [_ _ _ Hb]; destruct (is_writing_ w); [|destruct Hb as [-> _]; cbn]; lia|].
  destruct (serial_drains _ w Hd) as (w' & E' & [Hj Hc Hs Hb] & Hf & Hq). exists w'.
  rewrite Hf, Hq, !app_nil_r in *. split_and!; try done.
  - by destruct (is_writing_ w').
  - rewrite Hj. by apply faultless_pairs.
  - rewrite Hs, <- Hj. clear -Hjs. set (js := v1.jobs es) in *. clearbody js.
    pose proof (read_packs_concat (job_pack <$> js) []) as H. rewrite length_fmap, app_nil_r in H.
    rewrite <- !list_fmap_compose in H. unfold compose in H. rewrite <- H.
    + do 2 f_equal. apply list_fmap_ext. intros i j Hij.
      rewrite Forall_lookup in Hjs. destruct (Hjs i j Hij) as [Hn _]. unfold job_bytes. by rewrite Hn.
    + apply Forall_fmap. eapply Forall_impl; [done|]. by intros j (_ & ? & ?).
Qed.

Definition sample_packet (b : byte) : pack.packet :=
  pack.mk_packet (pack.mk_header 1 0 (replicate 32 b) 0 (replicate 4 b) (replicate 4 x00)) [b].

Definition two_calls : list v1.event :=
  [v1.Call (packet_job 0 (sample_packet x61)); v1.Call (packet_job 1 (sample_packet x62))].

Lemma serial_delivers_witness : exists w w',
  v1.serial two_calls empty_writer = Some w /\ length w.(write_queue_) = 1%nat /\
  v1.serial [v1.Written false; v1.Written false] w = Some w' /\
  (fun c => next c.1) <$> w'.(called) = [0; 1]%nat.
Proof.
  destruct (serial_delivers two_calls
    (mk_writer [packet_job 1 (sample_packet x62)] true [packet_job 0 (sample_packet x61)]
       [packet_job 0 (sample_packet x61)] [])) as (_ & w' & E & _ & _ & _ & Hc & _).
  - by repeat constructor.
  - reflexivity.
  - repeat constructor; done.
  - eexists _, w'. split; [reflexivity|]. split; [reflexivity|]. split; [exact E|]. by rewrite Hc.
Defined.

(** Under every interleaving of the shared accesses of calls and completions, with
    failing writes or not, jobs are written in the order in which they were queued
    and none is lost or written twice: what was queued is what was started followed
    by the queue, every started job is in flight or has had its callback invoked
    once, and every job handed to a call has been queued or is about to be.  The
    non-overlapping runs are among the interleavings. *)
Theorem fifo_any_interleaving {Packet} :
  (forall cs (s : v1.system (Packet := Packet)), v1.execs cs v1.init = Some s -> consistent cs s) /\
  (forall es (w : writer Packet), v1.serial es empty_writer = Some w ->
     exists cs, v1.execs cs v1.init = Some (v1.mk_system w [] (v1.jobs es))).
Proof.
  split.
  - intros cs s E. by apply (execs_consistent [] cs v1.init s).
  - intros es w E. by apply serial_is_schedule with (ps := []).
Qed.

(** A failed write parks the queue: when the write in flight fails, its callback
    gets the error, but the callbacks of the queued jobs are not invoked and nothing
    is written any more, until some later call - whose own job then waits behind the
    oldest of them. *)
Theorem failed_write_parks_queue {Packet} (es : list (v1.event (Packet := Packet))) w j1 q
    (Hes : Forall fault_free es) (E : v1.serial es empty_writer = Some w)
    (Hq : w.(write_queue_) = j1 :: q) :
  exists j0 w', w.(in_flight) = [j0] /\ v1.serial_step (v1.Written true) w = Some w' /\
    w'.(called) = w.(called) ++ [(j0, true)] /\ w'.(write_queue_) = j1 :: q /\
    w'.(in_flight) = [] /\ w'.(is_writing_) = false /\
    (forall ec, v1.serial_step (v1.Written ec) w' = None) /\
    (forall j, exists w'', v1.serial_step (v1.Call j) w' = Some w'' /\
       w''.(in_flight) = [j1] /\ w''.(write_queue_) = q ++ [j]).
Proof.
  destruct (serial_delivering es [] _ w delivering_empty Hes E) as [Hj _ _ Hb].
  destruct w as [q0 f fl st cl]. cbn in *. subst q0. destruct f; [|by destruct Hb].
  destruct fl as [|j0 [|]]; try done. eexists j0, _. cbn. split_and!; try done.
  intros j. eexists. done.
Qed.

Lemma failed_write_parks_queue_witness : exists w w',
  v1.serial two_calls empty_writer = Some w /\ v1.serial_step (v1.Written true) w = Some w' /\
  length w'.(write_queue_) = 1%nat /\ w'.(in_flight) = [].
Proof.
  destruct (failed_write_parks_queue two_calls
    (mk_writer [packet_job 1 (sample_packet x62)] true [packet_job 0 (sample_packet x61)]
       [packet_job 0 (sample_packet x61)] []) (packet_job 1 (sample_packet x62)) [])
    as (j0 & w' & _ & E & _ & Hq & Hf & _).
  - by repeat constructor.
  - reflexivity.
  - reflexivity.
  - eexists _, w'. split; [reflexivity|]. split; [exact E|]. by rewrite Hq.
Defined.

(** The test and the store of [is_writing_] are separate accesses, and
    interleavings break what serial runs have: two calls can both start a write, so
    that two writes of the socket are in flight at once; and a job pushed between
    the failed pop and the store of [false] stays in the queue with no thread, no
    write in flight and the flag down.  [v2] posts a run per call instead: a queued
    job always has a run to come that writes it, but two writes are in flight after
    two calls even when nothing overlaps. *)
Theorem interleavings_break {Packet} (a b : write_job Packet) :
  (exists cs s, v1.execs cs v1.init = Some s /\ s.(v1.shared).(in_flight) = [a; b]) /\
  (exists cs s, v1.execs cs v1.init = Some s /\ s.(v1.threads) = [] /\
     s.(v1.shared).(in_flight) = [] /\ s.(v1.shared).(is_writing_) = false /\
     s.(v1.shared).(write_queue_) = [b]) /\
  (forall es (s : v2.state (Packet := Packet)), v2.steps es (v2.mk_state empty_writer 0) = Some s ->
     exists s', v2.steps (replicate s.(v2.posted) v2.Packet_) s = Some s' /\ s'.(v2.base).(write_queue_) = []) /\
  (exists s, v2.steps [v2.Call a; v2.Call b; v2.Packet_; v2.Packet_] (v2.mk_state empty_writer 0) = Some s /\
     s.(v2.base).(in_flight) = [a; b]).
Proof.
  split_and!.
  - exists [v1.Enter a; v1.Enter b; v1.Run 0; v1.Run 1; v1.Run 0; v1.Run 1; v1.Run 0; v1.Run 1; v1.Run 0; v1.Run 0].
    eexists. split; [vm_compute; reflexivity|]. split.
  - exists [v1.Enter a; v1.Run 0; v1.Run 0; v1.Run 0; v1.Run 0; v1.Complete 0 false; v1.Run 0;
            v1.Enter b; v1.Run 1; v1.Run 1; v1.Run 0]. eexists. split; [vm_compute; reflexivity|]. repeat split.
  - intros es s E. apply v2_drains. eapply v2_steps_posted; [exact E|done].
  - eexists. split; [vm_compute; reflexivity|]. split.
Qed.
