(* ===== verification/Client.v ===== *)
(** * Requests made by the client library ([clients/clientlib-packet-create.hpp])

    One function per request, from the keys and names, and one from paths.  A request
    is built in a [jsre::request] on the stack, into which names and keys are copied
    with [memcpy] of their own length: the model copies into the 80-byte image of the
    structure, in the order of the code, and a copy past its end is [None].  SHA-256,
    which turns a path into a key, is the parameter [get_uuid]. *)
From Stdlib Require Import ZArith Lia.
From stdpp Require Import base tactics option list gmap strings.
From S2P Require Import Prelude Wire Request Coordinator.

(** ** Paths *)

Definition slash : byte := x2f.

(** [find_last_of]. *)
Fixpoint find_last_of (c : byte) (s : bytes) : option nat :=
  match s with
  | [] => None
  | x :: s => match find_last_of c s with
              | Some n => Some (S n)
              | None => if decide (x = c) then Some O else None
              end
  end.

Definition drop_trailing_slash (path : bytes) : bytes :=
  if decide (last path = Some slash) then removelast path else path.

Definition split_path (path : bytes) : bytes * bytes :=
  if decide (path = [slash]) then ([], [slash])
  else
    let normalized_path := drop_trailing_slash path in
    match find_last_of slash normalized_path with
    | None => ([], path)
    | Some O => ([slash], drop 1 normalized_path)
    | Some n => (take (S n) normalized_path, drop (S n) normalized_path)
    end.

Definition get_parent_path (path : bytes) : bytes := fst (split_path path).

(** A directory is named with a slash at the end. *)
Definition directory_path (path : bytes) : bytes :=
  match last path with
  | None => path
  | Some c => if decide (c = slash) then path else path ++ [slash]
  end.

(** ** Requests *)

(** [memcpy] of [min (size, sizeof (r))] bytes to a member of the request. *)
Definition copy_name (name r : bytes) : option bytes := mem_set 12 (take sizeof_request name) r.
Definition copy_key (key r : bytes) : option bytes := mem_set 46 (take sizeof_request key) r.

(** The image of a request in network order whose name and key are zero. *)
Definition request_image (t : type_t) (op : Z) (position size : Z) : bytes :=
  store_request (request_to_network (mk_request (type_code t) op position size
    (replicate file_name_length x00) (replicate key_length x00))).

Definition meta_image (op : meta_operation_t) (size : Z) : bytes :=
  request_image metadata (meta_operation_code op) 0 size.

Module packet_create.
Section packet_create.
(** The bytes [gen] draws for the salt and the sequence number. *)
Variables salt sequence : bytes.

Definition trigger_packet (key payload : bytes) : pack.packet :=
  pack.mk_packet (pack.gen salt sequence
    (pack.mk_header (pack.code pack.trigger) 0 key 0 (replicate 4 x00) (replicate 4 x00))) payload.

(** Owner 0 and permission 040777, of a file or of a directory. *)
Definition default_filemeta : bytes :=
  meta.store_filemeta (meta.filemeta_to_network (meta.mk_filemeta 0 16895)).
Definition default_dirmeta : bytes :=
  meta.store_dirmeta (meta.dirmeta_to_network (meta.mk_dirmeta 0 16895)).

Definition init (key : bytes) : pack.packet := trigger_packet key (meta_image Request.init 0).

(** [lock] and [unlock] name the operation [init]. *)
Definition lock (key : bytes) : pack.packet := trigger_packet key (meta_image Request.init 0).
Definition unlock (key : bytes) : pack.packet := trigger_packet key (meta_image Request.init 0).

(** The buffer holds two requests' worth of bytes. *)
Definition mkdir (key dir_name dir_key : bytes) : option pack.packet :=
  r ← copy_name dir_name (meta_image Request.mkdir 4);
  r ← copy_key dir_key r;
  Some (trigger_packet key (resize_to (2 * sizeof_request) (r ++ default_dirmeta))).

Definition delete_file (key file_name file_key : bytes) : option pack.packet :=
  r ← copy_key file_key (meta_image deletefile 0);
  r ← copy_name file_name r;
  Some (trigger_packet key r).

(** [rename_info] is filled the same way: 98 bytes with the new name at the end. *)
Definition rename_file (key file_key new_file_key file_name file_parent_key new_file_name : bytes)
    : option pack.packet :=
  let m := replicate meta.sizeof_rename_info x00 in
  m ← mem_set 0 (take meta.sizeof_rename_info new_file_key) m;
  m ← mem_set 32 (take meta.sizeof_rename_info file_parent_key) m;
  m ← mem_set 64 (take meta.sizeof_rename_info new_file_name) m;
  r ← copy_key file_key (meta_image rename_sameproxy 98);
  r ← copy_name file_name r;
  Some (trigger_packet key (r ++ m)).

Definition add_file (key file_name : bytes) : option pack.packet :=
  r ← copy_name file_name (meta_image addfile 4);
  Some (trigger_packet key (r ++ default_filemeta)).

Definition open (key file_name file_key : bytes) : option pack.packet :=
  r ← copy_key file_key (meta_image Request.open 0);
  r ← copy_name file_name r;
  Some (trigger_packet key r).

Definition close (key file_key : bytes) : option pack.packet :=
  r ← copy_key file_key (meta_image Request.close 0);
  Some (trigger_packet key r).

Definition ls (directory : bytes) : pack.packet := trigger_packet directory (meta_image Request.ls 0).

Definition get_stat (key name : bytes) (is_directory : bool) : option pack.packet :=
  r ← copy_name name (meta_image (if is_directory then getstatdir else getstatfile) 0);
  Some (trigger_packet key r).

Definition write_v2 (key buf file_key file_name : bytes) (position : Z) : option pack.packet :=
  r ← copy_name file_name (request_image file (operation_code write) position (u32 (Z.of_nat (length buf))));
  r ← copy_key file_key r;
  Some (trigger_packet key (r ++ buf)).

(** The older requests name no file. *)
Definition write_v1 (file_name buf : bytes) (position : Z) : pack.packet :=
  trigger_packet file_name
    (request_image file (operation_code write) position (u32 (Z.of_nat (length buf))) ++ buf).

Definition read_v1 (key : bytes) (size position : Z) : pack.packet :=
  trigger_packet key (request_image file (operation_code read) position size).

Definition create_and_write_file_single_request (parent_key buf file_key file_name : bytes)
    : option pack.packet :=
  r ← copy_name file_name (meta_image addfile_write (u32 (4 + Z.of_nat (length buf))));
  r ← copy_key file_key r;
  Some (trigger_packet parent_key (r ++ default_filemeta ++ buf)).

Definition read_v2 (key file_key : bytes) (size position : Z) : option pack.packet :=
  r ← mem_set 46 (take key_length file_key) (request_image file (operation_code read) position size);
  Some (trigger_packet key r).

(** *** From paths *)
Variable get_uuid : bytes -> bytes.

Definition init_path (root_directory : bytes) := init (get_uuid root_directory).
Definition lock_path (path : bytes) := lock (get_uuid path).
Definition unlock_path (path : bytes) := unlock (get_uuid path).

Definition mkdir_path (path : bytes) :=
  let path := directory_path path in
  let '(parent_path, dir_name) := split_path path in
  mkdir (get_uuid parent_path) dir_name (get_uuid path).

Definition delete_file_path (file_path : bytes) :=
  let '(parent_path, file_name) := split_path file_path in
  delete_file (get_uuid parent_path) file_name (get_uuid file_path).

Definition rename_file_path (file_path new_file_path : bytes) :=
  let '(new_parent_path, new_file_name) := split_path new_file_path in
  let '(parent_path, file_name) := split_path file_path in
  rename_file (get_uuid new_parent_path) (get_uuid file_path) (get_uuid new_file_path) file_name
    (get_uuid parent_path) new_file_name.

Definition addfile (directory file_name : bytes) := add_file (get_uuid directory) file_name.

Definition add_file_v2 (file_path : bytes) :=
  let '(parent_path, file_name) := split_path file_path in add_file (get_uuid parent_path) file_name.

Definition open_path (file_path : bytes) :=
  let '(parent_path, file_name) := split_path file_path in
  open (get_uuid parent_path) file_name (get_uuid file_path).

Definition close_path (file_path : bytes) :=
  let '(parent_path, file_name) := split_path file_path in
  close (get_uuid parent_path) (get_uuid file_path).

Definition ls_path (directory : bytes) := ls (get_uuid (directory_path directory)).

Definition get_stat_file (file_path : bytes) :=
  let '(parent_path, file_name) := split_path file_path in get_stat (get_uuid parent_path) file_name false.

Definition get_stat_dir (dir_path : bytes) :=
  let '(parent_path, dir_name) := split_path dir_path in get_stat (get_uuid parent_path) dir_name true.

Definition write_v2_path (file_path buf : bytes) (position : Z) :=
  let '(parent_path, file_name) := split_path file_path in
  write_v2 (get_uuid parent_path) buf (get_uuid file_path) file_name position.

Definition create_and_write_path (file_path buf : bytes) :=
  let '(parent_path, file_name) := split_path file_path in
  create_and_write_file_single_request (get_uuid parent_path) buf (get_uuid file_path) file_name.

Definition read_v2_path (file_path : bytes) (size position : Z) :=
  let '(parent_path, file_name) := split_path file_path in
  read_v2 (get_uuid parent_path) (get_uuid file_path) size position.

End packet_create.
End packet_create.

(** ** What a worker reads *)

Lemma find_last_of_None c s : find_last_of c s = None <-> c ∉ s.
Proof.
  induction s as [|x s IH]; cbn [find_last_of]; [split; [intros _; apply not_elem_of_nil|done]|].
  rewrite not_elem_of_cons. destruct (find_last_of c s) eqn:E.
  - split; [done|]. intros [_ Hn]. apply IH in Hn. done.
  - case_decide; [split; [done|]; intros [? _]; congruence|]. split; [|done].
    intros _. split; [congruence|by apply IH].
Qed.

Lemma find_last_of_app c a b : c ∉ b -> find_last_of c (a ++ c :: b) = Some (length a).
Proof.
  intros Hb. induction a as [|x a IH]; cbn [find_last_of app length].
  - apply find_last_of_None in Hb as ->. by rewrite decide_True.
  - by rewrite IH.
Qed.

(** The first 12 bytes of a request: type, operation, padding, position, size. *)
Definition head (t : type_t) (op position size : Z) : bytes :=
  le_bytes 1 (hton 1 (type_code t)) ++ le_bytes 1 (hton 1 op) ++ replicate 2 x00
  ++ le_bytes 4 (hton 4 position) ++ le_bytes 4 (hton 4 size).

Lemma length_head t op position size : length (head t op position size) = 12%nat.
Proof. unfold head. len. Qed.

Lemma request_image_head t op position size :
  request_image t op position size = head t op position size ++ replicate 68 x00.
Proof.
  unfold request_image, head, store_request. cbn [request_to_network r_type r_operation r_position
    r_size r_file_name r_file_key]. by rewrite <- !(assoc_L (++)), <- !replicate_add.
Qed.

(** Copies into the 68 bytes behind the head. *)
Lemma copy_name_tail name h t : length h = 12%nat -> length t = 68%nat -> (length name <= 68)%nat ->
  copy_name name (h ++ t) = Some (h ++ name ++ drop (length name) t).
Proof.
  intros Hh Ht Hn. unfold copy_name. rewrite take_ge by (unfold sizeof_request; lia).
  rewrite mem_set_app_r, Hh, mem_set_Some by lia. done.
Qed.

Lemma copy_name_long name h t : length h = 12%nat -> length t = 68%nat -> (68 < length name)%nat ->
  copy_name name (h ++ t) = None.
Proof.
  intros Hh Ht Hn. unfold copy_name. apply mem_set_None.
  rewrite length_app, length_take. unfold sizeof_request. lia.
Qed.

Lemma copy_key_tail key h t : length h = 12%nat -> length t = 68%nat -> length key = key_length ->
  copy_key key (h ++ t) = Some (h ++ take 34 t ++ key ++ drop 66 t).
Proof.
  intros Hh Ht Hk. unfold copy_key. rewrite take_ge by (rewrite Hk; unfold sizeof_request, key_length; lia).
  rewrite mem_set_app_r, Hh by lia. rewrite mem_set_Some by (rewrite Hk; unfold key_length; lia).
  by rewrite Hk.
Qed.

(** The fields that [request_parser] reads from a packet. *)
Record describes (p : pack.packet) (t : type_t) (op : Z) (i : input) : Prop := {
  ds_trigger : p.(pack.header).(pack.type) = pack.code pack.trigger;
  ds_type : request_parser.type p.(pack.data) = Some (type_code t);
  ds_operation : request_parser.operation p.(pack.data) = Some op;
  ds_input : parse_input p = Some i
}.

Lemma describes_tail salt sequence key t op position size tail d : length tail = 68%nat ->
  0 <= op < 256 -> 0 <= position < 2 ^ 32 -> 0 <= size < 2 ^ 32 ->
  describes (packet_create.trigger_packet salt sequence key (head t op position size ++ tail ++ d)) t op
    (mk_input key position size (until_nul (take 34 tail)) (take 32 (drop 34 tail)) d).
Proof.
  intros Ht Hop Hp Hs. unfold head. split; [done| | |unfold parse_input]; cbn [pack.data pack.header packet_create.trigger_packet];
    rewrite <- ?(assoc_L (++)).
  - unfold request_parser.type. assert (mem_get 0 1 _ = Some _) as -> by mem_field.
    cbn [mbind option_bind]. rewrite ntoh_le_hton by (auto; change (modulus 1) with 256; destruct t; cbn; lia). done.
  - unfold request_parser.operation. assert (mem_get 1 1 _ = Some _) as -> by mem_field.
    cbn [mbind option_bind]. by rewrite ntoh_le_hton by auto.
  - unfold request_parser.position, request_parser.size.
    assert (mem_get 4 4 _ = Some _) as -> by mem_field.
    assert (mem_get 8 4 _ = Some _) as -> by mem_field.
    cbn [mbind option_bind]. rewrite !ntoh_le_hton by auto.
    set (h := le_bytes 1 (hton 1 (type_code t)) ++ _).
    assert (h = head t op position size ++ tail ++ d) as -> by (unfold h, head; by rewrite <- ?(assoc_L (++))).
    unfold request_parser.file_name, request_parser.file_key, request_parser.data.
    rewrite (drop_app_length' _ _ 12) by (by rewrite length_head).
    rewrite take_app_le by (rewrite Ht; unfold file_name_length; lia).
    rewrite decide_True by (left; rewrite length_take, Ht; done).
    rewrite mem_get_app_r by (rewrite length_head; lia).
    rewrite length_head, mem_get_app_l by (rewrite Ht; unfold key_length; lia).
    rewrite mem_get_Some by (rewrite Ht; unfold key_length; lia). cbn [mbind option_bind].
    rewrite drop_app_ge by (rewrite length_head; unfold sizeof_request; lia).
    by rewrite length_head, drop_app_length' by (by rewrite Ht).
Qed.

(** The tails the functions build, from a name, a key, or both in either order. *)
Definition named (name : bytes) : bytes := name ++ drop (length name) (replicate 68 x00).
Definition keyed (key : bytes) : bytes := replicate 34 x00 ++ key ++ replicate 2 x00.
Definition key_then_name (key name : bytes) : bytes := name ++ drop (length name) (keyed key).
Definition name_then_key (name key : bytes) : bytes := take 34 (named name) ++ key ++ drop 66 (named name).

Lemma length_named name : (length name <= 68)%nat -> length (named name) = 68%nat.
Proof. intros. unfold named. rewrite length_app, length_drop, length_replicate. lia. Qed.

Lemma copy_named name h : (length name <= 68)%nat -> length h = 12%nat ->
  copy_name name (h ++ replicate 68 x00) = Some (h ++ named name).
Proof. intros. by apply copy_name_tail. Qed.

Section tails.
Variables (name key : bytes).
Hypotheses (Hn : (length name <= 68)%nat) (Hk : length key = key_length).

Lemma length_keyed : length (keyed key) = 68%nat.
Proof. unfold keyed. rewrite !length_app, !length_replicate, Hk. done. Qed.
Lemma length_key_then_name : length (key_then_name key name) = 68%nat.
Proof. unfold key_then_name. rewrite length_app, length_drop, length_keyed. lia. Qed.
Lemma length_name_then_key : length (name_then_key name key) = 68%nat.
Proof.
  unfold name_then_key. rewrite !length_app, length_take, length_drop, length_named, Hk by done.
  unfold key_length. lia.
Qed.

Lemma copy_keyed h : length h = 12%nat -> copy_key key (h ++ replicate 68 x00) = Some (h ++ keyed key).
Proof. intros. rewrite copy_key_tail by done. done. Qed.
Lemma copy_key_then_name h : length h = 12%nat ->
  copy_name name (h ++ keyed key) = Some (h ++ key_then_name key name).
Proof. intros. apply copy_name_tail; [done|apply length_keyed|done]. Qed.
Lemma copy_name_then_key h : length h = 12%nat ->
  copy_key key (h ++ named name) = Some (h ++ name_then_key name key).
Proof. intros. by apply copy_key_tail; [|by apply length_named|]. Qed.

Lemma name_then_key_key : take 32 (drop 34 (name_then_key name key)) = key.
Proof.
  unfold name_then_key. rewrite drop_app_length' by (by rewrite length_take, length_named by done).
  by rewrite take_app_length' by (by rewrite Hk).
Qed.
Lemma keyed_key : take 32 (drop 34 (keyed key)) = key.
Proof.
  unfold keyed. rewrite drop_app_length' by done. by rewrite take_app_length' by (by rewrite Hk).
Qed.
End tails.

(** A name without a NUL that fits its field. *)
Definition name_ok (name : bytes) : Prop := (length name <= file_name_length)%nat /\ x00 ∉ name.

Lemma until_nul_padded name n : x00 ∉ name -> until_nul (name ++ replicate n x00) = name.
Proof.
  intros H. destruct n; [rewrite app_nil_r; by apply until_nul_no_nul|]. by apply until_nul_app_nul.
Qed.

Lemma take_name name t : (length name <= 34)%nat ->
  take 34 (name ++ drop (length name) (replicate 34 x00 ++ t)) = name ++ replicate (34 - length name) x00.
Proof.
  intros H. rewrite take_app_ge by lia. f_equal. rewrite drop_app_le by (rewrite length_replicate; lia).
  rewrite drop_replicate, take_app_length' by (by rewrite length_replicate). done.
Qed.

Lemma named_name name : name_ok name -> until_nul (take 34 (named name)) = name.
Proof.
  intros [Hn H0]. unfold named. change (replicate 68 x00) with (replicate 34 x00 ++ replicate 34 x00).
  rewrite take_name by done. by apply until_nul_padded.
Qed.

Lemma name_then_key_name name key : name_ok name -> until_nul (take 34 (name_then_key name key)) = name.
Proof.
  intros Hn. unfold name_then_key. rewrite take_app_le, take_take by
    (destruct Hn as [Hn _]; rewrite length_take, length_named; unfold file_name_length in *; lia).
  by apply named_name.
Qed.

Lemma key_then_name_name key name : name_ok name -> until_nul (take 34 (key_then_name key name)) = name.
Proof. intros [Hn H0]. unfold key_then_name, keyed. rewrite take_name by done. by apply until_nul_padded. Qed.

Lemma key_then_name_key key name : name_ok name -> length key = key_length ->
  take 32 (drop 34 (key_then_name key name)) = key.
Proof.
  intros [Hn _] Hk. unfold key_then_name, file_name_length in *. rewrite drop_app_ge, drop_drop by lia.
  replace (length name + (34 - length name))%nat with 34%nat by lia. by apply keyed_key.
Qed.

Lemma named_key name : name_ok name -> take 32 (drop 34 (named name)) = replicate 32 x00.
Proof.
  intros [Hn _]. unfold file_name_length in *. unfold named. rewrite drop_app_ge, drop_drop by lia.
  replace (length name + (34 - length name))%nat with 34%nat by lia. done.
Qed.

(** A request that is made and that describes its arguments. *)
Definition makes (o : option pack.packet) (t : type_t) (op : Z) (i : input) : Prop :=
  exists p, o = Some p /\ describes p t op i.

Lemma makes_some p t op i : describes p t op i -> makes (Some p) t op i.
Proof. intros. by exists p. Qed.

Section requests.
Variables salt sequence : bytes.
Implicit Types (key name : bytes).

Lemma describes_fields key t op position size tail d n k : length tail = 68%nat ->
  0 <= op < 256 -> 0 <= position < 2 ^ 32 -> 0 <= size < 2 ^ 32 ->
  until_nul (take 34 tail) = n -> take 32 (drop 34 tail) = k ->
  describes (packet_create.trigger_packet salt sequence key (head t op position size ++ tail ++ d)) t op
    (mk_input key position size n k d).
Proof. intros ???? <- <-. by apply describes_tail. Qed.

Lemma describes_no_data key t op position size tail n k : length tail = 68%nat ->
  0 <= op < 256 -> 0 <= position < 2 ^ 32 -> 0 <= size < 2 ^ 32 ->
  until_nul (take 34 tail) = n -> take 32 (drop 34 tail) = k ->
  describes (packet_create.trigger_packet salt sequence key (head t op position size ++ tail)) t op
    (mk_input key position size n k []).
Proof. intros. rewrite <- (app_nil_r tail) at 1. by apply describes_fields. Qed.

Lemma resize_to_ge n b : (length b <= n)%nat -> resize_to n b = b ++ replicate (n - length b) x00.
Proof. intros. unfold resize_to. by rewrite take_ge. Qed.

(** The 98 bytes of a [rename_info]. *)
Lemma rename_image new_key parent_key new_name : length new_key = key_length ->
  length parent_key = key_length -> (length new_name <= file_name_length)%nat ->
  (m ← mem_set 0 (take meta.sizeof_rename_info new_key) (replicate meta.sizeof_rename_info x00);
   m ← mem_set 32 (take meta.sizeof_rename_info parent_key) m;
   mem_set 64 (take meta.sizeof_rename_info new_name) m)
  = Some (meta.store_rename_info (meta.mk_rename_info new_key parent_key
            (new_name ++ replicate (34 - length new_name) x00))).
Proof.
  intros H1 H2 H3. unfold key_length, file_name_length in *. rewrite !take_ge by (unfold meta.sizeof_rename_info; lia).
  change (replicate meta.sizeof_rename_info x00) with (replicate 32 x00 ++ replicate 32 x00 ++ replicate 34 x00).
  rewrite mem_set_Some by (rewrite !length_app, !length_replicate; lia). cbn [mbind option_bind].
  rewrite take_0, drop_app_length' by (by rewrite length_replicate, H1). cbn [app].
  rewrite mem_set_app_r, H1, mem_set_Some by (rewrite ?length_app, ?length_replicate; lia).
  rewrite take_0, drop_app_length' by (by rewrite length_replicate, H2). cbn [mbind option_bind fmap option_fmap option_map app].
  rewrite (assoc_L (++)), mem_set_app_r by (rewrite length_app; lia).
  rewrite length_app, H1, H2, mem_set_Some by (rewrite length_replicate; lia).
  cbn [fmap option_fmap option_map]. unfold meta.store_rename_info.
  cbn [meta.new_file_key meta.file_parent_key meta.new_file_name].
  cbn [Nat.sub take app Nat.add]. by rewrite drop_replicate, <- (assoc_L (++)).
Qed.

(** Unfolds a function to the head, the tail and the payload it builds. *)
Ltac make_request :=
  unfold meta_image; rewrite request_image_head;
  repeat (first [ rewrite copy_name_then_key by (apply length_head || done || (unfold name_ok, file_name_length in *; lia))
                | rewrite copy_key_then_name by (apply length_head || done || (unfold name_ok, file_name_length in *; lia))
                | rewrite copy_keyed by (apply length_head || done)
                | rewrite copy_named by (apply length_head || (unfold name_ok, file_name_length in *; lia)) ];
          cbn [mbind option_bind]);
  apply makes_some; rewrite <- ?(assoc_L (++)).

Ltac tail_length :=
  lazymatch goal with
  | |- length (key_then_name _ _) = _ => apply length_key_then_name
  | |- length (name_then_key _ _) = _ => apply length_name_then_key
  | |- length (named _) = _ => apply length_named
  | |- length (keyed _) = _ => apply length_keyed
  end; first [ done | unfold name_ok, file_name_length in *; lia ].

Ltac tail_field :=
  lazymatch goal with
  | |- until_nul (take 34 (named _)) = _ => by apply named_name
  | |- until_nul (take 34 (name_then_key _ _)) = _ => by apply name_then_key_name
  | |- until_nul (take 34 (key_then_name _ _)) = _ => by apply key_then_name_name
  | |- until_nul (take 34 (keyed _)) = _ => done
  | |- take 32 (drop 34 (name_then_key _ _)) = _ =>
      apply name_then_key_key; [unfold name_ok, file_name_length in *; lia|done]
  | |- take 32 (drop 34 (key_then_name _ _)) = _ => by apply key_then_name_key
  | |- take 32 (drop 34 (keyed _)) = _ => by apply keyed_key
  | |- take 32 (drop 34 (named _)) = _ => by apply named_key
  end.

Ltac request_tail :=
  first [ apply describes_fields | apply describes_no_data ]; cbn [meta_operation_code operation_code];
  first [ lia | tail_length | tail_field | done ].

Section one_name.
Variables (key name file_key : bytes).
Hypotheses (Hn : name_ok name) (Hk : length file_key = key_length).
Import packet_create.

Lemma mkdir_makes : makes (mkdir salt sequence key name file_key) metadata 3
  (mk_input key 0 4 name file_key (default_dirmeta ++ replicate 76 x00)).
Proof.
  unfold mkdir. make_request.
  rewrite resize_to_ge by (rewrite !length_app, length_head, length_name_then_key by
    (done || (unfold name_ok, file_name_length in *; lia)); cbn; lia).
  rewrite !length_app, length_head, length_name_then_key by (done || (unfold name_ok, file_name_length in *; lia)).
  rewrite <- !(assoc_L (++)). request_tail.
Qed.

Lemma delete_file_makes : makes (delete_file salt sequence key name file_key) metadata 4
  (mk_input key 0 0 name file_key []).
Proof. unfold delete_file. make_request. request_tail. Qed.

Lemma open_makes : makes (open salt sequence key name file_key) metadata 7 (mk_input key 0 0 name file_key []).
Proof. unfold open. make_request. request_tail. Qed.

Lemma close_makes : makes (close salt sequence key file_key) metadata 8 (mk_input key 0 0 [] file_key []).
Proof. unfold close. make_request. request_tail. Qed.

Lemma add_file_makes : makes (add_file salt sequence key name) metadata 1
  (mk_input key 0 4 name (replicate 32 x00) default_filemeta).
Proof. clear Hk file_key. unfold add_file. make_request. request_tail. Qed.

Lemma get_stat_makes d : makes (get_stat salt sequence key name d) metadata (if d then 10 else 9)
  (mk_input key 0 0 name (replicate 32 x00) []).
Proof. clear Hk file_key. unfold get_stat. destruct d; make_request; request_tail. Qed.

Lemma rename_file_makes new_key parent_key new_name : length new_key = key_length ->
  length parent_key = key_length -> name_ok new_name ->
  makes (rename_file salt sequence key file_key new_key name parent_key new_name) metadata 5
    (mk_input key 0 98 name file_key (meta.store_rename_info (meta.mk_rename_info new_key parent_key
       (new_name ++ replicate (34 - length new_name) x00)))).
Proof.
  intros H1 H2 [H3 _]. pose proof (rename_image new_key parent_key new_name H1 H2 H3) as E. unfold rename_file.
  destruct (mem_set 0 _ _) as [m1|]; [|done]. cbn [mbind option_bind] in *.
  destruct (mem_set 32 _ _) as [m2|]; [|done]. cbn [mbind option_bind] in *. rewrite E. cbn [mbind option_bind].
  make_request. request_tail.
Qed.

Section with_buffer.
Variables (buf : bytes) (position : Z).
Hypotheses (Hb : Z.of_nat (length buf) + 4 < 2 ^ 32) (Hp : 0 <= position < 2 ^ 32).

Lemma write_v2_makes : makes (write_v2 salt sequence key buf file_key name position) file 0
  (mk_input key position (Z.of_nat (length buf)) name file_key buf).
Proof. unfold write_v2. rewrite u32_small by lia. make_request. request_tail. Qed.

Lemma create_and_write_makes :
  makes (create_and_write_file_single_request salt sequence key buf file_key name) metadata 6
    (mk_input key 0 (4 + Z.of_nat (length buf)) name file_key (default_filemeta ++ buf)).
Proof. unfold create_and_write_file_single_request. rewrite u32_small by lia. make_request. request_tail. Qed.

Lemma read_v2_makes size : 0 <= size < 2 ^ 32 ->
  makes (read_v2 salt sequence key file_key size position) file 1 (mk_input key position size [] file_key []).
Proof.
  clear Hb buf. intros Hs. unfold read_v2. rewrite request_image_head.
  assert (mem_set 46 (take key_length file_key) (head file (operation_code read) position size ++ replicate 68 x00)
    = Some (head file (operation_code read) position size ++ keyed file_key)) as ->.
  { rewrite <- (copy_keyed file_key Hk) by apply length_head. unfold copy_key.
    by rewrite (take_ge file_key key_length), (take_ge file_key sizeof_request)
      by (rewrite Hk; unfold key_length, sizeof_request; lia). }
  apply makes_some. request_tail.
Qed.
End with_buffer.
End one_name.

(** Requests that name nothing: the name and the key are left zero. *)
Lemma unnamed_makes key t op position size d : 0 <= op < 256 -> 0 <= position < 2 ^ 32 -> 0 <= size < 2 ^ 32 ->
  makes (Some (packet_create.trigger_packet salt sequence key (request_image t op position size ++ d))) t op
    (mk_input key position size [] (replicate 32 x00) d).
Proof.
  intros Ho Hp Hs. apply makes_some. rewrite request_image_head, <- (assoc_L (++)). by apply describes_fields.
Qed.

Lemma unnamed_meta_makes key op : makes (Some (packet_create.trigger_packet salt sequence key (meta_image op 0))) metadata
  (meta_operation_code op) (mk_input key 0 0 [] (replicate 32 x00) []).
Proof. rewrite <- (app_nil_r (meta_image op 0)). apply unnamed_makes; [by destruct op|lia..]. Qed.

Lemma write_v1_makes key buf position : Z.of_nat (length buf) < 2 ^ 32 -> 0 <= position < 2 ^ 32 ->
  makes (Some (packet_create.write_v1 salt sequence key buf position)) file (operation_code write)
    (mk_input key position (Z.of_nat (length buf)) [] (replicate 32 x00) buf).
Proof. intros Hb Hp. unfold packet_create.write_v1. rewrite u32_small by lia. apply unnamed_makes; [done|lia..]. Qed.

Lemma read_v1_makes key size position : 0 <= size < 2 ^ 32 -> 0 <= position < 2 ^ 32 ->
  makes (Some (packet_create.read_v1 salt sequence key size position)) file (operation_code read)
    (mk_input key position size [] (replicate 32 x00) []).
Proof.
  intros Hs Hp. unfold packet_create.read_v1. rewrite <- (app_nil_r (request_image _ _ _ _)). by apply unnamed_makes.
Qed.
End requests.

(** ** Paths *)

(** The absolute path of a list of components, and the name of it as a directory. *)
Definition render (cs : list bytes) : bytes := concat (cons slash <$> cs).
Definition directory (cs : list bytes) : bytes := render cs ++ [slash].

Definition component (c : bytes) : Prop := c <> [] /\ slash ∉ c.

Lemma render_snoc cs c : render (cs ++ [c]) = render cs ++ slash :: c.
Proof. unfold render. by rewrite fmap_app, concat_app; cbn; rewrite app_nil_r. Qed.

Lemma last_component s c : component c -> exists x, last (s ++ slash :: c) = Some x /\ x <> slash.
Proof.
  intros [Hne Hs]. destruct c as [|y c'] using rev_ind; [done|]. exists y.
  rewrite app_comm_cons, app_assoc, last_snoc. split; [done|]. intros ->. apply Hs. set_solver.
Qed.

Lemma split_normal s c p : component c ->
  match find_last_of slash (s ++ slash :: c) with
  | None => ([], p)
  | Some O => ([slash], drop 1 (s ++ slash :: c))
  | Some n => (take (S n) (s ++ slash :: c), drop (S n) (s ++ slash :: c))
  end = (s ++ [slash], c).
Proof.
  intros [_ Hs]. rewrite find_last_of_app by done. destruct s as [|x s]; [done|].
  cbn [length]. f_equal.
  - rewrite cons_middle, app_assoc. apply take_app_length'. rewrite length_app. cbn. lia.
  - rewrite cons_middle, app_assoc. apply drop_app_length'. rewrite length_app. cbn. lia.
Qed.

Lemma split_path_file cs c : component c -> split_path (render (cs ++ [c])) = (directory cs, c).
Proof.
  intros Hc. rewrite render_snoc. unfold split_path, directory, drop_trailing_slash.
  destruct (last_component (render cs) c Hc) as (x & El & Hx).
  rewrite decide_False by (intros E; rewrite E in El; cbn in El; congruence).
  rewrite El, decide_False by congruence. by apply split_normal.
Qed.

Lemma split_path_directory cs c : component c -> split_path (directory (cs ++ [c])) = (directory cs, c).
Proof.
  intros Hc. unfold directory. rewrite render_snoc. unfold split_path, drop_trailing_slash.
  rewrite decide_False.
  - rewrite last_snoc, decide_True, removelast_last by done. by apply split_normal.
  - intros E. apply (f_equal length) in E. rewrite !length_app in E. cbn in E.
    destruct Hc as [Hc _]. destruct c; [done|cbn in E; lia].
Qed.

Lemma directory_path_file cs c : component c -> directory_path (render (cs ++ [c])) = directory (cs ++ [c]).
Proof.
  intros Hc. unfold directory. rewrite render_snoc. unfold directory_path.
  destruct (last_component (render cs) c Hc) as (x & El & Hx). by rewrite El, decide_False.
Qed.

Lemma directory_path_directory cs : directory_path (directory cs) = directory cs.
Proof. unfold directory_path, directory. by rewrite last_snoc, decide_True. Qed.

(** ** Names that do not fit *)

Lemma take_long (name t : bytes) : (34 <= length name)%nat -> take 34 (name ++ t) = take 34 name.
Proof. intros. apply take_app_le. lia. Qed.

Lemma key_then_long_name key name : (34 < length name <= 68)%nat -> length key = key_length ->
  take 34 (key_then_name key name) = take 34 name /\
  take 32 (drop 34 (key_then_name key name)) = take 32 (drop 34 name ++ drop (length name - 34) key).
Proof.
  intros Hn Hk. unfold key_then_name, keyed, key_length in *. split; [apply take_long; lia|].
  rewrite drop_app_le by lia. rewrite drop_app_ge by (rewrite length_replicate; lia).
  rewrite length_replicate. destruct (decide (length name <= 66)%nat).
  - rewrite (drop_app_le key) by lia. rewrite (assoc_L (++)), take_app_le; [done|].
    rewrite length_app, !length_drop. lia.
  - rewrite !take_app_le by (rewrite length_drop; lia). done.
Qed.

Lemma name_then_key_long name key : (34 < length name <= 68)%nat ->
  take 34 (name_then_key name key) = take 34 name.
Proof.
  intros Hn. unfold name_then_key. rewrite take_app_le, take_take by (rewrite length_take, length_named; lia).
  cbn [Nat.min]. apply take_long. lia.
Qed.

(** The functions that copy the key first hand a long name's end to the key. *)
Section long_names.
Variables salt sequence key name file_key : bytes.
Hypotheses (Hn : (34 < length name <= 68)%nat) (Hk : length file_key = key_length).
Import packet_create.

Let clipped : bytes := until_nul (take 34 name).
Let spilled : bytes := take 32 (drop 34 name ++ drop (length name - 34) file_key).

Lemma long_key_then_name op : 0 <= op < 256 ->
  describes (trigger_packet salt sequence key (head metadata op 0 0 ++ key_then_name file_key name)) metadata op
    (mk_input key 0 0 clipped spilled []).
Proof.
  intros Hop. destruct (key_then_long_name file_key name Hn Hk) as [E1 E2].
  apply describes_no_data; [by apply length_key_then_name; [lia|]|lia..|by rewrite E1|done].
Qed.

Lemma open_long : makes (open salt sequence key name file_key) metadata 7 (mk_input key 0 0 clipped spilled []).
Proof.
  unfold open, meta_image. rewrite request_image_head, copy_keyed by (apply length_head || done).
  cbn [mbind option_bind]. rewrite copy_key_then_name by (apply length_head || done || lia).
  by apply makes_some, long_key_then_name.
Qed.

Lemma delete_long : makes (delete_file salt sequence key name file_key) metadata 4
  (mk_input key 0 0 clipped spilled []).
Proof.
  unfold delete_file, meta_image. rewrite request_image_head, copy_keyed by (apply length_head || done).
  cbn [mbind option_bind]. rewrite copy_key_then_name by (apply length_head || done || lia).
  by apply makes_some, long_key_then_name.
Qed.

Lemma mkdir_long : exists data, makes (mkdir salt sequence key name file_key) metadata 3
  (mk_input key 0 4 clipped file_key data).
Proof.
  exists (default_dirmeta ++ replicate 76 x00).
  unfold mkdir, meta_image. rewrite request_image_head, copy_named by (apply length_head || lia).
  cbn [mbind option_bind]. rewrite copy_name_then_key by (apply length_head || done || lia).
  cbn [mbind option_bind]. apply makes_some.
  rewrite resize_to_ge by (rewrite !length_app, length_head, length_name_then_key by (done || lia); cbn; lia).
  rewrite !length_app, length_head, length_name_then_key by (done || lia).
  rewrite <- !(assoc_L (++)). apply describes_fields; [apply length_name_then_key; [lia|done]|cbn; lia..| |].
  - by rewrite name_then_key_long.
  - apply name_then_key_key; [lia|done].
Qed.
End long_names.

Lemma copy_name_image name t op position size : (68 < length name)%nat ->
  copy_name name (request_image t op position size) = None.
Proof. intros. rewrite request_image_head. apply copy_name_long; [apply length_head|done|done]. Qed.

(** ** Properties *)

(** C14. Each of the sixteen functions of the client library that make a request from keys
    makes, where keys have 32 bytes and names at most 34 bytes without a NUL, a packet from
    which the parser of the proxy and of the worker reads back the operation, the keys, the
    name, the position, the size and the payload that were given; [lock] and [unlock] are
    read back as [init], which is the operation they name. *)
Theorem requests_read_back salt sequence key name file_key new_key parent_key new_name buf position size d
    (Hn : name_ok name) (Hnn : name_ok new_name) (Hk : length file_key = key_length)
    (Hnk : length new_key = key_length) (Hpk : length parent_key = key_length)
    (Hb : Z.of_nat (length buf) + 4 < 2 ^ 32) (Hp : 0 <= position < 2 ^ 32) (Hs : 0 <= size < 2 ^ 32) :
  let fields pos size name file_key data := mk_input key pos size name file_key data in
  let len := Z.of_nat (length buf) in
  let zero := replicate 32 x00 in
  makes (packet_create.add_file salt sequence key name) metadata (meta_operation_code addfile)
    (fields 0 4 name zero packet_create.default_filemeta) /\
  makes (packet_create.mkdir salt sequence key name file_key) metadata (meta_operation_code mkdir)
    (fields 0 4 name file_key (packet_create.default_dirmeta ++ replicate 76 x00)) /\
  makes (packet_create.delete_file salt sequence key name file_key) metadata (meta_operation_code deletefile)
    (fields 0 0 name file_key []) /\
  makes (packet_create.open salt sequence key name file_key) metadata (meta_operation_code open)
    (fields 0 0 name file_key []) /\
  makes (packet_create.close salt sequence key file_key) metadata (meta_operation_code close)
    (fields 0 0 [] file_key []) /\
  makes (packet_create.get_stat salt sequence key name d) metadata
    (meta_operation_code (if d then getstatdir else getstatfile)) (fields 0 0 name zero []) /\
  makes (packet_create.rename_file salt sequence key file_key new_key name parent_key new_name) metadata
    (meta_operation_code rename_sameproxy)
    (fields 0 98 name file_key (meta.store_rename_info (meta.mk_rename_info new_key parent_key
       (new_name ++ replicate (34 - length new_name) x00)))) /\
  makes (packet_create.write_v2 salt sequence key buf file_key name position) file (operation_code write)
    (fields position len name file_key buf) /\
  makes (packet_create.create_and_write_file_single_request salt sequence key buf file_key name) metadata
    (meta_operation_code addfile_write) (fields 0 (4 + len) name file_key (packet_create.default_filemeta ++ buf)) /\
  makes (packet_create.read_v2 salt sequence key file_key size position) file (operation_code read)
    (fields position size [] file_key []) /\
  makes (Some (packet_create.write_v1 salt sequence key buf position)) file (operation_code write)
    (fields position len [] zero buf) /\
  makes (Some (packet_create.read_v1 salt sequence key size position)) file (operation_code read)
    (fields position size [] zero []) /\
  makes (Some (packet_create.ls salt sequence key)) metadata (meta_operation_code Request.ls) (fields 0 0 [] zero []) /\
  makes (Some (packet_create.init salt sequence key)) metadata (meta_operation_code Request.init) (fields 0 0 [] zero []) /\
  makes (Some (packet_create.lock salt sequence key)) metadata (meta_operation_code Request.init) (fields 0 0 [] zero []) /\
  makes (Some (packet_create.unlock salt sequence key)) metadata (meta_operation_code Request.init) (fields 0 0 [] zero []).
Proof.
  split_and!; [by apply add_file_makes|by apply mkdir_makes|by apply delete_file_makes|by apply open_makes
    |by apply close_makes|by destruct d; apply get_stat_makes|by apply rename_file_makes
    |by apply write_v2_makes|by apply create_and_write_makes|by apply read_v2_makes
    |apply write_v1_makes; [lia|done]|by apply read_v1_makes|apply unnamed_meta_makes..].
Qed.

Definition client_key : bytes := replicate 32 x61.
Definition client_file_key : bytes := replicate 32 x62.

Lemma requests_read_back_witness : exists p,
  packet_create.write_v2 [] [] client_key [x01; x02] client_file_key (lit "f"%string) 5 = Some p /\
  parse_input p = Some (mk_input client_key 5 2 (lit "f"%string) client_file_key [x01; x02]).
Proof.
  assert (name_ok (lit "f"%string)) as Hn by (split; [cbn; unfold file_name_length; lia|by apply (bool_decide_unpack _)]).
  destruct (requests_read_back [] [] client_key (lit "f"%string) client_file_key client_key client_key
    (lit "f"%string) [x01; x02] 5 0 true Hn Hn eq_refl eq_refl eq_refl ltac:(cbn; lia) ltac:(lia) ltac:(lia))
    as (_ & _ & _ & _ & _ & _ & _ & (p & E & [_ _ _ Ei]) & _).
  exists p. split; [exact E|exact Ei].
Defined.

(** Names that do not fit their 34 bytes are not rejected.  From 35 to 68 bytes,
    [mkdir] keeps the key and clips the name, but [open] and [delete_file], which copy
    the name after the key, overwrite the key with the end of the name; beyond 68
    bytes - and for a new name of a rename beyond 34 - the copy leaves the structure.
    The request functions without the key behave likewise. *)
Theorem overlong_names salt sequence key name file_key :
  ((34 < length name <= 68)%nat -> length file_key = key_length ->
     let clipped := until_nul (take 34 name) in
     let spilled := take 32 (drop 34 name ++ drop (length name - 34) file_key) in
     makes (packet_create.open salt sequence key name file_key) metadata 7 (mk_input key 0 0 clipped spilled []) /\
     makes (packet_create.delete_file salt sequence key name file_key) metadata 4
       (mk_input key 0 0 clipped spilled []) /\
     (exists data, makes (packet_create.mkdir salt sequence key name file_key) metadata 3
       (mk_input key 0 4 clipped file_key data))) /\
  ((68 < length name)%nat ->
     packet_create.mkdir salt sequence key name file_key = None /\
     packet_create.add_file salt sequence key name = None /\
     (forall buf pos, packet_create.write_v2 salt sequence key buf file_key name pos = None) /\
     (length file_key = key_length -> packet_create.open salt sequence key name file_key = None)) /\
  ((34 < length name)%nat -> forall fname nk pk, length nk = key_length -> length pk = key_length ->
     packet_create.rename_file salt sequence key file_key nk fname pk name = None).
Proof.
  split_and!.
  - intros Hn Hk. split_and!; [by apply open_long|by apply delete_long|by apply mkdir_long].
  - intros Hn. split_and!.
    + unfold packet_create.mkdir, meta_image. by rewrite copy_name_image.
    + unfold packet_create.add_file, meta_image. by rewrite copy_name_image.
    + intros buf pos. unfold packet_create.write_v2. by rewrite copy_name_image.
    + intros Hk. unfold packet_create.open, meta_image. rewrite request_image_head, copy_keyed by (apply length_head || done).
      cbn [mbind option_bind]. by rewrite copy_name_long by (first [apply length_head | by apply length_keyed | done]).
  - intros Hn fname nk pk H1 H2. unfold packet_create.rename_file, key_length in *.
    rewrite (take_ge nk), (take_ge pk) by (unfold meta.sizeof_rename_info; lia).
    rewrite mem_set_Some by (rewrite H1, length_replicate; unfold meta.sizeof_rename_info; lia). cbn [mbind option_bind].
    destruct (mem_set 32 pk _) as [m|] eqn:E; [|done]. cbn [mbind option_bind].
    apply mem_set_length in E. rewrite mem_set_None; [done|].
    rewrite E, !length_app, length_take, length_drop, length_replicate, length_take, H1.
    unfold meta.sizeof_rename_info. lia.
Qed.

Lemma overlong_names_witness :
  let name := replicate 35 x78 in
  makes (packet_create.open [] [] client_key name client_file_key) metadata 7
    (mk_input client_key 0 0 (replicate 34 x78) (x78 :: replicate 31 x62) []).
Proof.
  destruct (overlong_names [] [] client_key (replicate 35 x78) client_file_key) as (H & _ & _).
  destruct H as (H & _ & _); [cbn; lia|reflexivity|]. exact H.
Defined.

(** The keys that requests carry agree along a tree of directories: for a path of
    non-empty components without slashes, [mkdir] (with or without the final slash)
    names the new directory by the key that [ls] lists and that every request on a
    file inside it carries in its header, and names it inside its parent by its last
    component. *)
Theorem paths_agree salt sequence get_uuid cs c f (Hc : component c) (Hf : component f) :
  let here := get_uuid (directory (cs ++ [c])) in
  let path := render (cs ++ [c; f]) in
  packet_create.mkdir_path salt sequence get_uuid (render (cs ++ [c]))
    = packet_create.mkdir salt sequence (get_uuid (directory cs)) c here /\
  packet_create.mkdir_path salt sequence get_uuid (directory (cs ++ [c]))
    = packet_create.mkdir salt sequence (get_uuid (directory cs)) c here /\
  packet_create.ls_path salt sequence get_uuid (render (cs ++ [c])) = packet_create.ls salt sequence here /\
  packet_create.get_stat_dir salt sequence get_uuid (render (cs ++ [c]))
    = packet_create.get_stat salt sequence (get_uuid (directory cs)) c true /\
  packet_create.add_file_v2 salt sequence get_uuid path = packet_create.add_file salt sequence here f /\
  packet_create.open_path salt sequence get_uuid path = packet_create.open salt sequence here f (get_uuid path) /\
  packet_create.close_path salt sequence get_uuid path = packet_create.close salt sequence here (get_uuid path) /\
  packet_create.delete_file_path salt sequence get_uuid path
    = packet_create.delete_file salt sequence here f (get_uuid path) /\
  (forall buf pos, packet_create.write_v2_path salt sequence get_uuid path buf pos
     = packet_create.write_v2 salt sequence here buf (get_uuid path) f pos) /\
  (forall size pos, packet_create.read_v2_path salt sequence get_uuid path size pos
     = packet_create.read_v2 salt sequence here (get_uuid path) size pos) /\
  (forall es g, component g -> packet_create.rename_file_path salt sequence get_uuid path (render (es ++ [g]))
     = packet_create.rename_file salt sequence (get_uuid (directory es)) (get_uuid path)
         (get_uuid (render (es ++ [g]))) f here g).
Proof.
  intros here path. subst path.
  assert (split_path (render (cs ++ [c; f])) = (directory (cs ++ [c]), f)) as E.
  { change [c; f] with ([c] ++ [f]). rewrite (assoc_L (++)). by apply split_path_file. }
  split_and!.
  - unfold packet_create.mkdir_path. by rewrite directory_path_file, split_path_directory.
  - unfold packet_create.mkdir_path. by rewrite directory_path_directory, split_path_directory.
  - unfold packet_create.ls_path. by rewrite directory_path_file.
  - unfold packet_create.get_stat_dir. by rewrite split_path_file.
  - unfold packet_create.add_file_v2. by rewrite E.
  - unfold packet_create.open_path. by rewrite E.
  - unfold packet_create.close_path. by rewrite E.
  - unfold packet_create.delete_file_path. by rewrite E.
  - intros. unfold packet_create.write_v2_path. by rewrite E.
  - intros. unfold packet_create.read_v2_path. by rewrite E.
  - intros es g Hg. unfold packet_create.rename_file_path. by rewrite E, split_path_file.
Qed.

Lemma paths_agree_witness :
  packet_create.ls_path [] [] id (lit "/a/b"%string) = packet_create.ls [] [] (lit "/a/b/"%string) /\
  packet_create.add_file_v2 [] [] id (lit "/a/b/f"%string) = packet_create.add_file [] [] (lit "/a/b/"%string) (lit "f"%string).
Proof.
  destruct (paths_agree [] [] id [lit "a"%string] (lit "b"%string) (lit "f"%string)) as (_ & _ & H1 & _ & H2 & _).
  - split; [done|]. by apply (bool_decide_unpack _).
  - split; [done|]. by apply (bool_decide_unpack _).
  - split; [exact H1|exact H2].
Defined.
