(* ===== verification/Worker.v ===== *)
(** * Jobs and workers of the proxy ([worker.hpp], [launcher-job.hpp], [launcher.hpp])

    An admitted request becomes a job.  [process_job] binds its file to a worker and
    sends it there; the worker's answer is matched with the job by the header and
    completes it.  Handlers are functions on the state of the proxy; what they post to
    the [io_context] is a list of tasks, of which any may run next. *)
From Stdlib Require Import ZArith Lia.
From stdpp Require Import base tactics option list gmap strings.
From S2P Require Import Prelude Wire Request Launcher.
Import pack.

(** ** Data *)

(** What [packet_header_full_key_compare] compares. *)
Definition full_key : Type := bytes * bytes * bytes.
Definition key_of (h : packet_header) : full_key := (h.(key), h.(random_salt), h.(sequence)).

Inductive job_state := registered | started | finished.

#[global] Instance job_state_eq_dec : EqDecision job_state.
Proof. solve_decision. Defined.

(** A job; pointers to jobs and workers are numbers. *)
Record job := mk_job { pack_ : packet; state_ : job_state }.

(** [reading]: the read loop of the worker's socket goes on.  [endpoint]: the four
    bytes of the address and the port in network order, as they are sent. *)
Record worker := mk_worker {
  valid_ : bool; started_jobs_ : gmap full_key nat; endpoint : bytes; reading : bool
}.

(** The lambdas given to [net::post]. *)
Inductive task :=
| Process (j : nat)
| Finish (w j : nat)                    (* of [start_write], for an answer of the proxy *)
| Acked (w : nat) (p : packet)
| Responded (w : nat) (p : packet).

Inductive output :=
| ToClient (j : nat) (p : packet)       (* [on_completion_] *)
| ToWorker (w : nat) (p : packet).      (* [writer_.start_write_socket] *)

Record transfer_request := mk_transfer { file_bindings : list bytes; cache_tables : packet }.

Record proxy := mk_proxy {
  tables : launcher;
  jobs : gmap nat job;
  workers : gmap nat worker;            (* the objects, closed ones included *)
  worker_set_ : list nat;               (* in the order the map is walked *)
  fileid_to_worker_ : gmap bytes nat;   (* compared by the key of the header *)
  transfer_requests_ : list transfer_request;
  posted : list task;
  outputs : list output
}.

Definition empty_proxy : proxy := mk_proxy empty_launcher ∅ ∅ [] ∅ [] [] [].

Definition with_tables l s := mk_proxy l s.(jobs) s.(workers) s.(worker_set_) s.(fileid_to_worker_)
  s.(transfer_requests_) s.(posted) s.(outputs).
Definition with_jobs js s := mk_proxy s.(tables) js s.(workers) s.(worker_set_) s.(fileid_to_worker_)
  s.(transfer_requests_) s.(posted) s.(outputs).
Definition with_worker w x s := mk_proxy s.(tables) s.(jobs) (<[w := x]> s.(workers)) s.(worker_set_)
  s.(fileid_to_worker_) s.(transfer_requests_) s.(posted) s.(outputs).
Definition with_set ws s := mk_proxy s.(tables) s.(jobs) s.(workers) ws s.(fileid_to_worker_)
  s.(transfer_requests_) s.(posted) s.(outputs).
Definition with_files f s := mk_proxy s.(tables) s.(jobs) s.(workers) s.(worker_set_) f
  s.(transfer_requests_) s.(posted) s.(outputs).
Definition with_transfers t s := mk_proxy s.(tables) s.(jobs) s.(workers) s.(worker_set_)
  s.(fileid_to_worker_) t s.(posted) s.(outputs).
Definition with_posted t s := mk_proxy s.(tables) s.(jobs) s.(workers) s.(worker_set_)
  s.(fileid_to_worker_) s.(transfer_requests_) t s.(outputs).
Definition post t s := with_posted (s.(posted) ++ [t]) s.
Definition emit o s := mk_proxy s.(tables) s.(jobs) s.(workers) s.(worker_set_)
  s.(fileid_to_worker_) s.(transfer_requests_) s.(posted) (s.(outputs) ++ [o]).

Definition is_valid (s : proxy) (w : nat) : bool :=
  match s.(workers) !! w with Some x => x.(valid_) | None => false end.

Definition pending_jobs (s : proxy) (w : nat) : nat :=
  match s.(workers) !! w with Some x => size x.(started_jobs_) | None => 0 end.

(** ** Assignment of files to workers *)

(** What [get_available_worker] of a policy promises: a worker of the set that is
    valid, when there is one. *)
Class AvailablePolicy := {
  get_available_worker : proxy -> option nat;
  available_valid s w : get_available_worker s = Some w -> w ∈ s.(worker_set_) /\ is_valid s w = true;
  available_some s w : w ∈ s.(worker_set_) -> is_valid s w = true -> get_available_worker s <> None
}.

(** [policy::lowest_load]: the first valid worker with the fewest started jobs. *)
Fixpoint lowest_load (s : proxy) (ws : list nat) (best : option nat) (load : nat) : option nat :=
  match ws with
  | [] => best
  | w :: ws =>
      if is_valid s w && bool_decide (best = None \/ (pending_jobs s w < load)%nat)
      then lowest_load s ws (Some w) (pending_jobs s w)
      else lowest_load s ws best load
  end.

Lemma lowest_load_valid s ws best load w : lowest_load s ws best load = Some w ->
  best = Some w \/ w ∈ ws /\ is_valid s w = true.
Proof.
  revert best load. induction ws as [|x ws IH]; intros best load E; cbn in E; [by left|].
  destruct (is_valid s x && _) eqn:Ex.
  - apply IH in E as [E|[E1 E2]]; [|right; split; [by right|done]]. injection E as ->.
    apply andb_true_iff in Ex as [Ex _]. right. split; [by left|done].
  - apply IH in E as [E|[E1 E2]]; [by left|]. right. split; [by right|done].
Qed.

Lemma lowest_load_some s ws w0 load : lowest_load s ws (Some w0) load <> None.
Proof.
  revert w0 load. induction ws as [|x ws IH]; intros w0 load; cbn; [done|]. by destruct (_ && _).
Qed.

#[refine, export] Instance lowest_load_policy : AvailablePolicy :=
  { get_available_worker s := lowest_load s s.(worker_set_) None 0 }.
Proof.
  - intros s w E. by apply lowest_load_valid in E as [|].
  - intros s w Hw Hv. induction (worker_set_ s) as [|x ws IH]; [by apply elem_of_nil in Hw|]. cbn [lowest_load].
    apply elem_of_cons in Hw as [<-|Hw].
    + rewrite Hv. rewrite bool_decide_eq_true_2 by auto. apply lowest_load_some.
    + destruct (_ && _); [apply lowest_load_some|by apply IH].
Defined.

Definition get_assigned_worker (s : proxy) (h : packet_header) : option nat :=
  s.(fileid_to_worker_) !! h.(key).

(** ** [launcher]: jobs *)

Definition reschedule (j : nat) (s : proxy) : proxy := post (Process j) s.

(** [schedule (std::make_shared<job> (pack, next))]. *)
Definition schedule (p : packet) (s : proxy) : proxy :=
  let j := fresh (dom s.(jobs)) in
  post (Process j) (with_jobs (<[j := mk_job p registered]> s.(jobs)) s).

(** [df::worker::start_write (job)]. *)
Definition start_write (w j : nat) (s : proxy) : option proxy :=
  x ← s.(workers) !! w; b ← s.(jobs) !! j;
  let h := b.(pack_).(header) in
  if bool_decide (h.(type) = code proxy_send_ip) then
    Some (post (Finish w j) (with_jobs (<[j := mk_job (mk_packet h x.(endpoint)) b.(state_)]> s.(jobs)) s))
  else if bool_decide (h.(type) = code proxy_send_error) || bool_decide (h.(type) = code proxy_send_ok) then
    Some (post (Finish w j) s)
  else
    Some (emit (ToWorker w b.(pack_))
      (with_worker w (mk_worker x.(valid_) (emplace (key_of h) j x.(started_jobs_)) x.(endpoint) x.(reading)) s)).

Section launcher.
Context `{AvailablePolicy}.

Definition process_job (j : nat) (s : proxy) : option proxy :=
  b ← s.(jobs) !! j;
  let h := b.(pack_).(header) in
  let assigned := match get_assigned_worker s h with
                  | Some w => if is_valid s w then Some w else None
                  | None => None
                  end in
  match assigned with
  | Some w => start_write w j s
  | None =>
      match get_available_worker s with
      | Some w =>
          if is_valid s w then start_write w j (with_files (emplace h.(key) w s.(fileid_to_worker_)) s)
          else Some (reschedule j s)
      | None => Some (reschedule j s)
      end
  end.

(** The handler of the two-second timer that [process_job] starts: it reschedules on
    an error other than the cancellation, not when the time has passed. *)
Definition on_timer (j : nat) (error aborted : bool) (s : proxy) : proxy :=
  if error && negb aborted then reschedule j s else s.

(** The handler of [start_trigger_post], up to its [schedule]. *)
Definition on_trigger (freed : bytes) (p : packet) (s : proxy) : option proxy :=
  '(l, p) ← start_trigger_post freed s.(tables) p;
  Some (schedule p (with_tables l s)).

(** ** [df::worker]: answers *)

Definition set_state (st : job_state) (j : nat) (s : proxy) : proxy :=
  match s.(jobs) !! j with
  | Some b => with_jobs (<[j := mk_job b.(pack_) st]> s.(jobs)) s
  | None => s
  end.

(** [on_completion_ (pack)]. *)
Definition complete_job (j : nat) (p : packet) (s : proxy) : proxy := emit (ToClient j p) (set_state finished j s).

(** The lambda of [on_worker_ack]; the cancelled timer calls [on_timer] with [aborted]. *)
Definition on_worker_ack (w : nat) (p : packet) (s : proxy) : option proxy :=
  x ← s.(workers) !! w;
  if empty p.(header) then Some s
  else match x.(started_jobs_) !! key_of p.(header) with
       | Some j => Some (set_state started j s)
       | None => Some s
       end.

(** The lambda of [on_worker_response]. *)
Definition on_worker_response (w : nat) (p : packet) (s : proxy) : option proxy :=
  x ← s.(workers) !! w;
  match x.(started_jobs_) !! key_of p.(header) with
  | Some j =>
      Some (complete_job j p
        (with_worker w (mk_worker x.(valid_) (delete (key_of p.(header)) x.(started_jobs_)) x.(endpoint) x.(reading)) s))
  | None => Some s
  end.

Definition run_task (t : task) (s : proxy) : option proxy :=
  match t with
  | Process j => process_job j s
  | Finish w j => b ← s.(jobs) !! j; Some (complete_job j b.(pack_) s)
  | Acked w p => on_worker_ack w p s
  | Responded w p => on_worker_response w p s
  end.

(** [get_fileids_from_transfer]: the first 32 bytes, then whatever follows the next
    space, and so on. *)
Fixpoint get_fileids_from_transfer (fuel : nat) (b : bytes) : option (list bytes) :=
  match fuel with
  | O => None
  | S fuel =>
      match b with
      | [] => Some []
      | _ => '(key, b) ← read_n key_size b;
             rest ← get_fileids_from_transfer fuel
                      (match list_find (eq x20) b with Some (i, _) => drop (S i) b | None => [] end);
             Some (key :: rest)
      end
  end.

(** [launcher::on_worker_close]. *)
Definition on_worker_close (w : nat) (to_transfer : option packet) (s : proxy) : option proxy :=
  s ← match to_transfer with
      | None => Some s
      | Some p =>
          if decide (8 <= length p.(data))%nat then
            let buf := take (length p.(data) - 8) p.(data) in
            bindings ← get_fileids_from_transfer (S (length buf)) buf;
            Some (with_transfers (s.(transfer_requests_) ++ [mk_transfer bindings (mk_packet p.(header) buf)]) s)
          else None
      end;
  Some (with_set (filter (fun v => v <> w) s.(worker_set_)) s).

(** [launcher::on_worker_reschedule]. *)
Definition on_worker_reschedule (j : nat) (s : proxy) : proxy :=
  match s.(jobs) !! j with
  | Some b => reschedule j (with_files (delete b.(pack_).(header).(key) s.(fileid_to_worker_)) s)
  | None => s
  end.

(** [df::worker::close]: the jobs stay in [started_jobs_]. *)
Definition close (w : nat) (to_transfer : option packet) (s : proxy) : option proxy :=
  x ← s.(workers) !! w;
  s ← on_worker_close w to_transfer (with_worker w (mk_worker false x.(started_jobs_) x.(endpoint) x.(reading)) s);
  Some (foldr on_worker_reschedule s (snd <$> map_to_list x.(started_jobs_))).

Definition set_reading (r : bool) (w : nat) (s : proxy) : proxy :=
  match s.(workers) !! w with
  | Some x => with_worker w (mk_worker x.(valid_) x.(started_jobs_) x.(endpoint) r) s
  | None => s
  end.

(** Texts the proxy answers with. *)
Definition err_open_not_found : bytes := lit_buf "Error: File not found"%string.
Definition err_invalid : bytes := lit_buf "Error: Invalid argumnts"%string.

(** The handler of [start_read_body]. *)
Definition on_body (w : nat) (p : packet) (s : proxy) : option proxy :=
  x ← s.(workers) !! w;
  match of_code p.(header).(type) with
  | Some worker_dereg => s ← close w (Some p) s; Some (set_reading false w s)
  | Some open_file_success =>
      k ← mem_get 0 key_size p.(data);
      Some (post (Responded w (has_data x.(endpoint) p))
        (with_tables (on_worker_finished_opening_a_file s.(tables) k true) s))
  | Some open_file_not_found =>
      k ← mem_get 0 key_size p.(data);
      Some (post (Responded w (has_data err_open_not_found p))
        (with_tables (on_worker_finished_opening_a_file s.(tables) k false) s))
  | Some rename_success =>
      k ← mem_get 0 key_size p.(data);
      Some (post (Responded w (has_data text_ok p))
        (with_tables (on_worker_finished_renaming_file s.(tables) k) s))
  | Some rename_fail =>
      k ← mem_get 0 key_size p.(data);
      Some (post (Responded w (has_data err_invalid p))
        (with_tables (on_worker_finished_renaming_file s.(tables) k) s))
  | _ => Some (post (Responded w p) s)
  end.

(** A packet from a worker: the handler of [start_read_header] and what it starts. *)
Definition from_worker (w : nat) (p : packet) (s : proxy) : option proxy :=
  x ← s.(workers) !! w;
  if x.(reading) then
    match of_code p.(header).(type) with
    | Some (worker_dereg | worker_response | open_file_success | open_file_not_found | rename_success | rename_fail) =>
        on_body w p s
    | Some ack => Some (post (Acked w p) s)
    | Some _ => Some s
    | None => Some (set_reading false w s)
    end
  else None.

(** The header of the next packet cannot be read: end of file included. *)
Definition on_read_error (w : nat) (s : proxy) : option proxy :=
  x ← s.(workers) !! w;
  if x.(reading) then s ← close w None s; Some (set_reading false w s) else None.

(** A body cannot be read: the loop just ends. *)
Definition on_body_error (w : nat) (s : proxy) : option proxy :=
  x ← s.(workers) !! w;
  if x.(reading) then Some (set_reading false w s) else None.

(** A write to the worker fails. *)
Definition on_write_error (w : nat) (s : proxy) : option proxy := close w None s.

(** [add_worker]: six bytes of address and port; a pending transfer binds its files
    to the worker, but [emplace] changes no binding that is there. *)
Definition add_worker (worker_info : packet) (s : proxy) : option proxy :=
  ep ← mem_get 0 6 worker_info.(data);
  let w := fresh (dom s.(workers)) in
  let s := with_set (w :: s.(worker_set_)) (with_worker w (mk_worker true ∅ ep true) s) in
  match s.(transfer_requests_) with
  | [] => Some s
  | t :: ts =>
      let files := foldr (fun k f => emplace k w f) s.(fileid_to_worker_) t.(file_bindings) in
      Some (emit (ToWorker w (has_type cache_transfer t.(cache_tables))) (with_transfers ts (with_files files s)))
  end.

(** ** Runs *)

Inductive event :=
| Trigger (freed : bytes) (p : packet)
| RunTask (i : nat)
| FromWorker (w : nat) (p : packet)
| ReadError (w : nat)
| BodyError (w : nat)
| WriteError (w : nat)
| Timer (j : nat) (error aborted : bool)
| NewWorker (worker_info : packet).

Definition exec (e : event) (s : proxy) : option proxy :=
  match e with
  | Trigger freed p => on_trigger freed p s
  | RunTask i => t ← s.(posted) !! i; run_task t (with_posted (delete i s.(posted)) s)
  | FromWorker w p => from_worker w p s
  | ReadError w => on_read_error w s
  | BodyError w => on_body_error w s
  | WriteError w => on_write_error w s
  | Timer j error aborted => Some (on_timer j error aborted s)
  | NewWorker worker_info => add_worker worker_info s
  end.

Fixpoint execs (es : list event) (s : proxy) : option proxy :=
  match es with
  | [] => Some s
  | e :: es => s ← exec e s; execs es s
  end.

End launcher.

(** ** Where a job is *)

(** The jobs of posted tasks, the jobs workers hold, and the jobs answered. *)
Definition task_job (t : task) : option nat :=
  match t with Process j | Finish _ j => Some j | Acked _ _ | Responded _ _ => None end.
Definition waiting (ts : list task) : list nat := omap task_job ts.

Definition holds (x : worker) : list nat := (map_to_list x.(started_jobs_)).*2.
Definition held (ws : gmap nat worker) : list nat := map_to_list ws ≫= (fun p => holds p.2).

Definition answered_jobs (os : list output) : list nat :=
  omap (fun o => match o with ToClient j _ => Some j | ToWorker _ _ => None end) os.

Definition located (s : proxy) : list nat :=
  waiting s.(posted) ++ held s.(workers) ++ answered_jobs s.(outputs).

Lemma held_lookup ws w x : ws !! w = Some x -> held ws ≡ₚ holds x ++ held (delete w ws).
Proof.
  intros Hw. unfold held. rewrite <- (insert_delete_id ws w x Hw) at 1.
  rewrite map_to_list_insert by apply lookup_delete_eq. done.
Qed.

Lemma held_update ws w x : held (<[w := x]> ws) ≡ₚ holds x ++ held (delete w ws).
Proof.
  rewrite (held_lookup _ w x) by apply lookup_insert_eq. by rewrite delete_insert_eq.
Qed.

Lemma held_new ws w x : ws !! w = None -> x.(started_jobs_) = ∅ -> held (<[w := x]> ws) ≡ₚ held ws.
Proof.
  intros Hw Hx. rewrite held_update. unfold holds. rewrite Hx, map_to_list_empty. cbn.
  by rewrite delete_id.
Qed.

Lemma held_same ws w x y : ws !! w = Some x -> y.(started_jobs_) = x.(started_jobs_) ->
  held (<[w := y]> ws) ≡ₚ held ws.
Proof. intros Hw Hy. rewrite held_update, (held_lookup ws w x Hw). unfold holds. by rewrite Hy. Qed.

Lemma held_start ws w x y k j : ws !! w = Some x -> x.(started_jobs_) !! k = None ->
  y.(started_jobs_) = <[k := j]> x.(started_jobs_) -> held (<[w := y]> ws) ≡ₚ j :: held ws.
Proof.
  intros Hw Hk Hy. rewrite held_update, (held_lookup ws w x Hw). unfold holds. rewrite Hy.
  by rewrite map_to_list_insert.
Qed.

Lemma held_finish ws w x y k j : ws !! w = Some x -> x.(started_jobs_) !! k = Some j ->
  y.(started_jobs_) = delete k x.(started_jobs_) -> held ws ≡ₚ j :: held (<[w := y]> ws).
Proof.
  intros Hw Hk Hy. rewrite held_update, (held_lookup ws w x Hw). unfold holds. rewrite Hy.
  rewrite <- (insert_delete_id _ _ _ Hk) at 1. rewrite map_to_list_insert by apply lookup_delete_eq. done.
Qed.

Lemma elem_of_held ws j : j ∈ held ws <-> exists w x k, ws !! w = Some x /\ x.(started_jobs_) !! k = Some j.
Proof.
  unfold held, holds. rewrite list_elem_of_bind. split.
  - intros ([w x] & ((k & j') & -> & Hk%elem_of_map_to_list)%list_elem_of_fmap & Hw%elem_of_map_to_list).
    by exists w, x, k.
  - intros (w & x & k & Hw & Hk). exists (w, x). cbn. split; [|by apply elem_of_map_to_list].
    apply list_elem_of_fmap. exists (k, j). split; [done|]. by apply elem_of_map_to_list.
Qed.

(** ** Runs in which no worker fails *)

Definition calm (e : event) : Prop :=
  match e with
  | ReadError _ | WriteError _ => False
  | Timer _ error aborted => error && negb aborted = false
  | FromWorker _ p => of_code p.(header).(type) <> Some worker_dereg
  | Trigger _ _ | RunTask _ | BodyError _ | NewWorker _ => True
  end.

(** Headers identify jobs. *)
Definition distinct (s : proxy) : Prop := forall j1 j2 b1 b2, s.(jobs) !! j1 = Some b1 -> s.(jobs) !! j2 = Some b2 ->
  key_of b1.(pack_).(header) = key_of b2.(pack_).(header) -> j1 = j2.

Definition task_worker (t : task) : option nat :=
  match t with Process _ => None | Finish w _ | Acked w _ | Responded w _ => Some w end.

(** The state, with the jobs in [hand] of a running handler. *)
Record sound (hand : list nat) (s : proxy) : Prop := {
  sd_located : hand ++ located s ≡ₚ (map_to_list s.(jobs)).*1;
  sd_keys : forall w x k j, s.(workers) !! w = Some x -> x.(started_jobs_) !! k = Some j ->
    exists b, s.(jobs) !! j = Some b /\ key_of b.(pack_).(header) = k;
  sd_affine : forall w x k j, s.(workers) !! w = Some x -> x.(started_jobs_) !! k = Some j ->
    s.(fileid_to_worker_) !! k.1.1 = Some w;
  sd_valid : forall w x, s.(workers) !! w = Some x -> x.(valid_) = true;
  sd_bound : forall k w, s.(fileid_to_worker_) !! k = Some w -> is_Some (s.(workers) !! w);
  sd_tasks : forall t w, t ∈ s.(posted) -> task_worker t = Some w -> is_Some (s.(workers) !! w);
  sd_transfers : s.(transfer_requests_) = []
}.

Lemma insert_some {A} (ws : gmap nat A) w y w' : is_Some (ws !! w') -> is_Some (<[w := y]> ws !! w').
Proof. rewrite lookup_insert_is_Some'. auto. Qed.

Lemma waiting_app ts ts' : waiting (ts ++ ts') = waiting ts ++ waiting ts'.
Proof. apply omap_app. Qed.

Lemma sound_hand h h' s : h ≡ₚ h' -> sound h s -> sound h' s.
Proof. intros E [H1 H2 H3 H4 H5 H6 H7]. split; try done. by rewrite <- E. Qed.

(** Equality of job and worker tables up to what [sound] looks at. *)
Lemma sound_post h t s : sound (option_list (task_job t) ++ h) s ->
  (forall w, task_worker t = Some w -> is_Some (s.(workers) !! w)) -> sound h (post t s).
Proof.
  intros [H1 H2 H3 H4 H5 H6 H7] Ht. split; try done.
  - rewrite <- H1. unfold located, post, with_posted. cbn [posted workers outputs]. rewrite waiting_app.
    assert (waiting [t] = option_list (task_job t)) as -> by (by destruct t). solve_Permutation.
  - intros t' w [?|E1]%elem_of_app E; [by eapply H6|]. apply list_elem_of_singleton in E1 as ->. by apply Ht.
Qed.

Lemma sound_take h s i t : s.(posted) !! i = Some t -> sound h s ->
  sound (option_list (task_job t) ++ h) (with_posted (delete i s.(posted)) s) /\
  (forall w, task_worker t = Some w -> is_Some (s.(workers) !! w)).
Proof.
  intros Hi [H1 H2 H3 H4 H5 H6 H7].
  assert (waiting s.(posted) ≡ₚ option_list (task_job t) ++ waiting (delete i s.(posted))) as Hw.
  { unfold waiting. rewrite (delete_Permutation _ _ _ Hi) at 1. cbn. by destruct (task_job t). }
  split.
  - split; try done.
    + rewrite <- H1. unfold located. cbn [with_posted posted workers outputs]. rewrite Hw. solve_Permutation.
    + intros t' w Ht. apply H6. rewrite (delete_Permutation _ _ _ Hi). by right.
  - intros w E. eapply H6; [|done]. by eapply list_elem_of_lookup_2.
Qed.

Lemma sound_tables h l s : sound h s -> sound h (with_tables l s).
Proof. by intros []. Qed.

(** A job's entry changes, but not its header. *)
Lemma sound_job h s j b b' : s.(jobs) !! j = Some b -> b'.(pack_).(header) = b.(pack_).(header) ->
  sound h s -> sound h (with_jobs (<[j := b']> s.(jobs)) s).
Proof.
  intros Hj Hb [H1 H2 H3 H4 H5 H6 H7]. split; try done.
  - unfold located in *. cbn [with_jobs posted workers outputs jobs]. rewrite H1.
    rewrite <- (insert_delete_id _ _ _ Hj) at 1. rewrite <- (insert_delete_eq s.(jobs)).
    rewrite !map_to_list_insert by apply lookup_delete_eq. done.
  - intros w x k j' Hw Hk. destruct (H2 w x k j' Hw Hk) as (b0 & E0 & Ek). cbn [with_jobs jobs].
    destruct (decide (j = j')) as [<-|Hne].
    + rewrite lookup_insert_eq. exists b'. split; [done|]. rewrite Hb. congruence.
    + rewrite lookup_insert_ne by done. by exists b0.
Qed.

Lemma sound_state h st j s : sound h s -> sound h (set_state st j s).
Proof.
  intros Hs. unfold set_state. destruct (s.(jobs) !! j) as [b|] eqn:Hj; [|done]. by eapply sound_job.
Qed.

Lemma sound_schedule p s : sound [] s -> sound [] (schedule p s).
Proof.
  intros [H1 H2 H3 H4 H5 H6 H7]. unfold schedule. set (j := fresh _).
  assert (s.(jobs) !! j = None) as Hj by (apply not_elem_of_dom, is_fresh).
  apply sound_post; [|done]. split; try done.
  - cbn [option_list task_job app with_jobs jobs]. rewrite map_to_list_insert by done. cbn.
    rewrite <- H1. done.
  - intros w x k j' Hw Hk. destruct (H2 w x k j' Hw Hk) as (b0 & E0 & Ek). cbn [with_jobs jobs].
    rewrite lookup_insert_ne by congruence. by exists b0.
Qed.

(** A worker changes, but neither its jobs nor its validity. *)
Lemma sound_worker h s w x y : s.(workers) !! w = Some x -> y.(started_jobs_) = x.(started_jobs_) ->
  y.(valid_) = x.(valid_) -> sound h s -> sound h (with_worker w y s).
Proof.
  intros Hw Hy Hv [H1 H2 H3 H4 H5 H6 H7].
  assert (forall w' z, <[w := y]> s.(workers) !! w' = Some z -> exists z', s.(workers) !! w' = Some z' /\
    z.(started_jobs_) = z'.(started_jobs_) /\ z.(valid_) = z'.(valid_)) as Hz.
  { intros w' z. intros [[<- <-]|[? ?]]%lookup_insert_Some; [|eauto]. by exists x. }
  split; cbn [with_worker jobs workers fileid_to_worker_ posted transfer_requests_]; try done.
  - unfold located in *. cbn [with_worker jobs workers posted outputs]. by rewrite (held_same _ _ _ _ Hw Hy).
  - intros w' z k j (z' & E & -> & _)%Hz Hk. by eapply H2.
  - intros w' z k j (z' & E & -> & _)%Hz Hk. by eapply H3.
  - intros w' z (z' & E & _ & ->)%Hz. by eapply H4.
  - intros k w' E. eapply insert_some, H5, E.
  - intros t w' Ht E. eapply insert_some, (H6 t); done.
Qed.

(** Bindings of files are added. *)
Lemma sound_bind h s k w : is_Some (s.(workers) !! w) -> sound h s ->
  sound h (with_files (emplace k w s.(fileid_to_worker_)) s).
Proof.
  intros Hw [H1 H2 H3 H4 H5 H6 H7]. split; cbn [with_files jobs workers fileid_to_worker_ posted transfer_requests_]; try done.
  - intros w' x k' j Hx Hk. by eapply emplace_lookup, H3.
  - intros k' w' [[-> ->]|E]%emplace_inv; [done|by eapply H5].
Qed.

Lemma sound_emit_worker h w p s : sound h s -> sound h (emit (ToWorker w p) s).
Proof.
  intros [H1 H2 H3 H4 H5 H6 H7]. split; try done. rewrite <- H1. unfold located, emit, answered_jobs.
  cbn [posted workers outputs]. by rewrite omap_app, app_nil_r.
Qed.

Lemma sound_complete h j p s : sound (j :: h) s -> sound h (complete_job j p s).
Proof.
  intros [H1 H2 H3 H4 H5 H6 H7]%(sound_state _ finished j). split; try done. rewrite <- H1.
  unfold complete_job, located, emit, answered_jobs. cbn [posted workers outputs]. rewrite omap_app. cbn. solve_Permutation.
Qed.

Lemma sound_in_hand j h s : sound (j :: h) s -> j ∉ held s.(workers).
Proof.
  intros [H1 _ _ _ _ _ _] Hj. pose proof (NoDup_fst_map_to_list s.(jobs)) as Hnd. rewrite <- H1 in Hnd.
  cbn in Hnd. apply NoDup_cons in Hnd as [Hn _]. apply Hn. unfold located. rewrite !elem_of_app. auto.
Qed.

(** A worker takes the job in hand. *)
Lemma sound_hold w x j b s : s.(workers) !! w = Some x -> s.(jobs) !! j = Some b ->
  s.(fileid_to_worker_) !! b.(pack_).(header).(key) = Some w -> distinct s -> sound [j] s ->
  sound [] (with_worker w (mk_worker x.(valid_) (emplace (key_of b.(pack_).(header)) j x.(started_jobs_)) x.(endpoint) x.(reading)) s).
Proof.
  intros Hw Hj Hf Hd Hs. pose proof (sound_in_hand _ _ _ Hs) as Hn. destruct Hs as [H1 H2 H3 H4 H5 H6 H7].
  set (k0 := key_of b.(pack_).(header)).
  assert (x.(started_jobs_) !! k0 = None) as Hk0.
  { destruct (x.(started_jobs_) !! k0) as [j'|] eqn:E; [|done]. destruct (H2 _ _ _ _ Hw E) as (b' & Hb' & Hk').
    rewrite (Hd j j' b b' Hj Hb') in Hn by done. destruct Hn. apply elem_of_held. eauto. }
  unfold emplace. rewrite Hk0.
  assert (forall w' z k j', <[w := mk_worker x.(valid_) (<[k0 := j]> x.(started_jobs_)) x.(endpoint) x.(reading)]> s.(workers) !! w' = Some z ->
    z.(started_jobs_) !! k = Some j' -> w' = w /\ k = k0 /\ j' = j \/
    exists z', s.(workers) !! w' = Some z' /\ z'.(started_jobs_) !! k = Some j') as Hz.
  { intros w' z k j'. intros [[<- <-]|[? ?]]%lookup_insert_Some; [|eauto]. cbn. destruct (decide (k0 = k)) as [<-|]; [rewrite lookup_insert_eq|rewrite lookup_insert_ne by done; eauto].
    intros [= <-]. auto. }
  split; cbn [with_worker jobs workers fileid_to_worker_ posted transfer_requests_]; try done.
  - rewrite <- H1. unfold located. cbn [with_worker workers posted outputs].
    rewrite (held_start s.(workers) w x _ k0 j Hw Hk0) by done. solve_Permutation.
  - intros w' z k j' Ez Ek. destruct (Hz _ _ _ _ Ez Ek) as [(-> & -> & ->)|(z' & ? & ?)]; [by exists b|by eapply H2].
  - intros w' z k j' Ez Ek. destruct (Hz _ _ _ _ Ez Ek) as [(-> & -> & ->)|(z' & ? & ?)]; [done|by eapply H3].
  - intros w' z. intros [[<- <-]|[? ?]]%lookup_insert_Some; [|eauto]. by apply (H4 w x).
  - intros k w' E. eapply insert_some, H5, E.
  - intros t w' Ht E. eapply insert_some, (H6 t); done.
Qed.

Lemma sound_start_write w x j b s s' : s.(workers) !! w = Some x -> s.(jobs) !! j = Some b ->
  s.(fileid_to_worker_) !! b.(pack_).(header).(key) = Some w -> distinct s -> sound [j] s ->
  start_write w j s = Some s' -> sound [] s'.
Proof.
  intros Hw Hj Hf Hd Hs E. unfold start_write in E. rewrite Hw, Hj in E. cbn [mbind option_bind] in E.
  destruct (bool_decide _); [|destruct (_ || _)]; injection E as <-.
  - apply sound_post; [|by intros ? [= <-]]. by eapply sound_job.
  - apply sound_post; [done|by intros ? [= <-]].
  - by apply sound_emit_worker, sound_hold.
Qed.

Section calm.
Context `{AvailablePolicy}.

Lemma sound_process_job j s s' : distinct s -> sound [j] s -> process_job j s = Some s' -> sound [] s'.
Proof.
  intros Hd Hs E. unfold process_job in E. destruct (s.(jobs) !! j) as [b|] eqn:Hj; [|done]. cbn [mbind option_bind] in E.
  assert (forall w, is_valid s w = true -> is_Some (s.(workers) !! w)) as Hv.
  { intros w. unfold is_valid. by destruct (s.(workers) !! w). }
  assert (sound [] (reschedule j s)) as Hr by by apply sound_post.
  set (assigned := match get_assigned_worker _ _ with Some _ => _ | None => _ end) in E.
  assert (forall w, assigned = Some w -> get_assigned_worker s b.(pack_).(header) = Some w /\ is_valid s w = true) as Ha.
  { subst assigned. intros w. destruct (get_assigned_worker _ _) as [w'|]; [|done].
    destruct (is_valid s w') eqn:?; [|done]. by intros [= <-]. }
  destruct (get_assigned_worker s b.(pack_).(header)) as [w|] eqn:Eg.
  - assert (is_valid s w = true) as Ew.
    { destruct (sd_bound _ _ Hs _ _ Eg) as [x Hx]. unfold is_valid. rewrite Hx. by eapply sd_valid. }
    subst assigned. cbn in E. rewrite Ew in E. destruct (Hv _ Ew) as [x Hx]. by eapply sound_start_write.
  - subst assigned. cbn in E. destruct (get_available_worker s) as [w|]; [|by injection E as <-].
    destruct (is_valid s w) eqn:Ew; [|by injection E as <-]. destruct (Hv _ Ew) as [x Hx].
    eapply (sound_start_write w x j b (with_files _ s)); [exact Hx|exact Hj| |exact Hd|by apply sound_bind; rewrite ?Hx|exact E].
    cbn [with_files fileid_to_worker_]. unfold get_assigned_worker in Eg. unfold emplace. rewrite Eg. apply lookup_insert_eq.
Qed.

(** The answer of a worker. *)
Lemma sound_response w p s s' : sound [] s -> on_worker_response w p s = Some s' -> sound [] s'.
Proof.
  intros Hs E. unfold on_worker_response in E. destruct (s.(workers) !! w) as [x|] eqn:Hw; [|done]. cbn [mbind option_bind] in E.
  destruct (x.(started_jobs_) !! key_of p.(header)) as [j|] eqn:Hk; [|by injection E as <-]. injection E as <-.
  apply sound_complete. destruct Hs as [H1 H2 H3 H4 H5 H6 H7].
  set (y := mk_worker x.(valid_) (delete (key_of p.(header)) x.(started_jobs_)) x.(endpoint) x.(reading)).
  assert (forall w' z, <[w := y]> s.(workers) !! w' = Some z -> exists z', s.(workers) !! w' = Some z' /\
    z.(started_jobs_) ⊆ z'.(started_jobs_) /\ z.(valid_) = z'.(valid_)) as Hz.
  { intros w' z. intros [[<- <-]|[? ?]]%lookup_insert_Some; [|eauto]. exists x. split; [done|]. split; [|done]. apply delete_subseteq. }
  split; cbn [with_worker jobs workers fileid_to_worker_ posted transfer_requests_]; try done.
  - rewrite <- H1. unfold located. cbn [with_worker workers posted outputs].
    rewrite (held_finish s.(workers) w x y _ j Hw Hk) by done. solve_Permutation.
  - intros w' z k j' (z' & E & Hsub & _)%Hz Hk'. eapply H2; [done|]. by eapply lookup_weaken.
  - intros w' z k j' (z' & E & Hsub & _)%Hz Hk'. eapply H3; [done|]. by eapply lookup_weaken.
  - intros w' z (z' & E & _ & ->)%Hz. by eapply H4.
  - intros k w' E. eapply insert_some, H5, E.
  - intros t w' Ht E. eapply insert_some, (H6 t); done.
Qed.

Lemma sound_run_task t s s' : distinct s -> sound (option_list (task_job t)) s -> run_task t s = Some s' -> sound [] s'.
Proof.
  intros Hd Hs E. destruct t as [j|w j|w p|w p]; cbn in Hs, E.
  - by eapply sound_process_job.
  - destruct (s.(jobs) !! j); [|done]. injection E as <-. by apply sound_complete.
  - unfold on_worker_ack in E. destruct (s.(workers) !! w); [|done]. cbn [mbind option_bind] in E.
    destruct (empty _); [by injection E as <-|]. destruct (_ !! _); injection E as <-; [by apply sound_state|done].
  - by eapply sound_response.
Qed.

Lemma sound_reading r w s : sound [] s -> sound [] (set_reading r w s).
Proof. intros Hs. unfold set_reading. destruct (s.(workers) !! w) eqn:E; [|done]. by eapply sound_worker. Qed.

Lemma sound_from_worker w p s s' : of_code p.(header).(type) <> Some worker_dereg -> sound [] s ->
  from_worker w p s = Some s' -> sound [] s'.
Proof.
  intros Hp Hs E. unfold from_worker, on_body in E. destruct (s.(workers) !! w) as [x|] eqn:Hw; [|done]. cbn [mbind option_bind] in E.
  destruct (x.(reading)); [|done].
  assert (forall q l, sound [] (post (Responded w q) (with_tables l s))) as Hq.
  { intros q l. apply sound_post; [by apply sound_tables|]. intros ? [= <-]. cbn. by rewrite Hw. }
  destruct (of_code _) as [[]|]; try done; try (injection E as <-; done);
    try (destruct (mem_get _ _ _); [|done]; cbn in E; injection E as <-; apply Hq);
    injection E as <-.
  - apply sound_post; [done|]. intros ? [= <-]. by rewrite Hw.
  - apply sound_post; [done|]. intros ? [= <-]. by rewrite Hw.
  - by apply sound_reading.
Qed.

Lemma sound_add_worker p s s' : sound [] s -> add_worker p s = Some s' -> sound [] s'.
Proof.
  intros Hs E. unfold add_worker in E. destruct (mem_get _ _ _) as [ep|]; [|done]. cbn [mbind option_bind] in E.
  set (w := fresh _) in E. assert (s.(workers) !! w = None) as Hw by (apply not_elem_of_dom, is_fresh).
  cbn [with_set with_worker transfer_requests_] in E. rewrite (sd_transfers _ _ Hs) in E. injection E as <-.
  destruct Hs as [H1 H2 H3 H4 H5 H6 H7].
  split; cbn [with_set with_worker jobs workers fileid_to_worker_ posted transfer_requests_]; try done.
  - rewrite <- H1. unfold located. cbn [with_set with_worker workers posted outputs]. by rewrite held_new.
  - intros w' z k j'. intros [[<- <-]|[? ?]]%lookup_insert_Some; [done|eauto].
  - intros w' z k j'. intros [[<- <-]|[? ?]]%lookup_insert_Some; [done|eauto].
  - intros w' z. intros [[<- <-]|[? ?]]%lookup_insert_Some; [done|eauto].
  - intros k w' E. eapply insert_some, H5, E.
  - intros t w' Ht E. eapply insert_some, (H6 t); done.
Qed.

Lemma sound_exec e s s' : calm e -> distinct s -> sound [] s -> exec e s = Some s' -> sound [] s'.
Proof.
  intros Hc Hd Hs E. destruct e as [freed p|i|w p|w|w|w|j error aborted|p]; cbn [exec calm] in *; try done.
  - unfold on_trigger in E. destruct (start_trigger_post _ _ _) as [[l q]|]; [|done]. cbn in E. injection E as <-.
    by apply sound_schedule, sound_tables.
  - destruct (s.(posted) !! i) as [t|] eqn:Hi; [|done]. cbn [mbind option_bind] in E.
    destruct (sound_take _ _ _ _ Hi Hs) as [Ht _]. rewrite app_nil_r in Ht. by eapply sound_run_task in E.
  - by eapply sound_from_worker.
  - unfold on_body_error in E. destruct (s.(workers) !! w) as [x|] eqn:Hw; [|done]. cbn in E. destruct (x.(reading)); [|done].
    injection E as <-. by apply sound_reading.
  - unfold on_timer in E. rewrite Hc in E. by injection E as <-.
  - by eapply sound_add_worker.
Qed.

(** ** Jobs keep their headers *)

Definition grows (s s' : proxy) : Prop := forall j b, s.(jobs) !! j = Some b ->
  exists b', s'.(jobs) !! j = Some b' /\ b'.(pack_).(header) = b.(pack_).(header).

Lemma grows_same s s' : s'.(jobs) = s.(jobs) -> grows s s'.
Proof. intros E j b Hj. exists b. by rewrite E. Qed.

Lemma grows_trans s1 s2 s3 : grows s1 s2 -> grows s2 s3 -> grows s1 s3.
Proof. intros H1 H2 j b (b' & Hb' & E)%H1. apply H2 in Hb' as (b'' & Hb'' & E'). exists b''. split; [done|congruence]. Qed.

Lemma grows_insert s j b b' : s.(jobs) !! j = Some b -> b'.(pack_).(header) = b.(pack_).(header) ->
  grows s (with_jobs (<[j := b']> s.(jobs)) s).
Proof.
  intros Hj E j' c Hc. cbn. destruct (decide (j = j')) as [<-|]; [|rewrite lookup_insert_ne by done; eauto].
  rewrite lookup_insert_eq. exists b'. split; [done|congruence].
Qed.

Lemma grows_state st j s : grows s (set_state st j s).
Proof. unfold set_state. destruct (s.(jobs) !! j) eqn:E; [by eapply grows_insert|by apply grows_same]. Qed.

Lemma grows_start_write w j s s' : start_write w j s = Some s' -> grows s s'.
Proof.
  unfold start_write. destruct (s.(workers) !! w) as [x|]; [|done]. cbn [mbind option_bind].
  destruct (s.(jobs) !! j) as [b|] eqn:E; [|done]. cbn [mbind option_bind].
  destruct (bool_decide _); [|destruct (_ || _)]; intros [= <-]; try by apply grows_same.
  by eapply (grows_insert s j b (mk_job (mk_packet b.(pack_).(header) x.(endpoint)) b.(state_))).
Qed.

Lemma grows_process_job j s s' : process_job j s = Some s' -> grows s s'.
Proof.
  unfold process_job. destruct (s.(jobs) !! j) as [b|]; [|done]. cbn [mbind option_bind].
  destruct (match get_assigned_worker _ _ with Some _ => _ | None => _ end) as [w|]; [by apply grows_start_write|].
  destruct (get_available_worker s) as [w|]; [|by intros [= <-]; apply grows_same].
  destruct (is_valid s w); [|by intros [= <-]; apply grows_same].
  intros E%grows_start_write. exact E.
Qed.

Lemma grows_run_task t s s' : run_task t s = Some s' -> grows s s'.
Proof.
  destruct t as [j|w j|w p|w p]; cbn.
  - apply grows_process_job.
  - destruct (s.(jobs) !! j); [|done]. intros [= <-]. apply (grows_state finished).
  - unfold on_worker_ack. destruct (s.(workers) !! w); [|done]. cbn. destruct (empty _); [by intros [= <-]; apply grows_same|].
    destruct (_ !! _); intros [= <-]; [apply grows_state|by apply grows_same].
  - unfold on_worker_response. destruct (s.(workers) !! w); [|done]. cbn.
    destruct (_ !! _) as [j|]; intros [= <-]; [|by apply grows_same]. apply (grows_state finished j (with_worker _ _ s)).
Qed.

Lemma grows_set_reading r w s : grows s (set_reading r w s).
Proof. unfold set_reading. destruct (s.(workers) !! w); by apply grows_same. Qed.

Lemma grows_exec e s s' : calm e -> exec e s = Some s' -> grows s s'.
Proof.
  intros Hc E. destruct e as [freed p|i|w p|w|w|w|j error aborted|p]; cbn [exec calm] in *; try done.
  - unfold on_trigger in E. destruct (start_trigger_post _ _ _) as [[l q]|]; [|done]. cbn in E. injection E as <-.
    intros j b Hj. exists b. split; [|done]. cbn. rewrite lookup_insert_ne; [done|]. intros E.
    assert (s.(jobs) !! j = None) by (rewrite <- E; apply not_elem_of_dom, is_fresh). congruence.
  - destruct (s.(posted) !! i) as [t|] eqn:Hi; [|done]. cbn [mbind option_bind] in E. by apply grows_run_task in E.
  - unfold from_worker, on_body in E. destruct (s.(workers) !! w) as [x|]; [|done]. cbn [mbind option_bind] in E.
    destruct (x.(reading)); [|done].
    destruct (of_code _) as [[]|]; try done; try (destruct (mem_get _ _ _); [|done]; cbn in E); injection E as <-;
      try apply grows_set_reading; by apply grows_same.
  - unfold on_body_error in E. destruct (s.(workers) !! w) as [x|]; [|done]. cbn in E. destruct (x.(reading)); [|done].
    injection E as <-. apply grows_set_reading.
  - unfold on_timer in E. rewrite Hc in E. injection E as <-. by apply grows_same.
  - unfold add_worker in E. destruct (mem_get _ _ _); [|done]. cbn in E. destruct (s.(transfer_requests_)); injection E as <-; by apply grows_same.
Qed.

(** What was written stays written. *)
Lemma outputs_start_write w j s s' : start_write w j s = Some s' -> exists os, s'.(outputs) = s.(outputs) ++ os.
Proof.
  unfold start_write. destruct (s.(workers) !! w) as [x|]; [|done]. cbn [mbind option_bind].
  destruct (s.(jobs) !! j) as [b|]; [|done]. cbn [mbind option_bind].
  destruct (bool_decide _); [|destruct (_ || _)]; intros [= <-]; [exists []; by rewrite app_nil_r..|by eexists].
Qed.

Lemma outputs_run_task t s s' : run_task t s = Some s' -> exists os, s'.(outputs) = s.(outputs) ++ os.
Proof.
  assert (exists os, s.(outputs) = s.(outputs) ++ os) as Hnil by (exists []; by rewrite app_nil_r).
  assert (forall st j s, (set_state st j s).(outputs) = s.(outputs)) as Hset by (intros st j s0; unfold set_state; by destruct (_ !! _)).
  destruct t as [j|w j|w p|w p]; cbn [run_task].
  - unfold process_job. destruct (s.(jobs) !! j) as [b|]; [|done]. cbn [mbind option_bind].
    destruct (match get_assigned_worker _ _ with Some _ => _ | None => _ end) as [w|]; [by apply outputs_start_write|].
    destruct (get_available_worker s) as [w|]; [|by intros [= <-]].
    destruct (is_valid s w); [|by intros [= <-]]. by intros E%outputs_start_write.
  - destruct (s.(jobs) !! j); [|done]. intros [= <-]. cbn. rewrite Hset. by eexists.
  - unfold on_worker_ack. destruct (s.(workers) !! w); [|done]. cbn [mbind option_bind].
    destruct (empty _); [by intros [= <-]|]. destruct (_ !! _); intros [= <-]; [by rewrite Hset|done].
  - unfold on_worker_response. destruct (s.(workers) !! w); [|done]. cbn [mbind option_bind].
    destruct (_ !! _); intros [= <-]; [|done]. cbn. rewrite Hset. by eexists.
Qed.

Lemma outputs_exec e s s' : calm e -> exec e s = Some s' -> exists os, s'.(outputs) = s.(outputs) ++ os.
Proof.
  assert (exists os, s.(outputs) = s.(outputs) ++ os) as Hnil by (exists []; by rewrite app_nil_r).
  assert (forall r w, (set_reading r w s).(outputs) = s.(outputs)) as Hset by (intros; unfold set_reading; by destruct (_ !! _)).
  intros Hc E. destruct e as [freed p|i|w p|w|w|w|j error aborted|p]; cbn [exec calm] in *; try done.
  - unfold on_trigger in E. destruct (start_trigger_post _ _ _) as [[l q]|]; [|done]. by injection E as <-.
  - destruct (s.(posted) !! i) as [t|]; [|done]. by apply outputs_run_task in E.
  - unfold from_worker, on_body in E. destruct (s.(workers) !! w) as [x|]; [|done]. cbn [mbind option_bind] in E.
    destruct (x.(reading)); [|done].
    destruct (of_code _) as [[]|]; try done; try (destruct (mem_get _ _ _); [|done]; cbn in E); injection E as <-;
      by rewrite ?Hset.
  - unfold on_body_error in E. destruct (s.(workers) !! w) as [x|]; [|done]. cbn in E. destruct (x.(reading)); [|done].
    injection E as <-. by rewrite Hset.
  - unfold on_timer in E. rewrite Hc in E. by injection E as <-.
  - unfold add_worker in E. destruct (mem_get _ _ _); [|done]. cbn in E.
    destruct (s.(transfer_requests_)); injection E as <-; [done|by eexists].
Qed.

(** Only a request makes a job. *)
Definition same_jobs (s s' : proxy) : Prop := forall j, is_Some (s'.(jobs) !! j) -> is_Some (s.(jobs) !! j).

Lemma same_jobs_insert s s0 j b b' : s0.(jobs) = s.(jobs) -> s.(jobs) !! j = Some b ->
  same_jobs s (with_jobs (<[j := b']> s0.(jobs)) s0).
Proof. intros E Hj j'. cbn. rewrite E, lookup_insert_is_Some'. intros [<-|?]; [by exists b|done]. Qed.

Lemma same_jobs_state st j s s0 : s0.(jobs) = s.(jobs) -> same_jobs s (set_state st j s0).
Proof.
  intros E. unfold set_state. destruct (s0.(jobs) !! j) as [b|] eqn:Ej.
  - apply (same_jobs_insert s s0 j b); [done|by rewrite <- E].
  - intros j'. by rewrite E.
Qed.

Lemma same_jobs_start_write w j s s0 s' : s0.(jobs) = s.(jobs) -> start_write w j s0 = Some s' -> same_jobs s s'.
Proof.
  intros E. unfold start_write. destruct (s0.(workers) !! w) as [x|]; [|done]. cbn [mbind option_bind].
  destruct (s0.(jobs) !! j) as [b|] eqn:Ej; [|done]. cbn [mbind option_bind].
  destruct (bool_decide _); [|destruct (_ || _)]; intros [= <-]; try (intros j'; cbn; by rewrite E).
  apply (same_jobs_insert s s0 j b); [done|by rewrite <- E].
Qed.

Lemma same_jobs_run_task t s s0 s' : s0.(jobs) = s.(jobs) -> run_task t s0 = Some s' -> same_jobs s s'.
Proof.
  intros E. assert (same_jobs s s0) as Hsame by (intros j; by rewrite E). destruct t as [j|w j|w p|w p]; cbn [run_task].
  - unfold process_job. destruct (s0.(jobs) !! j) as [b|]; [|done]. cbn [mbind option_bind].
    destruct (match get_assigned_worker _ _ with Some _ => _ | None => _ end) as [w|]; [by apply same_jobs_start_write|].
    destruct (get_available_worker s0) as [w|]; [|by intros [= <-]].
    destruct (is_valid s0 w); [|by intros [= <-]]. by apply same_jobs_start_write.
  - destruct (s0.(jobs) !! j); [|done]. intros [= <-]. by apply (same_jobs_state finished j s s0).
  - unfold on_worker_ack. destruct (s0.(workers) !! w); [|done]. cbn [mbind option_bind].
    destruct (empty _); [by intros [= <-]|]. destruct (_ !! _); intros [= <-]; [by apply same_jobs_state|done].
  - unfold on_worker_response. destruct (s0.(workers) !! w); [|done]. cbn [mbind option_bind].
    destruct (_ !! _) as [j|]; intros [= <-]; [|done]. by apply (same_jobs_state finished j s (with_worker _ _ s0)).
Qed.

Lemma same_jobs_exec e s s' : calm e -> (forall freed p, e <> Trigger freed p) -> exec e s = Some s' -> same_jobs s s'.
Proof.
  intros Hc Ht E. assert (forall r w, same_jobs s (set_reading r w s)) as Hset by (intros r w j; unfold set_reading; by destruct (s.(workers) !! w)).
  destruct e as [freed p|i|w p|w|w|w|j error aborted|p]; cbn [exec calm] in *; try done.
  - by destruct (Ht freed p).
  - destruct (s.(posted) !! i) as [t|]; [|done]. by eapply same_jobs_run_task; [|exact E].
  - unfold from_worker, on_body in E. destruct (s.(workers) !! w) as [x|]; [|done]. cbn [mbind option_bind] in E.
    destruct (x.(reading)); [|done].
    destruct (of_code _) as [[]|]; try done; try (destruct (mem_get _ _ _); [|done]; cbn in E); injection E as <-;
      (apply Hset || by intros j').
  - unfold on_body_error in E. destruct (s.(workers) !! w) as [x|]; [|done]. cbn in E. destruct (x.(reading)); [|done].
    injection E as <-. apply Hset.
  - unfold on_timer in E. rewrite Hc in E. injection E as <-. by intros j'.
  - unfold add_worker in E. destruct (mem_get _ _ _); [|done]. cbn in E. destruct (s.(transfer_requests_)); injection E as <-; by intros j.
Qed.

Lemma grows_distinct s s' : grows s s' -> distinct s' -> distinct s.
Proof.
  intros Hg Hd j1 j2 b1 b2 H1 H2 E. apply Hg in H1 as (c1 & H1 & E1). apply Hg in H2 as (c2 & H2 & E2).
  eapply Hd; [done..|congruence].
Qed.

Lemma grows_execs es s s' : Forall calm es -> execs es s = Some s' -> grows s s'.
Proof.
  intros Hes. revert s. induction Hes as [|e es He Hes IH]; cbn; intros s E; [injection E as <-; by apply grows_same|].
  destruct (exec e s) as [s1|] eqn:E1; [|done]. eapply grows_trans; [by eapply grows_exec|by apply IH].
Qed.

Lemma sound_execs es s s' : Forall calm es -> distinct s' -> sound [] s -> execs es s = Some s' -> sound [] s'.
Proof.
  intros Hes Hd. revert s. induction Hes as [|e es He Hes IH]; cbn; intros s Hs E; [by injection E as <-|].
  destruct (exec e s) as [s1|] eqn:E1; [|done]. apply (IH s1); [|done]. eapply sound_exec; [done| |done|done].
  eapply grows_distinct; [by eapply grows_exec|]. eapply grows_distinct; [by eapply grows_execs|done].
Qed.

Lemma sound_start : sound [] empty_proxy.
Proof. split; try done. intros t w E. by apply elem_of_nil in E. Qed.

(** The jobs a worker holds can be answered: its answer arrives and is processed. *)
Lemma held_answered w x k j s : sound [] s -> s.(workers) !! w = Some x -> x.(reading) = true ->
  x.(started_jobs_) !! k = Some j ->
  exists p s', calm (FromWorker w p) /\ execs [FromWorker w p; RunTask (length s.(posted))] s = Some s' /\
    j ∈ answered_jobs s'.(outputs).
Proof.
  intros Hs Hw Hr Hk. destruct (sd_keys _ _ Hs _ _ _ _ Hw Hk) as (b & Hb & <-).
  set (p := has_type worker_response b.(pack_)). exists p.
  assert (from_worker w p s = Some (post (Responded w p) s)) as E.
  { unfold from_worker, on_body. rewrite Hw. cbn [mbind option_bind]. by rewrite Hr. }
  cbn [execs exec]. rewrite E. cbn [mbind option_bind post with_posted posted].
  rewrite lookup_app_r, Nat.sub_diag by done. cbn [lookup list_lookup mbind option_bind].
  cbn [run_task]. unfold on_worker_response. match goal with |- context [workers ?z !! w] => change (workers z) with (workers s) end. rewrite Hw. cbn [mbind option_bind].
  change (key_of (header p)) with (key_of (header (pack_ b))). rewrite Hk.
  eexists. split; [done|]. split; [reflexivity|].
  unfold complete_job, emit, answered_jobs. cbn [outputs]. rewrite omap_app. cbn. apply elem_of_app. right. by left.
Qed.

(** A job of a posted task can be answered. *)
Lemma finish_answered w j i s : sound [] s -> s.(posted) !! i = Some (Finish w j) ->
  exists s', execs [RunTask i] s = Some s' /\ j ∈ answered_jobs s'.(outputs).
Proof.
  intros Hs Hi. assert (is_Some (s.(jobs) !! j)) as [b Hb].
  { assert (j ∈ (map_to_list s.(jobs)).*1) as Hj.
    { rewrite <- (sd_located _ _ Hs). cbn. unfold located. apply elem_of_app. left. apply list_elem_of_omap.
      exists (Finish w j). split; [by eapply list_elem_of_lookup_2|done]. }
    apply list_elem_of_fmap in Hj as ([j' b] & -> & Hb%elem_of_map_to_list). by exists b. }
  cbn [execs exec]. rewrite Hi. cbn [mbind option_bind run_task with_posted jobs]. rewrite Hb.
  eexists. split; [reflexivity|]. unfold complete_job, emit, answered_jobs. cbn [outputs]. rewrite omap_app. cbn.
  apply elem_of_app. right. by left.
Qed.

Definition all_read (s : proxy) : Prop := forall w x, s.(workers) !! w = Some x -> x.(reading) = true.

(** A job is one step from its answer. *)
Definition underway (j : nat) (s : proxy) : Prop :=
  (exists w i, s.(posted) !! i = Some (Finish w j)) \/
  (exists w x k, s.(workers) !! w = Some x /\ x.(reading) = true /\ x.(started_jobs_) !! k = Some j).

Lemma start_write_progress w x j b s : s.(workers) !! w = Some x -> s.(jobs) !! j = Some b ->
  x.(started_jobs_) !! key_of b.(pack_).(header) = None -> all_read s ->
  exists s', start_write w j s = Some s' /\ underway j s'.
Proof.
  intros Hw Hj Hk Hr. unfold start_write. rewrite Hw, Hj. cbn [mbind option_bind].
  assert (forall js, underway j (post (Finish w j) (with_jobs js s))) as Hf.
  { intros js. left. exists w, (length s.(posted)). cbn. by rewrite lookup_app_r, Nat.sub_diag. }
  destruct (bool_decide _); [eauto|]. destruct (_ || _); eexists; (split; [reflexivity|]).
  - apply (Hf s.(jobs)).
  - right. eexists w, _, (key_of b.(pack_).(header)). cbn. rewrite lookup_insert_eq. split; [reflexivity|].
    split; [exact (Hr _ _ Hw)|]. cbn. unfold emplace. rewrite Hk. apply lookup_insert_eq.
Qed.

Lemma process_job_progress j b w s : distinct s -> sound [j] s -> all_read s -> s.(jobs) !! j = Some b ->
  w ∈ s.(worker_set_) -> is_valid s w = true ->
  exists s', process_job j s = Some s' /\ underway j s'.
Proof.
  intros Hd Hs Hr Hj Hw Hv. pose proof (sound_in_hand _ _ _ Hs) as Hn.
  assert (forall w x, s.(workers) !! w = Some x -> x.(started_jobs_) !! key_of b.(pack_).(header) = None) as Hk.
  { intros w' x Hx. destruct (_ !! key_of _) as [j'|] eqn:E; [|done]. destruct Hn. apply elem_of_held.
    destruct (sd_keys _ _ Hs _ _ _ _ Hx E) as (b' & Hb' & Hk'). rewrite (Hd j j' b b') by done. eauto. }
  unfold process_job. rewrite Hj. cbn [mbind option_bind].
  destruct (match get_assigned_worker _ _ with Some _ => _ | None => _ end) as [w'|] eqn:Ea.
  - destruct (get_assigned_worker _ _) as [w0|] eqn:Eg; [|done]. destruct (is_valid s w0); [|done].
    injection Ea as ->. destruct (sd_bound _ _ Hs _ _ Eg) as [x Hx]. by eapply start_write_progress; eauto.
  - destruct (get_available_worker s) as [w'|] eqn:Eg; [|by destruct (available_some _ _ Hw Hv)].
    apply available_valid in Eg as [_ Eg]. rewrite Eg. unfold is_valid in Eg.
    destruct (s.(workers) !! w') as [x|] eqn:Hx; [|done].
    by eapply (start_write_progress w' x j b (with_files _ s)); eauto.
Qed.

Lemma underway_answered j s : sound [] s -> underway j s ->
  exists es s', Forall calm es /\ (length es <= 2)%nat /\ execs es s = Some s' /\ j ∈ answered_jobs s'.(outputs).
Proof.
  intros Hs [(w & i & Hi)|(w & x & k & Hw & Hr & Hk)].
  - destruct (finish_answered w j i s Hs Hi) as (s' & E & Hj). exists [RunTask i], s'. repeat constructor; done.
  - destruct (held_answered w x k j s Hs Hw Hr Hk) as (p & s' & Hc & E & Hj). eexists _, s'.
    split; [|split; [|split; [exact E|done]]]; [by repeat constructor|done].
Qed.

End calm.

Section properties.
Context `{AvailablePolicy}.

(** C15. While no worker fails, every admitted request is at exactly one place: among the
    posted tasks, with one worker that holds it under the request's own header, or
    answered, and then answered once, whatever the order in which tasks run, workers
    register, acknowledge and answer. *)
Theorem jobs_at_one_place es s : Forall calm es -> execs es empty_proxy = Some s -> distinct s ->
  NoDup (located s) /\ forall j, j ∈ located s <-> is_Some (s.(jobs) !! j).
Proof.
  intros Hes E Hd. pose proof (sd_located _ _ (sound_execs _ _ _ Hes Hd sound_start E)) as Hl. cbn in Hl.
  split; [rewrite Hl; apply NoDup_fst_map_to_list|]. intros j. rewrite Hl, list_elem_of_fmap. split.
  - intros ([j' b] & -> & Hb%elem_of_map_to_list). by exists b.
  - intros [b Hb]. exists (j, b). split; [done|]. by apply elem_of_map_to_list.
Qed.

(** C16. While no worker fails, the requests for one file that are under way are all with
    one worker, the one its file is bound to: workers never share a file. *)
Theorem one_worker_per_file es s w1 w2 x1 x2 k1 k2 j1 j2 :
  Forall calm es -> execs es empty_proxy = Some s -> distinct s ->
  s.(workers) !! w1 = Some x1 -> x1.(started_jobs_) !! k1 = Some j1 ->
  s.(workers) !! w2 = Some x2 -> x2.(started_jobs_) !! k2 = Some j2 ->
  k1.1.1 = k2.1.1 -> w1 = w2.
Proof.
  intros Hes E Hd Hx1 Hk1 Hx2 Hk2 Ek. pose proof (sd_affine _ _ (sound_execs _ _ _ Hes Hd sound_start E)) as Ha.
  pose proof (Ha _ _ _ _ Hx1 Hk1). pose proof (Ha _ _ _ _ Hx2 Hk2). congruence.
Qed.

(** Without a valid worker nothing is answered, not even a request that [start_trigger_post]
    has refused. *)
Lemma process_job_without_worker j s : is_Some (s.(jobs) !! j) -> (forall w, is_valid s w = false) ->
  process_job j s = Some (reschedule j s).
Proof.
  intros [b Hb] Hv. unfold process_job. rewrite Hb. cbn [mbind option_bind].
  assert (match get_assigned_worker s b.(pack_).(header) with Some w => if is_valid s w then Some w else None | None => None end = None) as ->.
  { destruct (get_assigned_worker _ _); [by rewrite Hv|done]. }
  destruct (get_available_worker s); [by rewrite Hv|done].
Qed.

(** C17. Take a state reached while no worker fails or leaves, in which the requests have
    different keys, and in which every worker's connection still reads.  If a worker that is
    valid is registered, at most three further steps (the proxy runs a task, a worker answers)
    answer any given request; if no worker is valid, running the task of a request puts it
    back into the queue and changes nothing else. *)
Theorem every_job_can_complete es s j : Forall calm es -> execs es empty_proxy = Some s -> distinct s ->
  all_read s -> is_Some (s.(jobs) !! j) ->
  (forall w, w ∈ s.(worker_set_) -> is_valid s w = true ->
     exists es' s', Forall calm es' /\ (length es' <= 3)%nat /\ execs es' s = Some s' /\ j ∈ answered_jobs s'.(outputs)) /\
  ((forall w, is_valid s w = false) -> process_job j s = Some (reschedule j s)).
Proof.
  intros Hes E Hd Hr Hj. split; [|by apply process_job_without_worker]. intros w Hw Hv. destruct Hj as [b Hb].
  pose proof (sound_execs _ _ _ Hes Hd sound_start E) as Hs.
  assert (j ∈ located s) as Hl.
  { rewrite (sd_located _ _ Hs : located s ≡ₚ _). apply list_elem_of_fmap. exists (j, b). split; [done|]. by apply elem_of_map_to_list. }
  assert (underway j s -> exists es' s', Forall calm es' /\ (length es' <= 3)%nat /\ execs es' s = Some s' /\ j ∈ answered_jobs s'.(outputs)) as Hu.
  { intros (es' & s' & ? & ? & ? & ?)%underway_answered; [|done]. exists es', s'. split_and!; [done|lia|done..]. }
  unfold located in Hl. rewrite !elem_of_app in Hl. destruct Hl as [Hl|[Hl|Hl]].
  - apply list_elem_of_omap in Hl as (t & [i Hi]%list_elem_of_lookup_1 & Et).
    destruct t as [j'|w' j'|w' p|w' p]; try done; injection Et as ->; [|by apply Hu; left; eauto].
    destruct (sound_take _ _ _ _ Hi Hs) as [Ht _]. cbn in Ht.
    destruct (process_job_progress j b w (with_posted (delete i s.(posted)) s)) as (s1 & E1 & Hu1); try done.
    destruct (underway_answered j s1) as (es' & s' & Hes' & Hn & E' & Hj); [eapply sound_process_job; [|exact Ht|exact E1]; exact Hd|done|].
    exists (RunTask i :: es'), s'. split; [by constructor|]. split; [cbn; lia|]. split; [|done].
    cbn [execs exec]. rewrite Hi. cbn [mbind option_bind run_task]. by rewrite E1.
  - apply elem_of_held in Hl as (w' & x & k & Hx & Hk). apply Hu. right. exists w', x, k. eauto.
  - exists [], s. split_and!; [done|cbn; lia|done|done].
Qed.

End properties.

(** ** Instances *)

Definition distinctb (s : proxy) : bool :=
  let js := map_to_list s.(jobs) in
  forallb (fun p => forallb (fun q =>
    implb (bool_decide (key_of p.2.(pack_).(header) = key_of q.2.(pack_).(header))) (Nat.eqb p.1 q.1)) js) js.

Lemma distinctb_correct s : distinctb s = true -> distinct s.
Proof.
  unfold distinctb. intros Hd j1 j2 b1 b2 H1%elem_of_map_to_list H2%elem_of_map_to_list E.
  rewrite forallb_forall in Hd. apply list_elem_of_In in H1, H2. specialize (Hd _ H1). rewrite forallb_forall in Hd.
  specialize (Hd _ H2). cbn in Hd. rewrite bool_decide_eq_true_2 in Hd by done. by apply Nat.eqb_eq.
Qed.

Definition all_readb (s : proxy) : bool := forallb (fun p => p.2.(reading)) (map_to_list s.(workers)).

Lemma all_readb_correct s : all_readb s = true -> all_read s.
Proof.
  unfold all_readb. intros Hr w x Hx%elem_of_map_to_list. rewrite forallb_forall in Hr.
  by apply (Hr (w, x)), list_elem_of_In.
Qed.

Definition reaches (es : list event) (f : proxy -> bool) : bool :=
  match execs es empty_proxy with Some s => f s | None => false end.

Lemma reaches_inv es f : reaches es f = true -> exists s, execs es empty_proxy = Some s /\ f s = true.
Proof. unfold reaches. destruct (execs es empty_proxy) as [s|]; [|done]. by exists s. Qed.

Definition sample_worker : packet := mk_packet (mk_header (code worker_reg) 0 [] 0 [] []) (replicate 6 x00).
Definition salted (salt : byte) (p : packet) : packet :=
  mk_packet (mk_header p.(header).(type) p.(header).(direct_communication) p.(header).(key) p.(header).(datasize)
    p.(header).(sequence) [salt]) p.(data).
Definition opening (salt : byte) : event := Trigger [] (salted salt open_request).
Definition answer (w : nat) (salt : byte) : event := FromWorker w (has_type worker_response (salted salt open_request)).

(** Two workers, three requests for one file: one answered, two under way. *)
Definition calm_run : list event :=
  [NewWorker sample_worker; opening x01; NewWorker sample_worker; opening x02; opening x03;
   RunTask 1; RunTask 0; RunTask 0; answer 1 x02; RunTask 0].

Lemma calm_run_calm : Forall calm calm_run.
Proof. repeat constructor; vm_compute; discriminate. Qed.

Definition held_by (w : nat) (salt : byte) (j : nat) (s : proxy) : bool :=
  bool_decide ((s.(workers) !! w ≫= fun x => x.(started_jobs_) !! key_of (salted salt open_request).(header)) = Some j).

Lemma held_by_inv w salt j s : held_by w salt j s = true ->
  exists x, s.(workers) !! w = Some x /\ x.(started_jobs_) !! key_of (salted salt open_request).(header) = Some j.
Proof. unfold held_by. intros E%bool_decide_eq_true. destruct (s.(workers) !! w) as [x|]; [|done]. by exists x. Qed.

Definition calm_end (s : proxy) : bool :=
  distinctb s && all_readb s && is_valid s 1 && bool_decide (worker_set_ s = [1; 0])%nat &&
  held_by 1 x01 0 s && held_by 1 x03 2 s && bool_decide (answered_jobs s.(outputs) = [1])%nat &&
  bool_decide (is_Some (s.(jobs) !! 0%nat)).

Lemma calm_run_end : exists s, execs calm_run empty_proxy = Some s /\ calm_end s = true.
Proof. apply reaches_inv. vm_compute. reflexivity. Qed.

Lemma jobs_at_one_place_witness : exists s, execs calm_run empty_proxy = Some s /\ NoDup (located s) /\
  (0%nat ∈ located s <-> is_Some (s.(jobs) !! 0%nat)).
Proof.
  destruct calm_run_end as (s & E & Hs). unfold calm_end in Hs. rewrite !andb_true_iff in Hs.
  exists s. destruct (jobs_at_one_place calm_run s calm_run_calm E) as [H1 H2]; [apply distinctb_correct; tauto|].
  split; [done|]. split; [done|]. apply H2.
Defined.

Lemma one_worker_per_file_witness : exists s x1 x2 k1 k2 w1 w2, execs calm_run empty_proxy = Some s /\
  s.(workers) !! w1 = Some x1 /\ x1.(started_jobs_) !! k1 = Some 0%nat /\
  s.(workers) !! w2 = Some x2 /\ x2.(started_jobs_) !! k2 = Some 2%nat /\ w1 = w2.
Proof.
  destruct calm_run_end as (s & E & Hs). unfold calm_end in Hs. rewrite !andb_true_iff in Hs.
  destruct Hs as (((((((Hd & _) & _) & _) & Hh1) & Hh2) & _) & _).
  destruct (held_by_inv _ _ _ _ Hh1) as (x1 & Hx1 & Hk1). destruct (held_by_inv _ _ _ _ Hh2) as (x2 & Hx2 & Hk2).
  eexists s, x1, x2, _, _, _, _. do 5 (split; [eassumption|]).
  apply (one_worker_per_file calm_run s 1%nat 1%nat x1 x2 _ _ 0%nat 2%nat calm_run_calm E (distinctb_correct _ Hd) Hx1 Hk1 Hx2 Hk2).
  reflexivity.
Defined.

Lemma every_job_can_complete_witness : exists s es' s', execs calm_run empty_proxy = Some s /\
  answered_jobs s.(outputs) = [1%nat] /\
  Forall calm es' /\ (length es' <= 3)%nat /\ execs es' s = Some s' /\ 2%nat ∈ answered_jobs s'.(outputs).
Proof.
  destruct calm_run_end as (s & E & Hs). unfold calm_end in Hs. rewrite !andb_true_iff in Hs.
  destruct Hs as (((((((Hd & Hr) & Hv) & Hw) & _) & Hh) & Ha) & _).
  apply bool_decide_eq_true in Hw, Ha. destruct (held_by_inv _ _ _ _ Hh) as (x & Hx & Hk).
  assert (is_Some (s.(jobs) !! 2%nat)) as Hj.
  { destruct (sd_keys _ _ (sound_execs _ _ _ calm_run_calm (distinctb_correct _ Hd) sound_start E) _ _ _ _ Hx Hk) as (b & -> & _). by exists b. }
  destruct (every_job_can_complete calm_run s 2%nat calm_run_calm E (distinctb_correct _ Hd) (all_readb_correct _ Hr) Hj) as [H' _].
  destruct (H' 1%nat) as (es' & s' & H''); [rewrite Hw; by left|exact Hv|].
  exists s, es', s'. split; [exact E|]. split; [exact Ha|exact H''].
Defined.

(** A worker whose connection breaks twice over (a write to it fails, then reading
    from it fails) is closed twice, and a request it held is scheduled twice: the next
    worker executes it twice and the client is answered twice. *)
Theorem failed_worker_answers_twice : exists es s, execs es empty_proxy = Some s /\ distinct s /\
  answered_jobs s.(outputs) = [0; 0]%nat.
Proof.
  exists [NewWorker sample_worker; NewWorker sample_worker; opening x01; RunTask 0; WriteError 1; ReadError 1; RunTask 0;
    answer 0 x01; RunTask 1; RunTask 0; answer 0 x01; RunTask 0].
  destruct (reaches_inv [NewWorker sample_worker; NewWorker sample_worker; opening x01; RunTask 0; WriteError 1; ReadError 1; RunTask 0;
    answer 0 x01; RunTask 1; RunTask 0; answer 0 x01; RunTask 0]
    (fun s => distinctb s && bool_decide (answered_jobs s.(outputs) = [0; 0]%nat))) as (s & E & Hs); [vm_compute; reflexivity|].
  apply andb_true_iff in Hs as [Hd Ha%bool_decide_eq_true]. exists s. split; [done|]. split; [by apply distinctb_correct|done].
Qed.

(** The binding of a file to a worker outlives the worker: [emplace] does not replace
    it.  After an idle worker has closed, each request for its files is given to whichever
    worker has the least load, and two workers serve one file at the same time. *)
Theorem closed_worker_splits_file : exists es s w1 w2 x1 x2 k1 k2 j1 j2, execs es empty_proxy = Some s /\ distinct s /\
  s.(workers) !! w1 = Some x1 /\ x1.(started_jobs_) !! k1 = Some j1 /\
  s.(workers) !! w2 = Some x2 /\ x2.(started_jobs_) !! k2 = Some j2 /\ k1.1.1 = k2.1.1 /\ w1 <> w2.
Proof.
  destruct (reaches_inv [NewWorker sample_worker; opening x01; RunTask 0; answer 0 x01; RunTask 0; NewWorker sample_worker;
    NewWorker sample_worker; ReadError 0; opening x02; RunTask 0; opening x03; RunTask 0]
    (fun s => distinctb s && held_by 2 x02 1 s && held_by 1 x03 2 s)) as (s & E & Hs); [vm_compute; reflexivity|].
  apply andb_true_iff in Hs as [[Hd Hh1]%andb_true_iff Hh2].
  apply held_by_inv in Hh1 as (x1 & ? & ?). apply held_by_inv in Hh2 as (x2 & ? & ?).
  eexists _, s, 2%nat, 1%nat, x1, x2, _, _, 1%nat, 2%nat. split; [exact E|]. split; [by apply distinctb_correct|].
  do 4 (split; [eassumption|]). split; [reflexivity|lia].
Qed.
