(* ===== verification/CacheTransfer.v ===== *)
(** * Handing the cache of a data function to the next one ([caching.hpp], lines 251-433)

    [get_tables] writes the block index and the LRU list into the packet with which a
    data function leaves; the proxy reads the bindings of files out of it
    ([Worker.get_fileids_from_transfer]) and hands the packet to the next data function,
    whose [build_cache] reads the tables and fetches the blocks again.  The records have
    no length: a space ends each of them. *)
From Stdlib Require Import ZArith Lia.
From stdpp Require Import base tactics option list gmap strings.
From S2P Require Import Prelude Wire Request Coordinator Directory Cache Worker.

Definition colon : byte := x3a.
Definition comma : byte := x2c.
Definition space : byte := x20.
Definition dot : byte := x2e.

(** Four bytes copied out of an integer. *)
Definition le4 (z : Z) : bytes := le_bytes 4 z.

(** ** [get_tables] *)

Definition block_record (b : Z * bytes) : bytes := le4 b.1 ++ le4 (Z.of_nat (length b.2)).

Fixpoint block_records (bs : list (Z * bytes)) : bytes :=
  match bs with
  | [] => []
  | [b] => block_record b
  | b :: bs => block_record b ++ [comma] ++ block_records bs
  end.

Definition file_record (f : bytes * list (Z * bytes)) : bytes := f.1 ++ [colon] ++ block_records f.2 ++ [space].

Definition lru_record (e : cache_entry) : bytes :=
  e.(file_key_) ++ [dot] ++ le4 e.(block_id_) ++ le4 e.(data_size_) ++ [space].

(** The files and their blocks in the order in which the hash maps are walked. *)
Definition get_tables (files : list (bytes * list (Z * bytes))) (c : cache) : bytes :=
  concat (file_record <$> files) ++ concat (lru_record <$> reverse c.(lru_cache_).(nodes))
  ++ le4 c.(cache_hits_) ++ le4 c.(lru_cache_).(evictions).

(** An order of walking the index. *)
Definition enumerates (files : list (bytes * list (Z * bytes))) (mp : caching_map) : Prop :=
  list_to_map ((fun f => (f.1, list_to_map f.2)) <$> files) = mp /\
  NoDup files.*1 /\ Forall (fun f => NoDup f.2.*1) files.

(** ** [build_cache] *)

(** The block a record asks for: file, number, size. *)
Definition pending : Type := bytes * Z * Z.

(** The inner loop, up to the space.  [held] is the file whose accessor the iteration
    holds: the one just found in the index. *)
Fixpoint build_blocks (fuel : nat) (cfg : config) (held : option bytes) (file_key : bytes) (it : bytes) (c : cache)
    : option (bytes * cache * list pending) :=
  match fuel with
  | O => None
  | S fuel =>
      x ← hd_error it;
      if decide (x = space) then Some (it, c, [])
      else
        '(bid, it) ← read_n 4 (drop 1 it);
        '(b_size, it) ← read_n 4 it;
        if decide (x = dot) then
          c ← lru_set cfg held (mk_entry file_key (le_val bid) (le_val b_size)) c;
          Some (it, c, [])
        else
          '(it, c, ps) ← build_blocks fuel cfg held file_key it c;
          Some (it, c, (file_key, le_val bid, le_val b_size) :: ps)
  end.

Fixpoint build_cache (fuel : nat) (cfg : config) (it : bytes) (c : cache) : option (cache * list pending) :=
  match fuel with
  | O => None
  | S fuel =>
      match it with
      | [] => Some (c, [])
      | _ =>
          '(file_key, it) ← read_n 32 it;
          let held := match c.(caching_map_) !! file_key with Some _ => Some file_key | None => None end in
          let c := with_map (emplace file_key ∅ c.(caching_map_)) c in
          '(it, c, ps) ← build_blocks (S (length it)) cfg held file_key it c;
          '(c, ps') ← build_cache fuel cfg (drop 1 it) c;
          Some (c, ps ++ ps')
      end
  end.

(** The request that fetches a block, and what is done with its answer. *)
Definition fetch_packet (salt sequence : bytes) (p : pending) : pack.packet :=
  let '(file_key, bid, b_size) := p in
  internal_packet salt sequence file_key read (u32 (bid * 4096)) b_size [].

Definition fetched (p : pending) (data : bytes) (c : cache) : cache :=
  let '(file_key, bid, _) := p in
  match c.(caching_map_) !! file_key with
  | Some blocks =>
      mk_cache (<[file_key := emplace bid data blocks]> c.(caching_map_)) c.(lru_cache_) c.(cache_hits_)
        (u32 (c.(block_counter_) + Z.of_nat (length data)))
  | None => c
  end.

(** ** The tables are read back *)

Lemma length_block_record b : length (block_record b) = 8%nat.
Proof. unfold block_record, le4. by rewrite length_app, !length_le_bytes. Qed.

(** Values that fit their four bytes. *)
Definition block_fits (b : Z * bytes) : Prop := 0 <= b.1 < 2 ^ 32 /\ Z.of_nat (length b.2) < 2 ^ 32.
Definition pending_of (key : bytes) (b : Z * bytes) : pending := (key, b.1, Z.of_nat (length b.2)).
Definition entry_fits (e : cache_entry) : Prop :=
  length e.(file_key_) = 32%nat /\ 0 <= e.(block_id_) < 2 ^ 32 /\ 0 <= e.(data_size_) < 2 ^ 32.
Definition file_fits (f : bytes * list (Z * bytes)) : Prop :=
  length f.1 = 32%nat /\ f.2 <> [] /\ Forall block_fits f.2.

Lemma files_fit files : Forall (fun f => length f.1 = 32%nat /\ Forall block_fits f.2) files ->
  Forall (fun f => f.2 <> []) files -> Forall file_fits files.
Proof. rewrite !Forall_forall. intros H1 H2 f Hf. destruct (H1 f Hf). split_and!; auto. Qed.

Lemma le_val_le4 z : 0 <= z < 2 ^ 32 -> le_val (le4 z) = z.
Proof. intros. by apply le_val_le_small. Qed.

Lemma read_le4 z rest : read_n 4 (le4 z ++ rest) = Some (le4 z, rest).
Proof. apply read_n_app, length_le_bytes. Qed.

(** One record of the index: the separator before a block is a colon or a comma. *)
Lemma build_block_records bs cfg held key sep c rest fuel : bs <> [] -> Forall block_fits bs ->
  sep <> space -> sep <> dot -> (length bs < fuel)%nat ->
  build_blocks fuel cfg held key (sep :: block_records bs ++ space :: rest) c
  = Some (space :: rest, c, pending_of key <$> bs).
Proof.
  revert sep fuel. induction bs as [|b bs IH]; intros sep fuel Hne Hbs Hs Hd Hf; [done|]. clear Hne.
  apply Forall_cons in Hbs as [[Hb1 Hb2] Hbs]. destruct fuel as [|fuel]; [cbn in Hf; lia|].
  cbn [build_blocks hd_error mbind option_bind]. rewrite decide_False by done. cbn [drop].
  assert (exists rest', block_records (b :: bs) ++ space :: rest = le4 b.1 ++ le4 (Z.of_nat (length b.2)) ++ rest' /\
    build_blocks fuel cfg held key rest' c = Some (space :: rest, c, pending_of key <$> bs)) as (rest' & E & Er).
  { destruct bs as [|b' bs].
    - exists (space :: rest). split; [change (block_records [b]) with (block_record b); unfold block_record; by rewrite <- (assoc_L (++))|].
      destruct fuel as [|fuel]; [cbn in Hf; lia|]. done.
    - exists (comma :: block_records (b' :: bs) ++ space :: rest). split.
      + change (block_records (b :: b' :: bs)) with (block_record b ++ [comma] ++ block_records (b' :: bs)).
        unfold block_record at 1. rewrite <- !(assoc_L (++)). done.
      + apply IH; [done..|cbn in *; lia]. }
  rewrite drop_0, E, read_le4. cbn [mbind option_bind]. rewrite read_le4. cbn [mbind option_bind].
  rewrite decide_False by done. rewrite Er. cbn [mbind option_bind]. rewrite !le_val_le4 by lia. done.
Qed.

(** Entering an entry for which there is room. *)
Lemma lru_set_room cfg held e c : lru_shape c.(lru_cache_) -> 0 <= e.(data_size_) ->
  total c.(lru_cache_).(nodes) + e.(data_size_) <= cfg.(cap) -> cfg.(cap) < 2 ^ 31 ->
  entry_key e ∉ entry_key <$> c.(lru_cache_).(nodes) ->
  lru_set cfg held e c = Some (with_lru
    (mk_lru (e :: c.(lru_cache_).(nodes)) (node_map (e :: c.(lru_cache_).(nodes)))
       (total (e :: c.(lru_cache_).(nodes))) c.(lru_cache_).(evictions)) c).
Proof.
  intros [Hnd Hm Hsz Hcur] He Hroom Hcap Hnew. destruct c as [mp [ns mm cs ev] h b].
  cbn [lru_cache_ nodes m cur_size_ evictions] in *. subst mm cs. pose proof (total_nonneg _ Hsz).
  unfold lru_set. cbn [lru_cache_ nodes m cur_size_ evictions].
  assert (node_map ns !! entry_key e = None) as ->.
  { unfold node_map. apply not_elem_of_list_to_map_1. by rewrite node_map_fst. }
  cbn [evict with_lru lru_cache_ nodes cur_size_]. rewrite u32_small by lia.
  destruct (Z.gtb_spec (total ns + data_size_ e) (cap cfg)); [lia|]. cbn [mbind option_bind].
  unfold addnode, with_lru. cbn [lru_cache_ nodes m cur_size_ evictions caching_map_ cache_hits_ block_counter_].
  rewrite s32_small by lia. unfold total. cbn [foldr]. fold (total ns). by rewrite (Z.add_comm (total ns)), node_map_cons.
Qed.

(** The outer loop over the files of the index, then over the LRU list. *)
Definition index_files (keys : list bytes) (c : cache) : cache :=
  with_map (foldl (fun mp k => emplace k ∅ mp) c.(caching_map_) keys) c.

Lemma build_files fs cfg rest c fuel : Forall file_fits fs -> (length fs <= fuel)%nat ->
  build_cache fuel cfg (concat (file_record <$> fs) ++ rest) c
  = '(c, ps) ← build_cache (fuel - length fs) cfg rest (index_files fs.*1 c);
    Some (c, (fs ≫= fun f => pending_of f.1 <$> f.2) ++ ps).
Proof.
  intros Hfs. revert fuel c. induction Hfs as [|[k bs] fs (Hk & Hne & Hbs) Hfs IH]; intros fuel c Hf.
  - cbn [fmap list_fmap concat app length]. rewrite Nat.sub_0_r. unfold index_files. cbn [foldl fmap list_fmap mbind list_bind app].
    destruct c. cbn. by destruct (build_cache _ _ _ _) as [[]|].
  - destruct fuel as [|fuel]; [cbn in Hf; lia|]. cbn [fst snd] in *. cbn [fmap list_fmap concat].
    unfold file_record at 1. cbn [fst snd].
    rewrite <- !(assoc_L (++)). cbn [app].
    destruct (k ++ colon :: _) as [|y l] eqn:E; [by destruct k|]. cbn [build_cache]. rewrite <- E.
    rewrite read_n_app by done. cbn [mbind option_bind].
    rewrite build_block_records; [|done|done|done|done|].
    + cbn [mbind option_bind drop]. rewrite IH by (cbn in Hf; lia). unfold index_files. cbn [fmap list_fmap fst foldl].
      cbn [with_map caching_map_].
      change (S fuel - length ((k, bs) :: fs))%nat with (fuel - length fs)%nat. cbn [lru_cache_ cache_hits_ block_counter_].
      destruct (build_cache _ _ rest _) as [[c' ps']|]; [|done]. cbn [mbind option_bind]. do 2 f_equal.
      change (((k, bs) :: fs) ≫= (λ f, pending_of f.1 <$> f.2)) with ((pending_of k <$> bs) ++ (fs ≫= (λ f, pending_of f.1 <$> f.2))).
      by rewrite (assoc_L (++)).
    + assert (length bs <= length (block_records bs))%nat as Hl; [|cbn [length]; rewrite length_app; lia].
      clear. induction bs as [|b [|b' bs] IH]; [done|cbn [block_records]; rewrite length_block_record; cbn; lia|].
      change (block_records (b :: b' :: bs)) with (block_record b ++ [comma] ++ block_records (b' :: bs)).
      rewrite !length_app, length_block_record. cbn [length] in *. lia.
Qed.

(** The LRU structure of a list of entries. *)
Definition lru_of (ns : list cache_entry) (ev : Z) : LRUCache := mk_lru ns (node_map ns) (total ns) ev.

Lemma lru_of_shape ns ev : NoDup (entry_key <$> ns) -> Forall entry_fits ns -> lru_shape (lru_of ns ev).
Proof. intros Hn Hf. split; [done|done| |done]. eapply Forall_impl; [done|]. intros e (_ & _ & ?). cbn. lia. Qed.

Lemma build_lru es cfg fuel mp ns ev h b : Forall entry_fits es -> Forall entry_fits ns ->
  NoDup (entry_key <$> es ++ ns) -> total es + total ns <= cfg.(cap) -> cfg.(cap) < 2 ^ 31 -> (length es < fuel)%nat ->
  build_cache fuel cfg (concat (lru_record <$> es)) (mk_cache mp (lru_of ns ev) h b)
  = Some (mk_cache (foldl (fun mp k => emplace k ∅ mp) mp (file_key_ <$> es)) (lru_of (reverse es ++ ns) ev) h b, []).
Proof.
  intros Hes. revert fuel mp ns. induction Hes as [|e es (Hk & Hid & Hsz) Hes IH]; intros fuel mp ns Hns Hnd Ht Hcap Hf.
  - destruct fuel as [|fuel]; [cbn in Hf; lia|]. done.
  - destruct fuel as [|fuel]; [cbn in Hf; lia|]. cbn [fmap list_fmap concat]. unfold lru_record at 1.
    rewrite <- !(assoc_L (++)). cbn [app].
    destruct (file_key_ e ++ dot :: _) as [|y l] eqn:E; [by destruct (file_key_ e)|]. cbn [build_cache]. rewrite <- E.
    rewrite read_n_app by done. cbn [mbind option_bind with_map caching_map_ lru_cache_ cache_hits_ block_counter_].
    cbn [build_blocks hd_error mbind option_bind]. rewrite decide_False by done. cbn [drop].
    rewrite ?drop_0, read_le4. cbn [mbind option_bind]. rewrite read_le4. cbn [mbind option_bind]. rewrite decide_True by done.
    rewrite !le_val_le4 by lia. cbn [fmap list_fmap app] in Hnd. apply NoDup_cons in Hnd as [Hn Hnd].
    assert (mk_entry e.(file_key_) e.(block_id_) e.(data_size_) = e) as -> by by destruct e.
    assert (NoDup (entry_key <$> ns)) as Hndn by (rewrite fmap_app in Hnd; by apply NoDup_app in Hnd as (_ & _ & ?)).
    assert (0 <= total es) as Hte.
    { apply total_nonneg. eapply Forall_impl; [done|]. intros x (_ & _ & ?). cbn. lia. }
    cbn [total foldr] in Ht. fold (total es) (total ns) in Ht.
    rewrite lru_set_room; [|by apply lru_of_shape|lia|change (total ns + e.(data_size_) <= cfg.(cap)); lia|done|].
    + cbn [mbind option_bind].
      change (with_lru _ _) with (mk_cache (emplace e.(file_key_) ∅ mp) (lru_of (e :: ns) ev) h b).
      cbn [drop]. rewrite IH; [|by constructor| | |done|cbn in Hf; lia].
      * cbn [mbind option_bind app]. by rewrite reverse_cons, <- (assoc_L (++)).
      * rewrite fmap_app. cbn [fmap list_fmap]. rewrite <- Permutation_middle. apply NoDup_cons. split; [|by rewrite <- fmap_app].
        by rewrite <- fmap_app.
      * cbn [total foldr]. fold (total es) (total ns). lia.
    + cbn [lru_cache_ lru_of nodes]. intros Hin. apply Hn. rewrite fmap_app. apply elem_of_app. by right.
Qed.

(** What the proxy hands on: the tables without the two counters. *)
Definition handed_on (tables : bytes) : bytes := take (length tables - 8) tables.

Lemma handed_on_tables files c :
  handed_on (get_tables files c) = concat (file_record <$> files) ++ concat (lru_record <$> reverse c.(lru_cache_).(nodes)).
Proof.
  unfold handed_on, get_tables. rewrite (assoc_L (++)), take_app_length'; [done|].
  rewrite (length_app _ (le4 _ ++ _)). unfold le4. rewrite (length_app (le_bytes _ _)), !length_le_bytes. lia.
Qed.

(** What the proxy finds: after a key, everything up to the next space is skipped. *)
Lemma find_space a rest : space ∉ a -> list_find (eq x20) (a ++ space :: rest) = Some (length a, space).
Proof.
  intros Ha. apply list_find_Some. split; [by rewrite lookup_app_r, Nat.sub_diag by done|]. split; [done|].
  intros j y Hj Hlt <-. rewrite lookup_app_l in Hj by done. apply Ha. by eapply list_elem_of_lookup_2.
Qed.

Lemma get_fileids_record k a rest fuel : length k = 32%nat -> space ∉ a ->
  get_fileids_from_transfer (S fuel) (k ++ a ++ space :: rest)
  = (ids ← get_fileids_from_transfer fuel rest; Some (k :: ids)).
Proof.
  intros Hk Ha. cbn [get_fileids_from_transfer]. destruct (k ++ a ++ _) as [|y l] eqn:E; [by destruct k|]. rewrite <- E.
  rewrite read_n_app by done. cbn [mbind option_bind]. rewrite find_space by done.
  assert (drop (S (length a)) (a ++ space :: rest) = rest) as ->; [|done].
  change (space :: rest) with ([space] ++ rest). rewrite (assoc_L (++)). apply drop_app_length'. rewrite length_app. cbn. lia.
Qed.

(** No number or size in the tables has the byte of a space. *)
Definition no_space (files : list (bytes * list (Z * bytes))) (es : list cache_entry) : Prop :=
  Forall (fun f => space ∉ block_records f.2) files /\
  Forall (fun e => space ∉ le4 e.(block_id_) ++ le4 e.(data_size_)) es.

Lemma get_fileids_files fs rest fuel : Forall file_fits fs -> Forall (fun f => space ∉ block_records f.2) fs ->
  get_fileids_from_transfer (length fs + fuel) (concat (file_record <$> fs) ++ rest)
  = (ids ← get_fileids_from_transfer fuel rest; Some (fs.*1 ++ ids)).
Proof.
  intros Hfs. induction Hfs as [|[k bs] fs (Hk & _) Hfs IH]; intros Hs; cbn [fmap list_fmap concat length app].
  - cbn. by destruct (get_fileids_from_transfer fuel rest).
  - apply Forall_cons in Hs as [Hs1 Hs]. unfold file_record at 1. cbn [fst snd] in *. rewrite <- !(assoc_L (++)). cbn [app Nat.add].
    change (colon :: block_records bs ++ space :: concat (file_record <$> fs) ++ rest)
      with ((colon :: block_records bs) ++ space :: concat (file_record <$> fs) ++ rest).
    rewrite get_fileids_record; [|done|apply not_elem_of_cons; done]. rewrite IH by done.
    by destruct (get_fileids_from_transfer fuel rest).
Qed.

Lemma get_fileids_lru es fuel : Forall entry_fits es -> Forall (fun e => space ∉ le4 e.(block_id_) ++ le4 e.(data_size_)) es ->
  get_fileids_from_transfer (length es + S fuel) (concat (lru_record <$> es)) = Some (file_key_ <$> es).
Proof.
  intros Hes. induction Hes as [|e es (Hk & _) Hes IH]; intros Hs; [done|].
  apply Forall_cons in Hs as [Hs1 Hs]. cbn [fmap list_fmap concat length Nat.add]. unfold lru_record at 1.
  rewrite <- !(assoc_L (++)). cbn [app].
  assert (dot :: le4 e.(block_id_) ++ le4 e.(data_size_) ++ space :: concat (lru_record <$> es)
    = (dot :: le4 e.(block_id_) ++ le4 e.(data_size_)) ++ space :: concat (lru_record <$> es)) as ->
    by (cbn [app]; by rewrite <- (assoc_L (++))).
  rewrite get_fileids_record; [|done|apply not_elem_of_cons; done]. by rewrite IH.
Qed.

(** The fuel does not matter beyond what is needed. *)
Lemma get_fileids_more fuel b ids n : get_fileids_from_transfer fuel b = Some ids ->
  get_fileids_from_transfer (fuel + n) b = Some ids.
Proof.
  revert b ids. induction fuel as [|fuel IH]; intros b ids; [done|]. cbn [get_fileids_from_transfer Nat.add].
  destruct b as [|y b]; [done|]. destruct (read_n _ _) as [[k r]|]; [|done]. cbn [mbind option_bind].
  destruct (get_fileids_from_transfer fuel _) as [ids'|] eqn:E; [|done]. by rewrite (IH _ _ E).
Qed.

(** ** Properties *)

Lemma length_concat_ge {A} (f : A -> bytes) (l : list A) : (forall x, 0 < length (f x))%nat ->
  (length l <= length (concat (f <$> l)))%nat.
Proof. intros Hf. induction l as [|x l IH]; [done|]. cbn. rewrite length_app. specialize (Hf x). lia. Qed.

Section transfer.
Variables (files : list (bytes * list (Z * bytes))) (c : cache) (cfg : config).
Hypotheses (Hfiles : Forall file_fits files) (Hnodes : Forall entry_fits c.(lru_cache_).(nodes)).
Hypotheses (Hok : lru_ok cfg.(cap) c.(lru_cache_)) (Hcap : cfg.(cap) < 2 ^ 31).

Lemma transfer_fuel : (length files + S (length c.(lru_cache_).(nodes))
  <= S (length (handed_on (get_tables files c))))%nat.
Proof using.
  rewrite handed_on_tables, length_app.
  pose proof (length_concat_ge file_record files ltac:(intros; unfold file_record; rewrite length_app; cbn; lia)).
  pose proof (length_concat_ge lru_record (reverse c.(lru_cache_).(nodes))
    ltac:(intros; unfold lru_record; rewrite length_app; cbn; lia)) as Hl.
  rewrite length_reverse in Hl. lia.
Qed.

Lemma build_tables : build_cache (S (length (handed_on (get_tables files c)))) cfg (handed_on (get_tables files c)) empty_cache
  = Some (mk_cache (foldl (fun mp k => emplace k ∅ mp) ∅ (files.*1 ++ (file_key_ <$> reverse c.(lru_cache_).(nodes))))
            (lru_of c.(lru_cache_).(nodes) 0) 0 0, files ≫= fun f => pending_of f.1 <$> f.2).
Proof.
  pose proof transfer_fuel as Hf. destruct Hok as [[Hnd Hm Hsz Hcur] Ht].
  rewrite handed_on_tables in Hf |- *. rewrite build_files by (done || lia).
  change (index_files files.*1 empty_cache)
    with (mk_cache (foldl (fun mp k => emplace k ∅ mp) ∅ files.*1) (lru_of [] 0) 0 0).
  rewrite build_lru; [|by apply Forall_reverse|done| | |done|rewrite length_reverse; lia].
  - cbn [mbind option_bind]. by rewrite reverse_involutive, !app_nil_r, foldl_app.
  - rewrite app_nil_r. by rewrite reverse_Permutation.
  - rewrite (total_perm _ _ (reverse_Permutation _)). change (total []) with 0. lia.
Qed.
End transfer.

(** C19. Take a cache in which every file has at least one block, keys have 32 bytes,
    numbers and sizes fit their fields, and the LRU list is as the cache keeps it, without
    repetition and within the capacity ([lru_ok]).  What a data function writes of it is read back by
    the next one: the LRU list comes back entry for entry in its order, every file gets its
    place in the index, and exactly the cached blocks, with their numbers and sizes, are
    asked for again - whatever the keys, numbers and sizes are, although the records have
    no length.  (A file without a block is misread, see [empty_file_misread].) *)
Theorem tables_read_back files c cfg
    (Hfiles : Forall (fun f => length f.1 = 32%nat /\ Forall block_fits f.2) files)
    (Hblocks : Forall (fun f => f.2 <> []) files) (Hnodes : Forall entry_fits c.(lru_cache_).(nodes))
    (Hok : lru_ok cfg.(cap) c.(lru_cache_)) (Hcap : cfg.(cap) < 2 ^ 31) :
  let table := handed_on (get_tables files c) in
  exists c', build_cache (S (length table)) cfg table empty_cache
    = Some (c', files ≫= fun f => pending_of f.1 <$> f.2) /\
  c'.(lru_cache_).(nodes) = c.(lru_cache_).(nodes) /\ lru_ok cfg.(cap) c'.(lru_cache_) /\
  forall k, c'.(caching_map_) !! k = if decide (k ∈ files.*1 \/ k ∈ (file_key_ <$> c.(lru_cache_).(nodes))) then Some ∅ else None.
Proof.
  pose proof (files_fit files Hfiles Hblocks). cbv zeta. eexists. split; [by apply build_tables|].
  cbn [lru_cache_ lru_of nodes caching_map_]. split; [done|].
  destruct Hok as [[Hnd Hm Hsz Hcur] Ht]. split; [by split|]. intros k.
  assert (forall ks mp, (forall v, mp !! k = Some v -> v = ∅) ->
    foldl (fun (mp : caching_map) k => emplace k ∅ mp) mp ks !! k
    = if decide (k ∈ ks) then Some ∅ else mp !! k) as Hfold.
  { intros ks. induction ks as [|k' ks IH]; intros mp Hmp; [by rewrite decide_False by apply not_elem_of_nil|].
    cbn [foldl]. rewrite IH.
    - unfold emplace. destruct (decide (k ∈ ks)); [by rewrite decide_True by (by right)|].
      destruct (decide (k = k')) as [<-|Hne].
      + rewrite decide_True by (by left). destruct (mp !! k) as [v|] eqn:E; [by rewrite E, (Hmp v)|]. by rewrite lookup_insert_eq.
      + rewrite decide_False by (rewrite not_elem_of_cons; done). destruct (mp !! k'); [done|]. by rewrite lookup_insert_ne.
    - intros v. unfold emplace. destruct (mp !! k') eqn:E; [apply Hmp|].
      destruct (decide (k' = k)) as [<-|]; [rewrite lookup_insert_eq; by intros [= <-]|rewrite lookup_insert_ne by done; apply Hmp]. }
  rewrite Hfold by (intros v; by rewrite lookup_empty). rewrite lookup_empty.
  apply decide_ext. rewrite elem_of_app, !list_elem_of_fmap. setoid_rewrite elem_of_reverse. done.
Qed.

(** The proxy binds the transferred files to the new data function by the keys in the
    tables, as long as no block number and no size has a byte 0x20; one that has ends
    its record early and the keys that follow are read out of the middle of records. *)
Theorem bindings_read_back files c (Hfiles : Forall file_fits files)
    (Hnodes : Forall entry_fits c.(lru_cache_).(nodes)) (Hs : no_space files c.(lru_cache_).(nodes)) :
  let table := handed_on (get_tables files c) in
  get_fileids_from_transfer (S (length table)) table
  = Some (files.*1 ++ (file_key_ <$> reverse c.(lru_cache_).(nodes))).
Proof.
  cbv zeta. pose proof (transfer_fuel files c) as Hf. destruct Hs as [Hs1 Hs2].
  replace (S (length (handed_on (get_tables files c))))
    with (length files + (length (reverse c.(lru_cache_).(nodes)) + 1)
          + (S (length (handed_on (get_tables files c))) - (length files + (length c.(lru_cache_).(nodes) + 1))))%nat
    by (rewrite length_reverse; lia).
  apply get_fileids_more. rewrite handed_on_tables. rewrite get_fileids_files by done.
  rewrite get_fileids_lru; [done|by apply Forall_reverse..].
Qed.

(** The blocks a new data function fetches are not those of the files: the read names
    the directory's key in its header only, and the storage, which goes by the key in
    the request, reads the file whose key is zero, whichever file the block was of. *)
Theorem transfer_fetches_zero_file salt sequence key bid b_size now salt' sequence' blocksize
    (Hb : 0 <= b_size < 2 ^ 32) :
  exists i, parse_input (fetch_packet salt sequence (key, bid, b_size)) = Some i /\ i.(in_uuid) = key /\
    Directory.start_perform now salt' sequence' blocksize (operation_code read) i
    = ReadReply (internal_packet salt' sequence' (replicate 32 x00) read (u32 (bid * 4096)) b_size []).
Proof.
  assert (0 <= u32 (bid * 4096) < 2 ^ 32) as Hr by (apply Z.mod_pos_bound; lia).
  eexists. unfold fetch_packet. rewrite parse_internal_packet by done. done.
Qed.

(** ** Instances *)
Definition ct_key (b : byte) : bytes := replicate 32 b.
Definition ct_files : list (bytes * list (Z * bytes)) :=
  [(ct_key x61, [(3, [x01; x02]); (7, [x05])]); (ct_key space, [(1, [x09])])].
Definition ct_entries : list cache_entry :=
  [mk_entry (ct_key space) 1 1; mk_entry (ct_key x61) 7 1; mk_entry (ct_key x61) 3 2].
Definition ct_cache : cache := mk_cache ∅ (lru_of ct_entries 0) 4 4.
Definition ct_config : config := Cache.mk_config 4096 false.

Lemma ct_files_fit : Forall file_fits ct_files.
Proof. repeat constructor; cbn; try done; lia. Qed.
Lemma ct_files_blocks : Forall (fun f => length f.1 = 32%nat /\ Forall block_fits f.2) ct_files /\ Forall (fun f => f.2 <> []) ct_files.
Proof. split; eapply Forall_impl; [exact ct_files_fit| |exact ct_files_fit|]; by intros f (? & ? & ?). Qed.
Lemma ct_entries_fit : Forall entry_fits ct_entries.
Proof. repeat constructor; cbn; try done; lia. Qed.
Lemma ct_ok : lru_ok ct_config.(cap) ct_cache.(lru_cache_).
Proof.
  split; [|vm_compute; discriminate]. apply lru_of_shape; [|apply ct_entries_fit]. by apply (bool_decide_unpack _).
Qed.

Lemma tables_read_back_witness : exists c',
  build_cache (S (length (handed_on (get_tables ct_files ct_cache)))) ct_config (handed_on (get_tables ct_files ct_cache)) empty_cache
    = Some (c', [(ct_key x61, 3, 2); (ct_key x61, 7, 1); (ct_key space, 1, 1)]) /\ c'.(lru_cache_).(nodes) = ct_entries.
Proof.
  destruct (tables_read_back ct_files ct_cache ct_config (proj1 ct_files_blocks) (proj2 ct_files_blocks) ct_entries_fit ct_ok ltac:(vm_compute; reflexivity))
    as (c' & E & En & _). exists c'. split; [exact E|exact En].
Defined.

Lemma bindings_read_back_witness : no_space ct_files ct_entries /\
  get_fileids_from_transfer (S (length (handed_on (get_tables ct_files ct_cache)))) (handed_on (get_tables ct_files ct_cache))
  = Some [ct_key x61; ct_key space; ct_key x61; ct_key x61; ct_key space].
Proof.
  assert (no_space ct_files ct_entries) as Hs by (split; repeat constructor; by apply (bool_decide_unpack _)).
  split; [exact Hs|]. exact (bindings_read_back ct_files ct_cache ct_files_fit ct_entries_fit Hs).
Defined.

Lemma transfer_fetches_zero_file_witness : exists i,
  parse_input (fetch_packet [] [] (ct_key x61, 3, 2)) = Some i /\
  Directory.start_perform 0 [] [] 4096 (operation_code read) i
  = ReadReply (internal_packet [] [] (replicate 32 x00) read 12288 2 []).
Proof.
  destruct (transfer_fetches_zero_file [] [] (ct_key x61) 3 2 0 [] [] 4096 ltac:(lia)) as (i & E & _ & Es).
  exists i. split; [exact E|exact Es].
Defined.

(** Block 32 of a file: its number starts with a space, and a key is read past the end. *)
Lemma bindings_misread : exists files c, Forall file_fits files /\ Forall entry_fits c.(lru_cache_).(nodes) /\
  get_fileids_from_transfer (S (length (handed_on (get_tables files c)))) (handed_on (get_tables files c)) = None.
Proof.
  exists [(ct_key x61, [(32, [x01])])], (mk_cache ∅ (lru_of [mk_entry (ct_key x61) 32 1] 0) 0 0).
  split; [repeat constructor; cbn; try done; lia|]. split; [repeat constructor; cbn; try done; lia|].
  vm_compute. reflexivity.
Qed.

(** A file without blocks has no record, and the space that ends it is read as the number
    of a block. *)
Lemma empty_file_misread :
  let table := handed_on (get_tables [(ct_key x61, []); (ct_key x62, [(1, [x09])])] empty_cache) in
  build_cache (S (length table)) ct_config table empty_cache = None.
Proof. vm_compute. reflexivity. Qed.
