(* ===== verification/DataFunction.v ===== *)
(** * The data function: commands of the proxy and their answers ([proxy-command.hpp])

    One proxy connection of a data function: the commands it reads, the timer that
    closes it, the job a trigger starts, and the packet that answers it.  The last part
    follows requests of the client library through the job to the servers and back to
    the tables of the proxy. *)
From Stdlib Require Import ZArith Lia.
From stdpp Require Import base tactics option list gmap strings.
From S2P Require Import Prelude Wire KvLog Ssbd Request Stripe Connection Coordinator Cluster Directory Filesystem Cache Launcher Client Worker.
Import pack recoder.

(** ** Commands *)
Module proxy_command.

(** Times are milliseconds of the steady clock.  [deadline]: when the armed
    [recv_deadline_] expires; [posted]: the handlers of [start_job], each on the strand
    of its key; [written]: the packets handed to the writer. *)
Record state := mk_state {
  waittime_ : Z;
  last_update_ : Z;
  deadline : option Z;
  proxy_set_ : list bytes;
  posted : list packet;
  eviction_policy_ : bytes;             (* of the cache *)
  caches : list bytes;                  (* payloads given to [build_cache] *)
  written : list packet
}.

Definition with_deadline d s := mk_state s.(waittime_) s.(last_update_) d s.(proxy_set_) s.(posted) s.(eviction_policy_) s.(caches) s.(written).
Definition write p s := mk_state s.(waittime_) s.(last_update_) s.(deadline) s.(proxy_set_) s.(posted) s.(eviction_policy_) s.(caches) (s.(written) ++ [p]).

Definition timer_reset (s : state) : state := with_deadline (Some (s.(last_update_) + s.(waittime_))) s.

(** The header of a command has been read. *)
Definition start_listen_commands (h : packet_header) (s : state) : state :=
  if bool_decide (of_code h.(type) = Some set_timer) then s else with_deadline None s.

(** The switch of [start_listen_commands_body]: a new proxy is connected once, by a
    command object of its own. *)
Definition command (p : packet) (s : state) : option state :=
  match of_code p.(header).(type) with
  | Some proxyjoin =>
      ep ← mem_get 0 6 p.(data);
      Some (if decide (ep ∈ s.(proxy_set_)) then s
            else mk_state s.(waittime_) s.(last_update_) s.(deadline) (s.(proxy_set_) ++ [ep]) s.(posted) s.(eviction_policy_) s.(caches) s.(written))
  | Some set_timer =>
      d ← mem_get 0 4 p.(data);
      Some (mk_state (ntoh 4 (le_val d)) s.(last_update_) s.(deadline) s.(proxy_set_) s.(posted) s.(eviction_policy_) s.(caches) s.(written))
  | Some cache_transfer =>
      Some (if decide (s.(eviction_policy_) = lit "LRU"%string \/ s.(eviction_policy_) = lit "FIFO"%string)
            then mk_state s.(waittime_) s.(last_update_) s.(deadline) s.(proxy_set_) s.(posted) s.(eviction_policy_)
                   (s.(caches) ++ [p.(data)]) s.(written)
            else s)
  | _ =>
      Some (mk_state s.(waittime_) s.(last_update_) s.(deadline) s.(proxy_set_) (s.(posted) ++ [p]) s.(eviction_policy_) s.(caches) s.(written))
  end.

Definition ack_of (p : packet) : packet := mk_packet (set_type ack p.(header)) [].

(** The body of a command has been read, at time [now]. *)
Definition start_listen_commands_body (now : Z) (p : packet) (s : state) : option state :=
  s ← command p s;
  let s := write (ack_of p) s in
  let s := if bool_decide (of_code p.(header).(type) = Some set_timer) then s
           else mk_state s.(waittime_) now s.(deadline) s.(proxy_set_) s.(posted) s.(eviction_policy_) s.(caches) s.(written) in
  Some (timer_reset s).

(** Connecting registers the function, by address and port, and arms the timer. *)
Definition start_connect (salt sequence ip_port : bytes) (s : state) : state :=
  timer_reset (write (mk_packet (gen salt sequence
    (mk_header (code worker_reg) 0 (replicate 32 x00) 0 (replicate 4 x00) (replicate 4 x00))) ip_port) s).

(** The timer expires: the function leaves, with the tables of its cache. *)
Definition expired (now : Z) (s : state) : bool :=
  match s.(deadline) with Some d => d <=? now | None => false end.

Definition close (tables : bytes) (s : state) : state :=
  write (mk_packet (mk_header (code worker_dereg) 0 (replicate 32 x00) 0 (replicate 4 x00) (replicate 4 x00)) tables) s.

(** Commands, each with the time its body is there. *)
Fixpoint commands (cs : list (Z * packet)) (s : state) : option state :=
  match cs with
  | [] => Some s
  | (now, p) :: cs => s ← start_listen_commands_body now p (start_listen_commands p.(header) s); commands cs s
  end.

End proxy_command.

(** ** Answers *)

Definition is_meta_operation (op : meta_operation_t) (p : packet) : option bool :=
  t ← request_parser.type p.(data);
  if bool_decide (t = type_code metadata) then
    o ← request_parser.meta_operation p.(data); Some (bool_decide (o = meta_operation_code op))
  else Some false.

Definition says_ok (buf : bytes) : bool := bool_decide (until_nul buf = lit "OK"%string).

(** The continuation of [start_job] for a storage that answers later. *)
Definition respond (p : packet) (buf : bytes) : option packet :=
  is_open_file_operation ← is_meta_operation open p;
  is_rename_file_operation ← is_meta_operation rename_sameproxy p;
  if (is_open_file_operation : bool) then
    file_key ← request_parser.file_key p.(data);
    Some (has_data file_key (has_type (if says_ok buf then open_file_success else open_file_not_found) p))
  else if (is_rename_file_operation : bool) then
    rename_info ← meta.load_rename_info (request_parser.data p.(data));
    Some (has_data rename_info.(meta.file_parent_key) (has_type (if says_ok buf then rename_success else rename_fail) p))
  else Some (has_data buf (has_type worker_response p)).

(** The same for a storage that answers at once: what it says ends up in the packet, even
    of a rename, whose key was put there first. *)
Definition respond_sync (p : packet) (v : bytes) : option packet :=
  is_open_file_operation ← is_meta_operation open p;
  is_rename_file_operation ← is_meta_operation rename_sameproxy p;
  if (is_open_file_operation : bool) && says_ok v then
    file_key ← request_parser.file_key p.(data);
    Some (has_data file_key (has_type open_file_success p))
  else if (is_rename_file_operation : bool) then
    _ ← meta.load_rename_info (request_parser.data p.(data));
    Some (has_data v (has_type (if says_ok v then rename_success else rename_fail) p))
  else Some (has_data v (has_type worker_response p)).

(** ** A job, from the request to the answer *)
Section job.
Context {D : Type} `{KVStore D}.
Variable pick : bytes -> Z -> Z -> Z.
Variable cfg : Coordinator.config.
Variable salts : Z -> bytes.
Variable shuffle : forall A : Type, list A -> list A.
Variable format_time : Z -> bytes.
Variables salt sequence uninitialised : bytes.
Variable cache_cfg : Cache.config.
Variable enable_cache_ : bool.

Record function_state := mk_function {
  cache_engine_ : cache; servers : cluster D; checked : recoder
}.

(** The storage as the cache sees it: one operation, at most one answer. *)
Definition start_perform (now version : Z) (st : cluster D * recoder) (operation : Z) (i : input)
    : option ((cluster D * recoder) * option bytes) :=
  match operation_of_code operation with
  | Some op =>
      '(cl, rec, replies) ← file_operation pick cfg salts shuffle now salt sequence st.1 st.2 version op i;
      Some ((cl, rec), hd_error replies)
  | None => Some (st, None)
  end.

(** [start_job]: when it is run, the version its commits get, the request; the answers. *)
Definition start_job (now version : Z) (p : packet) (f : function_state) : option (function_state * list packet) :=
  t ← request_parser.type p.(data);
  i ← parse_input p;
  '(f, replies) ←
    match type_of_code t with
    | Some file =>
        operation ← request_parser.operation p.(data);
        '(c, st, reply) ← start_storage_perform (start_perform now version) cache_cfg enable_cache_
                            f.(cache_engine_) (f.(servers), f.(checked)) operation i;
        Some (mk_function c st.1 st.2, option_list reply)
    | Some metadata =>
        o ← request_parser.meta_operation p.(data);
        match meta_operation_of_code o with
        | Some op =>
            '(cl, rec, replies) ← run_step pick cfg salts shuffle format_time salt sequence uninitialised
                                    f.(servers) f.(checked) (mk_step now version op i);
            Some (mk_function f.(cache_engine_) cl rec, replies)
        | None => Some (f, [])
        end
    | _ => Some (f, [])
    end;
  answers ← mapM (respond p) replies;
  Some (f, answers).

Fixpoint start_jobs (js : list (Z * Z * packet)) (f : function_state) : option (function_state * list packet) :=
  match js with
  | [] => Some (f, [])
  | (now, version, p) :: js =>
      '(f, a) ← start_job now version p f;
      '(f, b) ← start_jobs js f;
      Some (f, a ++ b)
  end.

End job.

(** ** The commands *)

Module command_facts.
Import proxy_command.

Definition sets_timer (p : packet) : bool := bool_decide (of_code p.(header).(type) = Some set_timer).

Definition is_job (p : packet) : bool :=
  match of_code p.(header).(type) with Some (proxyjoin | set_timer | cache_transfer) => false | _ => true end.

(** The time of the last command that counts as activity, and the last time to wait. *)
Definition last_activity (cs : list (Z * packet)) (t : Z) : Z :=
  foldl (fun t c => if sets_timer c.2 then t else c.1) t cs.
Definition last_wait (cs : list (Z * packet)) (d : Z) : Z :=
  foldl (fun d c => if sets_timer c.2 then default d ((fun b => ntoh 4 (le_val b)) <$> mem_get 0 4 c.2.(data)) else d) d cs.

Lemma body_spec now p s s' : start_listen_commands_body now p s = Some s' ->
  s'.(written) = s.(written) ++ [ack_of p] /\
  s'.(posted) = s.(posted) ++ (if is_job p then [p] else []) /\
  s'.(last_update_) = (if sets_timer p then s.(last_update_) else now) /\
  s'.(waittime_) = last_wait [(now, p)] s.(waittime_) /\
  s'.(deadline) = Some (s'.(last_update_) + s'.(waittime_)).
Proof.
  unfold start_listen_commands_body, command, is_job, last_wait, sets_timer. cbn [foldl snd].
  destruct (of_code _) as [[]|]; try (by intros [= <-]; cbn; rewrite ?app_nil_r);
    try (destruct (mem_get _ _ _); cbn; try done); try case_decide; intros [= <-]; cbn; by rewrite ?app_nil_r.
Qed.

Lemma commands_spec cs s s' : commands cs s = Some s' ->
  s'.(written) = s.(written) ++ (ack_of ∘ snd <$> cs) /\
  s'.(posted) = s.(posted) ++ filter is_job cs.*2 /\
  s'.(last_update_) = last_activity cs s.(last_update_) /\
  s'.(waittime_) = last_wait cs s.(waittime_) /\
  (cs <> [] -> s'.(deadline) = Some (s'.(last_update_) + s'.(waittime_))).
Proof.
  revert s. induction cs as [|[now p] cs IH]; intros s; cbn [commands].
  - intros [= <-]. cbn. by rewrite !app_nil_r.
  - destruct (start_listen_commands_body _ _ _) as [s1|] eqn:E; [|done]. cbn [mbind option_bind]. intros E'.
    apply body_spec in E as (Hw & Hp & Hl & Hd & Hdl). pose proof (IH _ E') as (Hw' & Hp' & Hl' & Hd' & Hdl').
    assert (forall (f : state -> Z), (forall d, f (with_deadline d s) = f s) -> f (start_listen_commands p.(header) s) = f s) as Hk.
    { intros f Hf. unfold start_listen_commands. by destruct (bool_decide _). }
    assert (written (start_listen_commands (header p) s) = written s) as Ew by (unfold start_listen_commands; by destruct (bool_decide _)).
    assert (proxy_command.posted (start_listen_commands (header p) s) = proxy_command.posted s) as Ep by (unfold start_listen_commands; by destruct (bool_decide _)).
    rewrite Ew in Hw. rewrite Ep in Hp. rewrite (Hk last_update_) in Hl by done. rewrite (Hk waittime_) in Hd by done.
    split; [rewrite Hw', Hw, <- (assoc_L (++)); done|]. split.
    { rewrite Hp', Hp, <- (assoc_L (++)). f_equal. change (((now, p) :: cs).*2) with (p :: cs.*2). rewrite filter_cons. by destruct (is_job p). }
    split; [by rewrite Hl', Hl|]. split; [by rewrite Hd', Hd|]. intros _.
    destruct cs as [|c cs]; [|by apply Hdl']. cbn in E'. by injection E' as <-.
Qed.

End command_facts.

(** ** Answers to requests of the client library *)

Lemma parse_input_inv p i : parse_input p = Some i ->
  request_parser.file_key p.(data) = Some i.(in_key) /\ request_parser.data p.(data) = i.(in_data) /\
  p.(header).(key) = i.(in_uuid).
Proof.
  unfold parse_input. destruct (request_parser.position _); [|done]. destruct (request_parser.size _); [|done].
  destruct (request_parser.file_name _); [|done]. destruct (request_parser.file_key _); [|done]. cbn. by intros [= <-].
Qed.

Lemma describes_operation p op o i : describes p metadata o i ->
  is_meta_operation op p = Some (bool_decide (o = meta_operation_code op)).
Proof.
  intros [_ Ht Ho _]. unfold is_meta_operation, request_parser.meta_operation. rewrite Ht, Ho. done.
Qed.

(** The proxy changes the type of the packet only. *)
Lemma is_meta_operation_type op t p : is_meta_operation op (has_type t p) = is_meta_operation op p.
Proof. done. Qed.

Lemma respond_open p t i buf : describes p metadata (meta_operation_code open) i ->
  respond (has_type t p) buf = Some (has_data i.(in_key)
    (has_type (if says_ok buf then open_file_success else open_file_not_found) (has_type t p))).
Proof.
  intros Hd. pose proof (parse_input_inv _ _ (ds_input _ _ _ _ Hd)) as (Hk & _ & _). unfold respond.
  rewrite !is_meta_operation_type, !(describes_operation _ _ _ _ Hd). cbn [mbind option_bind].
  rewrite bool_decide_eq_true_2 by done. cbn [data has_type]. by rewrite Hk.
Qed.

Lemma respond_rename p t i info buf : describes p metadata (meta_operation_code rename_sameproxy) i ->
  meta.load_rename_info i.(in_data) = Some info ->
  respond (has_type t p) buf = Some (has_data info.(meta.file_parent_key)
    (has_type (if says_ok buf then rename_success else rename_fail) (has_type t p))).
Proof.
  intros Hd Hi. pose proof (parse_input_inv _ _ (ds_input _ _ _ _ Hd)) as (_ & Hk & _). unfold respond.
  rewrite !is_meta_operation_type, !(describes_operation _ _ _ _ Hd). cbn [mbind option_bind].
  rewrite bool_decide_eq_false_2 by done. rewrite bool_decide_eq_true_2 by done. cbn [data has_type].
  by rewrite Hk, Hi.
Qed.

Lemma respond_other p o i buf : describes p metadata o i -> o <> meta_operation_code open ->
  o <> meta_operation_code rename_sameproxy -> respond p buf = Some (has_data buf (has_type worker_response p)).
Proof.
  intros Hd H1 H2. unfold respond. rewrite !(describes_operation _ _ _ _ Hd). cbn [mbind option_bind].
  by rewrite !bool_decide_eq_false_2.
Qed.

(** The proxy takes the answer of a worker that holds the request. *)
Section answered.
Context `{AvailablePolicy}.
Variables (w : nat) (x : worker) (s : proxy) (j : nat).
Hypotheses (Hw : s.(workers) !! w = Some x) (Hr : x.(reading) = true).

(** The state when the answer [q] has been looked at and queued, and when the client
    has been given it. *)
Definition queued (l : launcher) (q : packet) : proxy := post (Responded w q) (with_tables l s).

Lemma response_answers l q : x.(started_jobs_) !! key_of q.(header) = Some j ->
  exists s', exec (RunTask (length s.(Worker.posted))) (queued l q) = Some s' /\
    s'.(tables) = l /\ s'.(outputs) = s.(outputs) ++ [ToClient j q].
Proof.
  intros Hk. cbn [exec queued post with_posted Worker.posted with_tables].
  rewrite lookup_app_r, Nat.sub_diag by done. cbn [lookup list_lookup mbind option_bind run_task].
  unfold on_worker_response.
  match goal with |- context [workers ?z !! w] => change (workers z) with (workers s) end.
  rewrite Hw. cbn [mbind option_bind]. rewrite Hk. eexists. split; [reflexivity|].
  unfold complete_job, set_state. cbn. by destruct (s.(jobs) !! j).
Qed.

Lemma from_worker_open p k (ok : bool) : (length k = key_size)%nat ->
  exec (FromWorker w (has_data k (has_type (if ok then open_file_success else open_file_not_found) p))) s
  = Some (queued (on_worker_finished_opening_a_file s.(tables) k ok)
      (has_data (if ok then x.(endpoint) else err_open_not_found)
         (has_type (if ok then open_file_success else open_file_not_found) p))).
Proof.
  intros Hk. cbn [exec]. unfold from_worker, on_body. rewrite Hw. cbn [mbind option_bind]. rewrite Hr.
  destruct ok; cbn [header has_data has_type data set_type type];
    rewrite of_code_code, mem_get_all by done; done.
Qed.

Lemma from_worker_rename p k (ok : bool) : (length k = key_size)%nat ->
  exec (FromWorker w (has_data k (has_type (if ok then rename_success else rename_fail) p))) s
  = Some (queued (on_worker_finished_renaming_file s.(tables) k)
      (has_data (if ok then text_ok else err_invalid)
         (has_type (if ok then rename_success else rename_fail) p))).
Proof.
  intros Hk. cbn [exec]. unfold from_worker, on_body. rewrite Hw. cbn [mbind option_bind]. rewrite Hr.
  destruct ok; cbn [header has_data has_type data set_type type];
    rewrite of_code_code, mem_get_all by done; done.
Qed.
End answered.

(** ** Requests by path *)
Section by_path.
Variables client_salt client_sequence : bytes.
Variable get_uuid : bytes -> bytes.
Variable dir : list bytes.

(** Requests on the files of the directory with components [dir]. *)
Inductive request := AddFile (f : bytes) | DeleteFile (f : bytes) | OpenFile (f : bytes).

Definition file_of_request (r : request) : bytes := match r with AddFile f | DeleteFile f | OpenFile f => f end.
Definition path_of (r : request) : bytes := render (dir ++ [file_of_request r]).

Definition request_packet (r : request) : option packet :=
  let path := path_of r in
  match r with
  | AddFile _ => packet_create.add_file_v2 client_salt client_sequence get_uuid path
  | DeleteFile _ => packet_create.delete_file_path client_salt client_sequence get_uuid path
  | OpenFile _ => packet_create.open_path client_salt client_sequence get_uuid path
  end.

(** The same as steps of [Filesystem]. *)
Definition step_of (t : Z * Z * request) : Filesystem.step :=
  let '(now, version, r) := t in
  let here := get_uuid (directory dir) in
  match r with
  | AddFile f => mk_step now version addfile (mk_input here 0 4 f (replicate 32 x00) packet_create.default_filemeta)
  | DeleteFile f => mk_step now version deletefile (mk_input here 0 0 f (get_uuid (path_of r)) [])
  | OpenFile f => mk_step now version open (mk_input here 0 0 f (get_uuid (path_of r)) [])
  end.

(** What answers a request whose storage operation replies [reply]. *)
Definition answer_of (r : request) (p : packet) (reply : bytes) : packet :=
  match r with
  | OpenFile _ => has_data (get_uuid (path_of r)) (has_type (if says_ok reply then open_file_success else open_file_not_found) p)
  | _ => has_data reply (has_type worker_response p)
  end.

Definition request_ok (t : Z * Z * request) : Prop :=
  let '(now, version, r) := t in
  0 <= version < 2 ^ 32 /\ component (file_of_request r) /\ name_ok (file_of_request r).

Hypothesis Huuid : forall path, length (get_uuid path) = key_size.

Lemma request_describes t : request_ok t ->
  exists p, request_packet t.2 = Some p /\
    describes p metadata (meta_operation_code (step_of t).(st_op)) (step_of t).(st_input) /\
    forall reply, respond p reply = Some (answer_of t.2 p reply).
Proof.
  destruct t as [[now version] r]. intros (Hv & Hc & Hn). cbn [snd] in *.
  assert (split_path (path_of r) = (directory dir, file_of_request r)) as E by (by apply split_path_file).
  destruct r as [f|f|f]; cbn [request_packet step_of st_op st_input file_of_request] in *.
  - unfold packet_create.add_file_v2. rewrite E.
    destruct (add_file_makes client_salt client_sequence (get_uuid (directory dir)) f Hn) as (p & -> & Hd).
    exists p. split; [done|]. split; [done|]. intros reply. by eapply respond_other.
  - unfold packet_create.delete_file_path. rewrite E.
    destruct (delete_file_makes client_salt client_sequence (get_uuid (directory dir)) f
      (get_uuid (path_of (DeleteFile f))) Hn (Huuid _)) as (p & -> & Hd).
    exists p. split; [done|]. split; [done|]. intros reply. by eapply respond_other.
  - unfold packet_create.open_path. rewrite E.
    destruct (open_makes client_salt client_sequence (get_uuid (directory dir)) f
      (get_uuid (path_of (OpenFile f))) Hn (Huuid _)) as (p & -> & Hd).
    exists p. split; [done|]. split; [done|]. intros reply.
    pose proof (respond_open p trigger _ reply Hd) as Er. destruct Hd as [Ht _ _ _].
    assert (has_type trigger p = p) as Ep by (destruct p as [[] ?]; cbn in Ht; by subst).
    by rewrite Ep in Er.
Qed.

Lemma request_step_ok t : request_ok t -> step_ok (get_uuid (directory dir)) (step_of t).
Proof.
  destruct t as [[now version] r]. intros (Hv & Hc & Hn). destruct r as [f|f|f]; split; cbn in *; auto; try done.
Qed.

Context {D : Type} `{KVLaws D}.
Variable pick : bytes -> Z -> Z -> Z.
Variable cfg : Coordinator.config.
Variable salts : Z -> bytes.
Variable shuffle : forall A : Type, list A -> list A.
Variable format_time : Z -> bytes.
Variables salt sequence uninitialised : bytes.
Variable cache_cfg : Cache.config.
Variable enable_cache_ : bool.
Hypothesis Hcfg : config_ok pick cfg salts shuffle.

Notation start_job' := (start_job pick cfg salts shuffle format_time salt sequence uninitialised cache_cfg enable_cache_).
Notation start_jobs' := (start_jobs pick cfg salts shuffle format_time salt sequence uninitialised cache_cfg enable_cache_).
Notation holds_map' := (holds_map pick cfg).

(** A metadata request whose operation replies once. *)
Lemma start_job_metadata now version p op i f cl rec reply a :
  describes p metadata (meta_operation_code op) i ->
  run_step pick cfg salts shuffle format_time salt sequence uninitialised f.(servers) f.(checked)
    (mk_step now version op i) = Some (cl, rec, [reply]) ->
  respond p reply = Some a ->
  start_job' now version p f = Some (mk_function f.(cache_engine_) cl rec, [a]).
Proof.
  intros [_ Ht Ho Hi] E Ea. unfold start_job. rewrite Ht, Hi. cbn [mbind option_bind]. rewrite type_of_code_code.
  unfold request_parser.meta_operation. rewrite Ho. cbn [mbind option_bind]. rewrite meta_operation_of_code_code, E.
  cbn [mbind option_bind mapM]. by rewrite Ea.
Qed.

Lemma run_path_requests ts f n m : holds_map' f.(checked) f.(servers) (get_uuid (directory dir)) n m ->
  Forall request_ok ts -> Z.of_nat (n + length ts) < 2 ^ 25 ->
  exists ps f', mapM request_packet ts.*2 = Some ps /\
    start_jobs' (zip ts.*1 ps) f = Some (f', zip_with (fun tp reply => answer_of tp.1 tp.2 reply) (zip ts.*2 ps)
                                               (spec_session m (step_of <$> ts)).2) /\
    holds_map' f'.(checked) f'.(servers) (get_uuid (directory dir)) (n + length ts) (spec_session m (step_of <$> ts)).1.
Proof.
  intros Hh Hts. revert f n m Hh. induction Hts as [|t ts Ht Hts IH]; intros f n m Hh Hn.
  - exists [], f. split; [done|]. split; [done|]. cbn. by rewrite Nat.add_0_r.
  - cbn [length] in Hn. destruct (request_describes t Ht) as (p & Ep & Hd & Ha).
    destruct (run_step_spec pick cfg salts shuffle format_time salt sequence uninitialised Hcfg f.(checked) f.(servers)
      _ n m (step_of t) Hh (request_step_ok t Ht) ltac:(lia)) as (cl & rec & E & Hh1).
    pose proof (start_job_metadata t.1.1 t.1.2 p _ _ f cl rec (spec_step m (step_of t)).2
      (answer_of t.2 p (spec_step m (step_of t)).2) Hd) as Ej.
    assert (mk_step t.1.1 t.1.2 (step_of t).(st_op) (step_of t).(st_input) = step_of t) as Es
      by (by destruct t as [[? ?] []]).
    rewrite Es in Ej. specialize (Ej E (Ha _)).
    destruct (IH (mk_function f.(cache_engine_) cl rec) (S n) _ Hh1 ltac:(lia)) as (ps & f' & Eps & Ejs & Hh').
    exists (p :: ps), f'. cbn [fmap list_fmap mapM]. rewrite Ep. cbn [mbind option_bind]. rewrite Eps.
    split; [done|]. cbn [spec_session]. destruct (spec_step m (step_of t)) as [m1 r1] eqn:Est. cbn [fst snd] in *.
    destruct (spec_session m1 (step_of <$> ts)) as [m2 rs] eqn:Ess. cbn [fst snd] in *.
    destruct t as [[now version] r]. cbn [fst snd zip zip_with start_jobs] in *.
    rewrite Ej. cbn [mbind option_bind]. rewrite Ejs. cbn [mbind option_bind]. split; [done|].
    cbn [length]. by rewrite <- Nat.add_succ_comm.
Qed.


(** [mkdir] by path, in the directory with components [parent]. *)
Lemma mkdir_path_describes cs c : component c -> name_ok c -> exists p,
  packet_create.mkdir_path client_salt client_sequence get_uuid (render (cs ++ [c])) = Some p /\
  describes p metadata (meta_operation_code mkdir)
    (mk_input (get_uuid (directory cs)) 0 4 c (get_uuid (directory (cs ++ [c])))
       (packet_create.default_dirmeta ++ replicate 76 x00)).
Proof.
  intros Hc Hn. unfold packet_create.mkdir_path. rewrite directory_path_file, split_path_directory by done.
  apply (mkdir_makes client_salt client_sequence (get_uuid (directory cs)) c); [done|apply Huuid].
Qed.

Lemma run_mkdir_path now version cs c f n m : holds_map' f.(checked) f.(servers) (get_uuid (directory cs)) n m ->
  component c -> name_ok c -> 0 <= version < 2 ^ 32 -> m !! c = None -> Z.of_nat (S n) < 2 ^ 25 ->
  get_uuid (directory (cs ++ [c])) <> get_uuid (directory cs) ->
  idle pick cfg f.(checked) f.(servers) (get_uuid (directory (cs ++ [c]))) -> length uninitialised = 60%nat ->
  exists p f', packet_create.mkdir_path client_salt client_sequence get_uuid (render (cs ++ [c])) = Some p /\
    start_job' now version p f = Some (f', [has_data msg_ok (has_type worker_response p)]) /\
    holds_map' f'.(checked) f'.(servers) (get_uuid (directory (cs ++ [c]))) 0 ∅.
Proof.
  intros Hh Hc Hn Hv Hm Hl Hne Hi Hun. destruct (mkdir_path_describes cs c Hc Hn) as (p & Ep & Hd).
  destruct (run_mkdir_spec pick cfg salts shuffle format_time salt sequence uninitialised Hcfg f.(checked) f.(servers)
    _ n m now version (mk_input (get_uuid (directory cs)) 0 4 c (get_uuid (directory (cs ++ [c])))
       (packet_create.default_dirmeta ++ replicate 76 x00)) (meta.mk_dirmeta (hton 2 0) (hton 2 16895)) Hh eq_refl Hv Hn eq_refl Hl Hne (Huuid _) Hi Hun)
    as (cl & rec & reply & E & Hr). cbn [in_name] in Hr. rewrite Hm in Hr. destruct Hr as (-> & _ & Hh').
  exists p, (mk_function f.(cache_engine_) cl rec). split; [done|]. split; [|exact Hh'].
  eapply start_job_metadata; [done|exact E|]. by eapply respond_other.
Qed.

(** [init], [lock] and [unlock] make the same request. *)
Lemma init_describes key : describes (packet_create.init client_salt client_sequence key) metadata
  (meta_operation_code init) (mk_input key 0 0 [] (replicate 32 x00) []).
Proof.
  unfold packet_create.init, meta_image. rewrite request_image_head.
  by apply describes_no_data.
Qed.

Lemma run_init_path now version key f : hosts_ok cfg f.(servers) -> length key = key_size ->
  idle pick cfg f.(checked) f.(servers) key -> 0 <= version < 2 ^ 32 -> length uninitialised = 60%nat ->
  let p := packet_create.init client_salt client_sequence key in
  exists f', start_job' now version p f = Some (f', [has_data msg_ok (has_type worker_response p)]) /\
    holds_map' f'.(checked) f'.(servers) key 0 ∅.
Proof.
  intros Hok Hk Hi Hv Hun. cbv zeta. pose proof (init_describes key) as Hd.
  destruct (run_init_spec pick cfg salts shuffle format_time salt sequence uninitialised Hcfg f.(checked) f.(servers) key
    (mk_step now version init (mk_input key 0 0 [] (replicate 32 x00) [])) Hok Hk Hi eq_refl eq_refl Hv Hun) as (cl & E & Hh).
  eexists. split; [|exact (Hh : holds_map' (checked (mk_function f.(cache_engine_) cl _)) (servers (mk_function f.(cache_engine_) cl _)) _ _ _)].
  eapply start_job_metadata; [done|exact E|]. by eapply respond_other.
Qed.

End by_path.

(** ** Properties *)

(** C3. A directory tree by paths, from the client library to the servers: after [mkdir]
    of a path that is free in its parent, any sequence of requests to add, delete and
    open files by their paths inside the new directory is answered packet by packet as a
    map from names would answer, starting empty, and leaves the servers with that map;
    an open is answered with the key of the file's path.  This holds for any placement,
    salts and order of delivery, with or without the cache. *)
Theorem paths_refine_map {D} `{KVLaws D} csalt csequence get_uuid pick cfg salts shuffle format_time salt sequence
    uninit cache_cfg enable_cache cs c now version ts f n m
    (Hcfg : config_ok pick cfg salts shuffle) (Huuid : forall path, length (get_uuid path) = key_size)
    (Hm : holds_map pick cfg f.(checked) f.(servers) (get_uuid (directory cs)) n m)
    (Hc : component c) (Hname : name_ok c) (Hv : 0 <= version < 2 ^ 32) (Hfree : m !! c = None)
    (Hne : get_uuid (directory (cs ++ [c])) <> get_uuid (directory cs))
    (Hidle : idle pick cfg f.(checked) f.(servers) (get_uuid (directory (cs ++ [c]))))
    (Hun : length uninit = 60%nat) (Hts : Forall (request_ok) ts)
    (Hn : Z.of_nat (S n) < 2 ^ 25 /\ Z.of_nat (length ts) < 2 ^ 25) :
  let run := start_jobs pick cfg salts shuffle format_time salt sequence uninit cache_cfg enable_cache in
  let spec := spec_session ∅ (step_of get_uuid (cs ++ [c]) <$> ts) in
  exists p ps f',
    packet_create.mkdir_path csalt csequence get_uuid (render (cs ++ [c])) = Some p /\
    mapM (request_packet csalt csequence get_uuid (cs ++ [c])) ts.*2 = Some ps /\
    run ((now, version, p) :: zip ts.*1 ps) f
      = Some (f', has_data msg_ok (has_type worker_response p)
                  :: zip_with (fun tp reply => answer_of get_uuid (cs ++ [c]) tp.1 tp.2 reply) (zip ts.*2 ps) spec.2) /\
    holds_map pick cfg f'.(checked) f'.(servers) (get_uuid (directory (cs ++ [c]))) (length ts) spec.1.
Proof.
  destruct (run_mkdir_path csalt csequence get_uuid Huuid pick cfg salts shuffle format_time salt sequence uninit
    cache_cfg enable_cache Hcfg now version cs c f n m) as (p & f1 & Ep & E1 & Hh1); [tauto..|].
  destruct (run_path_requests csalt csequence get_uuid (cs ++ [c]) Huuid pick cfg salts shuffle format_time salt sequence
    uninit cache_cfg enable_cache Hcfg ts f1 0 ∅ Hh1 Hts) as (ps & f2 & Eps & E2 & Hh2); [cbn; tauto|].
  cbv zeta. exists p, ps, f2. split; [done|]. split; [done|]. split; [|done].
  cbn [start_jobs]. rewrite E1. cbn [mbind option_bind]. by rewrite E2.
Qed.

Definition df_uuid (path : bytes) : bytes := resize_to key_size path.
Definition df_name : bytes := lit "d"%string.
Definition df_requests : list (Z * Z * request) :=
  [(0, 5, AddFile [x61]); (0, 6, OpenFile [x61]); (0, 7, DeleteFile [x61]); (0, 8, OpenFile [x61])].
Definition df_start : function_state := mk_function empty_cache sample_cluster ∅.

Lemma df_requests_ok : Forall request_ok df_requests.
Proof.
  assert (component [x61] /\ name_ok [x61]) as [Hc Hn].
  { split; split; [done| |cbn; unfold file_name_length; lia|]; by apply (bool_decide_unpack _). }
  unfold df_requests. repeat (apply Forall_cons_2; [split; [lia|split; [exact Hc|exact Hn]]|]). apply Forall_nil_2.
Qed.

Lemma df_uuid_length path : length (df_uuid path) = key_size.
Proof. apply length_resize_to. Qed.

Lemma paths_refine_map_witness : exists f p ps f',
  start_jobs sample_pick sample_cfg sample_salts sample_shuffle (fun _ => []) [] [] sample_reserved
    (Cache.mk_config 4096 false) false ((0, 4, p) :: zip df_requests.*1 ps) f
  = Some (f', has_data msg_ok (has_type worker_response p)
              :: zip_with (fun tp reply => answer_of df_uuid [df_name] tp.1 tp.2 reply) (zip df_requests.*2 ps)
                   [msg_ok; msg_ok; msg_ok; err_not_found]).
Proof.
  destruct (run_init_path [] [] sample_pick sample_cfg sample_salts sample_shuffle (fun _ => []) [] [] sample_reserved
    (Cache.mk_config 4096 false) false sample_config_ok 0 3 (df_uuid (directory [])) df_start) as (f & _ & Hm);
    [apply sample_hosts_ok|reflexivity|apply sample_idle|lia|reflexivity|].
  destruct (paths_refine_map [] [] df_uuid sample_pick sample_cfg sample_salts sample_shuffle (fun _ => []) [] []
    sample_reserved (Cache.mk_config 4096 false) false [] df_name 0 4 df_requests
    (mk_function empty_cache f.(servers) (mark_checked (df_uuid (directory [df_name])) f.(checked))) 0 ∅) as (p & ps & f' & _ & _ & E & _).
  - exact sample_config_ok.
  - exact df_uuid_length.
  - destruct Hm as (H1 & H2 & [Hi|Hi] & H4); (split; [exact H1|]); (split; [exact H2|]); (split; [|exact H4]).
    + left. unfold is_checked, mark_checked in *. apply bool_decide_eq_true in Hi. apply bool_decide_eq_true. set_solver.
    + by right.
  - split; [done|]. by apply (bool_decide_unpack _).
  - split; [cbn; unfold file_name_length; lia|]. by apply (bool_decide_unpack _).
  - lia.
  - apply lookup_empty.
  - vm_compute. discriminate.
  - left. unfold is_checked, mark_checked. apply bool_decide_eq_true. set_solver.
  - reflexivity.
  - exact df_requests_ok.
  - cbn. lia.
  - eexists _, p, ps, f'. rewrite E. do 3 f_equal.
Defined.

(** Locking a directory empties it.  The packets that [lock] and [unlock] of the
    client library make are those of [init]; the proxy locks nothing and passes them on,
    and the data function answers OK and leaves an empty directory, whatever it held. *)
Theorem lock_empties_directory {D} `{KVLaws D} csalt csequence get_uuid pick cfg salts shuffle format_time salt sequence
    uninit cache_cfg enable_cache path now version f l
    (Hcfg : config_ok pick cfg salts shuffle) (Hk : length (get_uuid path) = key_size)
    (Hok : hosts_ok cfg f.(servers)) (Hidle : idle pick cfg f.(checked) f.(servers) (get_uuid path))
    (Hv : 0 <= version < 2 ^ 32) (Hun : length uninit = 60%nat)
    (Hl : l.(locked_directories_for_rename) !! get_uuid path = None) :
  forall p, p ∈ [packet_create.lock_path csalt csequence get_uuid path; packet_create.unlock_path csalt csequence get_uuid path] ->
  (forall freed, start_trigger_post freed l p = Some (l, has_type worker_push_request p)) /\
  exists f', start_job pick cfg salts shuffle format_time salt sequence uninit cache_cfg enable_cache now version
      (has_type worker_push_request p) f = Some (f', [has_data msg_ok (has_type worker_response p)]) /\
    holds_map pick cfg f'.(checked) f'.(servers) (get_uuid path) 0 ∅.
Proof.
  intros p Hp. assert (p = packet_create.init csalt csequence (get_uuid path)) as ->.
  { apply elem_of_cons in Hp as [->|Hp]; [done|]. by apply list_elem_of_singleton in Hp as ->. }
  split.
  - intros freed. pose proof (init_describes csalt csequence (get_uuid path)) as Hd.
    pose proof (parse_input_inv _ _ (ds_input _ _ _ _ Hd)) as (Hk' & _ & Hh). destruct Hd as [_ Ht Ho _].
    unfold start_trigger_post. rewrite Hk'. cbn [mbind option_bind]. rewrite Hh. cbn [in_uuid]. rewrite Hl.
    unfold is_metadata. rewrite Ht. cbn [mbind option_bind]. rewrite type_of_code_code, bool_decide_eq_true_2 by done.
    unfold request_parser.meta_operation. rewrite Ho. done.
  - destruct (run_init_path csalt csequence pick cfg salts shuffle format_time salt sequence uninit cache_cfg enable_cache
      Hcfg now version (get_uuid path) f Hok Hk Hidle Hv Hun) as (f' & E & Hh). exists f'. split; [exact E|exact Hh].
Qed.

Lemma lock_empties_directory_witness : exists p f',
  start_job sample_pick sample_cfg sample_salts sample_shuffle (fun _ => []) [] [] sample_reserved
    (Cache.mk_config 4096 false) false 0 4 (has_type worker_push_request p) df_start
    = Some (f', [has_data msg_ok (has_type worker_response p)]) /\
  holds_map sample_pick sample_cfg f'.(checked) f'.(servers) (df_uuid (lit "/d/"%string)) 0 ∅.
Proof.
  destruct (lock_empties_directory [] [] df_uuid sample_pick sample_cfg sample_salts sample_shuffle (fun _ => []) [] []
    sample_reserved (Cache.mk_config 4096 false) false (lit "/d/"%string) 0 4 df_start empty_launcher sample_config_ok
    (df_uuid_length _) sample_hosts_ok (sample_idle _ _) ltac:(lia) eq_refl eq_refl
    (packet_create.lock_path [] [] df_uuid (lit "/d/"%string)) (list_elem_of_here _ _)) as (_ & f' & E & Hh).
  exists (packet_create.lock_path [] [] df_uuid (lit "/d/"%string)), f'. split; [exact E|exact Hh].
Defined.

(** C18. The answer to an open or a rename, from the data function back to the client: the
    proxy reads from it the very key the client's request was made with, counts the file
    as opened or releases its lock, or unlocks the parent directory, as the storage
    answered, and gives the client the address of the worker, OK, or the error. *)
Theorem answers_reach_tables `{AvailablePolicy} csalt csequence key name file_key new_key parent_key new_name
    t buf w x s j (Hname : name_ok name) (Hnew : name_ok new_name)
    (Hk : length file_key = key_length) (Hnk : length new_key = key_length) (Hpk : length parent_key = key_length)
    (Hw : s.(workers) !! w = Some x) (Hr : x.(reading) = true) :
  (forall p, packet_create.open csalt csequence key name file_key = Some p ->
     x.(started_jobs_) !! key_of p.(header) = Some j ->
     exists r q s', respond (has_type t p) buf = Some r /\
       execs [FromWorker w r; RunTask (length s.(Worker.posted))] s = Some s' /\
       s'.(tables) = on_worker_finished_opening_a_file s.(tables) file_key (says_ok buf) /\
       s'.(outputs) = s.(outputs) ++ [ToClient j q] /\
       q.(data) = if says_ok buf then x.(endpoint) else err_open_not_found) /\
  (forall p, packet_create.rename_file csalt csequence key file_key new_key name parent_key new_name = Some p ->
     x.(started_jobs_) !! key_of p.(header) = Some j ->
     exists r q s', respond (has_type t p) buf = Some r /\
       execs [FromWorker w r; RunTask (length s.(Worker.posted))] s = Some s' /\
       s'.(tables) = on_worker_finished_renaming_file s.(tables) parent_key /\
       s'.(tables).(locked_directories_for_rename) !! parent_key = None /\
       s'.(outputs) = s.(outputs) ++ [ToClient j q] /\
       q.(data) = if says_ok buf then text_ok else err_invalid).
Proof.
  split; intros p Ep Hj.
  - destruct (open_makes csalt csequence key name file_key Hname Hk) as (p' & Ep' & Hd).
    rewrite Ep in Ep'. injection Ep' as <-.
    pose proof (from_worker_open w x s Hw Hr (has_type t p) file_key (says_ok buf) Hk) as Ew.
    match type of Ew with _ = Some (queued _ _ ?l ?q) =>
      destruct (response_answers w x s j Hw l q Hj) as (s' & E & Et & Eo); eexists _, q, s' end.
    split; [apply (respond_open p t _ buf Hd)|]. cbn [in_key execs]. rewrite Ew. cbn [mbind option_bind].
    rewrite E. done.
  - destruct (rename_file_makes csalt csequence key name file_key Hname Hk new_key parent_key new_name Hnk Hpk Hnew) as (p' & Ep' & Hd).
    rewrite Ep in Ep'. injection Ep' as <-.
    pose proof (from_worker_rename w x s Hw Hr (has_type t p) parent_key (says_ok buf) Hpk) as Ew.
    match type of Ew with _ = Some (queued _ _ ?l ?q) =>
      destruct (response_answers w x s j Hw l q Hj) as (s' & E & Et & Eo); eexists _, q, s' end.
    split.
    { eapply (respond_rename p t _ _ buf Hd). cbn [in_data].
      rewrite <- (app_nil_r (meta.store_rename_info _)). apply load_store_rename_info; [done..|].
      cbn [meta.new_file_name]. rewrite length_app, length_replicate. destruct Hnew. unfold file_name_length in *. lia. }
    cbn [meta.file_parent_key execs]. rewrite Ew. cbn [mbind option_bind]. rewrite E.
    split; [done|]. rewrite Et. split; [done|]. split; [|done]. cbn. apply lookup_delete_eq.
Qed.

Definition df_open : packet :=
  default (mk_packet (mk_header 0 0 [] 0 [] []) []) (packet_create.open [] [] client_key df_name client_file_key).
Definition df_worker : worker := mk_worker true {[key_of df_open.(header) := 7%nat]} (replicate 6 x0a) true.
Definition df_proxy : proxy := mk_proxy empty_launcher ∅ {[3%nat := df_worker]} [3%nat] ∅ [] [] [].

Lemma df_name_ok : name_ok df_name.
Proof. split; [cbn; unfold file_name_length; lia|]. by apply (bool_decide_unpack _). Qed.

Lemma answers_reach_tables_witness : exists r q s', respond df_open msg_ok = Some r /\
  execs [FromWorker 3 r; RunTask 0] df_proxy = Some s' /\ s'.(outputs) = [ToClient 7 q] /\ q.(data) = replicate 6 x0a.
Proof.
  destruct (answers_reach_tables [] [] client_key df_name client_file_key client_key client_key df_name trigger msg_ok
    3%nat df_worker df_proxy 7%nat df_name_ok df_name_ok eq_refl eq_refl eq_refl) as [Ho _]; [apply lookup_insert_eq|reflexivity|].
  destruct (Ho df_open) as (r & q & s' & Er & E & _ & Eo & Eq); [vm_compute; reflexivity|apply lookup_insert_eq|].
  exists r, q, s'. split; [exact Er|]. split; [exact E|]. split; [exact Eo|exact Eq].
Defined.

(** A storage that answers at once gets the same requests wrong: an open that fails
    is answered as an ordinary response, so the proxy never releases the lock it took
    for the open, and the answer to a rename carries the text in place of the parent's
    key, which the proxy reads beyond its end: the directory stays locked. *)
Theorem sync_answers_miss_tables `{AvailablePolicy} csalt csequence key name file_key new_key parent_key new_name
    t v w x s (Hname : name_ok name) (Hnew : name_ok new_name)
    (Hk : length file_key = key_length) (Hnk : length new_key = key_length) (Hpk : length parent_key = key_length)
    (Hw : s.(workers) !! w = Some x) (Hr : x.(reading) = true) :
  (forall p, packet_create.open csalt csequence key name file_key = Some p -> says_ok v = false ->
     exists r, respond_sync (has_type t p) v = Some r /\
       exec (FromWorker w r) s = Some (queued w s s.(tables) r)) /\
  (forall p, packet_create.rename_file csalt csequence key file_key new_key name parent_key new_name = Some p ->
     (length v < key_size)%nat ->
     exists r, respond_sync (has_type t p) v = Some r /\ exec (FromWorker w r) s = None).
Proof.
  split; intros p Ep Hv.
  - destruct (open_makes csalt csequence key name file_key Hname Hk) as (p' & Ep' & Hd).
    rewrite Ep in Ep'. injection Ep' as <-. exists (has_data v (has_type worker_response (has_type t p))). split.
    + unfold respond_sync. rewrite !is_meta_operation_type, !(describes_operation _ _ _ _ Hd). cbn [mbind option_bind].
      rewrite Hv, andb_false_r. by rewrite bool_decide_eq_false_2.
    + cbn [exec]. unfold from_worker, on_body. rewrite Hw. cbn [mbind option_bind]. rewrite Hr. by destruct s.
  - destruct (rename_file_makes csalt csequence key name file_key Hname Hk new_key parent_key new_name Hnk Hpk Hnew) as (p' & Ep' & Hd).
    rewrite Ep in Ep'. injection Ep' as <-. pose proof (parse_input_inv _ _ (ds_input _ _ _ _ Hd)) as (_ & Ek & _).
    exists (has_data v (has_type (if says_ok v then rename_success else rename_fail) (has_type t p))). split.
    + unfold respond_sync. rewrite !is_meta_operation_type, !(describes_operation _ _ _ _ Hd). cbn [mbind option_bind].
      rewrite bool_decide_eq_false_2 by done. rewrite bool_decide_eq_true_2 by done. cbn [andb data has_type].
      rewrite Ek. cbn [in_data]. rewrite <- (app_nil_r (meta.store_rename_info _)), load_store_rename_info; [done..|].
      cbn [meta.new_file_name]. rewrite length_app, length_replicate. destruct Hnew. unfold file_name_length in *. lia.
    + cbn [exec]. unfold from_worker, on_body. rewrite Hw. cbn [mbind option_bind]. rewrite Hr.
      assert (mem_get 0 key_size v = None) as E by (unfold mem_get; by rewrite decide_False by lia).
      destruct (says_ok v); cbn [header has_data has_type data set_type type]; by rewrite of_code_code, E.
Qed.

Definition df_rename : packet :=
  default (mk_packet (mk_header 0 0 [] 0 [] []) [])
    (packet_create.rename_file [] [] client_key client_file_key client_key df_name client_key df_name).

Lemma sync_answers_miss_tables_witness : exists r, respond_sync df_rename msg_ok = Some r /\
  exec (FromWorker 3 r) df_proxy = None.
Proof.
  destruct (sync_answers_miss_tables [] [] client_key df_name client_file_key client_key client_key df_name trigger msg_ok
    3%nat df_worker df_proxy df_name_ok df_name_ok eq_refl eq_refl eq_refl) as [_ Hrn]; [apply lookup_insert_eq|reflexivity|].
  destruct (Hrn df_rename) as (r & Er & E); [vm_compute; reflexivity|vm_compute; lia|].
  exists r. split; [exact Er|exact E].
Defined.

Section commands.
Import proxy_command command_facts.

(** Whatever commands a data function receives, it acknowledges each once, in order,
    with the header of the command, starts exactly those that are requests, in order,
    and keeps its timer at the waiting time last set after the last command other than
    the setting of the timer; while the body of such a command is being read the timer
    is off and the function does not leave. *)
Theorem commands_acknowledged cs s s' (Hrun : commands cs s = Some s') (Hne : cs <> []) :
  s'.(written) = s.(written) ++ (ack_of ∘ snd <$> cs) /\
  s'.(posted) = s.(posted) ++ filter is_job cs.*2 /\
  s'.(deadline) = Some (last_activity cs s.(last_update_) + last_wait cs s.(waittime_)) /\
  (forall now, expired now s' = true <-> last_activity cs s.(last_update_) + last_wait cs s.(waittime_) <= now) /\
  (forall now p, sets_timer p = false -> expired now (start_listen_commands p.(header) s') = false).
Proof.
  destruct (commands_spec cs s s' Hrun) as (Hw & Hp & Hl & Hd & Hdl). specialize (Hdl Hne). rewrite Hl, Hd in Hdl.
  split; [done|]. split; [done|]. split; [done|]. split.
  - intros now. unfold expired. rewrite Hdl. apply Z.leb_le.
  - intros now p Hs. unfold start_listen_commands, sets_timer in *. by rewrite Hs.
Qed.

Definition df_function : state := mk_state 10000 0 None [] [] (lit "LRU"%string) [] [].
Definition df_commands : list (Z * packet) :=
  [(100, df_open); (200, mk_packet (mk_header (code set_timer) 0 [] 4 [] []) (le_bytes 4 (hton 4 50))); (130, df_open)].

Lemma commands_acknowledged_witness : exists s', commands df_commands df_function = Some s' /\
  length s'.(posted) = 2%nat /\ length s'.(written) = 3%nat /\ s'.(deadline) = Some 180.
Proof.
  assert (exists s', commands df_commands df_function = Some s') as [s' E] by (eexists; reflexivity).
  destruct (commands_acknowledged df_commands df_function s' E ltac:(discriminate)) as (Hw & Hp & Hd & _).
  exists s'. split; [exact E|]. rewrite Hw, Hp, Hd. vm_compute. split; [reflexivity|]. split; reflexivity.
Defined.
End commands.
