(* ===== verification/Ring.v ===== *)
(** * The ring of proxies ([clients/clientlib.hpp], [clients/clientlib-zookeeper.hpp],
    [zookeeper.hpp], [launcher.hpp] lines 612-656)

    Proxies register in ZooKeeper under the base64 form of their 32-byte id; clients and
    proxies sort the ids into a ring and give a key to the first id above it.  ZooKeeper,
    the resolver and the base64 code are parameters: the nodes are a map from names to
    the text [host:port:liveliness]. *)
From Stdlib Require Import ZArith Lia Sorting.Sorted.
From stdpp Require Import base tactics option list gmap sorting strings.
From S2P Require Import Prelude Wire DataFunction.
Import pack.

(** ** The order of ids: [operator<] of [std::array] *)
Fixpoint lex_lt (a b : bytes) : bool :=
  match a, b with
  | _, [] => false
  | [], _ :: _ => true
  | x :: a, y :: b => (byte_val x <? byte_val y) || (byte_val x =? byte_val y) && lex_lt a b
  end.

Definition id_le (a b : bytes) : Prop := lex_lt b a = false.

#[global] Instance id_le_dec : RelDecision id_le.
Proof. intros a b. unfold id_le. apply _. Defined.

Lemma lex_lt_irrefl a : lex_lt a a = false.
Proof. induction a as [|x a IH]; cbn; [done|]. rewrite Z.ltb_irrefl, Z.eqb_refl. done. Qed.

Lemma lex_lt_trans a b c : lex_lt a b = true -> lex_lt b c = true -> lex_lt a c = true.
Proof.
  revert b c. induction a as [|x a IH]; intros [|y b] [|z c]; cbn; try done.
  rewrite !orb_true_iff, !andb_true_iff, !Z.ltb_lt, !Z.eqb_eq.
  intros [?|[? ?]] [?|[? ?]]; [left; lia|left; lia|left; lia|right]. split; [lia|by eapply IH].
Qed.

Lemma lex_lt_total a b : lex_lt a b = true \/ a = b \/ lex_lt b a = true.
Proof.
  revert b. induction a as [|x a IH]; intros [|y b]; cbn; auto.
  rewrite !orb_true_iff, !andb_true_iff, !Z.ltb_lt, !Z.eqb_eq.
  destruct (Z.lt_trichotomy (byte_val x) (byte_val y)) as [?|[E|?]]; [auto| |auto].
  apply byte_val_inj in E as ->. destruct (IH b) as [?|[-> |?]]; auto.
Qed.

Lemma id_le_lt a b : id_le a b <-> lex_lt a b = true \/ a = b.
Proof.
  unfold id_le. split.
  - intros E. destruct (lex_lt_total a b) as [?|[?|?]]; [by left|by right|congruence].
  - intros [E| ->]; [|apply lex_lt_irrefl]. destruct (lex_lt b a) eqn:E'; [|done].
    pose proof (lex_lt_trans _ _ _ E E'). by rewrite lex_lt_irrefl in *.
Qed.

#[global] Instance id_le_total : Total id_le.
Proof. intros a b. rewrite !id_le_lt. destruct (lex_lt_total a b) as [?|[?|?]]; auto. Qed.
#[global] Instance id_le_trans : Transitive id_le.
Proof.
  intros a b c. rewrite !id_le_lt. intros [?| ->] [?| ->]; auto. left. by eapply lex_lt_trans.
Qed.
#[global] Instance id_le_antisymm : AntiSymm (=) id_le.
Proof.
  intros a b. rewrite !id_le_lt. intros [H1| ->] [H2|E]; auto.
  pose proof (lex_lt_trans _ _ _ H1 H2). by rewrite lex_lt_irrefl in *.
Qed.

(** [std::sort] of ids. *)
Definition sort_ids (ids : list bytes) : list bytes := merge_sort id_le ids.

(** ** Who owns a key: [std::upper_bound] in a sorted list, around the ring *)
Definition upper_bound (key : bytes) (ids : list bytes) : option bytes :=
  snd <$> list_find (fun id => lex_lt key id = true) ids.

Definition owner (ids : list bytes) (key : bytes) : option bytes :=
  match upper_bound key ids with Some id => Some id | None => hd_error ids end.

(** ** ZooKeeper nodes *)

(** An address of four bytes and a port. *)
Record endpoint := mk_endpoint { ip : bytes; port : Z }.

Section zookeeper.
(** Poco's base64 with the replacement of slashes, and the first endpoint the resolver
    finds for a host and a service ([None]: it throws). *)
Variables encode_base64 decode_base64 : bytes -> bytes.
Variable resolve : bytes -> bytes -> option endpoint.

Definition colon : byte := x3a.

(** Up to a character and after it. *)
Fixpoint split_at (c : byte) (b : bytes) : option (bytes * bytes) :=
  match b with
  | [] => None
  | x :: b => if decide (x = c) then Some ([], b) else '(l, r) ← split_at c b; Some (x :: l, r)
  end.

Lemma split_at_in c b l r : split_at c b = Some (l, r) -> c ∈ b.
Proof.
  revert l. induction b as [|x b IH]; intros l; cbn [split_at]; [done|]. case_decide as E; [intros _; subst; by left|].
  destruct (split_at c b) as [[l' r']|]; [|done]. intros [= _ <-]. right. by eapply IH.
Qed.

(** [host:port:liveliness]; [None] is an exception or a read past the end. *)
Definition parse_details (buf : bytes) : option (bytes * bytes * Z) :=
  '(host, buf) ← split_at colon buf;
  '(port, buf) ← split_at colon buf;
  liveliness ← stoll buf;
  if decide (- 2 ^ 31 <= liveliness < 2 ^ 31) then Some (host, port, liveliness) else None.

(** [get_details] of clients and proxies, as far as they use it; an id in the cache is
    answered with liveliness 0. *)
Definition get_details (nodes : gmap bytes bytes) (cache : gmap bytes endpoint) (child : bytes)
    : option (gmap bytes endpoint * Z) :=
  match cache !! child with
  | Some _ => Some (cache, 0)
  | None =>
      buf ← nodes !! child;
      '(host, port, liveliness) ← parse_details buf;
      endpoint ← resolve host port;
      Some (<[child := endpoint]> cache, liveliness)
  end.

(** [get_uuid] of the client. *)
Definition client_get_uuid (nodes : gmap bytes bytes) (cache : gmap bytes endpoint) (child : bytes)
    : option (gmap bytes endpoint * endpoint) :=
  match cache !! child with
  | Some endpoint => Some (cache, endpoint)
  | None =>
      buf ← nodes !! child;
      '(host, rest) ← split_at colon buf;
      '(port, _) ← split_at colon rest;
      endpoint ← resolve host port;
      Some (<[child := endpoint]> cache, endpoint)
  end.

(** [get_uuid] of the proxy: everything behind the first colon is the port. *)
Definition proxy_get_uuid (nodes : gmap bytes bytes) (cache : gmap bytes endpoint) (child : bytes)
    : option (gmap bytes endpoint * endpoint) :=
  match cache !! child with
  | Some endpoint => Some (cache, endpoint)
  | None =>
      buf ← nodes !! child;
      '(host, port) ← split_at colon buf;
      endpoint ← resolve host port;
      Some (<[child := endpoint]> cache, endpoint)
  end.

(** ** The client *)

(** [proxys_]: ids in order, each with whether its socket is open. *)
Record client := mk_client { uuid_cache_ : gmap bytes endpoint; proxys_ : list (bytes * bool) }.

(** The children that are alive. *)
Fixpoint alive (nodes : gmap bytes bytes) (cache : gmap bytes endpoint) (children : list bytes)
    : option (gmap bytes endpoint * list bytes) :=
  match children with
  | [] => Some (cache, [])
  | entry :: children =>
      '(cache, liveliness) ← get_details nodes cache entry;
      '(cache, rest) ← alive nodes cache children;
      Some (cache, if liveliness =? 1 then entry :: rest else rest)
  end.

(** Connecting: an open socket is kept; [connects] says whether a connection succeeds. *)
Variable connects : endpoint -> bool.

Fixpoint connect_all (nodes : gmap bytes bytes) (old : list (bytes * bool)) (cache : gmap bytes endpoint) (ids : list bytes)
    : option (gmap bytes endpoint * list (bytes * bool)) :=
  match ids with
  | [] => Some (cache, [])
  | id :: ids =>
      cache ← (if decide ((id, true) ∈ old) then Some cache
               else '(cache, endpoint) ← client_get_uuid nodes cache (encode_base64 id);
                    if connects endpoint then Some cache else None);
      '(cache, rest) ← connect_all nodes old cache ids;
      Some (cache, (id, true) :: rest)
  end.

(** [zookeeper::reconfigure] and [client::reconfigure]. *)
Definition client_reconfigure (nodes : gmap bytes bytes) (children : list bytes) (s : client) : option client :=
  '(cache, new_list) ← alive nodes s.(uuid_cache_) children;
  let new_sorted_proxy_list := sort_ids (decode_base64 <$> new_list) in
  if decide (length new_sorted_proxy_list = length s.(proxys_) /\
             Forall (fun id => id ∈ s.(proxys_).*1) new_sorted_proxy_list)
  then Some (mk_client cache s.(proxys_))
  else '(cache, proxys) ← connect_all nodes s.(proxys_) cache new_sorted_proxy_list;
       Some (mk_client cache proxys).

(** [select_proxy]; with no proxy the end of the map is dereferenced. *)
Definition select_proxy (s : client) (key : bytes) : option bytes := owner s.(proxys_).*1 key.

End zookeeper.

(** [client::send]: what the attempts return ([None]: an exception). *)
Fixpoint send_loop (fuel : nat) (retry_count : Z) (send_request : nat -> option bytes) (attempt : nat)
    : option (option bytes * nat) :=
  match fuel with
  | O => None
  | S fuel =>
      match send_request attempt with
      | Some data => Some (Some data, S attempt)
      | None => if retry_count >? 3 then Some (None, S attempt)
                else send_loop fuel (retry_count + 1) send_request (S attempt)
      end
  end.

Definition send (send_request : nat -> option bytes) : option (option bytes * nat) := send_loop 6 0 send_request 0.

(** ** The proxy *)

(** [start_send_reconfigure_message]: what a worker is told about the new proxy. *)
Definition start_send_reconfigure_message (h : packet_header) (new_proxy : endpoint) : packet :=
  mk_packet (set_type proxyjoin h) (new_proxy.(ip) ++ le_bytes 2 (hton 2 new_proxy.(port))).

(** [launcher::reconfigure]: [files] are the files of the proxy with their workers, in
    the order of the map.  A worker is told to join a proxy that owns one of them, once
    per proxy.  [false] at the end: an exception, or no proxy, ended the loop. *)
Fixpoint reconfigure (encode_base64 : bytes -> bytes) (resolve : bytes -> bytes -> option endpoint)
    (nodes : gmap bytes bytes) (self : bytes) (ids : list bytes) (cache : gmap bytes endpoint)
    (notified : list bytes) (files : list (packet_header * nat)) : gmap bytes endpoint * list (nat * packet) * bool :=
  match files with
  | [] => (cache, [], true)
  | (h, worker) :: files =>
      match owner ids h.(key) with
      | None => (cache, [], false)
      | Some it =>
          if decide (it <> self /\ it ∉ notified) then
            match proxy_get_uuid resolve nodes cache (encode_base64 it) with
            | None => (cache, [], false)
            | Some (cache, new_proxy) =>
                let '(cache, msgs, ok) := reconfigure encode_base64 resolve nodes self ids cache (it :: notified) files in
                (cache, (worker, start_send_reconfigure_message h new_proxy) :: msgs, ok)
            end
          else reconfigure encode_base64 resolve nodes self ids cache notified files
      end
  end.

(** [start_check_alive]: the next proxy on the ring is watched; what is done to its node
    when it has not been written for 20 seconds. *)
Inductive alive_action := Nothing | SetLiveliness (l : Z) | RestartProxy (l : Z).

Definition check_alive (resolve : bytes -> bytes -> option endpoint) (nodes : gmap bytes bytes)
    (cache : gmap bytes endpoint) (child : bytes)
    (stale : bool) : option (gmap bytes endpoint * alive_action) :=
  if stale then
    '(cache, liveliness) ← get_details resolve nodes cache child;
    Some (cache, if liveliness =? 1 then SetLiveliness 0
                 else if liveliness =? 0 then RestartProxy (-1) else Nothing)
  else Some (cache, Nothing).

Definition watched (ids : list bytes) (self : bytes) : option bytes :=
  it ← owner ids self; if decide (it = self) then None else Some it.

(** ** The owner as the successor on the ring *)

(** [id] follows [key] on the ring of [ids], whatever their order. *)
Definition follows (ids : list bytes) (key id : bytes) : Prop :=
  id ∈ ids /\
  (lex_lt key id = true /\ (forall i, i ∈ ids -> lex_lt key i = true -> id_le id i) \/
   (forall i, i ∈ ids -> lex_lt key i = false) /\ (forall i, i ∈ ids -> id_le id i)).

Lemma follows_unique ids key id1 id2 : follows ids key id1 -> follows ids key id2 -> id1 = id2.
Proof.
  intros [Hin1 H1] [Hin2 H2]. destruct H1 as [[Hl1 Hm1]|[Hn1 Hm1]], H2 as [[Hl2 Hm2]|[Hn2 Hm2]].
  - apply (anti_symm id_le); auto.
  - rewrite Hn2 in Hl1 by done. done.
  - rewrite Hn1 in Hl2 by done. done.
  - apply (anti_symm id_le); auto.
Qed.

Lemma follows_perm ids ids' key id : ids ≡ₚ ids' -> follows ids key id -> follows ids' key id.
Proof.
  intros E [Hin H]. split; [by rewrite <- E|].
  destruct H as [[? H]|[H1 H2]]; [left; split; [done|]|right; split]; intros i; rewrite <- E; auto.
Qed.

Lemma sorted_lookup ids j k a b : StronglySorted id_le ids -> ids !! j = Some a -> ids !! k = Some b -> (j < k)%nat -> id_le a b.
Proof.
  intros Hs. revert j k. induction Hs as [|x ids Hs IH Hx]; intros j k Ha Hb Hlt; [done|].
  destruct k as [|k]; [lia|]. destruct j as [|j]; cbn in Ha, Hb; [|apply (IH j k); (done || lia)].
  injection Ha as ->. rewrite Forall_forall in Hx. by eapply Hx, list_elem_of_lookup_2.
Qed.

Lemma owner_follows ids key : StronglySorted id_le ids -> ids <> [] ->
  exists id, owner ids key = Some id /\ follows ids key id.
Proof.
  intros Hs Hne. unfold owner, upper_bound. destruct (list_find _ ids) as [[j id]|] eqn:E; cbn.
  - exists id. split; [done|]. apply list_find_Some in E as (Hj & Hl & Hbefore).
    split; [by eapply list_elem_of_lookup_2|]. left. split; [done|]. intros i [k Hk]%list_elem_of_lookup_1 Hi.
    destruct (decide (k < j)%nat) as [Hlt|Hge]; [by destruct (Hbefore _ _ Hk Hlt)|].
    destruct (decide (k = j)) as [->|Hne']; [assert (i = id) as -> by congruence; by apply id_le_lt; right|].
    eapply sorted_lookup; [exact Hs|exact Hj|exact Hk|lia].
  - apply list_find_None in E. destruct ids as [|id ids]; [done|]. exists id. split; [done|]. split; [by left|]. right. split.
    + intros i Hi. rewrite Forall_forall in E. specialize (E i Hi). by destruct (lex_lt key i).
    + intros i [->|Hi]%elem_of_cons; [by apply id_le_lt; right|]. apply StronglySorted_inv in Hs as [_ Hs].
      rewrite Forall_forall in Hs. by apply Hs.
Qed.

Lemma sort_ids_sorted ids : StronglySorted id_le (sort_ids ids).
Proof. apply (StronglySorted_merge_sort _). Qed.

Lemma sort_ids_perm ids : sort_ids ids ≡ₚ ids.
Proof. apply merge_sort_Permutation. Qed.

Lemma owner_sort ids key id : ids <> [] -> owner (sort_ids ids) key = Some id <-> follows ids key id.
Proof.
  intros Hne. destruct (owner_follows (sort_ids ids) key (sort_ids_sorted ids)) as (id' & E & Hf).
  - intros E. apply Hne. apply Permutation_nil. by rewrite <- (sort_ids_perm ids), E.
  - apply (follows_perm _ _ _ _ (sort_ids_perm ids)) in Hf. rewrite E. split; [by intros [= <-]|].
    intros Hf'. f_equal. by eapply follows_unique.
Qed.

Lemma sort_ids_unique ids ids' : ids ≡ₚ ids' -> sort_ids ids = sort_ids ids'.
Proof.
  intros E. apply (StronglySorted_unique id_le); [apply sort_ids_sorted..|]. by rewrite !sort_ids_perm.
Qed.

(** ** Clients and proxies see the same ring *)

Section ring_facts.
Variables encode_base64 decode_base64 : bytes -> bytes.
Variable resolve : bytes -> bytes -> option endpoint.
Variable connects : endpoint -> bool.

(** A node that can be read, resolved and connected to, and says it is alive. *)
Definition live_node (nodes : gmap bytes bytes) (child : bytes) : Prop :=
  exists buf host port endpoint, nodes !! child = Some buf /\ parse_details buf = Some (host, port, 1) /\
    resolve host port = Some endpoint /\ connects endpoint = true.

Lemma alive_fresh nodes cache children : NoDup children -> (forall c, c ∈ children -> cache !! c = None) ->
  (forall c, c ∈ children -> live_node nodes c) ->
  exists cache', alive resolve nodes cache children = Some (cache', children) /\
    (forall c, c ∉ children -> cache' !! c = cache !! c) /\
    (forall c, c ∈ children -> exists endpoint, cache' !! c = Some endpoint /\ connects endpoint = true).
Proof.
  intros Hnd. revert cache. induction Hnd as [|c children Hc Hnd IH]; intros cache Hnew Hlive; cbn [alive].
  - exists cache. split; [done|]. split; [done|]. intros c Hc. by apply elem_of_nil in Hc.
  - destruct (Hlive c ltac:(by left)) as (buf & host & port & endpoint & E1 & E2 & E3 & E4).
    unfold get_details. rewrite Hnew, E1 by (by left). cbn [mbind option_bind]. rewrite E2. cbn [mbind option_bind].
    rewrite E3. cbn [mbind option_bind].
    destruct (IH (<[c := endpoint]> cache)) as (cache' & E & Hother & Hin).
    { intros c' Hc'. rewrite lookup_insert_ne by (intros ->; done). apply Hnew. by right. }
    { intros c' Hc'. apply Hlive. by right. }
    rewrite E. cbn [mbind option_bind]. exists cache'. split; [done|]. split.
    + intros c' Hc'. apply not_elem_of_cons in Hc' as [Hne Hc']. rewrite Hother by done. by rewrite lookup_insert_ne.
    + intros c' [->|Hc']%elem_of_cons; [|by apply Hin]. exists endpoint. split; [|done].
      rewrite Hother by done. apply lookup_insert_eq.
Qed.

Lemma alive_cached nodes cache children : (forall c, c ∈ children -> is_Some (cache !! c)) ->
  alive resolve nodes cache children = Some (cache, []).
Proof.
  intros Hc. induction children as [|c children IH]; [done|]. cbn [alive]. unfold get_details.
  destruct (Hc c ltac:(by left)) as [endpoint ->]. cbn [mbind option_bind]. rewrite IH; [done|]. intros c' ?. apply Hc. by right.
Qed.

Lemma connect_all_cached nodes old cache ids :
  (forall id, id ∈ ids -> exists endpoint, cache !! encode_base64 id = Some endpoint /\ connects endpoint = true) ->
  connect_all encode_base64 resolve connects nodes old cache ids = Some (cache, (fun id => (id, true)) <$> ids).
Proof.
  intros Hc. induction ids as [|id ids IH]; [done|]. cbn [connect_all].
  destruct (Hc id ltac:(by left)) as (endpoint & E & Hok). unfold client_get_uuid. rewrite E.
  assert ((if decide ((id, true) ∈ old) then Some cache else
    '(cache, endpoint) ← Some (cache, endpoint); if connects endpoint then Some cache else None) = Some cache) as ->.
  { case_decide; [done|]. cbn [mbind option_bind]. by rewrite Hok. }
  cbn [mbind option_bind]. rewrite IH; [done|]. intros. apply Hc. by right.
Qed.

Lemma pairs_fst (ids : list bytes) : ((fun id => (id, true)) <$> ids).*1 = ids.
Proof. rewrite <- list_fmap_compose. apply list_fmap_id. Qed.

Lemma decode_encode (ids : list bytes) : (forall id, id ∈ ids -> decode_base64 (encode_base64 id) = id) ->
  decode_base64 <$> (encode_base64 <$> ids) = ids.
Proof.
  intros Hdec. rewrite <- list_fmap_compose. rewrite <- (list_fmap_id ids) at 2. apply list_fmap_ext. intros i id Hi.
  apply Hdec. by eapply list_elem_of_lookup_2.
Qed.

(** A client that knows nothing yet. *)
Lemma first_reconfigure nodes ids s : ids <> [] -> NoDup ids -> (forall id, id ∈ ids -> decode_base64 (encode_base64 id) = id) ->
  (forall id, id ∈ ids -> live_node nodes (encode_base64 id)) ->
  (forall id, id ∈ ids -> s.(uuid_cache_) !! encode_base64 id = None) -> s.(proxys_) = [] ->
  exists cache, client_reconfigure encode_base64 decode_base64 resolve connects nodes (encode_base64 <$> ids) s
    = Some (mk_client cache ((fun id => (id, true)) <$> sort_ids ids)) /\
    forall id, id ∈ ids -> is_Some (cache !! encode_base64 id).
Proof.
  intros Hne Hnd Hdec Hlive Hnew Hp.
  pose proof (decode_encode ids Hdec) as Hdd.
  destruct (alive_fresh nodes s.(uuid_cache_) (encode_base64 <$> ids)) as (cache & E & _ & Hin).
  - apply NoDup_fmap_2_strong; [|done]. intros x y Hx Hy Exy. rewrite <- (Hdec x Hx), <- (Hdec y Hy). by f_equal.
  - intros c (id & -> & Hid)%list_elem_of_fmap. by apply Hnew.
  - intros c (id & -> & Hid)%list_elem_of_fmap. by apply Hlive.
  - unfold client_reconfigure. rewrite E. cbn [mbind option_bind]. rewrite Hdd, Hp. cbn [length].
    rewrite decide_False.
    + rewrite connect_all_cached.
      * cbn [mbind option_bind]. exists cache. split; [done|]. intros id Hid.
        destruct (Hin (encode_base64 id)) as (endpoint & -> & _); [by apply list_elem_of_fmap_2|by exists endpoint].
      * intros id Hid. apply Hin. apply list_elem_of_fmap_2. by rewrite <- (sort_ids_perm ids).
    + intros [Hl _]. apply nil_length_inv in Hl. apply Hne. apply Permutation_nil. by rewrite <- (sort_ids_perm ids), Hl.
Qed.

End ring_facts.

(** ** Watching *)

Lemma follows_inj ids p p' q : p ∈ ids -> p' ∈ ids -> follows ids p q -> follows ids p' q -> p = p'.
Proof.
  assert (forall p p', p ∈ ids -> p' ∈ ids -> follows ids p q -> follows ids p' q -> lex_lt p p' = true -> False) as Hlt.
  { intros a b Ha Hb [Hq [[Haq Hmin]|[Hnone Hmin]]] [_ Hfb] Hab; [|by rewrite Hnone in Hab].
    specialize (Hmin b Hb Hab). apply id_le_lt in Hmin.
    destruct Hfb as [[Hbq _]|[_ Hall]].
    - destruct Hmin as [Hqb| ->]; [|by rewrite lex_lt_irrefl in Hbq].
      pose proof (lex_lt_trans _ _ _ Hqb Hbq). by rewrite lex_lt_irrefl in *.
    - specialize (Hall a Ha). unfold id_le in Hall. congruence. }
  intros Hp Hp' Hf Hf'. destruct (lex_lt_total p p') as [?|[?|?]]; [|done|]; exfalso; [eapply (Hlt p p')|eapply (Hlt p' p)]; done.
Qed.

Lemma follows_other ids p q : NoDup ids -> (2 <= length ids)%nat -> p ∈ ids -> follows ids p q -> q <> p.
Proof.
  intros Hnd Hl Hp [_ H] ->. destruct H as [[H _]|[Hnone Hall]]; [by rewrite lex_lt_irrefl in H|].
  assert (forall i, i ∈ ids -> i = p) as Heq.
  { intros i Hi. apply (anti_symm id_le); [unfold id_le; auto|auto]. }
  destruct ids as [|a [|b ids]]; [cbn in Hl; lia..|]. apply NoDup_cons in Hnd as [Ha _]. apply Ha.
  rewrite (Heq a) by (by left). rewrite <- (Heq b) by (right; by left). by left.
Qed.

Lemma owner_sorted_Some ids key : ids <> [] -> exists id, owner (sort_ids ids) key = Some id /\ follows ids key id.
Proof.
  intros Hne. destruct (owner (sort_ids ids) key) as [id|] eqn:E; [exists id; split; [done|by apply owner_sort in E]|].
  destruct (owner_follows (sort_ids ids) key (sort_ids_sorted ids)) as (id & E' & _); [|congruence].
  intros E'. apply Hne, Permutation_nil. by rewrite <- (sort_ids_perm ids), E'.
Qed.

(** ** Properties *)

(** Listed again, nodes that have been resolved are answered from the cache, with liveliness
    0, and no proxy is left. *)
Lemma second_reconfigure encode_base64 decode_base64 resolve connects nodes ids cache : ids <> [] ->
  (forall id, id ∈ ids -> is_Some (cache !! encode_base64 id)) ->
  client_reconfigure encode_base64 decode_base64 resolve connects nodes (encode_base64 <$> ids)
    (mk_client cache ((fun id => (id, true)) <$> sort_ids ids)) = Some (mk_client cache []).
Proof.
  intros Hne Hc. unfold client_reconfigure. cbn [uuid_cache_ proxys_]. rewrite alive_cached.
  - cbn [mbind option_bind fmap list_fmap]. rewrite decide_False; [done|]. intros [Hl _]. rewrite length_fmap in Hl.
    symmetry in Hl. apply nil_length_inv in Hl. apply Hne, Permutation_nil. by rewrite <- (sort_ids_perm ids), Hl.
  - intros c (id & -> & Hid)%list_elem_of_fmap. by apply Hc.
Qed.

(** C20. A client that has resolved no proxy lists the nodes, and all proxies that are
    registered are alive.  Then it gives every key to the proxy that follows the key on the
    ring, and so does every proxy, in whatever order ZooKeeper lists the nodes to it: that
    proxy keeps the files of the key, and every other one that still has a file of it, and
    that has resolved the owner, tells its worker to join the owner.  This holds for the
    first listing alone: when the client lists the same nodes once more, it takes them all
    for dead and has no proxy for any key. *)
Theorem ring_agreement encode_base64 decode_base64 resolve connects nodes ids children s
    (Hne : ids <> []) (Hnd : NoDup ids) (Hdec : forall id, id ∈ ids -> decode_base64 (encode_base64 id) = id)
    (Hlive : forall id, id ∈ ids -> live_node resolve connects nodes (encode_base64 id))
    (Hs : s = mk_client ∅ []) (Hch : children ≡ₚ ids) :
  let reconfigured := client_reconfigure encode_base64 decode_base64 resolve connects nodes (encode_base64 <$> ids) in
  exists s' s'', reconfigured s = Some s' /\ reconfigured s' = Some s'' /\
  forall h, select_proxy s'' h.(key) = None /\
    exists p, p ∈ ids /\ select_proxy s' h.(key) = Some p /\ follows ids h.(key) p /\
    forall self worker cache new_proxy, cache !! encode_base64 p = Some new_proxy ->
      reconfigure encode_base64 resolve nodes self (sort_ids (decode_base64 <$> (encode_base64 <$> children))) cache [] [(h, worker)]
      = (cache, if decide (self = p) then [] else [(worker, start_send_reconfigure_message h new_proxy)], true).
Proof.
  destruct (first_reconfigure encode_base64 decode_base64 resolve connects nodes ids s) as (cache & E & Hc);
    [done..|by subst s|by subst s|]. eexists _, (mk_client cache []). split; [exact E|].
  split; [by apply second_reconfigure|]. intros h. split; [done|].
  destruct (owner_sorted_Some ids h.(key) Hne) as (p & Ep & Hf). exists p. split; [by destruct Hf|].
  unfold select_proxy. cbn [proxys_]. rewrite pairs_fst. split; [done|]. split; [done|].
  intros self worker pcache new_proxy Hp. rewrite (decode_encode encode_base64 decode_base64 children), (sort_ids_unique children ids Hch)
    by (intros id Hid; apply Hdec; by rewrite <- Hch).
  cbn [reconfigure]. rewrite Ep. destruct (decide (self = p)) as [->|Hn]; [by rewrite decide_False by tauto|].
  rewrite decide_True by (split; [by apply not_eq_sym|apply not_elem_of_nil]). unfold proxy_get_uuid. by rewrite Hp.
Qed.

(** A proxy that joins the ring takes keys over for itself only: every key keeps its
    owner or goes to the new proxy. *)
Theorem join_moves_to_newcomer ids p key : ids <> [] ->
  owner (sort_ids (p :: ids)) key = owner (sort_ids ids) key \/ owner (sort_ids (p :: ids)) key = Some p.
Proof.
  intros Hne. destruct (owner_sorted_Some (p :: ids) key) as (q & -> & Hq); [done|].
  destruct (decide (q = p)) as [->|Hqp]; [by right|left]. symmetry. apply owner_sort; [done|].
  destruct Hq as [Hin H]. apply elem_of_cons in Hin as [?|Hin]; [done|]. split; [done|].
  destruct H as [[Hl Hm]|[Hn Hm]]; [left; split; [done|]|right; split]; intros i Hi; auto using list_elem_of_further.
Qed.

(** A client forgets every proxy: the liveliness of an id it has resolved before is
    answered from its cache, as 0, so the second time the nodes are listed - although
    nothing has changed - no proxy is left, and the next request has nowhere to go. *)
Theorem client_forgets_proxies encode_base64 decode_base64 resolve connects nodes ids s
    (Hne : ids <> []) (Hnd : NoDup ids) (Hdec : forall id, id ∈ ids -> decode_base64 (encode_base64 id) = id)
    (Hlive : forall id, id ∈ ids -> live_node resolve connects nodes (encode_base64 id))
    (Hs : s = mk_client ∅ []) :
  let reconfigured := client_reconfigure encode_base64 decode_base64 resolve connects nodes (encode_base64 <$> ids) in
  exists s' s'', reconfigured s = Some s' /\ reconfigured s' = Some s'' /\
    forall key, is_Some (select_proxy s' key) /\ select_proxy s'' key = None.
Proof.
  destruct (first_reconfigure encode_base64 decode_base64 resolve connects nodes ids s) as (cache & E & Hc);
    [done..|by subst s|by subst s|]. cbv zeta. eexists _, (mk_client cache []). split; [exact E|]. split.
  - by apply second_reconfigure.
  - intros key. unfold select_proxy. cbn [proxys_]. rewrite pairs_fst. split; [|done].
    destruct (owner_sorted_Some ids key Hne) as (p & -> & _). by exists p.
Qed.

Lemma get_uuid_cached resolve nodes cache child cache' ep : proxy_get_uuid resolve nodes cache child = Some (cache', ep) ->
  cache' !! child = Some ep /\ cache ⊆ cache'.
Proof.
  unfold proxy_get_uuid. destruct (cache !! child) as [e|] eqn:E; [by intros [= <- <-]|].
  destruct (nodes !! child) as [buf|]; [|done]. cbn [mbind option_bind]. destruct (split_at colon buf) as [[host p]|]; [|done].
  cbn [mbind option_bind]. destruct (resolve host p) as [e|]; [|done]. intros [= <- <-]. split; [apply lookup_insert_eq|].
  by apply insert_subseteq.
Qed.

(** What is sent, with the proxies it is about. *)
Lemma reconfigure_spec encode_base64 resolve nodes self ids cache notified files cache' msgs :
  reconfigure encode_base64 resolve nodes self ids cache notified files = (cache', msgs, true) ->
  cache ⊆ cache' /\ exists its, NoDup its /\
    Forall2 (fun it m => exists h ep, (h, m.1) ∈ files /\ owner ids h.(key) = Some it /\
      cache' !! encode_base64 it = Some ep /\ m.2 = start_send_reconfigure_message h ep) its msgs /\
    forall it, it ∈ its <-> it <> self /\ it ∉ notified /\ exists f, f ∈ files /\ owner ids f.1.(key) = Some it.
Proof.
  revert cache notified msgs. induction files as [|[h worker] files IH]; intros cache notified msgs; cbn [reconfigure].
  - intros [= -> <-]. split; [done|]. exists []. split; [constructor|]. split; [constructor|]. intros it.
    split; [intros H; by apply elem_of_nil in H|]. intros (_ & _ & f & Hf & _). by apply elem_of_nil in Hf.
  - destruct (owner ids h.(key)) as [it0|] eqn:Eo; [|done]. case_decide as Hd.
    + destruct (proxy_get_uuid resolve nodes cache _) as [[cache1 ep]|] eqn:Eg; [|done].
      destruct (reconfigure encode_base64 resolve nodes self ids cache1 _ files) as [[c ms] ok] eqn:E. intros [= -> <- ->].
      apply get_uuid_cached in Eg as [Hep Hsub1]. apply IH in E as (Hsub & its & Hnd & Hm & Hin). split; [by etrans|].
      exists (it0 :: its). split; [|split].
      * apply NoDup_cons. split; [|done]. intros (_ & Hn & _)%Hin. apply Hn. by left.
      * constructor.
        -- exists h, ep. split; [by left|]. split; [done|]. split; [by eapply lookup_weaken|done].
        -- eapply Forall2_impl; [exact Hm|]. intros it m (h' & ep' & ? & ?). exists h', ep'. split; [by right|done].
      * intros it. rewrite elem_of_cons, Hin. split.
        -- intros [->|(H1 & H2 & f & Hf & Ef)]; [split; [tauto|]; split; [tauto|]; exists (h, worker); split; [by left|done]|].
           apply not_elem_of_cons in H2 as [_ H2]. split; [done|]. split; [done|]. exists f. split; [by right|done].
        -- intros (H1 & H2 & f & [->|Hf]%elem_of_cons & Ef); [left; cbn in Ef; congruence|].
           destruct (decide (it = it0)) as [->|Hne]; [by left|]. right. split; [done|]. split; [by apply not_elem_of_cons|].
           by exists f.
    + intros (Hsub & its & Hnd & Hm & Hin)%IH. split; [done|]. exists its. split; [done|]. split.
      * eapply Forall2_impl; [exact Hm|]. intros it m (h' & ep' & ? & ?). exists h', ep'. split; [by right|done].
      * intros it. rewrite Hin. split.
        -- intros (H1 & H2 & f & Hf & Ef). split; [done|]. split; [done|]. exists f. split; [by right|done].
        -- intros (H1 & H2 & f & [->|Hf]%elem_of_cons & Ef); [|split; [done|]; split; [done|]; by exists f].
           cbn in Ef. destruct Hd. assert (it0 = it) as -> by congruence. done.
Qed.

(** When the ring changes and every endpoint can be resolved, each other proxy that
    now owns one of the files is announced once, to a worker of such a file, and the
    function behind that worker connects to its address; a file that stays tells nobody. *)
Theorem reconfigure_announces_once encode_base64 resolve nodes self ids cache files cache' msgs
    (Hip : forall child ep, cache' !! child = Some ep -> length ep.(ip) = 4%nat)
    (Hr : reconfigure encode_base64 resolve nodes self ids cache [] files = (cache', msgs, true)) :
  exists its, NoDup its /\ (self ∉ its) /\
    (forall f p, f ∈ files -> owner ids f.1.(key) = Some p -> p <> self -> p ∈ its) /\
    Forall2 (fun it m => exists h ep, (h, m.1) ∈ files /\ owner ids h.(key) = Some it /\ cache' !! encode_base64 it = Some ep /\
      forall d, exists d', proxy_command.command m.2 d = Some d' /\
        ep.(ip) ++ le_bytes 2 (hton 2 ep.(port)) ∈ d'.(proxy_command.proxy_set_)) its msgs.
Proof.
  apply reconfigure_spec in Hr as (_ & its & Hnd & Hm & Hin). exists its. split; [done|].
  split; [intros (H & _)%Hin; done|]. split.
  - intros f p Hf Ep Hp. apply Hin. split; [done|]. split; [apply not_elem_of_nil|]. by exists f.
  - eapply Forall2_impl; [exact Hm|]. intros it [w m] (h & ep & Hf & Ho & Hc & E). cbn in Hf, E. subst m. exists h, ep.
    split; [done|]. split; [done|]. split; [done|]. intros d.
    assert (mem_get 0 6 (data (start_send_reconfigure_message h ep)) = Some (ep.(ip) ++ le_bytes 2 (hton 2 ep.(port)))) as E.
    { apply mem_get_all. cbn [start_send_reconfigure_message data]. rewrite length_app, length_le_bytes, (Hip _ _ Hc). done. }
    cbn [snd]. unfold proxy_command.command. change (of_code _) with (Some proxyjoin). cbv iota. rewrite E. cbn [mbind option_bind].
    eexists. split; [reflexivity|]. case_decide; [done|].
    cbn [proxy_command.proxy_set_]. apply elem_of_app. right. by apply list_elem_of_singleton.
Qed.

(** A proxy never announces a newcomer it has not heard of before: it takes what
    follows the first colon of the node, port and liveliness, for the service, which the
    resolver refuses, and the loop ends at the first file that has to move. *)
Theorem newcomers_not_announced encode_base64 resolve nodes self ids files
    (Hnodes : forall child buf, nodes !! child = Some buf -> exists d, parse_details buf = Some d)
    (Hservice : forall host service, colon ∈ service -> resolve host service = None) :
  reconfigure encode_base64 resolve nodes self ids ∅ [] files =
    (∅, [], forallb (fun f => bool_decide (owner ids f.1.(key) = Some self)) files).
Proof.
  induction files as [|[h worker] files IH]; [done|]. cbn [reconfigure forallb fst].
  destruct (owner ids h.(key)) as [it|]; [|done]. case_decide as Hd.
  - rewrite bool_decide_false by (intros [= ->]; tauto). unfold proxy_get_uuid. rewrite lookup_empty.
    destruct (nodes !! encode_base64 it) as [buf|] eqn:E; [|done]. cbn [mbind option_bind].
    destruct (Hnodes _ _ E) as [d Ep]. unfold parse_details in Ep. destruct (split_at colon buf) as [[host service]|]; [|done].
    cbn [mbind option_bind] in *. destruct (split_at colon service) as [[l r]|] eqn:Es; [|done].
    rewrite Hservice; [done|]. by eapply split_at_in.
  - rewrite IH. rewrite bool_decide_true; [done|]. f_equal. destruct (decide (it = self)); [done|].
    destruct Hd. split; [done|apply not_elem_of_nil].
Qed.

(** Each proxy of a ring of two or more is watched by exactly one other proxy. *)
Theorem every_proxy_watched ids q (Hnd : NoDup ids) (Hl : (2 <= length ids)%nat) (Hq : q ∈ ids) :
  exists p, p ∈ ids /\ p <> q /\ watched (sort_ids ids) p = Some q /\
    forall p', p' ∈ ids -> watched (sort_ids ids) p' = Some q -> p' = p.
Proof.
  assert (ids <> []) as Hne by (intros ->; cbn in Hl; lia).
  set (f := fun p => default [] (owner (sort_ids ids) p)).
  assert (forall p, owner (sort_ids ids) p = Some (f p) /\ follows ids p (f p)) as Hf.
  { intros p. unfold f. destruct (owner_sorted_Some ids p Hne) as (r & -> & Hr). done. }
  assert (f <$> ids ≡ₚ ids) as Hperm.
  { apply submseteq_length_Permutation; [|by rewrite length_fmap]. apply NoDup_submseteq.
    - apply NoDup_fmap_2_strong; [|done]. intros x y Hx Hy E. eapply follows_inj; [exact Hx|exact Hy|apply Hf|]. rewrite E. apply Hf.
    - intros x (p & -> & Hp)%list_elem_of_fmap. by destruct (Hf p) as [_ [? _]]. }
  rewrite <- Hperm in Hq. apply list_elem_of_fmap in Hq as (p & -> & Hp). exists p. split; [done|].
  pose proof (follows_other ids p (f p) Hnd Hl Hp (proj2 (Hf p))) as Hpq. split; [by apply not_eq_sym|]. unfold watched. split.
  - rewrite (proj1 (Hf p)). cbn [mbind option_bind]. by rewrite decide_False.
  - intros p' Hp' E. rewrite (proj1 (Hf p')) in E. cbn [mbind option_bind] in E. case_decide; [done|]. injection E as E.
    eapply follows_inj; [exact Hp'|exact Hp|apply Hf|]. rewrite E. apply Hf.
Qed.

(** A proxy that stays silent is restarted every time it is looked at: after the first
    look its liveliness comes from the cache, as 0, and the mark -1 that a restart leaves
    in ZooKeeper is never seen. *)
Theorem restarts_repeat resolve nodes nodes' cache cache' child a
    (Hfirst : check_alive resolve nodes cache child true = Some (cache', a)) :
  check_alive resolve nodes' cache' child true = Some (cache', RestartProxy (-1)).
Proof.
  unfold check_alive in *. destruct (get_details resolve nodes cache child) as [[c l]|] eqn:E; [|done].
  cbn [mbind option_bind] in Hfirst. injection Hfirst as -> _.
  assert (is_Some (cache' !! child)) as [e He].
  { unfold get_details in E. destruct (cache !! child) as [e|] eqn:Ec; [injection E as <- _; by exists e|].
    destruct (nodes !! child) as [buf|]; [|done]. cbn [mbind option_bind] in E.
    destruct (parse_details buf) as [[[h p] l']|]; [|done]. cbn [mbind option_bind] in E.
    destruct (resolve h p) as [e|]; [|done]. injection E as <- _. exists e. apply lookup_insert_eq. }
  unfold get_details. by rewrite He.
Qed.

Lemma send_loop_spec fuel send_request a : (a <= 4)%nat -> (5 - a <= fuel)%nat -> (forall i, (i < a)%nat -> send_request i = None) ->
  exists r n, send_loop fuel (Z.of_nat a) send_request a = Some (r, n) /\ (1 <= n <= 5)%nat /\
    (forall i, (i < n - 1)%nat -> send_request i = None) /\ send_request (n - 1)%nat = r /\ (r = None -> n = 5%nat).
Proof.
  revert a. induction fuel as [|fuel IH]; intros a Ha Hf Hbefore; [lia|]. cbn [send_loop].
  destruct (send_request a) as [data|] eqn:E.
  - exists (Some data), (S a). rewrite Nat.sub_succ, Nat.sub_0_r. split; [done|]. split; [lia|]. done.
  - rewrite Z.gtb_ltb. destruct (Z.ltb_spec 3 (Z.of_nat a)).
    + exists None, (S a). rewrite Nat.sub_succ, Nat.sub_0_r. split; [done|]. split; [lia|]. split; [done|]. split; [done|]. lia.
    + replace (Z.of_nat a + 1) with (Z.of_nat (S a)) by lia. apply IH; [lia..|]. intros i Hi.
      destruct (decide (i = a)) as [->|]; [done|]. apply Hbefore. lia.
Qed.

(** [send] always ends: the request is sent again until an attempt succeeds, five
    times at most, and the last attempt is the answer. *)
Theorem send_ends send_request : exists r n, send send_request = Some (r, n) /\ (1 <= n <= 5)%nat /\
  (forall i, (i < n - 1)%nat -> send_request i = None) /\ send_request (n - 1)%nat = r /\ (r = None -> n = 5%nat).
Proof. apply (send_loop_spec 6 send_request 0); [lia..|]. intros i Hi. lia. Qed.

(** ** A ring of two proxies *)

Definition ring_ids : list bytes := [replicate 32 x05; replicate 32 x01].
Definition ring_nodes : gmap bytes bytes :=
  list_to_map ((fun id => (id, lit "h:1:1"%string)) <$> ring_ids).
Definition ring_resolve (host service : bytes) : option endpoint :=
  if bool_decide (colon ∈ service) then None else Some (mk_endpoint (replicate 4 x7f) 12000).
Definition ring_file : packet_header := mk_header (code trigger) 0 (replicate 32 x03) 0 [] [].
Definition ring_cache : gmap bytes endpoint :=
  list_to_map ((fun id => (id, mk_endpoint (replicate 4 x7f) 12000)) <$> ring_ids).

Lemma ring_live id : id ∈ ring_ids -> live_node ring_resolve (fun _ => true) ring_nodes (Datatypes.id id).
Proof.
  intros H. exists (lit "h:1:1"%string), (lit "h"%string), (lit "1"%string), (mk_endpoint (replicate 4 x7f) 12000).
  unfold ring_ids in H. rewrite !elem_of_cons in H. destruct H as [-> |[-> |H]]; [repeat split..|by apply elem_of_nil in H].
Qed.

Lemma ring_distinct : NoDup ring_ids.
Proof. apply (bool_decide_unpack (NoDup ring_ids)). by vm_compute. Qed.

Lemma ring_agreement_witness : exists s',
  client_reconfigure Datatypes.id Datatypes.id ring_resolve (fun _ => true) ring_nodes (Datatypes.id <$> ring_ids) (mk_client ∅ []) = Some s' /\
  select_proxy s' ring_file.(key) = Some (replicate 32 x05).
Proof.
  destruct (ring_agreement Datatypes.id Datatypes.id ring_resolve (fun _ => true) ring_nodes ring_ids (rev ring_ids) (mk_client ∅ []))
    as (s' & s'' & E & _ & H); [done|apply ring_distinct|done|apply ring_live|done|apply Permutation_swap|].
  exists s'. split; [exact E|]. destruct (H ring_file) as (_ & p & _ & -> & Hf & _). f_equal.
  apply (follows_unique ring_ids ring_file.(key)); [exact Hf|].
  apply owner_sort; [done|by vm_compute].
Defined.

Lemma join_moves_to_newcomer_witness :
  owner (sort_ids (replicate 32 x02 :: ring_ids)) ring_file.(key) = owner (sort_ids ring_ids) ring_file.(key) \/
  owner (sort_ids (replicate 32 x02 :: ring_ids)) ring_file.(key) = Some (replicate 32 x02).
Proof. apply (join_moves_to_newcomer ring_ids); done. Defined.

Lemma client_forgets_proxies_witness : exists s' s'',
  client_reconfigure Datatypes.id Datatypes.id ring_resolve (fun _ => true) ring_nodes (Datatypes.id <$> ring_ids) (mk_client ∅ []) = Some s' /\
  client_reconfigure Datatypes.id Datatypes.id ring_resolve (fun _ => true) ring_nodes (Datatypes.id <$> ring_ids) s' = Some s'' /\
  select_proxy s'' ring_file.(key) = None.
Proof.
  destruct (client_forgets_proxies Datatypes.id Datatypes.id ring_resolve (fun _ => true) ring_nodes ring_ids (mk_client ∅ []))
    as (s' & s'' & E & E' & H); [done|apply ring_distinct|done|apply ring_live|done|].
  exists s', s''. split; [exact E|]. split; [exact E'|]. apply H.
Defined.

Lemma ring_announcement :
  reconfigure Datatypes.id ring_resolve ring_nodes (replicate 32 x01) (sort_ids ring_ids) ring_cache [] [(ring_file, 3%nat)]
  = (ring_cache, [(3%nat, start_send_reconfigure_message ring_file (mk_endpoint (replicate 4 x7f) 12000))], true).
Proof.
  cbn [reconfigure]. assert (owner (sort_ids ring_ids) ring_file.(key) = Some (replicate 32 x05)) as -> by (by vm_compute).
  rewrite decide_True by (split; [done|apply not_elem_of_nil]). unfold proxy_get_uuid.
  assert (ring_cache !! Datatypes.id (replicate 32 x05) = Some (mk_endpoint (replicate 4 x7f) 12000)) as -> by apply lookup_insert_eq.
  reflexivity.
Qed.

Lemma reconfigure_announces_once_witness : exists its, NoDup its /\ replicate 32 x05 ∈ its.
Proof.
  destruct (reconfigure_announces_once Datatypes.id ring_resolve ring_nodes (replicate 32 x01) (sort_ids ring_ids) ring_cache
    [(ring_file, 3%nat)] ring_cache [(3%nat, start_send_reconfigure_message ring_file (mk_endpoint (replicate 4 x7f) 12000))])
    as (its & Hnd & _ & Hin & _).
  - assert (map_Forall (fun _ ep => length ep.(ip) = 4%nat) ring_cache) as H; [|exact H].
    unfold ring_cache, ring_ids. cbn [fmap list_fmap list_to_map foldr]. repeat apply map_Forall_insert_2; [done..|apply map_Forall_empty].
  - apply ring_announcement.
  - exists its. split; [exact Hnd|].
    apply (Hin (ring_file, 3%nat)); [by left|by vm_compute|by vm_compute].
Defined.

Lemma newcomers_not_announced_witness :
  reconfigure Datatypes.id ring_resolve ring_nodes (replicate 32 x01) (sort_ids ring_ids) ∅ [] [(ring_file, 3%nat)] = (∅, [], false).
Proof.
  etransitivity; [apply newcomers_not_announced|f_equal; by vm_compute].
  - intros child buf Hbuf. exists (lit "h"%string, lit "1"%string, 1).
    assert (map_Forall (fun _ buf => parse_details buf = Some (lit "h"%string, lit "1"%string, 1)) ring_nodes) as H; [|by eapply H].
    unfold ring_nodes, ring_ids. cbn [fmap list_fmap list_to_map foldr]. repeat apply map_Forall_insert_2; [by vm_compute..|apply map_Forall_empty].
  - intros host service H. unfold ring_resolve. by rewrite bool_decide_true.
Defined.

Lemma every_proxy_watched_witness : exists p, p ∈ ring_ids /\ watched (sort_ids ring_ids) p = Some (replicate 32 x01).
Proof.
  destruct (every_proxy_watched ring_ids (replicate 32 x01)) as (p & Hp & _ & Hw & _);
    [apply ring_distinct|cbn; lia|right; by left|]. by exists p.
Defined.
