(* ===== verification/Server.v ===== *)
(** * The proxy server ([server.hpp], [launcher.hpp] lines 365-394 and 434-464)

    The connections of clients: the packets read from each, the message buckets behind
    [put] and [get], the jobs behind [trigger] and the answers on their way back.  The
    launcher is [Worker.proxy], the writer of a connection [SocketWriter.v1].  Packets
    that are written are shared pointers: the model keeps them in a heap, because a
    packet in the queue of a writer is serialized only when its turn comes. *)
From Stdlib Require Import ZArith Lia.
From stdpp Require Import base tactics option list gmap strings.
From S2P Require Import Prelude Wire SocketWriter Request Launcher Worker.
Import pack.

(** ** Data *)

(** [class bucket]; a listener is the connection its callback writes to. *)
Record bucket := mk_bucket { message_queue_ : list bytes; listener_ : list nat }.

(** A connection: the bytes received and not read yet, whether its read loop goes on,
    its writer, whose packets are places of the heap, and the bytes given to the
    socket, one string per packet. *)
Record connection := mk_connection {
  input : bytes; reading_ : bool; writer_ : writer nat; sent : list bytes
}.

(** The lambdas given to [net::post]: [start_store], [start_load], the events of a
    bucket, on its strand, and a request for direct communication that waits for a worker. *)
Inductive server_task :=
| Store (c : nat) (p : packet)
| Load (c : nat) (p : packet)
| Events (p : packet)
| Direct (c : nat) (p : packet).

(** [clients]: the connection that the [on_completion_] of a job writes to.
    [requests]: the bodies posted to the URL of a bucket. *)
Record server := mk_server {
  launcher_ : proxy;
  clients : gmap nat nat;
  topics_ : gmap full_key bucket;
  heap : list packet;
  connections : gmap nat connection;
  tasks : list server_task;
  requests : list bytes
}.

Definition empty_server : server := mk_server empty_proxy ∅ ∅ [] ∅ [] [].

Definition with_launcher l s := mk_server l s.(clients) s.(topics_) s.(heap) s.(connections) s.(tasks) s.(requests).
Definition with_clients cs s := mk_server s.(launcher_) cs s.(topics_) s.(heap) s.(connections) s.(tasks) s.(requests).
Definition with_bucket k b s :=
  mk_server s.(launcher_) s.(clients) (<[k := b]> s.(topics_)) s.(heap) s.(connections) s.(tasks) s.(requests).
Definition with_heap h s := mk_server s.(launcher_) s.(clients) s.(topics_) h s.(connections) s.(tasks) s.(requests).
Definition with_connection c x s :=
  mk_server s.(launcher_) s.(clients) s.(topics_) s.(heap) (<[c := x]> s.(connections)) s.(tasks) s.(requests).
Definition with_tasks ts s := mk_server s.(launcher_) s.(clients) s.(topics_) s.(heap) s.(connections) ts s.(requests).
Definition with_requests rs s := mk_server s.(launcher_) s.(clients) s.(topics_) s.(heap) s.(connections) s.(tasks) rs.
Definition post_task t s := with_tasks (s.(tasks) ++ [t]) s.

Definition with_input b (r : bool) x := mk_connection b r x.(writer_) x.(sent).
Definition set_input c b r s : server :=
  match s.(connections) !! c with Some x => with_connection c (with_input b r x) s | None => s end.

(** ** Writing *)

(** The bytes of the packet at a place of the heap, now. *)
Definition frame (h : list packet) (ptr : nat) : bytes :=
  match h !! ptr with Some p => (serialize p).2 | None => [] end.

(** The writer of a connection takes a step: what it starts to write is serialized. *)
Definition step_writer (h : list packet) (w : writer nat) (x : connection) : connection :=
  mk_connection x.(input) x.(reading_) w
    (x.(sent) ++ ((fun j => frame h j.(job_pack)) <$> drop (length x.(writer_).(SocketWriter.started)) w.(SocketWriter.started))).

(** [tcp_connection::start_write]. *)
Definition start_write (c ptr : nat) (s : server) : option server :=
  x ← s.(connections) !! c;
  Some (with_connection c (step_writer s.(heap) (v1.start_write_socket (SocketWriter.mk_job ptr None 0) x.(writer_)) x) s).

(** A packet made for its answer. *)
Definition respond (c : nat) (p : packet) (s : server) : option server :=
  start_write c (length s.(heap)) (with_heap (s.(heap) ++ [p]) s).

Definition on_written (c : nat) (ec : bool) (s : server) : option server :=
  x ← s.(connections) !! c;
  w ← v1.on_written 0 ec x.(writer_);
  Some (with_connection c (step_writer s.(heap) w x) s).

(** ** Buckets *)

(** [get_bucket]: the bucket is made when it is not there. *)
Definition get_bucket (k : full_key) (s : server) : bucket := default (mk_bucket [] []) (s.(topics_) !! k).

(** [listener_ (resp)]: every listener writes the packet, in the order they connected. *)
Fixpoint signal (cs : list nat) (ptr : nat) (s : server) : option server :=
  match cs with
  | [] => Some s
  | c :: cs => s ← start_write c ptr s; signal cs ptr s
  end.

(** The loop of the listener branch: each message is popped into the one response. *)
Fixpoint run_listeners (cs : list nat) (ptr : nat) (h : packet_header) (ms : list bytes) (s : server) : option server :=
  match ms with
  | [] => Some s
  | m :: ms => s ← signal cs ptr (with_heap (<[ptr := mk_packet h m]> s.(heap)) s); run_listeners cs ptr h ms s
  end.

(** The lambda of [start_handle_events]. *)
Definition handle_events (p : packet) (s : server) : option server :=
  let k := key_of p.(header) in
  let b := get_bucket k s in
  let h := set_type ack p.(header) in
  let ptr := length s.(heap) in
  if is_trigger h then
    Some (with_requests (s.(requests) ++ replicate (length b.(message_queue_)) p.(data))
      (with_bucket k (mk_bucket [] b.(listener_)) s))
  else if bool_decide (b.(listener_) = []) || bool_decide (b.(message_queue_) = []) then Some s
  else s ← run_listeners b.(listener_) ptr h b.(message_queue_) (with_heap (s.(heap) ++ [mk_packet h []]) s);
       Some (with_bucket k (mk_bucket [] []) s).

(** The lambda of [start_store]. *)
Definition store (c : nat) (p : packet) (s : server) : option server :=
  let k := key_of p.(header) in
  let b := get_bucket k s in
  respond c (mk_packet (set_type ack p.(header)) [])
    (post_task (Events p) (with_bucket k (mk_bucket (b.(message_queue_) ++ [p.(data)]) b.(listener_)) s)).

(** The lambda of [start_load]. *)
Definition load (c : nat) (p : packet) (s : server) : server :=
  let k := key_of p.(header) in
  let b := get_bucket k s in
  post_task (Events p) (with_bucket k (mk_bucket b.(message_queue_) (b.(listener_) ++ [c])) s).

Section server.
Context `{AvailablePolicy}.
Variable enable_direct_datafunction_ : bool.

(** ** Requests *)

(** The rest of [start_trigger_post] for direct communication: the client is told the
    address of the worker; a worker outside the set has the default endpoint. *)
Definition answer_direct (c : nat) (p : packet) (w : nat) (s : server) : option server :=
  let ep := match s.(launcher_).(workers) !! w with
            | Some x => if decide (w ∈ s.(launcher_).(worker_set_)) then x.(endpoint) else replicate 6 x00
            | None => replicate 6 x00
            end in
  respond c (mk_packet p.(header) ep) s.

(** [process_job_with_worker]. *)
Definition process_job_with_worker (c : nat) (p : packet) (s : server) : option server :=
  let l := s.(launcher_) in
  let h := p.(header) in
  let assigned := match get_assigned_worker l h with
                  | Some w => if is_valid l w then Some w else None
                  | None => None
                  end in
  match assigned with
  | Some w => answer_direct c p w s
  | None =>
      match get_available_worker l with
      | Some w =>
          if is_valid l w
          then answer_direct c p w (with_launcher (with_files (emplace h.(key) w l.(fileid_to_worker_)) l) s)
          else Some (post_task (Direct c p) s)
      | None => Some (post_task (Direct c p) s)
      end
  end.

(** [launcher::start_trigger_post]. *)
Definition start_trigger_post (freed : bytes) (c : nat) (p : packet) (s : server) : option server :=
  if enable_direct_datafunction_ && is_direct_communication_enabled p.(header) then process_job_with_worker c p s
  else l ← on_trigger freed p s.(launcher_);
       Some (with_clients (<[fresh (dom s.(launcher_).(jobs)) := c]> s.(clients)) (with_launcher l s)).

(** [start_read_header]: the types whose body is read, and what is done with a packet
    of each type.  A byte that is no enumerator matches no case: nothing is read any
    more.  A new worker takes the socket with it. *)
Definition reads_body (h : packet_header) : bool :=
  match of_code h.(type) with Some (put | trigger | worker_reg) => true | _ => false end.

Definition handle (freed : bytes) (c : nat) (p : packet) (s : server) : option server :=
  match of_code p.(header).(type) with
  | Some put => Some (post_task (Store c p) s)
  | Some get => Some (post_task (Load c p) s)
  | Some ack => respond c (mk_packet (set_type ack p.(header)) []) s
  | Some trigger => start_trigger_post freed c p s
  | Some worker_reg => l ← add_worker p s.(launcher_); Some (set_input c [] false (with_launcher l s))
  | Some _ => respond c (mk_packet (set_type err p.(header)) []) s
  | None => Some (set_input c [] false s)
  end.

(** One round of the read loop, when the packet is there ([None]: it waits).  Between
    the header and the body nothing of the connection changes. *)
Definition read_packet (freed : bytes) (c : nat) (s : server) : option server :=
  x ← s.(connections) !! c;
  if x.(reading_) then
    '(hb, rest) ← read_n bytesize x.(input);
    h ← parse hb;
    if reads_body h then
      '(body, rest) ← read_n (Z.to_nat h.(datasize)) rest;
      handle freed c (mk_packet h body) (set_input c rest true s)
    else handle freed c (mk_packet h []) (set_input c rest true s)
  else None.

(** The answers of the launcher go to the connections of their jobs. *)
Fixpoint deliver (os : list output) (s : server) : option server :=
  match os with
  | [] => Some s
  | ToClient j p :: os =>
      s ← match s.(clients) !! j with Some c => respond c p s | None => Some s end; deliver os s
  | ToWorker _ _ :: os => deliver os s
  end.

Definition launcher_step (e : Worker.event) (s : server) : option server :=
  l ← Worker.exec e s.(launcher_);
  deliver (drop (length s.(launcher_).(outputs)) l.(outputs)) (with_launcher l s).

(** ** Runs *)

Definition run_task (t : server_task) (s : server) : option server :=
  match t with
  | Store c p => store c p s
  | Load c p => Some (load c p s)
  | Events p => handle_events p s
  | Direct c p => process_job_with_worker c p s
  end.

(** The strand of a bucket runs its events in the order they were posted. *)
Definition runnable (i : nat) (t : server_task) (s : server) : bool :=
  match t with
  | Events p => forallb (fun t' => match t' with Events p' => negb (bool_decide (key_of p'.(header) = key_of p.(header))) | _ => true end)
                  (take i s.(tasks))
  | _ => true
  end.

Inductive event :=
| Accept
| Receive (c : nat) (b : bytes)
| Read (freed : bytes) (c : nat)
| ReadFails (c : nat)
| Run (i : nat)
| Wrote (c : nat) (ec : bool)
| FromLauncher (e : Worker.event).       (* what workers, timers and tasks of the launcher do *)

Definition exec (e : event) (s : server) : option server :=
  match e with
  | Accept => Some (with_connection (fresh (dom s.(connections))) (mk_connection [] true empty_writer []) s)
  | Receive c b => x ← s.(connections) !! c; Some (set_input c (x.(input) ++ b) x.(reading_) s)
  | Read freed c => read_packet freed c s
  | ReadFails c => x ← s.(connections) !! c; Some (set_input c x.(input) false s)
  | Run i => t ← s.(tasks) !! i; if runnable i t s then run_task t (with_tasks (delete i s.(tasks)) s) else None
  | Wrote c ec => on_written c ec s
  | FromLauncher (Trigger _ _ | NewWorker _) => None
  | FromLauncher e => launcher_step e s
  end.

Fixpoint execs (es : list event) (s : server) : option server :=
  match es with
  | [] => Some s
  | e :: es => s ← exec e s; execs es s
  end.

End server.

(** ** Who asked *)



(** ** What a connection has been given to write *)

Definition given (w : writer nat) : list nat := job_pack <$> (w.(SocketWriter.started) ++ w.(write_queue_)).

Definition ptrs (c : nat) (s : server) : list nat :=
  match s.(connections) !! c with Some x => given x.(writer_) | None => [] end.



Lemma given_one w : given (v1.start_write_one_packet w) = given w.
Proof.
  unfold v1.start_write_one_packet, given. destruct (pop_and_write w) as [w'|] eqn:E; [|done].
  by apply pop_and_write_fifo in E as [-> _].
Qed.

Lemma given_start j w : given (v1.start_write_socket j w) = given w ++ [j.(job_pack)].
Proof.
  assert (given (push j w) = given w ++ [j.(job_pack)]) as E by (unfold given; cbn; by rewrite (assoc_L (++)), fmap_app).
  unfold v1.start_write_socket. destruct (is_writing_ _); [done|]. by rewrite given_one.
Qed.


(** What does not change while packets are written: the launcher, the first [n] places
    of the heap, and what connections were given before. *)
Record extends (n : nat) (s s' : server) : Prop := {
  ex_launcher : s'.(launcher_) = s.(launcher_);
  ex_clients : s'.(clients) = s.(clients);
  ex_length : (length s.(heap) <= length s'.(heap))%nat;
  ex_heap : forall ptr, (ptr < n)%nat -> s'.(heap) !! ptr = s.(heap) !! ptr;
  ex_ptrs : forall c, exists new, ptrs c s' = ptrs c s ++ new /\ Forall (fun ptr => (ptr < length s'.(heap))%nat) new
}.


Lemma extends_trans n s1 s2 s3 : extends n s1 s2 -> extends n s2 s3 -> extends n s1 s3.
Proof.
  intros [A1 A2 A3 A4 A5] [B1 B2 B3 B4 B5]. split; [congruence|congruence|lia|by intros; rewrite B4, A4|].
  intros c. destruct (A5 c) as (n1 & E1 & H1), (B5 c) as (n2 & E2 & H2). exists (n1 ++ n2).
  split; [by rewrite E2, E1, (assoc_L (++))|]. apply Forall_app. split; [|done].
  eapply Forall_impl; [exact H1|]. cbn. lia.
Qed.


Lemma ptrs_with c x c' s : ptrs c' (with_connection c x s) = if decide (c' = c) then given x.(writer_) else ptrs c' s.
Proof.
  unfold ptrs. cbn [with_connection connections]. case_decide as E; [subst; by rewrite lookup_insert_eq|].
  by rewrite lookup_insert_ne by auto.
Qed.

Lemma ptrs_set_input c b r c' s : ptrs c' (set_input c b r s) = ptrs c' s.
Proof.
  unfold set_input. destruct (s.(connections) !! c) as [x|] eqn:E; [|done]. rewrite ptrs_with. case_decide; [|done]. subst.
  unfold ptrs. by rewrite E.
Qed.

Lemma start_write_spec c ptr s s' : start_write c ptr s = Some s' ->
  s'.(launcher_) = s.(launcher_) /\ s'.(clients) = s.(clients) /\ s'.(heap) = s.(heap) /\
  forall c', ptrs c' s' = ptrs c' s ++ (if decide (c' = c) then [ptr] else []).
Proof.
  unfold start_write. destruct (s.(connections) !! c) as [x|] eqn:E; [|done]. intros [= <-].
  split; [done|]. split; [done|]. split; [done|]. intros c'. rewrite ptrs_with. case_decide; [|by rewrite app_nil_r]. subst.
  unfold step_writer. cbn [writer_]. rewrite given_start. unfold ptrs. by rewrite E.
Qed.

Lemma start_write_extends n c ptr s s' : start_write c ptr s = Some s' -> (ptr < length s.(heap))%nat -> extends n s s'.
Proof.
  intros (E1 & E2 & E3 & E4)%start_write_spec Hp. split; [done|done|by rewrite E3|by rewrite E3|].
  intros c'. eexists. split; [apply E4|]. rewrite E3. case_decide; [by apply Forall_singleton|done].
Qed.

(** An answer made for a connection is written there. *)
Lemma respond_extends c p s s' : respond c p s = Some s' ->
  extends (length s.(heap)) s s' /\
  forall c', exists new, ptrs c' s' = ptrs c' s ++ new /\ omap (fun ptr => s'.(heap) !! ptr) new = if decide (c' = c) then [p] else [].
Proof.
  intros E. assert (extends (length s.(heap)) s (with_heap (s.(heap) ++ [p]) s)) as Hx.
  { split; [done|done|cbn; rewrite length_app; lia|intros; cbn; by apply lookup_app_l|]. intros c'. exists []. by rewrite app_nil_r. }
  split.
  - eapply extends_trans; [exact Hx|]. eapply start_write_extends; [exact E|]. cbn. rewrite length_app. cbn. lia.
  - intros c'. apply start_write_spec in E as (_ & _ & E3 & E4). eexists. split; [apply E4|]. rewrite E3. case_decide; [|done].
    cbn [with_heap heap omap list_omap]. rewrite lookup_app_r, Nat.sub_diag by lia. done.
Qed.





Section answers.
Context `{AvailablePolicy} (enable_direct_datafunction_ : bool).














Lemma launcher_set_input c b r s : (set_input c b r s).(launcher_) = s.(launcher_).
Proof. unfold set_input. by destruct (_ !! _). Qed.



























End answers.

(** ** Reading requests *)

(** A packet the framing keeps whole: its sizes fit, and its body is read or empty. *)
Definition framed (p : packet) : Prop :=
  wf_header p.(header) /\ Z.of_nat (length p.(data)) < 2 ^ 32 /\ (reads_body p.(header) = true \/ p.(data) = []).

Section reading.
Context `{AvailablePolicy} (enable_direct_datafunction_ : bool).

Lemma connection_set_input c b r x s : s.(connections) !! c = Some x ->
  (set_input c b r s).(connections) !! c = Some (with_input b r x).
Proof. intros E. unfold set_input. rewrite E. cbn. apply lookup_insert_eq. Qed.

(** A packet at the front of the input is read and handled. *)
Lemma read_packet_header freed c x h rest s : s.(connections) !! c = Some x -> x.(reading_) = true ->
  wf_header h -> x.(input) = dump h ++ rest -> reads_body h = false ->
  read_packet enable_direct_datafunction_ freed c s
  = handle enable_direct_datafunction_ freed c (mk_packet h []) (set_input c rest true s).
Proof.
  intros Hc Hr Hw Hi Hb. unfold read_packet. rewrite Hc. cbn [mbind option_bind]. rewrite Hr, Hi.
  rewrite read_n_app by (by apply pack_facts.length_dump). cbn [mbind option_bind].
  rewrite <- (app_nil_r (dump h)), pack_facts.parse_dump_app by done. cbn [mbind option_bind]. by rewrite Hb.
Qed.

Lemma read_packet_frame freed c x p rest s : s.(connections) !! c = Some x -> x.(reading_) = true ->
  framed p -> x.(input) = (serialize p).2 ++ rest ->
  read_packet enable_direct_datafunction_ freed c s
  = handle enable_direct_datafunction_ freed c (serialize p).1 (set_input c rest true s).
Proof.
  intros Hc Hr (Hw & Hl & Hb) Hi. unfold serialize in *. cbn [fst snd] in *.
  set (h := set_datasize _ p.(header)) in *.
  assert (wf_header h) as Hw'.
  { destruct Hw; split; cbn; try done. rewrite (wrap_small 4) by (change (modulus 4) with (2 ^ 32); lia). lia. }
  rewrite <- (assoc_L (++)) in Hi. destruct (reads_body h) eqn:Eb.
  - unfold read_packet. rewrite Hc. cbn [mbind option_bind]. rewrite Hr, Hi.
    rewrite read_n_app by (by apply pack_facts.length_dump). cbn [mbind option_bind].
    rewrite <- (app_nil_r (dump h)), pack_facts.parse_dump_app by done. cbn [mbind option_bind]. rewrite Eb.
    rewrite read_n_app; [done|]. subst h. cbn [set_datasize datasize].
    rewrite (wrap_small 4) by (change (modulus 4) with (2 ^ 32); lia). lia.
  - destruct Hb as [Hb|Hb]; [change (reads_body h = true) in Hb; congruence|]. rewrite Hb in *. by eapply read_packet_header.
Qed.

(** What a packet leaves behind: work for later, and what is answered at once. *)
Definition task_of (c : nat) (p : packet) : option server_task :=
  match of_code p.(header).(type) with Some put => Some (Store c p) | Some get => Some (Load c p) | _ => None end.

Definition refusal (p : packet) : option packet :=
  match of_code p.(header).(type) with
  | Some (put | get | trigger | worker_reg) | None => None
  | Some ack => Some (mk_packet (set_type ack p.(header)) [])
  | Some _ => Some (mk_packet (set_type err p.(header)) [])
  end.

Definition requests_job (p : packet) : bool := bool_decide (of_code p.(header).(type) = Some trigger).

(** From [s] to [s'] connection [c] got tasks and answers. *)
Record serves (c : nat) (s s' : server) (ts : list server_task) (ans : list packet) : Prop := {
  sv_tasks : s'.(tasks) = s.(tasks) ++ ts;
  sv_length : (length s.(heap) <= length s'.(heap))%nat;
  sv_heap : forall ptr, (ptr < length s.(heap))%nat -> s'.(heap) !! ptr = s.(heap) !! ptr;
  sv_answers : exists new, ptrs c s' = ptrs c s ++ new /\ Forall (fun ptr => (ptr < length s'.(heap))%nat) new /\
    omap (fun ptr => s'.(heap) !! ptr) new = ans
}.

Lemma serves_same c s s' ts : s'.(tasks) = s.(tasks) ++ ts -> s'.(heap) = s.(heap) -> ptrs c s' = ptrs c s -> serves c s s' ts [].
Proof. intros E1 E2 E3. split; [done|by rewrite E2|by rewrite E2|]. exists []. by rewrite app_nil_r. Qed.

Lemma serves_trans c s1 s2 s3 ts1 ts2 a1 a2 : serves c s1 s2 ts1 a1 -> serves c s2 s3 ts2 a2 ->
  serves c s1 s3 (ts1 ++ ts2) (a1 ++ a2).
Proof.
  intros [A1 A2 A3 (n1 & P1 & F1 & <-)] [B1 B2 B3 (n2 & P2 & F2 & <-)].
  split; [by rewrite B1, A1, (assoc_L (++))|lia|intros; rewrite B3, A3; [done|lia|lia]|]. exists (n1 ++ n2).
  split; [by rewrite P2, P1, (assoc_L (++))|]. split.
  - apply Forall_app. split; [|done]. eapply Forall_impl; [exact F1|]. cbn. lia.
  - rewrite omap_app. f_equal. clear -F1 B3. induction F1 as [|ptr l Hp F IH]; [done|]. cbn. by rewrite B3, IH.
Qed.

Lemma serves_respond c p x s : s.(connections) !! c = Some x ->
  exists s' x', respond c p s = Some s' /\ s'.(launcher_) = s.(launcher_) /\ s'.(connections) !! c = Some x' /\
    x'.(input) = x.(input) /\ x'.(reading_) = x.(reading_) /\ serves c s s' [] [p].
Proof.
  intros Hc. destruct (respond c p s) as [s'|] eqn:E; [|unfold respond, start_write in E; cbn in E; by rewrite Hc in E].
  pose proof (respond_extends _ _ _ _ E) as [Hx Hn]. pose proof E as E'. unfold respond, start_write in E'.
  cbn [with_heap connections] in E'. rewrite Hc in E'. cbn [mbind option_bind] in E'. injection E' as <-.
  eexists _, _. split; [done|]. split; [done|]. split; [apply lookup_insert_eq|]. split; [done|]. split; [done|].
  split; [by rewrite app_nil_r|apply Hx|apply Hx|]. destruct (Hn c) as (new & P & O). rewrite decide_True in O by done.
  destruct (ex_ptrs _ _ _ Hx c) as (new' & P' & F). rewrite P in P'. apply app_inv_head in P' as <-. by exists new.
Qed.

Lemma handle_serves freed c x p m s l : s.(connections) !! c = Some x ->
  of_code p.(header).(type) = Some m -> m <> worker_reg ->
  enable_direct_datafunction_ && is_direct_communication_enabled p.(header) = false ->
  Worker.execs (if requests_job p then [Trigger freed p] else []) s.(launcher_) = Some l ->
  exists s' x', handle enable_direct_datafunction_ freed c p s = Some s' /\ s'.(launcher_) = l /\
    s'.(connections) !! c = Some x' /\ x'.(input) = x.(input) /\ x'.(reading_) = x.(reading_) /\
    serves c s s' (option_list (task_of c p)) (option_list (refusal p)).
Proof.
  intros Hc Em Hm Hd. unfold requests_job, handle, task_of, refusal. rewrite Em.
  destruct m; try done; try (intros [= <-]; by apply serves_respond);
    try (intros [= <-]; eexists _, x; split; [done|]; split; [done|]; split; [done|]; split; [done|]; split; [done|]; by apply serves_same).
  rewrite bool_decide_true by done. cbn [Worker.execs Worker.exec mbind option_bind]. unfold start_trigger_post. rewrite Hd.
  destruct (on_trigger freed p _) as [l'|]; [|done]. intros [= ->].
  eexists _, x. split; [done|]. split; [done|]. split; [done|]. split; [done|]. split; [done|].
  apply serves_same; [by rewrite app_nil_r|done|done].
Qed.

Lemma worker_execs_app es es' l : Worker.execs (es ++ es') l = Worker.execs es l ≫= Worker.execs es'.
Proof. revert l. induction es as [|e es IH]; intros l; [done|]. cbn. destruct (Worker.exec e l); [apply IH|done]. Qed.

End reading.

(** ** Messages for one listener *)

Section messages.
Context `{AvailablePolicy} (enable_direct_datafunction_ : bool).

Definition the_job (ptr : nat) : write_job nat := SocketWriter.mk_job ptr None 0.

Lemma last_shift {A} (l : list A) a b : List.last (a :: l) b = List.last l a.
Proof. revert a b. induction l as [|c l IH]; intros a b; [done|]. change (List.last (c :: l) b = List.last (c :: l) a). by rewrite !IH. Qed.

(** Messages for a connection that is busy wait in its queue, all as the one response. *)
Lemma run_listeners_busy c ptr h ms s x m0 : s.(connections) !! c = Some x -> x.(writer_).(is_writing_) = true ->
  s.(heap) !! ptr = Some (mk_packet h m0) ->
  exists s' w, run_listeners [c] ptr h ms s = Some s' /\
    s'.(connections) !! c = Some (mk_connection x.(input) x.(reading_) w x.(sent)) /\
    w = SocketWriter.mk_writer (x.(writer_).(write_queue_) ++ replicate (length ms) (the_job ptr)) true
          x.(writer_).(SocketWriter.in_flight) x.(writer_).(SocketWriter.started) x.(writer_).(called) /\
    s'.(heap) !! ptr = Some (mk_packet h (List.last ms m0)).
Proof.
  revert s x m0. induction ms as [|m ms IH]; intros s x m0 Hc Hw Hp; cbn [run_listeners].
  - exists s, x.(writer_). split; [done|]. split; [rewrite Hc; by destruct x|]. split; [|done]. cbn. rewrite app_nil_r.
    destruct (x.(writer_)). cbn in *. by subst.
  - unfold signal, start_write. cbn [with_heap connections]. rewrite Hc. cbn [mbind option_bind].
    unfold v1.start_write_socket. cbn [push is_writing_]. rewrite Hw. cbn [mbind option_bind].
    set (x1 := step_writer _ _ x). edestruct (IH (with_connection c x1 (with_heap (<[ptr := mk_packet h m]> s.(heap)) s)) x1 m)
      as (s' & w & E & Hc' & Hw' & Hp').
    + apply lookup_insert_eq.
    + exact Hw.
    + cbn. apply list_lookup_insert_eq. by eapply lookup_lt_Some.
    + exists s', w. split; [exact E|]. split; [rewrite Hc'; unfold x1, step_writer; cbn; by rewrite drop_all, app_nil_r|].
      split; [|by rewrite Hp', last_shift]. rewrite Hw'. cbn. by rewrite <- (assoc_L (++)).
Qed.

(** The queue of a busy connection is written, one packet after the other. *)
Lemma queue_written c ptr n s x j0 st ca p : s.(connections) !! c = Some x ->
  x.(writer_) = SocketWriter.mk_writer (replicate n (the_job ptr)) true [j0] st ca -> s.(heap) !! ptr = Some p ->
  exists s' x', execs enable_direct_datafunction_ (replicate n (Wrote c false)) s = Some s' /\ s'.(connections) !! c = Some x' /\
    x'.(sent) = x.(sent) ++ replicate n (serialize p).2.
Proof.
  revert s x j0 st ca. induction n as [|n IH]; intros s x j0 st ca Hc Hw Hp; cbn [replicate execs exec].
  - exists s, x. split; [done|]. split; [done|]. by rewrite app_nil_r.
  - unfold on_written. rewrite Hc. cbn [mbind option_bind]. rewrite Hw. unfold v1.on_written, complete. cbn.
    edestruct (IH (with_connection c (mk_connection x.(input) x.(reading_)
      (SocketWriter.mk_writer (replicate n (the_job ptr)) true [the_job ptr] (st ++ [the_job ptr]) (ca ++ [(j0, false)]))
      (x.(sent) ++ [(serialize p).2])) s)) as (s' & x' & E & Hc' & Hs'); [apply lookup_insert_eq|reflexivity|exact Hp|].
    exists s', x'. split; [|split; [exact Hc'|rewrite Hs'; cbn; by rewrite <- (assoc_L (++))]].
    rewrite <- E. unfold step_writer. rewrite Hw. cbn. rewrite drop_app_length. cbn. unfold frame. by rewrite Hp.
Qed.

End messages.

(** ** Properties *)

Section properties.
Context `{AvailablePolicy} (enable_direct_datafunction_ : bool).
Local Abbreviation image p := (serialize p).1.

(** The read loop keeps the packets apart: of a stream of packets whose body is read
    or empty, each is handled once, in order - the requests are admitted by the launcher
    one after the other, the messages and listeners wait in the order they came, the
    refused packets are answered at once - and the rest of the stream is left. *)
Theorem server_framing freed c x ps rest s l
    (Hc : s.(connections) !! c = Some x) (Hr : x.(reading_) = true)
    (Hi : x.(input) = concat ((fun p => (serialize p).2) <$> ps) ++ rest) (Hf : Forall framed ps)
    (Hm : Forall (fun p => exists m, of_code p.(header).(type) = Some m /\ m <> worker_reg /\
            enable_direct_datafunction_ && is_direct_communication_enabled p.(header) = false) ps)
    (Hl : Worker.execs ((fun p => Trigger freed (image p)) <$> filter (fun p => requests_job p = true) ps) s.(launcher_) = Some l) :
  exists s' x', execs enable_direct_datafunction_ (replicate (length ps) (Read freed c)) s = Some s' /\ s'.(launcher_) = l /\
    s'.(connections) !! c = Some x' /\ x'.(input) = rest /\ x'.(reading_) = true /\
    serves c s s' (omap (fun p => task_of c (image p)) ps) (omap (fun p => refusal (image p)) ps).
Proof.
  revert x s Hc Hr Hi Hl. induction ps as [|p ps IH]; intros x s Hc Hr Hi Hl.
  - cbn in *. injection Hl as <-. exists s, x. split; [done|]. split; [done|]. split; [done|]. split; [done|]. split; [done|].
    apply serves_same; [by rewrite app_nil_r|done|done].
  - apply Forall_cons in Hf as [Hp Hf]. apply Forall_cons in Hm as [(m & Em & Hne & Hd) Hm].
    cbn [length replicate execs exec fmap list_fmap concat] in *. rewrite <- (assoc_L (++)) in Hi.
    erewrite read_packet_frame by done. set (rest1 := concat _ ++ rest) in *.
    assert (exists l1, Worker.execs (if requests_job (image p) then [Trigger freed (image p)] else []) (set_input c rest1 true s).(launcher_) = Some l1 /\
      Worker.execs ((fun p => Trigger freed (image p)) <$> filter (fun p => requests_job p = true) ps) l1 = Some l) as (l1 & E1 & E2).
    { rewrite launcher_set_input. change (requests_job (image p)) with (requests_job p).
      rewrite filter_cons in Hl. destruct (requests_job p); cbn [decide fmap list_fmap] in Hl; [|by exists s.(launcher_)].
      cbn [decide] in Hl. destruct (decide (true = true)); [|done]. cbn [fmap list_fmap Worker.execs] in Hl.
      cbn [Worker.execs]. destruct (Worker.exec (Trigger freed (image p)) _) as [l1|]; [|done]. by exists l1. }
    destruct (handle_serves enable_direct_datafunction_ freed c (with_input rest1 true x) (image p) m (set_input c rest1 true s) l1)
      as (s1 & x1 & -> & El & Hc1 & Hi1 & Hr1 & Hs1); [by apply connection_set_input|done|done|done|done|].
    destruct (IH Hf Hm x1 s1) as (s' & x' & E' & Hl' & Hc' & Hi' & Hr' & Hs'); [done|by rewrite Hr1|by rewrite Hi1|by rewrite El|].
    exists s', x'. cbn [mbind option_bind]. split; [exact E'|]. split; [done|]. split; [done|]. split; [done|]. split; [done|].
    assert (serves c s (set_input c rest1 true s) [] []) as Hs0.
    { apply serves_same; [|by unfold set_input; destruct (_ !! _)|apply ptrs_set_input].
      rewrite app_nil_r. unfold set_input. by destruct (_ !! _). }
    pose proof (serves_trans _ _ _ _ _ _ _ _ Hs0 (serves_trans _ _ _ _ _ _ _ _ Hs1 Hs')) as Hs.
    cbn [omap list_omap app] in *. destruct (task_of c _), (refusal _); exact Hs.
Qed.

(** The body of a refused packet is read as the next packets: a packet of a type the
    proxy refuses carries a request past it, which is admitted and answered like one of
    the client's own. *)
Theorem refused_body_is_read freed c x p q rest s m l
    (Hc : s.(connections) !! c = Some x) (Hr : x.(reading_) = true)
    (Hp : wf_header p.(header)) (Hlen : Z.of_nat (length p.(data)) < 2 ^ 32)
    (Em : of_code p.(header).(type) = Some m) (Hm : m ∉ [put; get; trigger; worker_reg])
    (Hq : framed q) (Et : of_code q.(header).(type) = Some trigger)
    (Hd : enable_direct_datafunction_ && is_direct_communication_enabled q.(header) = false)
    (Hbody : p.(data) = (serialize q).2) (Hi : x.(input) = (serialize p).2 ++ rest)
    (Hl : on_trigger freed (image q) s.(launcher_) = Some l) :
  exists s' x', execs enable_direct_datafunction_ [Read freed c; Read freed c] s = Some s' /\ s'.(launcher_) = l /\
    s'.(clients) !! fresh (dom s.(launcher_).(jobs)) = Some c /\ s'.(connections) !! c = Some x' /\ x'.(input) = rest.
Proof.
  assert (reads_body (image p).(header) = false) as Hb.
  { unfold reads_body. change (of_code _) with (of_code p.(header).(type)). rewrite Em.
    destruct m; try done; exfalso; apply Hm; rewrite !elem_of_cons; auto. }
  assert (wf_header (image p).(header)) as Hwf.
  { destruct Hp; split; cbn; try done. rewrite (wrap_small 4) by (change (modulus 4) with (2 ^ 32); lia). lia. }
  cbn [execs exec]. rewrite (read_packet_header enable_direct_datafunction_ freed c x (image p).(header) (p.(data) ++ rest) s) by
    (try done; rewrite Hi; unfold serialize; cbn [fst snd header data]; by rewrite <- (assoc_L (++))).
  set (s0 := set_input c (p.(data) ++ rest) true s).
  assert (exists q', handle enable_direct_datafunction_ freed c (mk_packet (image p).(header) []) s0 = respond c q' s0) as [q' ->].
  { unfold handle. change (of_code _) with (of_code p.(header).(type)). rewrite Em. destruct m; try (by eexists); exfalso; apply Hm; rewrite !elem_of_cons; auto. }
  assert (s0.(connections) !! c = Some (with_input (p.(data) ++ rest) true x)) as Hc0 by by apply connection_set_input.
  destruct (serves_respond c q' _ s0 Hc0) as (s1 & x1 & E1 & El1 & Hc1 & Hi1 & Hr1 & _). rewrite E1. cbn [mbind option_bind].
  erewrite read_packet_frame; [|exact Hc1|by rewrite Hr1|exact Hq|by rewrite Hi1; cbn; rewrite Hbody].
  unfold handle. change (of_code _) with (of_code q.(header).(type)). rewrite Et. unfold start_trigger_post.
  change (is_direct_communication_enabled _) with (is_direct_communication_enabled q.(header)). rewrite Hd, launcher_set_input, El1.
  unfold s0. rewrite launcher_set_input, Hl. cbn [mbind option_bind]. eexists _, _. split; [done|]. split; [done|].
  split; [cbn; apply lookup_insert_eq|]. split; [by apply (connection_set_input c rest true x1 s1)|done].
Qed.


(** A request for direct communication bypasses the tables: whatever is open or
    locked, the client is told the address of a valid worker, and no job is made. *)
Theorem direct_bypasses_tables freed c x p s w
    (Hc : s.(connections) !! c = Some x) (He : enable_direct_datafunction_ = true)
    (Hd : is_direct_communication_enabled p.(header) = true)
    (Hset : forall w, is_valid s.(launcher_) w = true -> w ∈ s.(launcher_).(worker_set_))
    (Hw : is_valid s.(launcher_) w = true) :
  exists s' w' y, start_trigger_post enable_direct_datafunction_ freed c p s = Some s' /\
    s.(launcher_).(workers) !! w' = Some y /\ y.(valid_) = true /\
    s'.(launcher_).(tables) = s.(launcher_).(tables) /\ s'.(launcher_).(jobs) = s.(launcher_).(jobs) /\
    serves c s s' [] [mk_packet p.(header) y.(endpoint)].
Proof.
  assert (forall w l, is_valid s.(launcher_) w = true -> l.(workers) = s.(launcher_).(workers) -> l.(worker_set_) = s.(launcher_).(worker_set_) ->
    l.(tables) = s.(launcher_).(tables) -> l.(jobs) = s.(launcher_).(jobs) ->
    exists s' w' y, answer_direct c p w (with_launcher l s) = Some s' /\ s.(launcher_).(workers) !! w' = Some y /\ y.(valid_) = true /\
      s'.(launcher_).(tables) = s.(launcher_).(tables) /\ s'.(launcher_).(jobs) = s.(launcher_).(jobs) /\
      serves c s s' [] [mk_packet p.(header) y.(endpoint)]) as Ha.
  { clear w Hw. intros w l Hw E1 E2 E3 E4. pose proof (Hset w Hw) as Hin. unfold is_valid in Hw.
    destruct (s.(launcher_).(workers) !! w) as [y|] eqn:Ey; [|done]. unfold answer_direct. cbn [with_launcher launcher_].
    rewrite E1, Ey, E2, decide_True by done.
    destruct (serves_respond c (mk_packet p.(header) y.(endpoint)) x (with_launcher l s) Hc) as (s' & x' & E & El & _ & _ & _ & Hs).
    exists s', w, y. split; [exact E|]. rewrite El. split; [done|]. split; [done|]. split; [done|]. split; [done|].
    apply (serves_trans c s (with_launcher l s) s' [] [] [] [mk_packet p.(header) y.(endpoint)]); [by apply serves_same; rewrite ?app_nil_r|done]. }
  unfold start_trigger_post. rewrite He, Hd. cbn [andb]. unfold process_job_with_worker.
  destruct (get_assigned_worker _ _) as [w0|]; [destruct (is_valid _ w0) eqn:Ew; [by apply (Ha w0 s.(launcher_))|]|].
  all: destruct (get_available_worker s.(launcher_)) as [w1|] eqn:Eg; [|by destruct (available_some _ w (Hset w Hw) Hw)].
  all: destruct (available_valid _ _ Eg) as [_ Ev]; rewrite Ev; by apply Ha.
Qed.

(** A client that asks for the messages of a bucket gets the first one and then, in
    the place of each of the others, a copy of the last one: the messages are popped
    into one packet, which the queue of the socket serializes when its turn comes. *)
Theorem load_repeats_last c x p m ms s
    (Hc : s.(connections) !! c = Some x) (Hw : x.(writer_).(is_writing_) = false)
    (Hq : x.(writer_).(write_queue_) = []) (Hf : x.(writer_).(SocketWriter.in_flight) = [])
    (Hb : get_bucket (key_of p.(header)) s = mk_bucket (m :: ms) []) (Ht : is_trigger p.(header) = false) :
  let answer d := (serialize (mk_packet (set_type ack p.(header)) d)).2 in
  exists s1 s2 x', handle_events p (load c p s) = Some s1 /\
    execs enable_direct_datafunction_ (replicate (length ms) (Wrote c false)) s1 = Some s2 /\
    s2.(connections) !! c = Some x' /\
    x'.(sent) = x.(sent) ++ answer m :: replicate (length ms) (answer (List.last ms m)).
Proof.
  intros answer. unfold handle_events, load. change (is_trigger (set_type ack p.(header))) with (is_trigger p.(header)). rewrite Ht.
  unfold get_bucket in *. cbn [post_task with_tasks with_bucket topics_]. rewrite lookup_insert_eq, Hb. cbn [default id message_queue_ listener_ app].
  rewrite !bool_decide_false by done. cbn [orb]. set (ptr := length _). set (h := set_type ack p.(header)) in *.
  cbn [run_listeners signal]. unfold start_write. match goal with |- context[connections ?t !! c ≫= _] => change (connections t !! c) with (s.(connections) !! c) end. rewrite Hc. cbn [mbind option_bind].
  set (x1 := step_writer _ _ x). set (s0 := with_connection c x1 _).
  assert (s0.(heap) !! ptr = Some (mk_packet h m)) as Hp.
  { unfold s0. cbn. apply list_lookup_insert_eq. rewrite length_app. unfold ptr. cbn. lia. }
  assert (x1 = mk_connection x.(input) x.(reading_)
    (SocketWriter.mk_writer [] true [the_job ptr] (x.(writer_).(SocketWriter.started) ++ [the_job ptr]) x.(writer_).(called)) (x.(sent) ++ [answer m])) as Ex.
  { unfold x1, step_writer, v1.start_write_socket. destruct (x.(writer_)) as [q f fl st ca]. cbn in Hw, Hq, Hf. subst q f fl. cbn.
    rewrite drop_app_length. cbn. unfold frame. cbn in Hp. by rewrite Hp. }
  destruct (run_listeners_busy c ptr h ms s0 x1 m) as (s1 & w & -> & Hc1 & Hw1 & Hp1); [apply lookup_insert_eq|by rewrite Ex|exact Hp|].
  cbn [mbind option_bind]. eexists _.
  destruct (queue_written enable_direct_datafunction_ c ptr (length ms) (with_bucket (key_of p.(header)) (mk_bucket [] []) s1) _ (the_job ptr)
    (x.(writer_).(SocketWriter.started) ++ [the_job ptr]) x.(writer_).(called) (mk_packet h (List.last ms m)) Hc1) as (s2 & x' & E2 & Hc2 & Hs2).
  - cbn [writer_]. by rewrite Hw1, Ex.
  - exact Hp1.
  - exists s2, x'. split; [done|]. split; [exact E2|]. split; [exact Hc2|]. rewrite Hs2, Ex. cbn. by rewrite <- (assoc_L (++)).
Qed.

End properties.

(** ** A worker and a client *)

Definition on_wire (salt : byte) (p : packet) : packet :=
  mk_packet (mk_header p.(header).(type) 0 (resize_to 32 p.(header).(key)) 0 (replicate 4 x00) [x00; x00; x00; salt]) p.(data).
Definition direct (p : packet) : packet := mk_packet (set_direct_communication true p.(header)) p.(data).

Definition opens : packet := on_wire x01 open_request.
Definition message : packet := on_wire x02 (mk_packet (mk_header (code put) 0 [] 0 [] []) [x61; x62]).
Definition refused : packet := on_wire x03 (mk_packet (mk_header (code worker_dereg) 0 [] 0 [] []) (serialize opens).2).
Definition nothing : packet := on_wire x03 (mk_packet (mk_header (code worker_dereg) 0 [] 0 [] []) []).

Definition framedb (p : packet) : bool :=
  let h := p.(header) in
  (0 <=? h.(type)) && (h.(type) <? 256) && (0 <=? h.(direct_communication)) && (h.(direct_communication) <? 256) &&
  Nat.eqb (length h.(key)) key_size && (0 <=? h.(datasize)) && (h.(datasize) <? 2 ^ 32) &&
  Nat.eqb (length h.(sequence)) 4 && Nat.eqb (length h.(random_salt)) 4 &&
  (Z.of_nat (length p.(data)) <? 2 ^ 32) && (reads_body h || Nat.eqb (length p.(data)) 0).

Lemma framedb_correct p : framedb p = true -> framed p.
Proof.
  unfold framedb, framed. rewrite !andb_true_iff, orb_true_iff, !Z.leb_le, !Z.ltb_lt, !Nat.eqb_eq.
  intros H. split; [|split; [tauto|]]; [split; tauto|]. destruct H as [_ [H|H]]; [by left|right]. by apply nil_length_inv.
Qed.

Definition waiting_client (b : bytes) : connection := mk_connection b true empty_writer [].
Definition one_client (b : bytes) : server := with_connection 0%nat (waiting_client b) empty_server.

Lemma some_of {A} (o : option A) : (match o with Some _ => true | None => false end) = true -> exists a, o = Some a.
Proof. destruct o as [a|]; [by exists a|done]. Qed.

Lemma server_framing_witness : exists s', execs false (replicate 3 (Read [] 0%nat))
    (one_client (concat ((fun p => (serialize p).2) <$> [message; opens; nothing]) ++ [x07])) = Some s' /\
  s'.(tasks) = [Store 0%nat (serialize message).1].
Proof.
  set (ps := [message; opens; nothing]).
  destruct (some_of (Worker.execs ((fun p => Trigger [] (serialize p).1) <$> filter (fun p => requests_job p = true) ps) empty_proxy))
    as [l Hl]; [vm_compute; reflexivity|].
  destruct (server_framing false [] 0%nat (waiting_client (concat ((fun p => (serialize p).2) <$> ps) ++ [x07])) ps [x07]
    (one_client (concat ((fun p => (serialize p).2) <$> ps) ++ [x07])) l) as (s' & x' & E & _ & _ & _ & _ & Hs).
  - apply lookup_insert_eq.
  - reflexivity.
  - reflexivity.
  - unfold ps. rewrite !Forall_cons. split; [|split; [|split; [|constructor]]]; apply framedb_correct; vm_compute; reflexivity.
  - apply Forall_cons. split; [exists put; split; [reflexivity|split; [discriminate|reflexivity]]|].
    apply Forall_cons. split; [exists trigger; split; [reflexivity|split; [discriminate|reflexivity]]|].
    apply Forall_cons. split; [exists worker_dereg; split; [reflexivity|split; [discriminate|reflexivity]]|]. constructor.
  - exact Hl.
  - exists s'. split; [exact E|]. rewrite (sv_tasks _ _ _ _ _ Hs). reflexivity.
Defined.

Lemma refused_body_is_read_witness : exists s', execs false [Read [] 0%nat; Read [] 0%nat] (one_client (serialize refused).2) = Some s' /\
  s'.(clients) !! fresh (dom (jobs empty_proxy)) = Some 0%nat.
Proof.
  destruct (some_of (on_trigger [] (serialize opens).1 empty_proxy)) as [l Hl]; [vm_compute; reflexivity|].
  destruct (refused_body_is_read false [] 0%nat (waiting_client (serialize refused).2) refused opens []
    (one_client (serialize refused).2) worker_dereg l) as (s' & x' & E & _ & Hj & _).
  - apply lookup_insert_eq.
  - reflexivity.
  - destruct (framedb_correct nothing) as [H _]; [vm_compute; reflexivity|]. destruct H. split; done.
  - apply Z.ltb_lt. vm_compute. reflexivity.
  - reflexivity.
  - rewrite !elem_of_cons. intros [?|[?|[?|[?|?%elem_of_nil]]]]; done.
  - apply framedb_correct. vm_compute. reflexivity.
  - reflexivity.
  - reflexivity.
  - reflexivity.
  - cbn [waiting_client input]. by rewrite app_nil_r.
  - exact Hl.
  - exists s'. split; [exact E|exact Hj].
Defined.






Definition one_worker : server :=
  with_launcher (with_worker 0%nat (mk_worker true ∅ (replicate 6 x0a) true) (with_set [0%nat] empty_proxy)) (one_client []).

Lemma direct_bypasses_tables_witness : exists s' w y, start_trigger_post true [] 0%nat (direct opens) one_worker = Some s' /\
  one_worker.(launcher_).(workers) !! w = Some y /\ serves 0%nat one_worker s' [] [mk_packet (direct opens).(header) y.(endpoint)].
Proof.
  destruct (direct_bypasses_tables true [] 0%nat (waiting_client []) (direct opens) one_worker 0%nat)
    as (s' & w & y & E & Hy & _ & _ & _ & Hs).
  - reflexivity.
  - reflexivity.
  - reflexivity.
  - intros w Hw. destruct (decide (w = 0%nat)) as [->|Hne]; [by left|]. unfold is_valid in Hw.
    cbn [one_worker with_launcher launcher_ with_worker workers with_set empty_proxy] in Hw. by rewrite lookup_insert_ne in Hw.
  - reflexivity.
  - exists s', w, y. split; [exact E|]. split; [exact Hy|exact Hs].
Defined.

Definition full_bucket : server := with_bucket (key_of message.(header)) (mk_bucket [[x61]; [x62]; [x63]] []) (one_client []).

Lemma load_repeats_last_witness : exists s1 s2 x', handle_events message (load 0%nat message full_bucket) = Some s1 /\
  execs false [Wrote 0 false; Wrote 0 false] s1 = Some s2 /\ s2.(connections) !! 0%nat = Some x' /\
  (drop 46 <$> x'.(sent)) = [[x61]; [x63]; [x63]].
Proof.
  destruct (load_repeats_last false 0%nat (waiting_client []) message [x61] [[x62]; [x63]] full_bucket)
    as (s1 & s2 & x' & E1 & E2 & Hc & Hs); [reflexivity|reflexivity|reflexivity|reflexivity| |reflexivity|].
  - unfold get_bucket, full_bucket. cbn [with_bucket topics_]. by rewrite lookup_insert_eq.
  - exists s1, s2, x'. split; [exact E1|]. split; [exact E2|]. split; [exact Hc|]. rewrite Hs. vm_compute. reflexivity.
Defined.
