(* ===== verification/Policy.v ===== *)
(** * The policies of the proxy ([launcher-policy.hpp], [policy/], [launcher.hpp] lines 81-112)

    A launch policy says how many workers there should be, a keep-alive policy how long
    an idle worker stays, and a file policy which worker takes a file.  The times are
    milliseconds of the clock; products with a [double] are parameters.  Counters are
    [std::atomic], one access at a time; the counters of workers stay far below the
    bounds of [int]. *)
From Stdlib Require Import ZArith Lia.
From stdpp Require Import base tactics option list gmap strings.
From S2P Require Import Prelude Wire Launcher Worker DataFunction.
Import pack.

(** ** Launch policies *)

(** The members of [worker_launch]. *)
Record worker_launch := mk_launch {
  max_outstanding_starting_request_ : Z;
  starting_worker_count_ : Z;
  starter_ : Z;
  default_pool_value_ : Z
}.

(** The classes derived from it, with their members. *)
Inductive derived :=
| fix_pool
| single_request (request_count_ : Z)
| max_queue (max_average_queue_ queue_size_ ideal_worker_count_ : Z)
| const_average_load (max_average_load_ last_update_ ideal_worker_count_ processed_size_ : Z).

Record launch_policy := mk_policy { base_ : worker_launch; class_ : derived }.

(** The constructors. *)
Definition new_fix_pool (max_outstanding size : Z) : launch_policy := mk_policy (mk_launch max_outstanding 0 0 size) fix_pool.
Definition new_single_request (max_outstanding : Z) : launch_policy := mk_policy (mk_launch max_outstanding 0 0 1) (single_request 0).
Definition new_max_queue (max_outstanding max_queue_kb : Z) : launch_policy :=
  mk_policy (mk_launch max_outstanding 0 0 1) (max_queue (u64 (max_queue_kb * 1024)) 0 0).
Definition new_const_average_load (now max_outstanding max_load_kbps : Z) : launch_policy :=
  mk_policy (mk_launch max_outstanding 0 0 1) (const_average_load (u64 (max_load_kbps * 1024)) now 0 0).

Definition with_starting (n : Z) (p : launch_policy) : launch_policy :=
  mk_policy (mk_launch p.(base_).(max_outstanding_starting_request_) n p.(base_).(starter_) p.(base_).(default_pool_value_)) p.(class_).

Definition starting_a_new_worker (p : launch_policy) : launch_policy :=
  with_starting (p.(base_).(starting_worker_count_) + 1) p.
Definition registered_a_new_worker (p : launch_policy) : launch_policy :=
  with_starting (p.(base_).(starting_worker_count_) - 1) p.

(** [worker_launch::schedule_a_new_job] and [reschedule_a_job], for [workers] workers. *)
Definition set_starter (workers : Z) (p : launch_policy) : launch_policy :=
  mk_policy (mk_launch p.(base_).(max_outstanding_starting_request_) p.(base_).(starting_worker_count_)
    (if workers =? 0 then p.(base_).(default_pool_value_) else 0) p.(base_).(default_pool_value_)) p.(class_).

Definition with_class (c : derived) (p : launch_policy) : launch_policy := mk_policy p.(base_) c.

(** [size] is the [datasize] in the header of the job's packet. *)
Definition schedule_a_new_job (workers size : Z) (p : launch_policy) : launch_policy :=
  match p.(class_) with
  | fix_pool | const_average_load _ _ _ _ => set_starter workers p
  | single_request n => set_starter workers (with_class (single_request (n + 1)) p)
  | max_queue m q i => set_starter workers (with_class (max_queue m (q + size) i) p)
  end.

Definition reschedule_a_job (workers : Z) (p : launch_policy) : launch_policy := set_starter workers p.

Definition started_a_new_job (size : Z) (p : launch_policy) : launch_policy :=
  match p.(class_) with
  | const_average_load m l i s => with_class (const_average_load m l i (u64 (s + size))) p
  | _ => p
  end.

Definition finished_a_job (size : Z) (p : launch_policy) : launch_policy :=
  match p.(class_) with
  | fix_pool => p
  | single_request n => with_class (single_request (n - 1)) p
  | max_queue m q i => with_class (max_queue m (q - size) i) p
  | const_average_load m l i s => with_class (const_average_load m l i (u64 (s + size))) p
  end.

(** [execute], at time [now]; a division by zero is [None].  The signed queue size is
    divided as an unsigned number, and the quotients are stored in an [int]. *)
Definition execute (now : Z) (p : launch_policy) : option launch_policy :=
  match p.(class_) with
  | fix_pool | single_request _ => Some p
  | max_queue m q _ =>
      if m =? 0 then None else Some (with_class (max_queue m q (s32 (u64 q / m))) p)
  | const_average_load m l _ s =>
      let duration := u64 (now - l) in
      if (duration =? 0) || (m =? 0) then None
      else Some (with_class (const_average_load m now (s32 (u64 (s * 1000) / duration / m)) 0) p)
  end.

Definition get_ideal_worker_count (p : launch_policy) : Z :=
  match p.(class_) with
  | fix_pool => p.(base_).(default_pool_value_)
  | single_request n | max_queue _ _ n | const_average_load _ _ n _ => Z.max p.(base_).(starter_) n
  end.

Definition get_ideal_worker_count_delta (workers : Z) (p : launch_policy) : Z :=
  let starting := p.(base_).(starting_worker_count_) in
  let should_start := Z.max (get_ideal_worker_count p - (workers + starting)) 0 in
  let can_start := Z.max (p.(base_).(max_outstanding_starting_request_) - starting) 0 in
  Z.min should_start can_start.

(** ** The pool of workers *)

(** The policy, the size of the worker set, and how many handlers of
    [launcher_policy::starting_a_new_worker] and of [registered_a_new_worker] are posted
    and have not run. *)
Record pool := mk_pool { policy : launch_policy; workers_ : Z; posted_starting : Z; posted_registered : Z }.

Definition with_policy (p : launch_policy) (s : pool) : pool := mk_pool p s.(workers_) s.(posted_starting) s.(posted_registered).

(** [create_worker], less the request to the platform. *)
Definition create_worker (s : pool) : pool := mk_pool s.(policy) s.(workers_) (s.(posted_starting) + 1) s.(posted_registered).

Definition start_create_worker_with_policy (s : pool) : pool :=
  let should_start := get_ideal_worker_count_delta s.(workers_) s.(policy) in
  Nat.iter (Z.to_nat should_start) create_worker s.

(** What happens to it: a handler that [launcher_policy] posted runs ([Schedule] to
    [Execute], [Starting], [Registered]), the launcher's timer ticks ([Create]), a worker
    connects ([add_worker]) or leaves ([on_worker_close]). *)
Inductive pool_event :=
| Schedule (size : Z) | Reschedule | Started (size : Z) | Finished (size : Z)
| Execute (now : Z) | Create | Starting | Connect | Registered | Left.

#[global] Instance pool_event_eq_dec : EqDecision pool_event.
Proof. solve_decision. Defined.

Definition pool_exec (e : pool_event) (s : pool) : option pool :=
  let '(mk_pool p n i j) := s in
  match e with
  | Schedule size => Some (with_policy (schedule_a_new_job n size p) s)
  | Reschedule => Some (with_policy (reschedule_a_job n p) s)
  | Started size => Some (with_policy (started_a_new_job size p) s)
  | Finished size => Some (with_policy (finished_a_job size p) s)
  | Execute now => p ← execute now p; Some (with_policy p s)
  | Create => Some (start_create_worker_with_policy s)
  | Starting => if 0 <? i then Some (mk_pool (starting_a_new_worker p) n (i - 1) j) else None
  | Connect => Some (mk_pool p (n + 1) i (j + 1))
  | Registered => if 0 <? j then Some (mk_pool (registered_a_new_worker p) n i (j - 1)) else None
  | Left => if 0 <? n then Some (mk_pool p (n - 1) i j) else None
  end.

Fixpoint pool_execs (es : list pool_event) (s : pool) : option pool :=
  match es with
  | [] => Some s
  | e :: es => s ← pool_exec e s; pool_execs es s
  end.

(** ** Keep-alive policies *)

(** [send_worker_keepalive]. *)
Definition send_worker_keepalive (salt sequence : bytes) (duration_in_ms : Z) : packet :=
  mk_packet (set_type set_timer (gen salt sequence (mk_header 0 0 (replicate 32 x00) 0 (replicate 4 x00) (replicate 4 x00))))
    (le_bytes 4 (hton 4 duration_in_ms)).

(** [SMA]: the average of the last [N] inputs, in a ring buffer. *)
Record SMA := mk_sma { N : nat; index : nat; previousInputs : list Z; sum : Z }.

Definition new_sma (buffer_size : nat) : SMA :=
  let n := if Nat.eqb buffer_size 0 then 1%nat else buffer_size in
  mk_sma n 0 (replicate n 0) 0.

Definition record (input : Z) (s : SMA) : SMA :=
  let sum := u32 (u32 (s.(sum) - s.(previousInputs) !!! s.(index)) + input) in
  mk_sma s.(N) (if Nat.eqb (S s.(index)) s.(N) then 0%nat else S s.(index))
    (<[s.(index) := input]> s.(previousInputs)) sum.

Definition get_sma (s : SMA) : Z := u32 (s.(sum) + Z.of_nat s.(N) / 2) / Z.of_nat s.(N).

(** [SMA_global]: until [N] inputs are there it divides by their number. *)
Record SMA_global := mk_sma_global { sma_ : SMA; iter_counter_ : Z }.

Definition new_sma_global (buffer_size : nat) : SMA_global := mk_sma_global (new_sma buffer_size) 1.
Definition record_global (input : Z) (s : SMA_global) : SMA_global :=
  mk_sma_global (record input s.(sma_)) (s.(iter_counter_) + 1).
Definition get_sma_global (s : SMA_global) : Z :=
  let n := Z.of_nat s.(sma_).(N) in
  u32 (s.(sma_).(sum) + n / 2) / (if s.(iter_counter_) <? n + 1 then s.(iter_counter_) else n).

Section keepalive.
(** [sma + (error_margin * sma)], as a [double] turned into a [waittime_type]. *)
Variable with_margin : Z -> Z.

(** [keepalive_moving_interval]: per worker, the average and the time of its last job. *)
Record moving_interval := mk_moving {
  sma_buffer_size : nat; default_wait_time_ : Z; concurrency_threshold : Z;
  wait_times_ : gmap nat SMA; last_request_ : gmap nat Z
}.

(** What is sent to a worker, if anything; [None] outside divides by zero. *)
Definition set_worker_keepalive (w : nat) (k : moving_interval) : option (option Z) :=
  match k.(wait_times_) !! w with
  | None => Some None
  | Some sma =>
      if get_sma sma <? k.(concurrency_threshold) then Some (Some k.(default_wait_time_))
      else if 100 <? get_sma sma then Some (Some (with_margin (get_sma sma)))
      else if get_sma sma =? 0 then None
      else Some (Some (u32 (get_sma sma + 100 / get_sma sma)))
  end.

(** The interval between two jobs of a worker is recorded by an argument of a logging
    statement, which is evaluated when [debug] records are not filtered out. *)
Definition moving_started_a_new_job (debug : bool) (now : Z) (w : nat) (k : moving_interval) : moving_interval :=
  match k.(last_request_) !! w with
  | None =>
      let sma := default (new_sma k.(sma_buffer_size)) (k.(wait_times_) !! w) in
      mk_moving k.(sma_buffer_size) k.(default_wait_time_) k.(concurrency_threshold)
        (<[w := record k.(default_wait_time_) sma]> k.(wait_times_)) (<[w := now]> k.(last_request_))
  | Some last =>
      let request_interval := now - last in
      let wait_times :=
        if (request_interval >? k.(concurrency_threshold)) && debug then alter (record (u32 request_interval)) w k.(wait_times_)
        else k.(wait_times_) in
      mk_moving k.(sma_buffer_size) k.(default_wait_time_) k.(concurrency_threshold) wait_times (<[w := now]> k.(last_request_))
  end.

(** [keepalive_moving_interval_global]; [is_within_2_stdev] is computed with [double]s. *)
Variable is_within_2_stdev : SMA_global -> bool.

Record moving_global := mk_moving_global {
  global_sma : SMA_global; first_req_ : bool; global_default : Z; global_threshold : Z; global_last : Z
}.

Definition global_worker_keepalive (k : moving_global) : option Z :=
  let sma := get_sma_global k.(global_sma) in
  if (sma <? k.(global_threshold)) || negb (is_within_2_stdev k.(global_sma)) then Some k.(global_default)
  else if 100 <? sma then Some (u32 (with_margin sma + 300))
  else if sma =? 0 then None
  else Some (u32 (sma + 100 / sma + 300)).

Definition global_started_a_new_job (now : Z) (k : moving_global) : moving_global :=
  if k.(first_req_) then mk_moving_global k.(global_sma) false k.(global_default) k.(global_threshold) now
  else
    let request_interval := now - k.(global_last) in
    mk_moving_global
      (if request_interval >? k.(global_threshold) then record_global (u32 request_interval) k.(global_sma) else k.(global_sma))
      false k.(global_default) k.(global_threshold) now.

End keepalive.

(** ** File policies *)

(** [random_assign::get_available_worker]: indices are drawn until one is that of a valid
    worker; [None] has not found one yet. *)
Fixpoint draw_valid (draws : list nat) (s : proxy) : option nat :=
  match draws with
  | [] => None
  | d :: draws =>
      pick ← s.(worker_set_) !! (d mod length s.(worker_set_))%nat;
      if is_valid s pick then Some pick else draw_valid draws s
  end.

Definition random_assign (draws : list nat) (s : proxy) : option (option nat) :=
  match s.(worker_set_) with
  | [] => Some None
  | _ => Some <$> draw_valid draws s
  end.

(** [active_lowest_load]: per worker the jobs since the last [execute], in total and per
    file.  Files are compared by the key of the header. *)
Record counter := mk_counter { total_counter : Z; file_counter : gmap bytes Z }.

Record active_lowest_load := mk_active {
  fileid_to_worker : gmap bytes nat;
  most_count_file_ : bytes;
  worker_file_map_ : gmap nat counter;
  transfering_ : gset bytes
}.

(** The file with the highest count, from a file and a count to beat. *)
Definition top_file (top : Z) (best : bytes) (files : list (bytes * Z)) : bytes :=
  snd (foldl (fun '(top, best) '(k, n) => if n >? top then (n, k) else (top, best)) (top, best) files).

(** [execute]: the maps are walked in the order of [map_to_list]. *)
Definition active_execute (a : active_lowest_load) : active_lowest_load :=
  let '(_, most) :=
    foldl (fun '(top, most) '(_, info) =>
      if (info.(total_counter) >? top) && (1 <? Z.of_nat (size info.(file_counter)))
      then (info.(total_counter), top_file (-1) most (map_to_list info.(file_counter))) else (top, most))
      (-1, a.(most_count_file_)) (map_to_list a.(worker_file_map_)) in
  mk_active a.(fileid_to_worker) most ((fun info => mk_counter 0 ((fun _ => 0) <$> info.(file_counter))) <$> a.(worker_file_map_))
    a.(transfering_).

Definition active_started (w : nat) (k : bytes) (a : active_lowest_load) : active_lowest_load :=
  let info := match a.(worker_file_map_) !! w with
              | Some info => mk_counter (info.(total_counter) + 1)
                               (<[k := match info.(file_counter) !! k with Some n => n + 1 | None => 1 end]> info.(file_counter))
              | None => mk_counter 1 ∅
              end in
  mk_active a.(fileid_to_worker) a.(most_count_file_) (<[w := info]> a.(worker_file_map_)) a.(transfering_).

Definition active_finished (w : nat) (k : bytes) (a : active_lowest_load) : active_lowest_load :=
  match a.(worker_file_map_) !! w with
  | None => a
  | Some info =>
      match info.(file_counter) !! k with
      | None => a
      | Some n =>
          let counters := <[w := mk_counter info.(total_counter) (<[k := n - 1]> info.(file_counter))]> a.(worker_file_map_) in
          if n - 1 =? 0 then mk_active (delete k a.(fileid_to_worker)) a.(most_count_file_) counters (a.(transfering_) ∖ {[k]})
          else mk_active a.(fileid_to_worker) a.(most_count_file_) counters a.(transfering_)
      end
  end.

Definition active_start_transfer (a : active_lowest_load) : active_lowest_load :=
  active_execute (mk_active a.(fileid_to_worker) a.(most_count_file_) a.(worker_file_map_) ({[a.(most_count_file_)]} ∪ a.(transfering_))).

Definition active_get_assigned_worker (k : bytes) (a : active_lowest_load) : option nat :=
  if decide (k ∈ a.(transfering_)) then None else a.(fileid_to_worker) !! k.

(** ** The average *)

(** The inputs still counted, oldest first. *)
Definition window (s : SMA) : list Z := drop s.(index) s.(previousInputs) ++ take s.(index) s.(previousInputs).

Definition total (l : list Z) : Z := foldr Z.add 0 l.

Record sma_ok (s : SMA) : Prop := {
  so_pos : (0 < s.(N))%nat;
  so_length : length s.(previousInputs) = s.(N);
  so_index : (s.(index) < s.(N))%nat;
  so_sum : s.(sum) = u32 (total s.(previousInputs))
}.

Lemma sum_total_app l l' : total (l ++ l') = total l + total l'.
Proof. unfold total. induction l as [|x l IH]; cbn; lia. Qed.

Lemma sum_total_perm l l' : l ≡ₚ l' -> total l = total l'.
Proof. intros H. unfold total. induction H; cbn; lia. Qed.

Lemma window_perm s : window s ≡ₚ s.(previousInputs).
Proof. unfold window. rewrite (Permutation_app_comm (drop _ _)), take_drop. done. Qed.

Lemma window_total s : total (window s) = total s.(previousInputs).
Proof. apply sum_total_perm, window_perm. Qed.

Lemma u32_add_l a b : u32 (u32 a + b) = u32 (a + b).
Proof. unfold wrap. apply Zplus_mod_idemp_l. Qed.

(** The oldest input makes room for the new one. *)
Lemma record_window x s : sma_ok s -> sma_ok (record x s) /\ window (record x s) = tail (window s) ++ [x].
Proof.
  intros [Hp Hl Hi Hs]. destruct (lookup_lt_is_Some_2 s.(previousInputs) s.(index)) as [a Ha]; [lia|].
  assert (length (take s.(index) s.(previousInputs)) = s.(index)) as Hlt by (rewrite length_take; lia).
  pose proof (take_drop_middle _ _ _ Ha) as Em. set (l1 := take _ _) in *. set (l2 := drop (S _) _) in *.
  assert (<[s.(index) := x]> s.(previousInputs) = l1 ++ x :: l2) as Ei.
  { rewrite <- Em at 1. rewrite insert_app_r_alt by lia. by rewrite Hlt, Nat.sub_diag. }
  assert (window s = (a :: l2) ++ l1) as Ew.
  { unfold window. fold l1. f_equal. rewrite <- Em, drop_app_ge by lia. by rewrite Hlt, Nat.sub_diag. }
  assert (length (l1 ++ x :: l2) = s.(N)) as Hl' by (rewrite <- Ei, length_insert; done).
  split.
  - split; cbn [record N index previousInputs sum]; [done|by rewrite length_insert|destruct (Nat.eqb_spec (S s.(index)) s.(N)); lia|].
    rewrite (list_lookup_total_correct _ _ _ Ha), Ei, Hs, u32_add_l. replace (u32 (total s.(previousInputs)) - a + x) with (u32 (total s.(previousInputs)) + (x - a)) by lia.
    rewrite u32_add_l. f_equal. rewrite <- Em, !sum_total_app. cbn. unfold total. cbn. lia.
  - rewrite Ew. unfold window at 1. cbn [record index previousInputs N]. rewrite Ei. cbn [tail app]. rewrite length_app in Hl'. cbn in Hl'.
    destruct (Nat.eqb_spec (S s.(index)) s.(N)) as [E|E].
    + assert (l2 = []) as -> by (apply nil_length_inv; lia). cbn [drop take]. by rewrite app_nil_r.
    + rewrite drop_app_ge, take_app_ge by lia. rewrite Hlt. replace (S s.(index) - s.(index))%nat with 1%nat by lia. cbn.
      by rewrite firstn_O, <- (assoc_L (++)).
Qed.

Lemma total_zeros n : total (replicate n 0) = 0.
Proof. induction n as [|n IH]; [done|exact IH]. Qed.

Lemma new_sma_ok n : sma_ok (new_sma n).
Proof.
  unfold new_sma. set (m := if Nat.eqb n 0 then 1%nat else n). assert (0 < m)%nat by (subst m; destruct (Nat.eqb_spec n 0); lia).
  split; cbn [N previousInputs index sum]; [done|by rewrite length_replicate|done|by rewrite total_zeros].
Qed.

(** After any inputs the window holds the last ones, and zeros before them. *)
Lemma records_window xs s : sma_ok s ->
  let s' := foldl (fun s x => record x s) s xs in
  sma_ok s' /\ s'.(N) = s.(N) /\ window s' = drop (length xs) (window s ++ xs).
Proof.
  revert s. induction xs as [|x xs IH]; intros s Hs; cbn [foldl length].
  - split; [done|]. split; [done|]. by rewrite app_nil_r.
  - destruct (record_window x s Hs) as [Hr Ew]. destruct (IH _ Hr) as (H1 & H2 & H3). split; [done|]. split; [done|].
    rewrite H3, Ew. assert (length (window s) = s.(N)) as Hl by (rewrite (window_perm s); apply Hs).
    destruct (window s) as [|a l]; [cbn in Hl; pose proof (so_pos _ Hs); lia|]. cbn [tail app drop]. by rewrite <- (assoc_L (++)).
Qed.

Lemma get_sma_window s : sma_ok s -> 0 <= total (window s) -> total (window s) + Z.of_nat s.(N) / 2 < 2 ^ 32 ->
  get_sma s = (total (window s) + Z.of_nat s.(N) / 2) / Z.of_nat s.(N).
Proof.
  intros Hs H0 H. unfold get_sma. rewrite (so_sum _ Hs), <- window_total, u32_add_l, u32_small; [done|].
  assert (0 <= Z.of_nat s.(N) / 2) by (apply Z.div_pos; lia). lia.
Qed.

(** ** The pool *)

(** The workers that were started and have not connected. *)
Definition awaited (s : pool) : Z := s.(policy).(base_).(starting_worker_count_) + s.(posted_starting) - s.(posted_registered).

(** Runs in which a second, the time between two ticks, is enough for the handlers posted
    by a tick.  When [own] is true only workers that were started connect; otherwise
    workers that another proxy started may too, as a worker does that is told to join
    ([proxyjoin]). *)
Inductive pool_reaches (own : bool) (s0 : pool) : pool -> Prop :=
| reaches_start : pool_reaches own s0 s0
| reaches_step e s s' : pool_reaches own s0 s -> pool_exec e s = Some s' ->
    (own = true -> e = Connect -> 0 < awaited s) -> (e = Create -> s.(posted_starting) = 0) -> pool_reaches own s0 s'.

Lemma create_spec s : start_create_worker_with_policy s =
  mk_pool s.(policy) s.(workers_) (s.(posted_starting) + get_ideal_worker_count_delta s.(workers_) s.(policy)) s.(posted_registered).
Proof.
  assert (forall n, Nat.iter n create_worker s = mk_pool s.(policy) s.(workers_) (s.(posted_starting) + Z.of_nat n) s.(posted_registered)) as H.
  { induction n as [|n IH]; [destruct s; cbn; by rewrite Z.add_0_r|]. unfold Nat.iter in *. cbn [nat_rect]. rewrite IH.
    unfold create_worker. cbn. f_equal. lia. }
  unfold start_create_worker_with_policy. rewrite H, Z2Nat.id; [done|]. unfold get_ideal_worker_count_delta. lia.
Qed.

(** A handler that only changes what the policy knows of jobs. *)
Definition quiet (e : pool_event) : bool :=
  match e with Schedule _ | Reschedule | Started _ | Finished _ | Execute _ => true | _ => false end.

(** What no event changes. *)
Record frame (s s' : pool) : Prop := {
  fr_max : s'.(policy).(base_).(max_outstanding_starting_request_) = s.(policy).(base_).(max_outstanding_starting_request_);
  fr_size : s'.(policy).(base_).(default_pool_value_) = s.(policy).(base_).(default_pool_value_);
  fr_fixed : s.(policy).(class_) = fix_pool <-> s'.(policy).(class_) = fix_pool
}.

Ltac pool_cases :=
  cbn [pool_exec quiet]; rewrite ?create_spec;
  unfold schedule_a_new_job, reschedule_a_job, started_a_new_job, finished_a_job, execute; cbn [class_];
  intros; repeat case_match; simplify_option_eq.

Lemma pool_exec_frame e s s' : pool_exec e s = Some s' -> frame s s'.
Proof. destruct s as [[b c] n i j]. destruct e, c; pool_cases; by split. Qed.

(** What such a handler leaves alone, and what the others do. *)
Lemma pool_exec_effect e s s' : pool_exec e s = Some s' ->
  s'.(policy).(base_).(starting_worker_count_) = s.(policy).(base_).(starting_worker_count_)
    + match e with Starting => 1 | Registered => -1 | _ => 0 end /\
  s'.(workers_) = s.(workers_) + match e with Connect => 1 | Left => -1 | _ => 0 end /\
  s'.(posted_starting) = s.(posted_starting)
    + match e with Starting => -1 | Create => get_ideal_worker_count_delta s.(workers_) s.(policy) | _ => 0 end /\
  s'.(posted_registered) = s.(posted_registered) + match e with Registered => -1 | Connect => 1 | _ => 0 end /\
  match e with Starting => 0 < s.(posted_starting) | Registered => 0 < s.(posted_registered) | Left => 0 < s.(workers_) | _ => True end.
Proof.
  destruct s as [[b c] n i j]. destruct e, c; pool_cases; cbn; repeat match goal with H : (0 <? _) = true |- _ => apply Z.ltb_lt in H end;
    repeat split; lia.
Qed.

Definition bounded (own : bool) (s : pool) : Prop :=
  let b := s.(policy).(base_) in
  0 <= s.(posted_starting) /\ 0 <= s.(posted_registered) /\ (own = true -> 0 <= awaited s) /\ 0 <= s.(workers_) /\
  b.(starting_worker_count_) + s.(posted_starting) <= b.(max_outstanding_starting_request_) /\
  (s.(policy).(class_) = fix_pool -> s.(workers_) + b.(starting_worker_count_) + s.(posted_starting) <= b.(default_pool_value_) + s.(posted_registered)).

(** What a tick starts. *)
Lemma delta_bounds n p (d := get_ideal_worker_count_delta n p) :
  0 <= d /\ d <= Z.max (p.(base_).(max_outstanding_starting_request_) - p.(base_).(starting_worker_count_)) 0 /\
  (p.(class_) = fix_pool -> d <= Z.max (p.(base_).(default_pool_value_) - (n + p.(base_).(starting_worker_count_))) 0).
Proof.
  subst d. unfold get_ideal_worker_count_delta. split; [lia|]. split; [lia|]. intros Hfix. unfold get_ideal_worker_count. rewrite Hfix. lia.
Qed.

Lemma bounded_exec own e s s' : bounded own s -> pool_exec e s = Some s' ->
  (own = true -> e = Connect -> 0 < awaited s) -> (e = Create -> s.(posted_starting) = 0) -> bounded own s'.
Proof.
  unfold bounded, awaited. intros (H1 & H2 & H3 & H4 & H5 & H6) E Hc Ht. pose proof (pool_exec_frame _ _ _ E) as [-> -> Hf].
  apply pool_exec_effect in E as (-> & -> & -> & -> & E). destruct (delta_bounds s.(workers_) s.(policy)) as (D1 & D2 & D3).
  repeat split; try (intros Hfix; apply Hf in Hfix; specialize (H6 Hfix); specialize (D3 Hfix));
    try (intros Hown; specialize (H3 Hown); specialize (Hc Hown)); destruct e;
    try specialize (Hc eq_refl); try specialize (Ht eq_refl); lia.
Qed.

Lemma pool_reaches_frame own s0 s : pool_reaches own s0 s -> frame s0 s.
Proof.
  induction 1 as [|e s s' _ [A1 A2 A3] E _]; [by split|]. apply pool_exec_frame in E as [B1 B2 B3].
  split; [congruence|congruence|by rewrite A3].
Qed.

(** A pool that begins within its bounds stays there. *)
Lemma starts_in_bounds own p n s : p.(base_).(starting_worker_count_) = 0 -> 0 <= p.(base_).(max_outstanding_starting_request_) ->
  0 <= n -> (p.(class_) = fix_pool -> n <= p.(base_).(default_pool_value_)) -> pool_reaches own (mk_pool p n 0 0) s ->
  awaited s <= p.(base_).(max_outstanding_starting_request_) /\ 0 <= s.(workers_) /\
  (p.(class_) = fix_pool -> s.(workers_) + awaited s <= p.(base_).(default_pool_value_)) /\ (own = true -> 0 <= awaited s).
Proof.
  intros Hs Hm Hn Hf Hr.
  assert (bounded own s) as (H1 & H2 & H3 & H4 & H5 & H6).
  { induction Hr as [|e s s' _ IH E Hc Ht]; [|by eapply bounded_exec]. unfold bounded, awaited. cbn. rewrite Hs. repeat split; try lia.
    intros Hc. specialize (Hf Hc). lia. }
  pose proof (pool_reaches_frame _ _ _ Hr) as [F1 F2 F3]. cbn in F1, F2, F3. rewrite F1 in H5. rewrite F2 in H6.
  split; [unfold awaited in *; lia|]. split; [done|]. split; [|done]. intros Hc%F3. specialize (H6 Hc). unfold awaited. lia.
Qed.

(** Steps other than a tick. *)
Lemma reaches_execs s0 es s s' : pool_reaches false s0 s -> Create ∉ es -> pool_execs es s = Some s' -> pool_reaches false s0 s'.
Proof.
  revert s. induction es as [|e es IH]; intros s Hr He E; cbn [pool_execs] in E; [by injection E as <-|].
  destruct (pool_exec e s) as [s1|] eqn:E1; [|done]. apply not_elem_of_cons in He as [Hne He].
  apply (IH s1); [|done|done]. by eapply reaches_step.
Qed.

Lemma with_starting_twice a b p : with_starting a (with_starting b p) = with_starting a p.
Proof. done. Qed.

Lemma with_starting_id p : with_starting p.(base_).(starting_worker_count_) p = p.
Proof. by destruct p as [[] ?]. Qed.

Lemma pool_execs_app es es' s : pool_execs (es ++ es') s = pool_execs es s ≫= pool_execs es'.
Proof. revert s. induction es as [|e es IH]; intros s; [done|]. cbn. destruct (pool_exec e s); [apply IH|done]. Qed.

Lemma sum_total_nonneg l : Forall (fun x => 0 <= x) l -> 0 <= total l.
Proof. induction 1; unfold total in *; cbn; lia. Qed.

Lemma starting_execs k p n i j : 0 <= i ->
  pool_execs (replicate k Starting) (mk_pool p n (i + Z.of_nat k) j)
  = Some (mk_pool (with_starting (p.(base_).(starting_worker_count_) + Z.of_nat k) p) n i j).
Proof.
  intros Hi. revert p. induction k as [|k IH]; intros p; cbn [replicate pool_execs pool_exec].
  - rewrite !Z.add_0_r. by rewrite with_starting_id.
  - destruct (Z.ltb_spec 0 (i + Z.of_nat (S k))); [|lia]. cbn [mbind option_bind].
    replace (i + Z.of_nat (S k) - 1) with (i + Z.of_nat k) by lia. rewrite IH. do 2 f_equal.
    unfold starting_a_new_worker. rewrite with_starting_twice. cbn [with_starting base_ starting_worker_count_]. f_equal. lia.
Qed.

Lemma connect_execs k p n i j :
  pool_execs (replicate k Connect) (mk_pool p n i j) = Some (mk_pool p (n + Z.of_nat k) i (j + Z.of_nat k)).
Proof.
  revert n j. induction k as [|k IH]; intros n j; cbn [replicate pool_execs pool_exec]; [by rewrite !Z.add_0_r|].
  cbn [mbind option_bind]. rewrite IH. do 2 f_equal; lia.
Qed.

Lemma registered_execs k p n i j : 0 <= j ->
  pool_execs (replicate k Registered) (mk_pool p n i (j + Z.of_nat k))
  = Some (mk_pool (with_starting (p.(base_).(starting_worker_count_) - Z.of_nat k) p) n i j).
Proof.
  intros Hj. revert p. induction k as [|k IH]; intros p; cbn [replicate pool_execs pool_exec].
  - rewrite Z.add_0_r, Z.sub_0_r. by rewrite with_starting_id.
  - destruct (Z.ltb_spec 0 (j + Z.of_nat (S k))); [|lia]. cbn [mbind option_bind].
    replace (j + Z.of_nat (S k) - 1) with (j + Z.of_nat k) by lia. rewrite IH. do 2 f_equal.
    unfold registered_a_new_worker. rewrite with_starting_twice. cbn [with_starting base_ starting_worker_count_]. f_equal. lia.
Qed.

(** A tick whose workers all connect, with the handlers this posts. *)
Definition round (s : pool) : list pool_event :=
  let k := Z.to_nat (get_ideal_worker_count_delta s.(workers_) s.(policy)) in
  Create :: replicate k Starting ++ replicate k Connect ++ replicate k Registered.

Fixpoint rounds (k : nat) (s : pool) : option pool :=
  match k with
  | O => Some s
  | S k => s ← pool_execs (round s) s; rounds k s
  end.

Lemma round_execs p n : pool_execs (round (mk_pool p n 0 0)) (mk_pool p n 0 0)
  = Some (mk_pool p (n + get_ideal_worker_count_delta n p) 0 0).
Proof.
  unfold round. cbn [workers_ policy]. set (d := get_ideal_worker_count_delta n p).
  assert (0 <= d) by (unfold d, get_ideal_worker_count_delta; lia).
  cbn [pool_execs pool_exec]. rewrite create_spec. cbn [mbind option_bind workers_ policy posted_starting posted_registered]. fold d.
  rewrite <- (Z2Nat.id d) at 4 by done. rewrite pool_execs_app, starting_execs by done. cbn [mbind option_bind].
  rewrite pool_execs_app, connect_execs. cbn [mbind option_bind]. rewrite registered_execs by done. rewrite with_starting_twice.
  cbn [with_starting base_ starting_worker_count_]. rewrite Z2Nat.id by done. do 2 f_equal.
  rewrite Z.add_simpl_r. apply with_starting_id.
Qed.

(** Ticks at which no handler has run in between start the same workers again. *)
Lemma ticks_without_handlers k p n j : pool_execs (replicate k Create) (mk_pool p n 0 j)
  = Some (mk_pool p n (Z.of_nat k * get_ideal_worker_count_delta n p) j).
Proof.
  assert (forall i, pool_execs (replicate k Create) (mk_pool p n i j) = Some (mk_pool p n (i + Z.of_nat k * get_ideal_worker_count_delta n p) j)) as H.
  { induction k as [|k IH]; intros i; cbn [replicate pool_execs pool_exec]; [do 2 f_equal; lia|]. rewrite create_spec.
    cbn [mbind option_bind workers_ policy posted_starting posted_registered]. rewrite IH. do 2 f_equal. lia. }
  apply H.
Qed.

(** A fixed pool that workers of another proxy have filled starts its whole size again:
    the counter of starts that are outstanding is below zero. *)
Lemma outsiders_overfill k max : (0 <= max) -> pool_reaches false (mk_pool (new_fix_pool max (Z.of_nat k)) 0 0 0)
  (mk_pool (with_starting (- Z.of_nat k) (new_fix_pool max (Z.of_nat k))) (2 * Z.of_nat k) 0 0).
Proof.
  intros Hmax. set (p := new_fix_pool max (Z.of_nat k)). set (q := with_starting (- Z.of_nat k) p).
  assert (pool_execs (replicate k Connect ++ replicate k Registered) (mk_pool p 0 0 0) = Some (mk_pool q (Z.of_nat k) 0 0)) as E1.
  { rewrite pool_execs_app, connect_execs. cbn [mbind option_bind]. by rewrite registered_execs. }
  pose proof (round_execs q (Z.of_nat k)) as E2. unfold round in E2. cbn [workers_ policy] in E2.
  assert (get_ideal_worker_count_delta (Z.of_nat k) q = Z.of_nat k) as Ed.
  { unfold get_ideal_worker_count_delta, q, p. cbn. lia. }
  rewrite Ed, Nat2Z.id in E2. cbn [pool_execs] in E2.
  destruct (pool_exec Create (mk_pool q (Z.of_nat k) 0 0)) as [s1|] eqn:Ec; [|done]. cbn [mbind option_bind] in E2.
  assert (forall e, Create <> e -> Create ∉ replicate k e) as Hn by (intros e He [E _]%elem_of_replicate; congruence).
  replace (2 * Z.of_nat k) with (Z.of_nat k + Z.of_nat k) by lia.
  refine (reaches_execs _ _ s1 _ _ _ E2); [|rewrite !not_elem_of_app; by split_and!; apply Hn].
  eapply reaches_step; [|exact Ec|done|done]. refine (reaches_execs _ _ _ _ (reaches_start _ _) _ E1).
  rewrite !not_elem_of_app. by split; apply Hn.
Qed.

(** ** Properties *)

(** C22. No policy starts more workers at a time than it may.  In every run in which a
    second is enough for the handlers that a tick posts, whatever requests come and finish
    and whatever workers connect and leave, the workers that were started and have not
    connected, less the ones that connected without being started here, are at most
    [max_outstanding_starting_request]; the workers of a fixed pool are at most its size
    less this number.  So while only workers that the proxy started connect ([own]) a fixed
    pool never has more workers, the awaited ones included, than its size.  With workers
    that another proxy started and told to join it does: a fixed pool of any size, filled
    by such workers, then starts its whole size again and has twice its size.  (Without the
    second, ticks start the same workers again: see [ticks_without_handlers].) *)
Theorem starts_bounded own p n s (Hs : p.(base_).(starting_worker_count_) = 0) (Hm : 0 <= p.(base_).(max_outstanding_starting_request_))
    (Hn : 0 <= n) (Hf : p.(class_) = fix_pool -> n <= p.(base_).(default_pool_value_)) (Hr : pool_reaches own (mk_pool p n 0 0) s) :
  awaited s <= p.(base_).(max_outstanding_starting_request_) /\ 0 <= s.(workers_) /\
  (p.(class_) = fix_pool -> s.(workers_) + awaited s <= p.(base_).(default_pool_value_)) /\
  (own = true -> 0 <= awaited s) /\
  (forall max k, 0 <= max -> exists s', pool_reaches false (mk_pool (new_fix_pool max (Z.of_nat k)) 0 0 0) s' /\
    s'.(workers_) = 2 * Z.of_nat k).
Proof.
  destruct (starts_in_bounds own p n s Hs Hm Hn Hf Hr) as (H1 & H2 & H3 & H4). split_and!; [done..|].
  intros max k Hmax. eexists. split; [by apply outsiders_overfill|done].
Qed.

(** A fixed pool fills: round after round of a tick whose workers connect, it grows by
    [max_outstanding] workers until it has its size, and then starts no more. *)
Theorem fix_pool_fills k max size n (Hmax : 0 < max) (Hn : 0 <= n <= size) :
  rounds k (mk_pool (new_fix_pool max size) n 0 0)
  = Some (mk_pool (new_fix_pool max size) (Z.min size (n + Z.of_nat k * max)) 0 0).
Proof.
  revert n Hn. induction k as [|k IH]; intros n Hn; cbn [rounds]; [do 2 f_equal; lia|].
  rewrite round_execs. cbn [mbind option_bind].
  assert (get_ideal_worker_count_delta n (new_fix_pool max size) = Z.min (size - n) max) as ->
    by (unfold get_ideal_worker_count_delta, get_ideal_worker_count; cbn; lia).
  rewrite IH by lia. do 2 f_equal. lia.
Qed.

(** Starts that fail are never forgotten: the count of workers being started goes down
    only when one registers, so once [max_outstanding] starts have failed no worker is
    started any more, however many requests wait. *)
Theorem failed_starts_stop es s s' (Hm : s.(policy).(base_).(max_outstanding_starting_request_) <= s.(policy).(base_).(starting_worker_count_))
    (Hes : Registered ∉ es) (E : pool_execs es s = Some s') :
  s'.(policy).(base_).(starting_worker_count_) + s'.(posted_starting) = s.(policy).(base_).(starting_worker_count_) + s.(posted_starting) /\
  get_ideal_worker_count_delta s'.(workers_) s'.(policy) = 0.
Proof.
  revert s Hm E. induction es as [|e es IH]; intros s Hm E.
  - injection E as <-. split; [done|]. unfold get_ideal_worker_count_delta. lia.
  - apply not_elem_of_cons in Hes as [He Hes]. cbn [pool_execs] in E. destruct (pool_exec e s) as [s1|] eqn:E1; [|done].
    cbn [mbind option_bind] in E. pose proof (pool_exec_frame _ _ _ E1) as [F1 _ _].
    apply pool_exec_effect in E1 as (H1 & _ & H2 & _).
    assert (get_ideal_worker_count_delta s.(workers_) s.(policy) = 0) as Hd by (unfold get_ideal_worker_count_delta; lia).
    rewrite Hd in H2. destruct (IH Hes s1) as (H3 & H4); [rewrite F1; destruct e; congruence || lia|done|].
    split; [|done]. rewrite H3. destruct e; congruence || lia.
Qed.

(** The ring buffer is a moving average: after any inputs, whatever the buffer has
    wrapped around, [get_sma] is the rounded mean of the last [N] of them (zeros standing
    for those that have not come), as long as their sum fits 32 bits. *)
Theorem sma_is_moving_average n xs (Hn : (0 < n)%nat) (Hx : Forall (fun x => 0 <= x) xs)
    (Hsum : total (drop (length xs) (replicate n 0 ++ xs)) + Z.of_nat n / 2 < 2 ^ 32) :
  get_sma (foldl (fun s x => record x s) (new_sma n) xs)
  = (total (drop (length xs) (replicate n 0 ++ xs)) + Z.of_nat n / 2) / Z.of_nat n.
Proof.
  destruct (records_window xs (new_sma n) (new_sma_ok n)) as (H1 & H2 & H3). cbv zeta in *.
  assert ((new_sma n).(N) = n) as En by (unfold new_sma; destruct (Nat.eqb_spec n 0); [lia|done]).
  assert (window (new_sma n) = replicate n 0) as Ew.
  { unfold window. assert ((new_sma n).(index) = 0%nat) as -> by done. cbn. rewrite drop_0, app_nil_r. unfold new_sma.
    destruct (Nat.eqb_spec n 0); [lia|done]. }
  rewrite Ew in H3. rewrite get_sma_window; [by rewrite H2, H3, En|done| |by rewrite H2, H3, En].
  rewrite H3. apply sum_total_nonneg, Forall_drop, Forall_app. split; [|done]. clear. induction n; by constructor.
Qed.

(** A keep-alive reaches the timer: whatever the policy sends, the data function that
    reads the packet takes exactly this time as its new waiting time. *)
Theorem keepalive_sets_timer salt sequence ms d (Hms : 0 <= ms < 2 ^ 32) :
  exists d', proxy_command.command (send_worker_keepalive salt sequence ms) d = Some d' /\
    d'.(proxy_command.waittime_) = ms /\ d'.(proxy_command.last_update_) = d.(proxy_command.last_update_).
Proof.
  unfold proxy_command.command. change (of_code _) with (Some set_timer). cbv iota. unfold send_worker_keepalive. cbn [data].
  rewrite mem_get_all by (by rewrite length_le_bytes). cbn [mbind option_bind]. eexists. split; [reflexivity|]. split; [|done].
  cbn [proxy_command.waittime_]. rewrite le_val_le_small; [apply ntoh_hton; [auto|done]|].
  rewrite hton_bswap by auto. apply bswap_range.
Qed.

(** Without debug records a moving interval never moves: the interval is recorded by
    an argument of a logging statement, so when debug records are filtered out every
    worker keeps the average it began with, however its jobs come. *)
Theorem interval_recorded_by_logging k times w (Hw : is_Some (k.(last_request_) !! w)) with_margin :
  let k' := foldl (fun k now => moving_started_a_new_job false now w k) k times in
  k'.(wait_times_) = k.(wait_times_) /\
  set_worker_keepalive with_margin w k' = set_worker_keepalive with_margin w k.
Proof.
  cbv zeta. revert k Hw. induction times as [|now times IH]; intros k Hw; [done|]. cbn [foldl].
  destruct Hw as [last Hlast]. set (k1 := moving_started_a_new_job false now w k).
  assert (k1.(wait_times_) = k.(wait_times_) /\ k1.(default_wait_time_) = k.(default_wait_time_) /\
    k1.(concurrency_threshold) = k.(concurrency_threshold) /\ is_Some (k1.(last_request_) !! w)) as (E1 & E2 & E3 & E4).
  { unfold k1, moving_started_a_new_job. rewrite Hlast, andb_false_r. cbn. rewrite lookup_insert_eq. by eauto. }
  destruct (IH k1 E4) as [IH1 IH2]. split; [congruence|]. rewrite IH2. unfold set_worker_keepalive. by rewrite E1, E2, E3.
Qed.

(** The keep-alive of a moving interval divides by zero only for a zero threshold. *)
Lemma keepalive_defined with_margin w k : 0 < k.(concurrency_threshold) ->
  (forall sma, k.(wait_times_) !! w = Some sma -> 0 <= get_sma sma) -> is_Some (set_worker_keepalive with_margin w k).
Proof.
  intros Ht Hs. unfold set_worker_keepalive. destruct (k.(wait_times_) !! w) as [sma|] eqn:E; [|done].
  specialize (Hs sma eq_refl). destruct (Z.ltb_spec (get_sma sma) k.(concurrency_threshold)); [done|].
  destruct (100 <? get_sma sma); [done|]. destruct (Z.eqb_spec (get_sma sma) 0); [lia|done].
Qed.

(** [random_assign] keeps the promise of a policy that answers: a worker it finds is a
    valid one of the set, and it finds one as soon as one is drawn. *)
Lemma random_assign_valid draws s : match random_assign draws s with
  | Some (Some w) => w ∈ s.(worker_set_) /\ is_valid s w = true
  | Some None => s.(worker_set_) = []
  | None => forall d w, d ∈ draws -> s.(worker_set_) !! (d mod length s.(worker_set_))%nat = Some w -> is_valid s w = false
  end.
Proof.
  unfold random_assign. destruct s.(worker_set_) as [|w0 ws] eqn:E; [done|]. rewrite <- E.
  assert (0 < length s.(worker_set_))%nat as Hl by (rewrite E; cbn; lia). clear E.
  induction draws as [|d draws IH]; [intros d w Hd; by apply elem_of_nil in Hd|]. cbn [draw_valid].
  destruct (s.(worker_set_) !! (d mod length s.(worker_set_))%nat) as [pick|] eqn:Ep; cbn [mbind option_bind].
  - destruct (is_valid s pick) eqn:Ev; [cbn; split; [by eapply list_elem_of_lookup_2|done]|].
    destruct (draw_valid draws s) as [w|]; cbn in IH |- *; [done|].
    intros d' w [->|Hd]%elem_of_cons Hw; [congruence|by eapply IH].
  - apply lookup_ge_None in Ep. pose proof (Nat.mod_upper_bound d (length s.(worker_set_))). lia.
Qed.

(** Under [active_lowest_load] a busy file loses its worker: the first job of a worker
    is not counted for its file, so after two jobs the end of one takes the count to
    zero and erases the binding while the other is still under way. *)
Theorem active_unbinds_busy_file a w v k (Hw : a.(worker_file_map_) !! w = None) (Hk : a.(fileid_to_worker) !! k = Some v) :
  let a' := active_finished w k (active_started w k (active_started w k a)) in
  active_get_assigned_worker k a' = None /\
  (a.(transfering_) = ∅ -> active_get_assigned_worker k (active_started w k (active_started w k a)) = Some v).
Proof.
  cbv zeta. unfold active_started at 2. rewrite Hw. unfold active_started at 1. cbn [worker_file_map_]. rewrite lookup_insert_eq. cbn [file_counter].
  rewrite lookup_empty. unfold active_finished. cbn [worker_file_map_]. rewrite lookup_insert_eq. cbn [file_counter]. rewrite lookup_insert_eq.
  split.
  - cbn. unfold active_get_assigned_worker. cbn. case_decide; [done|apply lookup_delete_eq].
  - intros Ht. unfold active_started. rewrite Hw. cbn [worker_file_map_]. rewrite lookup_insert_eq.
    unfold active_get_assigned_worker. cbn. rewrite Ht, decide_False by set_solver. exact Hk.
Qed.

(** ** Concrete pools, averages and files *)

Definition small_pool : pool := mk_pool (new_fix_pool 2 3) 0 0 0.

(** [small_pool] after a tick, the two starts, a connection and its registration. *)
Definition small_pools : list pool :=
  [ mk_pool (new_fix_pool 2 3) 0 2 0; mk_pool (with_starting 1 (new_fix_pool 2 3)) 0 1 0;
    mk_pool (with_starting 2 (new_fix_pool 2 3)) 0 0 0; mk_pool (with_starting 2 (new_fix_pool 2 3)) 1 0 1;
    mk_pool (with_starting 1 (new_fix_pool 2 3)) 1 0 0 ].

Lemma starts_bounded_witness : exists s, pool_execs [Create; Starting; Starting; Connect; Registered; Create] small_pool = Some s /\
  awaited s = 2 /\ 0 <= awaited s <= 2 /\ s.(workers_) + awaited s <= 3.
Proof.
  eexists. split; [reflexivity|]. split; [reflexivity|].
  destruct (starts_bounded true (new_fix_pool 2 3) 0 (mk_pool (with_starting 1 (new_fix_pool 2 3)) 1 1 0)) as (H1 & _ & H2 & H3 & _); [reflexivity|done|done|done| |].
  - apply (reaches_step true _ Create (nth 4%nat small_pools small_pool)); [|reflexivity|by cbn|done].
    apply (reaches_step true _ Registered (nth 3%nat small_pools small_pool)); [|reflexivity|by cbn|done].
    apply (reaches_step true _ Connect (nth 2%nat small_pools small_pool)); [|reflexivity|by cbn|done].
    apply (reaches_step true _ Starting (nth 1%nat small_pools small_pool)); [|reflexivity|by cbn|done].
    apply (reaches_step true _ Starting (nth 0%nat small_pools small_pool)); [|reflexivity|by cbn|done].
    apply (reaches_step true _ Create small_pool); [apply reaches_start|reflexivity|by cbn|done].
  - split; [split; [by apply H3|apply H1]|apply H2; reflexivity].
Defined.

Lemma fix_pool_fills_witness : rounds 2 small_pool = Some (mk_pool (new_fix_pool 2 3) 3 0 0).
Proof. apply (fix_pool_fills 2 2 3 0); lia. Defined.

Lemma failed_starts_stop_witness :
  let s := mk_pool (with_starting 2 (new_fix_pool 2 3)) 0 0 0 in
  exists s', pool_execs [Schedule 80; Create; Reschedule; Create] s = Some s' /\ get_ideal_worker_count_delta s'.(workers_) s'.(policy) = 0.
Proof.
  cbv zeta. set (s := mk_pool _ 0 0 0). destruct (pool_execs [Schedule 80; Create; Reschedule; Create] s) as [s'|] eqn:E; [|discriminate E].
  exists s'. split; [reflexivity|].
  apply (failed_starts_stop [Schedule 80; Create; Reschedule; Create] s s'); [done| |exact E].
  by apply (bool_decide_unpack (Registered ∉ [Schedule 80; Create; Reschedule; Create])).
Defined.

Lemma sma_is_moving_average_witness : get_sma (foldl (fun s x => record x s) (new_sma 3) [10; 20; 30; 40; 50]) = (120 + 1) / 3.
Proof. rewrite (sma_is_moving_average 3 [10; 20; 30; 40; 50]); [reflexivity|lia|repeat constructor; lia|by vm_compute]. Defined.

Lemma keepalive_sets_timer_witness : exists d', proxy_command.command (send_worker_keepalive [x01] [x01] 10000) df_function = Some d' /\
  d'.(proxy_command.waittime_) = 10000.
Proof.
  destruct (keepalive_sets_timer [x01] [x01] 10000 df_function) as (d' & E & Hd & _); [lia|]. by exists d'.
Defined.

Definition one_interval : moving_interval := mk_moving 4 10000 5 {[7%nat := record 10000 (new_sma 4)]} {[7%nat := 0]}.

Lemma interval_recorded_by_logging_witness :
  set_worker_keepalive id 7 (foldl (fun k now => moving_started_a_new_job false now 7 k) one_interval [100; 200; 300]) = Some (Some 2500).
Proof.
  destruct (interval_recorded_by_logging one_interval [100; 200; 300] 7 (ltac:(eexists; apply lookup_insert_eq)) id) as [_ ->].
  by vm_compute.
Defined.

Lemma active_unbinds_busy_file_witness :
  let a := mk_active {[ [x01] := 7%nat ]} [] ∅ ∅ in
  active_get_assigned_worker [x01] (active_finished 7 [x01] (active_started 7 [x01] (active_started 7 [x01] a))) = None.
Proof. apply (active_unbinds_busy_file _ 7 7 [x01]); reflexivity. Defined.
