(* ===== verification/Direct.v ===== *)
(** * Direct communication ([functions/datafunction/tcp-server.hpp],
    [clients/clientlib-direct-client.hpp], [clients/clientlib-client-pool.hpp])

    A data function listens for clients of its own; a client asks the proxy for the
    address of the function that serves a file and then talks to it.  The first part is
    the function's side, the second the client's, the third the pool that shares clients
    among threads. *)
From Stdlib Require Import ZArith Lia.
From stdpp Require Import base tactics option list gmap strings.
From S2P Require Import Prelude Wire KvLog Ssbd Request Stripe Coordinator Cluster Directory Filesystem Cache Launcher Client Worker DataFunction Ring Server.
Import pack.

(** ** The function's side *)

(** [direct_client_connection]: the bytes received and not read yet, whether its read
    loop goes on, the packets handed to its writer. *)
Record direct_connection := mk_direct { received : bytes; listening : bool; handed : list packet }.

Section tcp_server.
Context {D : Type} `{KVStore D}.
Variable pick : bytes -> Z -> Z -> Z.
Variable cfg : Coordinator.config.
Variable salts : Z -> bytes.
Variable shuffle : forall A : Type, list A -> list A.
Variable format_time : Z -> bytes.
Variables salt sequence uninitialised : bytes.
Variable cache_cfg : Cache.config.
Variable enable_cache_ : bool.
(** [use_async] of the storage. *)
Variable use_async : bool.

(** [direct_jobs]: the lambdas of [start_job], each on the strand of its key. *)
Record tcp_server := mk_tcp_server {
  accepted : gmap nat direct_connection; direct_jobs : list (nat * packet); function : function_state (D := D)
}.

Definition with_accepted c x s := mk_tcp_server (<[c := x]> s.(accepted)) s.(direct_jobs) s.(function).

Definition hand (c : nat) (p : packet) (s : tcp_server) : option tcp_server :=
  x ← s.(accepted) !! c;
  Some (with_accepted c (mk_direct x.(received) x.(listening) (x.(handed) ++ [p])) s).

Fixpoint hand_all (c : nat) (ps : list packet) (s : tcp_server) : option tcp_server :=
  match ps with
  | [] => Some s
  | p :: ps => s ← hand c p s; hand_all c ps s
  end.

(** One round of the read loop: only a trigger is read with its body; a type that is no
    enumerator matches no case and nothing is read any more. *)
Definition start_read_header (c : nat) (s : tcp_server) : option tcp_server :=
  x ← s.(accepted) !! c;
  if x.(listening) then
    '(hb, rest) ← read_n bytesize x.(received);
    h ← parse hb;
    match of_code h.(type) with
    | Some trigger =>
        '(body, rest) ← read_n (Z.to_nat h.(datasize)) rest;
        Some (mk_tcp_server (<[c := mk_direct rest true x.(handed)]> s.(accepted)) (s.(direct_jobs) ++ [(c, mk_packet h body)]) s.(function))
    | Some _ => hand c (mk_packet (set_type err h) []) (with_accepted c (mk_direct rest true x.(handed)) s)
    | None => Some (with_accepted c (mk_direct rest false x.(handed)) s)
    end
  else None.

(** The lambda of [start_job (pack, next)], with the continuation of [start_trigger],
    which is the one of [start_job (pack)] for a storage that answers later
    ([respond]); for a storage that answers at once there is no branch. *)
Definition run_direct_job (now version : Z) (c : nat) (p : packet) (s : tcp_server) : option tcp_server :=
  if use_async then
    '(f, answers) ← start_job pick cfg salts shuffle format_time salt sequence uninitialised cache_cfg enable_cache_ now version p s.(function);
    hand_all c answers (mk_tcp_server s.(accepted) s.(direct_jobs) f)
  else Some s.

(** The strand of a key runs its jobs in the order they were posted. *)
Definition first_of_key (i : nat) (p : packet) (s : tcp_server) : bool :=
  forallb (fun j => negb (bool_decide (j.2.(header).(key) = p.(header).(key)))) (take i s.(direct_jobs)).

Inductive direct_event :=
| DirectAccept
| DirectReceive (c : nat) (b : bytes)
| DirectRead (c : nat)
| DirectFails (c : nat)
| DirectJob (i : nat) (now version : Z).

Definition direct_exec (e : direct_event) (s : tcp_server) : option tcp_server :=
  match e with
  | DirectAccept => Some (with_accepted (fresh (dom s.(accepted))) (mk_direct [] true []) s)
  | DirectReceive c b => x ← s.(accepted) !! c; Some (with_accepted c (mk_direct (x.(received) ++ b) x.(listening) x.(handed)) s)
  | DirectRead c => start_read_header c s
  | DirectFails c => x ← s.(accepted) !! c; Some (with_accepted c (mk_direct x.(received) false x.(handed)) s)
  | DirectJob i now version =>
      '(c, p) ← s.(direct_jobs) !! i;
      if first_of_key i p s then run_direct_job now version c p (mk_tcp_server s.(accepted) (delete i s.(direct_jobs)) s.(function)) else None
  end.

Fixpoint direct_execs (es : list direct_event) (s : tcp_server) : option tcp_server :=
  match es with
  | [] => Some s
  | e :: es => s ← direct_exec e s; direct_execs es s
  end.

End tcp_server.

(** ** The client's side *)

#[global] Instance endpoint_eq_dec : EqDecision Ring.endpoint.
Proof. solve_decision. Defined.
#[global] Instance endpoint_countable : Countable Ring.endpoint.
Proof. by apply (inj_countable' (fun e => (e.(ip), e.(port))) (fun '(i, p) => mk_endpoint i p)); intros []. Defined.

(** A [tcp::socket]: whether it is open, the peer it is connected to, what it received
    and nobody has read. *)
Record tcp_socket := mk_socket { is_open : bool; peer : option Ring.endpoint; unread : bytes }.

(** [direct_client]; a shared pointer to a socket is its place in the list. *)
Record direct_client := mk_direct_client {
  sockets : list tcp_socket; df_connection_map_ : gmap bytes nat; endpoint_socket_map_ : gmap Ring.endpoint nat
}.

(** What happens during one attempt: what [client_.send] returns ([None]: it throws);
    how [connect] ends ([Refused] leaves the socket open, [NoSocket] could not open
    one); whether the request can be written, and what arrives before the connection
    ends; whether [remote_endpoint] still knows the peer after that. *)
Inductive connect_outcome := Connected | Refused | NoSocket.
Record net := mk_net { proxy_answer : option bytes; connect : connect_outcome; writable : bool; arrives : bytes; knows_peer : bool }.

(** The request sent to the proxy: the header, no data. *)
Definition address_request (p : packet) : packet := mk_packet (set_direct_communication true p.(header)) [].

Definition parse_address (raw_buffer : bytes) : option Ring.endpoint :=
  host ← mem_get 0 4 raw_buffer;
  port ← mem_get 4 2 raw_buffer;
  Some (mk_endpoint host (hton 2 (le_val port))).

(** The second of a pair is [None] for an exception; [None] outside is undefined. *)
Definition add_endpoint (e : net) (ep : Ring.endpoint) (k : bytes) (s : direct_client) : direct_client * option nat :=
  let known := n ← s.(endpoint_socket_map_) !! ep; sk ← s.(sockets) !! n; if sk.(is_open) then Some n else None in
  match known with
  | Some n => (mk_direct_client s.(sockets) (emplace k n s.(df_connection_map_)) s.(endpoint_socket_map_), Some n)
  | None =>
      let n := length s.(sockets) in
      let df := emplace k n s.(df_connection_map_) in
      match e.(connect) with
      | Connected => (mk_direct_client (s.(sockets) ++ [mk_socket true (Some ep) []]) df (emplace ep n s.(endpoint_socket_map_)), Some n)
      | Refused => (mk_direct_client (s.(sockets) ++ [mk_socket true None []]) df s.(endpoint_socket_map_), None)
      | NoSocket => (mk_direct_client (s.(sockets) ++ [mk_socket false None []]) df s.(endpoint_socket_map_), None)
      end
  end.

Definition get_direct_worker_socket (e : net) (p : packet) (s : direct_client) : option (direct_client * option nat) :=
  let k := p.(header).(key) in
  let known := n ← s.(df_connection_map_) !! k; sk ← s.(sockets) !! n; if sk.(is_open) then Some n else None in
  match known with
  | Some n => Some (s, Some n)
  | None =>
      match e.(proxy_answer) with
      | None => Some (s, None)
      | Some raw_buffer => ep ← parse_address raw_buffer; Some (add_endpoint e ep k s)
      end
  end.

(** Both reads of [send_request]: the data of the first packet, and what is left. *)
Definition read_answer (b : bytes) : option (bytes * bytes) :=
  '(headerbuf, rest) ← read_n bytesize b;
  h ← parse headerbuf;
  read_n (Z.to_nat h.(datasize)) rest.

Definition send_request (e : net) (p : packet) (s : direct_client) : option (direct_client * option bytes) :=
  '(s, selected) ← get_direct_worker_socket e p s;
  match selected with
  | None => Some (s, None)
  | Some n =>
      sk ← s.(sockets) !! n;
      match (if bool_decide (is_Some sk.(peer)) && e.(writable) then read_answer (sk.(unread) ++ e.(arrives)) else None) with
      | Some (data, rest) =>
          Some (mk_direct_client (<[n := mk_socket sk.(is_open) sk.(peer) rest]> s.(sockets)) s.(df_connection_map_) s.(endpoint_socket_map_), Some data)
      | None =>
          let df := delete p.(header).(key) s.(df_connection_map_) in
          let eps := match sk.(peer) with
                     | Some ep => if e.(knows_peer) then delete ep s.(endpoint_socket_map_) else s.(endpoint_socket_map_)
                     | None => s.(endpoint_socket_map_)
                     end in
          Some (mk_direct_client s.(sockets) df eps, None)
      end
  end.

(** [direct_client::send]: the answer ([None]: the last exception) and the attempts. *)
Fixpoint direct_send_loop (fuel : nat) (retry_count : Z) (env : nat -> net) (p : packet) (attempt : nat) (s : direct_client)
    : option (direct_client * option bytes * nat) :=
  match fuel with
  | O => None
  | S fuel =>
      '(s, r) ← send_request (env attempt) p s;
      match r with
      | Some data => Some (s, Some data, S attempt)
      | None => if retry_count >? 3 then Some (s, None, S attempt)
                else direct_send_loop fuel (retry_count + 1) env p (S attempt) s
      end
  end.

Definition direct_send (env : nat -> net) (p : packet) (s : direct_client) := direct_send_loop 6 0 env p 0 s.

(** ** The pool of clients *)

(** A thread in [client_pool::send]: not in it, drawing clients, or holding the lock of
    one.  [locked]: the mutexes. *)
Inductive pool_thread := Outside | Drawing | Holding (i : nat).
Record client_pool := mk_client_pool { locked : list bool; threads : gmap nat pool_thread }.

Definition new_pool (pool_size : nat) : client_pool := mk_client_pool (replicate pool_size false) ∅.

Definition thread (t : nat) (s : client_pool) : pool_thread := default Outside (s.(threads) !! t).

(** A thread enters [send], tries the client it has drawn ([at] throws out of range),
    or leaves, by a return or an exception, and [SCOPE_DEFER] unlocks. *)
Inductive pool_step := Enter (t : nat) | Draw (t i : nat) | Leave (t : nat).

Definition client_pool_exec (e : pool_step) (s : client_pool) : option client_pool :=
  match e with
  | Enter t => match thread t s with Outside => Some (mk_client_pool s.(locked) (<[t := Drawing]> s.(threads))) | _ => None end
  | Draw t i =>
      match thread t s with
      | Drawing =>
          l ← s.(locked) !! i;
          Some (if (l : bool) then s else mk_client_pool (<[i := true]> s.(locked)) (<[t := Holding i]> s.(threads)))
      | _ => None
      end
  | Leave t =>
      match thread t s with
      | Holding i => Some (mk_client_pool (<[i := false]> s.(locked)) (<[t := Outside]> s.(threads)))
      | _ => None
      end
  end.

Fixpoint client_pool_execs (es : list pool_step) (s : client_pool) : option client_pool :=
  match es with
  | [] => Some s
  | e :: es => s ← client_pool_exec e s; client_pool_execs es s
  end.

(** ** The client's state *)

(** Every socket of the maps is there and open or never opened, and the one kept for an
    endpoint is connected to it. *)
Record direct_ok (s : direct_client) : Prop := {
  do_files : forall k n, s.(df_connection_map_) !! k = Some n -> (n < length s.(sockets))%nat;
  do_endpoints : forall ep n, s.(endpoint_socket_map_) !! ep = Some n ->
    exists b, s.(sockets) !! n = Some (mk_socket true (Some ep) b);
  do_peers : forall n sk, s.(sockets) !! n = Some sk -> is_Some sk.(peer) -> sk.(is_open) = true
}.

(** A proxy that answers at all answers with an address. *)
Definition addresses (env : nat -> net) : Prop :=
  forall i raw, (env i).(proxy_answer) = Some raw -> (6 <= length raw)%nat.

Lemma parse_address_some raw : (6 <= length raw)%nat -> is_Some (parse_address raw).
Proof.
  intros Hl. unfold parse_address. rewrite !mem_get_Some by lia. by eexists.
Qed.

(** The address a function registers under is the one its clients read. *)
Lemma parse_address_roundtrip ep : length ep.(ip) = 4%nat -> 0 <= ep.(port) < 2 ^ 16 ->
  parse_address (ep.(ip) ++ le_bytes 2 (hton 2 ep.(port))) = Some ep.
Proof.
  intros Hi Hp. unfold parse_address. rewrite mem_get_app_exact by done. cbn [mbind option_bind].
  rewrite <- (app_nil_r (_ ++ _)), <- (assoc_L (++)). rewrite mem_get_app_r by lia. rewrite Hi. cbn [Nat.sub].
  rewrite mem_get_app_exact by (by rewrite length_le_bytes). cbn [mbind option_bind].
  rewrite le_val_le_small by (rewrite hton_bswap by auto; apply bswap_range).
  change (hton 2 (hton 2 (port ep))) with (ntoh 2 (hton 2 (port ep))). rewrite ntoh_hton by auto. by destruct ep.
Qed.

(** [send_request] keeps the state well formed and is defined. *)
Lemma add_endpoint_ok e ep k s : direct_ok s ->
  let '(s', r) := add_endpoint e ep k s in
  direct_ok s' /\ forall n, r = Some n -> exists b, s'.(sockets) !! n = Some (mk_socket true (Some ep) b).
Proof.
  intros [H1 H2 H3]. unfold add_endpoint.
  assert (forall m k n sk, emplace (K := bytes) k (length s.(sockets)) s.(df_connection_map_) !! m = Some n ->
    (n < length (s.(sockets) ++ [sk]))%nat) as Hdf.
  { intros m k' n sk [[_ ->]|E]%emplace_inv; rewrite length_app; cbn; [lia|]. apply H1 in E. lia. }
  assert (forall n sk sk0, s.(sockets) !! n = Some sk0 -> (s.(sockets) ++ [sk]) !! n = Some sk0) as Hold
    by (intros; by apply lookup_app_l_Some).
  assert (forall sk, (is_Some sk.(peer) -> sk.(is_open) = true) -> forall n sk', (s.(sockets) ++ [sk]) !! n = Some sk' ->
    is_Some sk'.(peer) -> sk'.(is_open) = true) as Hnew.
  { intros sk Hsk n sk' [E|[_ E]]%lookup_app_Some; [by eapply H3|]. apply list_lookup_singleton_Some in E as [_ <-]. done. }
  destruct (s.(endpoint_socket_map_) !! ep) as [n|] eqn:En; cbn [mbind option_bind].
  - destruct (H2 _ _ En) as (b & Eb). rewrite Eb. cbn [mbind option_bind is_open]. split; [|by intros ? [= <-]; exists b].
    split; cbn; [|done|done]. intros k' n' [[_ ->]|E]%emplace_inv; [by eapply lookup_lt_Some|by eapply H1].
  - destruct e.(connect); (split; [split; cbn; [by intros; eapply Hdf| |apply Hnew; by intros [? [=]]]|]); cbn; try done.
    + intros ep' n [[-> ->]|E]%emplace_inv; [exists []; by rewrite lookup_app_r, Nat.sub_diag by done|].
      destruct (H2 _ _ E) as (b & Eb). exists b. by apply Hold.
    + intros n [= <-]. exists []. by rewrite lookup_app_r, Nat.sub_diag by done.
    + intros ep' n E. destruct (H2 _ _ E) as (b & Eb). exists b. by apply Hold.
    + intros ep' n E. destruct (H2 _ _ E) as (b & Eb). exists b. by apply Hold.
Qed.

Lemma get_socket_ok e p s : direct_ok s -> (forall raw, e.(proxy_answer) = Some raw -> (6 <= length raw)%nat) ->
  exists s' r, get_direct_worker_socket e p s = Some (s', r) /\ direct_ok s' /\
    forall n, r = Some n -> is_Some (s'.(sockets) !! n).
Proof.
  intros Hs He. unfold get_direct_worker_socket. cbv zeta.
  destruct (s.(df_connection_map_) !! p.(header).(key)) as [n|] eqn:En; cbn [mbind option_bind];
    [destruct (lookup_lt_is_Some_2 _ _ (do_files _ Hs _ _ En)) as [sk Esk]; rewrite Esk; cbn [mbind option_bind]; destruct sk.(is_open)|].
  1: { exists s, (Some n). split; [done|]. split; [done|]. intros ? [= <-]. by eexists. }
  all: destruct e.(proxy_answer) as [raw|]; [|by exists s, None].
  all: destruct (parse_address_some raw) as [ep ->]; [by apply He|]; cbn [mbind option_bind].
  all: pose proof (add_endpoint_ok e ep p.(header).(key) s Hs) as Ha; destruct (add_endpoint _ _ _ _) as [s' r]; destruct Ha as [Hok Hr].
  all: exists s', r; split; [done|]; split; [done|]; intros m Em; destruct (Hr m Em) as (b & ->); by eexists.
Qed.

Lemma send_request_ok e p s : direct_ok s -> (forall raw, e.(proxy_answer) = Some raw -> (6 <= length raw)%nat) ->
  exists s' r, send_request e p s = Some (s', r) /\ direct_ok s'.
Proof.
  intros Hs He. unfold send_request. destruct (get_socket_ok e p s Hs He) as (s1 & r & -> & [H1 H2 H3] & Hr). cbn [mbind option_bind].
  destruct r as [n|]; [|by exists s1, None]. destruct (Hr n eq_refl) as [sk Esk]. rewrite Esk. cbn [mbind option_bind].
  match goal with |- context [match ?x with Some _ => _ | None => _ end] => destruct x as [[d rest]|] end.
  - eexists _, _. split; [done|]. split; cbn.
    + intros k m E. rewrite length_insert. by eapply H1.
    + intros ep m E. destruct (H2 _ _ E) as (b & Eb). destruct (decide (m = n)) as [->|]; [|exists b; by rewrite list_lookup_insert_ne by done].
      exists rest. rewrite list_lookup_insert_eq by (by eapply lookup_lt_Some). rewrite Eb in Esk. by injection Esk as <-.
    + intros m sk' E Hp. destruct (decide (m = n)) as [->|]; [|rewrite list_lookup_insert_ne in E by done; by eapply H3].
      rewrite list_lookup_insert_eq in E by (by eapply lookup_lt_Some). injection E as <-. by apply (H3 n sk).
  - eexists _, _. split; [done|]. split; cbn; [|
      |done].
    + intros k m [_ E]%lookup_delete_Some. by eapply H1.
    + intros ep m E. apply H2. destruct sk.(peer); [|done]. destruct e.(knows_peer); [|done]. by apply lookup_delete_Some in E as [_ E].
Qed.

Lemma direct_send_loop_ok fuel env p a s : direct_ok s -> addresses env -> (a <= 4)%nat -> (5 - a <= fuel)%nat ->
  exists s' r n, direct_send_loop fuel (Z.of_nat a) env p a s = Some (s', r, n) /\ direct_ok s' /\ (1 <= n <= 5)%nat /\ (r = None -> n = 5%nat).
Proof.
  intros Hs He. revert a s Hs. induction fuel as [|fuel IH]; intros a s Hs Ha Hf; [lia|]. cbn [direct_send_loop].
  destruct (send_request_ok (env a) p s Hs (He a)) as (s1 & r & -> & Hs1). cbn [mbind option_bind]. destruct r as [d|].
  - exists s1, (Some d), (S a). split; [done|]. split; [done|]. split; [lia|done].
  - rewrite Z.gtb_ltb. destruct (Z.ltb_spec 3 (Z.of_nat a)).
    + exists s1, None, (S a). split; [done|]. split; [done|]. split; [lia|]. intros _. lia.
    + replace (Z.of_nat a + 1) with (Z.of_nat (S a)) by lia. apply IH; [done|lia..].
Qed.

Lemma read_answer_packet q rest : wf_header q.(header) -> Z.of_nat (length q.(data)) < 2 ^ 32 ->
  read_answer ((serialize q).2 ++ rest) = Some (q.(data), rest).
Proof.
  intros Hw Hl. unfold serialize. cbn [snd]. set (h := set_datasize _ _).
  assert (u32 (Z.of_nat (length q.(data))) = Z.of_nat (length q.(data))) as Eu by (apply wrap_small; change (modulus 4) with (2 ^ 32); lia).
  assert (wf_header h) as Hw' by (destruct Hw; split; cbn; rewrite ?Eu; try done; lia).
  unfold read_answer. rewrite <- (assoc_L (++)), read_n_app by (by apply pack_facts.length_dump). cbn [mbind option_bind].
  rewrite <- (app_nil_r (dump h)), pack_facts.parse_dump_app by done. cbn [mbind option_bind].
  apply read_n_app. subst h. cbn [set_datasize datasize]. rewrite Eu. lia.
Qed.

(** An attempt on a socket that is there and open. *)
Lemma send_request_known e p s n sk : s.(df_connection_map_) !! p.(header).(key) = Some n -> s.(sockets) !! n = Some sk -> sk.(is_open) = true ->
  get_direct_worker_socket e p s = Some (s, Some n).
Proof. intros Hk Es Ho. unfold get_direct_worker_socket. cbv zeta. rewrite Hk. cbn [mbind option_bind]. rewrite Es. cbn [mbind option_bind]. by rewrite Ho. Qed.

Lemma get_socket_unknown e p s raw ep : s.(df_connection_map_) !! p.(header).(key) = None -> e.(proxy_answer) = Some raw ->
  parse_address raw = Some ep -> get_direct_worker_socket e p s = Some (add_endpoint e ep p.(header).(key) s).
Proof. intros Hk Hr Hp. unfold get_direct_worker_socket. cbv zeta. rewrite Hk. cbn [mbind option_bind]. rewrite Hr, Hp. done. Qed.

(** An attempt whose request cannot be written. *)
Lemma send_request_fails e p s s1 n sk : get_direct_worker_socket e p s = Some (s1, Some n) -> s1.(sockets) !! n = Some sk ->
  sk.(peer) = None \/ e.(writable) = false ->
  send_request e p s = Some (mk_direct_client s1.(sockets) (delete p.(header).(key) s1.(df_connection_map_))
    match sk.(peer) with
    | Some ep => if e.(knows_peer) then delete ep s1.(endpoint_socket_map_) else s1.(endpoint_socket_map_)
    | None => s1.(endpoint_socket_map_)
    end, None).
Proof.
  intros Hg Es H. unfold send_request. rewrite Hg. cbn [mbind option_bind]. rewrite Es. cbn [mbind option_bind].
  assert (bool_decide (is_Some sk.(peer)) && e.(writable) = false) as ->; [|done].
  destruct H as [->| ->]; [done|by rewrite andb_false_r].
Qed.

(** An attempt that is answered. *)
Lemma send_request_answered e p s s1 n ep b q rest : get_direct_worker_socket e p s = Some (s1, Some n) ->
  s1.(sockets) !! n = Some (mk_socket true (Some ep) b) -> e.(writable) = true ->
  wf_header q.(header) -> Z.of_nat (length q.(data)) < 2 ^ 32 -> b ++ e.(arrives) = (serialize q).2 ++ rest ->
  send_request e p s = Some (mk_direct_client (<[n := mk_socket true (Some ep) rest]> s1.(sockets)) s1.(df_connection_map_) s1.(endpoint_socket_map_),
    Some q.(data)).
Proof.
  intros Hg Es Hw Hq Hl Ha. unfold send_request. rewrite Hg. cbn [mbind option_bind]. rewrite Es. cbn [mbind option_bind].
  cbn [peer unread is_open]. rewrite bool_decide_eq_true_2 by done. rewrite Hw. cbn [andb]. rewrite Ha, read_answer_packet by done. done.
Qed.

(** A new connection: both maps lead to it. *)
Lemma add_endpoint_connects e ep k s : s.(endpoint_socket_map_) !! ep = None -> s.(df_connection_map_) !! k = None -> e.(connect) = Connected ->
  add_endpoint e ep k s = (mk_direct_client (s.(sockets) ++ [mk_socket true (Some ep) []]) (<[k := length s.(sockets)]> s.(df_connection_map_))
    (<[ep := length s.(sockets)]> s.(endpoint_socket_map_)), Some (length s.(sockets))).
Proof. intros E1 E2 Hc. unfold add_endpoint, emplace. rewrite E1, E2, Hc. done. Qed.

(** After a refused connection the next attempt is wasted, whatever happens in it: the
    socket, open but connected to nothing, was kept for the file. *)
Lemma refused_attempt_wasted e e' p s raw ep : s.(df_connection_map_) !! p.(header).(key) = None -> s.(endpoint_socket_map_) !! ep = None ->
  e.(proxy_answer) = Some raw -> parse_address raw = Some ep -> e.(connect) = Refused ->
  exists s1, send_request e p s = Some (s1, None) /\
    send_request e' p s1 = Some (mk_direct_client (s.(sockets) ++ [mk_socket true None []]) s.(df_connection_map_) s.(endpoint_socket_map_), None).
Proof.
  intros Hk Hep Hr Hp Hc. unfold send_request at 1. erewrite get_socket_unknown by done. cbn [mbind option_bind].
  unfold add_endpoint, emplace. rewrite Hep, Hk, Hc. cbn [mbind option_bind]. eexists. split; [done|].
  assert ((s.(sockets) ++ [mk_socket true None []]) !! length s.(sockets) = Some (mk_socket true None [])) as El
    by (by rewrite lookup_app_r, Nat.sub_diag by done).
  erewrite (send_request_fails _ _ _ _ _ (mk_socket true None [])); [|eapply send_request_known; [cbn; apply lookup_insert_eq|exact El|done]|exact El|by left].
  cbn. by rewrite delete_insert_id.
Qed.

(** ** Properties of the client *)

(** [direct_client::send] ends: after five attempts at most it returns an answer or
    throws, and throws only after five; every socket its maps name is there, and the one
    kept for an endpoint is open and connected to it. *)
Theorem direct_send_ends env p s (Hs : direct_ok s) (He : addresses env) :
  exists s' r n, direct_send env p s = Some (s', r, n) /\ direct_ok s' /\ (1 <= n <= 5)%nat /\ (r = None -> n = 5%nat).
Proof. apply (direct_send_loop_ok 6 env p 0 s Hs He); lia. Qed.

(** A connection that has died costs one attempt: when the peer is still known, both
    maps forget it, the address is asked for again, and the answer comes over a new
    connection, which is kept for the file and the endpoint. *)
Theorem dead_connection_recovers env p s n ep b raw ep' q
    (Hk : s.(df_connection_map_) !! p.(header).(key) = Some n) (Hn : s.(sockets) !! n = Some (mk_socket true (Some ep) b))
    (H0 : (env 0%nat).(writable) = false /\ (env 0%nat).(knows_peer) = true)
    (Hr : (env 1%nat).(proxy_answer) = Some raw) (Hp : parse_address raw = Some ep')
    (He : ep' = ep \/ s.(endpoint_socket_map_) !! ep' = None)
    (H1 : (env 1%nat).(connect) = Connected /\ (env 1%nat).(writable) = true /\ (env 1%nat).(arrives) = (serialize q).2)
    (Hq : wf_header q.(header)) (Hl : Z.of_nat (length q.(data)) < 2 ^ 32) :
  exists s' m, direct_send env p s = Some (s', Some q.(data), 2%nat) /\
    s'.(df_connection_map_) !! p.(header).(key) = Some m /\ s'.(endpoint_socket_map_) !! ep' = Some m /\
    s'.(sockets) !! m = Some (mk_socket true (Some ep') []).
Proof.
  destruct H0 as [Hw Hkn], H1 as (Hc & Hw1 & Ha). unfold direct_send. cbn [direct_send_loop].
  rewrite (send_request_fails _ p s s n (mk_socket true (Some ep) b)); [|by eapply send_request_known|done|by right].
  cbn [mbind option_bind peer]. rewrite Hkn. change (0 >? 3) with false. cbv iota.
  set (s1 := mk_direct_client _ _ _). set (m := length s.(sockets)).
  assert (s1.(endpoint_socket_map_) !! ep' = None) as Hep.
  { subst s1. cbn. destruct (decide (ep' = ep)) as [->|]; [apply lookup_delete_eq|]. destruct He; [done|]. by rewrite lookup_delete_ne. }
  assert (s1.(df_connection_map_) !! p.(header).(key) = None) as Hdf by (subst s1; cbn; apply lookup_delete_eq).
  assert (get_direct_worker_socket (env 1%nat) p s1 = Some (mk_direct_client (s.(sockets) ++ [mk_socket true (Some ep') []])
    (<[p.(header).(key) := m]> s1.(df_connection_map_)) (<[ep' := m]> s1.(endpoint_socket_map_)), Some m)) as Hg.
  { erewrite get_socket_unknown by done. by rewrite add_endpoint_connects. }
  rewrite (send_request_answered _ p s1 _ m ep' [] q [] Hg); [|cbn; by rewrite lookup_app_r, Nat.sub_diag by done|done|done|done|cbn; by rewrite Ha, app_nil_r].
  cbn [mbind option_bind]. eexists _, m. split; [reflexivity|]. cbn. split; [apply lookup_insert_eq|]. split; [apply lookup_insert_eq|].
  apply list_lookup_insert_eq. rewrite length_app. cbn. unfold m. lia.
Qed.

(** A connection that was reset stays: when the peer is not known any more the entry
    of the endpoint is kept, so every attempt of every send, of all files of this
    function, uses the dead socket; no new connection is tried, although the function
    may accept one. *)
Theorem dead_endpoint_stays env p s n ep b
    (Hep : s.(endpoint_socket_map_) !! ep = Some n) (Hn : s.(sockets) !! n = Some (mk_socket true (Some ep) b))
    (Hk : s.(df_connection_map_) !! p.(header).(key) = None \/ s.(df_connection_map_) !! p.(header).(key) = Some n)
    (Henv : forall i, (env i).(writable) = false /\ (env i).(knows_peer) = false /\
       exists raw, (env i).(proxy_answer) = Some raw /\ parse_address raw = Some ep) :
  exists s', direct_send env p s = Some (s', None, 5%nat) /\ s'.(sockets) = s.(sockets) /\
    s'.(endpoint_socket_map_) = s.(endpoint_socket_map_) /\ s'.(df_connection_map_) = delete p.(header).(key) s.(df_connection_map_).
Proof.
  assert (forall e s0, s0.(sockets) = s.(sockets) -> s0.(endpoint_socket_map_) = s.(endpoint_socket_map_) ->
    s0.(df_connection_map_) !! p.(header).(key) = None \/ s0.(df_connection_map_) !! p.(header).(key) = Some n ->
    e.(writable) = false -> e.(knows_peer) = false -> (exists raw, e.(proxy_answer) = Some raw /\ parse_address raw = Some ep) ->
    send_request e p s0 = Some (mk_direct_client s.(sockets) (delete p.(header).(key) s0.(df_connection_map_)) s.(endpoint_socket_map_), None)) as Hstep.
  { intros e s0 E1 E2 Hk0 Hw Hp (raw & Hr & Ha). destruct Hk0 as [Hk0|Hk0].
    - erewrite (send_request_fails e p s0 (mk_direct_client s.(sockets) (<[p.(header).(key) := n]> s0.(df_connection_map_)) s.(endpoint_socket_map_)) n);
        [|erewrite get_socket_unknown by done; unfold add_endpoint, emplace; rewrite E2, Hep; cbn [mbind option_bind]; rewrite E1, Hn; cbn [mbind option_bind is_open]; by rewrite Hk0|cbn; exact Hn|by right].
      cbn. rewrite Hp. by rewrite delete_insert_eq.
    - erewrite send_request_fails; [|by eapply send_request_known; [|rewrite E1|]|by rewrite E1|by right].
      cbn. by rewrite Hp, E1, E2. }
  assert (forall fuel a s0, (a <= 4)%nat -> (5 - a <= fuel)%nat -> s0.(sockets) = s.(sockets) -> s0.(endpoint_socket_map_) = s.(endpoint_socket_map_) ->
    s0.(df_connection_map_) !! p.(header).(key) = None \/ s0.(df_connection_map_) !! p.(header).(key) = Some n ->
    direct_send_loop fuel (Z.of_nat a) env p a s0
    = Some (mk_direct_client s.(sockets) (delete p.(header).(key) s0.(df_connection_map_)) s.(endpoint_socket_map_), None, 5%nat)) as Hloop.
  { induction fuel as [|fuel IH]; intros a s0 Ha Hf E1 E2 Hk0; [lia|]. cbn [direct_send_loop].
    rewrite Hstep by (done || apply Henv). cbn [mbind option_bind]. rewrite Z.gtb_ltb. destruct (Z.ltb_spec 3 (Z.of_nat a)).
    - by replace a with 4%nat by lia.
    - replace (Z.of_nat a + 1) with (Z.of_nat (S a)) by lia. rewrite IH; [|lia|lia|done|done|left; cbn; apply lookup_delete_eq].
      cbn. by rewrite delete_delete_eq. }
  eexists. split; [apply (Hloop 6%nat 0%nat); done || lia|]. done.
Qed.

(** ** The function reads and answers *)

Section direct_facts.
Context {D : Type} `{KVStore D}.
Variable pick : bytes -> Z -> Z -> Z.
Variable cfg : Coordinator.config.
Variable salts : Z -> bytes.
Variable shuffle : forall A : Type, list A -> list A.
Variable format_time : Z -> bytes.
Variables salt sequence uninitialised : bytes.
Variable cache_cfg : Cache.config.
Variable enable_cache_ : bool.
Local Abbreviation server := (tcp_server (D := D)).
Local Abbreviation image p := (serialize p).1.
Local Abbreviation exec := (direct_exec pick cfg salts shuffle format_time salt sequence uninitialised cache_cfg enable_cache_ true).
Local Abbreviation execs := (direct_execs pick cfg salts shuffle format_time salt sequence uninitialised cache_cfg enable_cache_ true).

(** A request: its sizes fit, and it is a trigger. *)
Definition direct_request (p : packet) : Prop :=
  wf_header p.(header) /\ Z.of_nat (length p.(data)) < 2 ^ 32 /\ of_code p.(header).(type) = Some trigger.

Lemma direct_execs_app es es' (s : server) : execs (es ++ es') s = execs es s ≫= execs es'.
Proof. revert s. induction es as [|e es IH]; intros s; [done|]. cbn. destruct (exec e s); [apply IH|done]. Qed.

Lemma hand_all_spec c x ps (s : server) : s.(accepted) !! c = Some x ->
  hand_all c ps s = Some (mk_tcp_server (<[c := mk_direct x.(received) x.(listening) (x.(handed) ++ ps)]> s.(accepted)) s.(direct_jobs) s.(function)).
Proof.
  revert x s. induction ps as [|p ps IH]; intros x s Hc; cbn [hand_all].
  - rewrite app_nil_r. destruct s, x. cbn in *. by rewrite insert_id.
  - unfold hand. rewrite Hc. cbn [mbind option_bind]. erewrite IH by (cbn; apply lookup_insert_eq). cbn.
    by rewrite insert_insert_eq, <- (assoc_L (++)).
Qed.

Lemma direct_reads c x ps rest (s : server) : s.(accepted) !! c = Some x -> x.(listening) = true -> Forall direct_request ps ->
  x.(received) = concat ((fun p => (serialize p).2) <$> ps) ++ rest ->
  execs (replicate (length ps) (DirectRead c)) s
  = Some (mk_tcp_server (<[c := mk_direct rest true x.(handed)]> s.(accepted)) (s.(direct_jobs) ++ ((fun p => (c, image p)) <$> ps)) s.(function)).
Proof.
  intros Hc Hl Hps. revert x s Hc Hl. induction Hps as [|p ps (Hw & Hlen & Ht) Hps IH]; intros x s Hc Hl Hi.
  - cbn in *. rewrite app_nil_r. destruct s, x. cbn in *. subst. by rewrite insert_id.
  - cbn [length replicate direct_execs direct_exec fmap list_fmap concat] in *. unfold start_read_header at 1. rewrite Hc. cbn [mbind option_bind].
    rewrite Hl, Hi. unfold serialize at 1. cbn [snd]. set (h := set_datasize _ _).
    assert (u32 (Z.of_nat (length p.(data))) = Z.of_nat (length p.(data))) as Eu by (apply wrap_small; change (modulus 4) with (2 ^ 32); lia).
    assert (wf_header h) as Hw' by (destruct Hw; split; cbn; rewrite ?Eu; try done; lia).
    rewrite <- !(assoc_L (++)), read_n_app by (by apply pack_facts.length_dump). cbn [mbind option_bind].
    rewrite <- (app_nil_r (dump h)), pack_facts.parse_dump_app by done. cbn [mbind option_bind].
    change (of_code h.(type)) with (of_code p.(header).(type)). rewrite Ht.
    rewrite read_n_app by (subst h; cbn [set_datasize datasize]; rewrite Eu; lia). cbn [mbind option_bind].
    erewrite IH; [|cbn; apply lookup_insert_eq|done|done]. cbn. by rewrite insert_insert_eq, <- (assoc_L (++)).
Qed.

Lemma direct_runs c x ts ps (s : server) f' answers : s.(accepted) !! c = Some x -> s.(direct_jobs) = (fun p => (c, p)) <$> ps -> length ts = length ps ->
  start_jobs pick cfg salts shuffle format_time salt sequence uninitialised cache_cfg enable_cache_ (zip ts ps) s.(function) = Some (f', answers) ->
  execs ((fun t => DirectJob 0 t.1 t.2) <$> ts) s
  = Some (mk_tcp_server (<[c := mk_direct x.(received) x.(listening) (x.(handed) ++ answers)]> s.(accepted)) [] f').
Proof.
  revert x ps s f' answers. induction ts as [|[now version] ts IH]; intros x [|p ps] s f' answers Hc Hj Hl E; try done.
  - cbn in *. injection E as <- <-. rewrite app_nil_r. destruct s, x. cbn in *. subst. by rewrite insert_id.
  - rewrite !fmap_cons in *. cbn [direct_execs direct_exec zip zip_with start_jobs length fst snd] in *. rewrite Hj. cbn [lookup list_lookup mbind option_bind].
    unfold first_of_key. rewrite firstn_O. cbn [forallb delete list_delete]. unfold run_direct_job. cbn [function accepted direct_jobs].
    destruct (start_job _ _ _ _ _ _ _ _ _ _ now version p s.(function)) as [[f a]|]; [|done]. cbn [mbind option_bind] in E |- *.
    destruct (start_jobs _ _ _ _ _ _ _ _ _ _ (zip ts ps) f) as [[f2 b]|] eqn:Eb; [|done]. injection E as <- <-.
    erewrite hand_all_spec by done. cbn [mbind option_bind accepted direct_jobs function].
    erewrite (IH _ ps); [|cbn; apply lookup_insert_eq|done|lia|done]. cbn. by rewrite insert_insert_eq, <- (assoc_L (++)).
Qed.

(** Requests on a direct connection are answered in the order they came: of a stream
    of triggers each is read once, and their jobs give the connection the answers the
    same jobs would give the proxy. *)
Theorem direct_requests_served c x ts ps rest (s : server) f' answers
    (Hc : s.(accepted) !! c = Some x) (Hl : x.(listening) = true) (Hps : Forall direct_request ps) (Hts : length ts = length ps)
    (Hi : x.(received) = concat ((fun p => (serialize p).2) <$> ps) ++ rest) (Hj : s.(direct_jobs) = [])
    (Hjobs : start_jobs pick cfg salts shuffle format_time salt sequence uninitialised cache_cfg enable_cache_
               (zip ts ((fun p => image p) <$> ps)) s.(function) = Some (f', answers)) :
  execs (replicate (length ps) (DirectRead c) ++ ((fun t => DirectJob 0 t.1 t.2) <$> ts)) s
  = Some (mk_tcp_server (<[c := mk_direct rest true (x.(handed) ++ answers)]> s.(accepted)) [] f').
Proof.
  rewrite direct_execs_app. erewrite direct_reads by done. cbn [mbind option_bind].
  rewrite (direct_runs c (mk_direct rest true x.(handed)) ts ((fun p => image p) <$> ps) _ f' answers); cbn.
  - by rewrite insert_insert_eq.
  - apply lookup_insert_eq.
  - rewrite Hj. cbn. by rewrite <- list_fmap_compose.
  - by rewrite length_fmap.
  - exact Hjobs.
Qed.

(** What [start_direct] gives a proxy as the address of a function. *)
Definition has_address (y : worker) : Prop :=
  exists ep, y.(Worker.endpoint) = ep.(ip) ++ le_bytes 2 (hton 2 ep.(port)) /\ length ep.(ip) = 4%nat /\ 0 <= ep.(port) < 2 ^ 16.

(** The proxy gives the client the address of a worker that is valid. *)
Lemma address_given `{AvailablePolicy} freed c x p rest (srv : Server.server) w :
  srv.(connections) !! c = Some x -> x.(reading_) = true -> direct_request p ->
  x.(Server.input) = (serialize (address_request p)).2 ++ rest ->
  (forall w, is_valid srv.(launcher_) w = true -> w ∈ srv.(launcher_).(worker_set_)) -> is_valid srv.(launcher_) w = true ->
  exists srv' w' y, Server.exec true (Read freed c) srv = Some srv' /\
    srv.(launcher_).(workers) !! w' = Some y /\ y.(valid_) = true /\
    serves c srv srv' [] [mk_packet (serialize (address_request p)).1.(header) y.(Worker.endpoint)].
Proof.
  intros Hc Hr (Hw1 & Hl & Ht) Hi Hset Hw.
  assert (framed (address_request p)) as Hf.
  { split; [destruct Hw1; split; cbn; try done; lia|]. split; [done|by right]. }
  cbn [Server.exec]. erewrite read_packet_frame by done. set (srv1 := set_input c rest true srv). unfold handle.
  change (of_code _) with (of_code p.(header).(type)). rewrite Ht.
  assert (srv1.(launcher_) = srv.(launcher_)) as El by apply launcher_set_input.
  destruct (direct_bypasses_tables true freed c (with_input rest true x) (serialize (address_request p)).1 srv1 w)
    as (srv' & w' & y & E & Ey & Hv & _ & _ & Hs);
    [by apply connection_set_input|done|done|by rewrite El|by rewrite El|].
  exists srv', w', y. split; [exact E|]. rewrite El in Ey. split; [done|]. split; [done|].
  apply (serves_trans c srv srv1 srv' [] [] [] _); [|exact Hs].
  apply serves_same; [|by unfold srv1, set_input; destruct (_ !! _)|apply ptrs_set_input].
  rewrite app_nil_r. unfold srv1, set_input. by destruct (_ !! _).
Qed.

(** C24. A request over direct communication is answered: the proxy reads the request for
    the address and names a valid worker, the client parses the address back, connects,
    and its first attempt returns exactly the data the function's job has produced for
    the request, which the function read off the connection. *)
Theorem direct_request_answered `{AvailablePolicy} freed c x p rest (srv : Server.server) w c' h now version (fs : server) f' a s
    (Hp : direct_request p)
    (Hc : srv.(connections) !! c = Some x) (Hr : x.(reading_) = true)
    (Hi : x.(Server.input) = (serialize (address_request p)).2 ++ rest)
    (Hset : forall w, is_valid srv.(launcher_) w = true -> w ∈ srv.(launcher_).(worker_set_))
    (Hw : is_valid srv.(launcher_) w = true)
    (Haddr : forall w y, srv.(launcher_).(workers) !! w = Some y -> y.(valid_) = true -> has_address y)
    (Hc' : fs.(accepted) !! c' = Some (mk_direct [] true h)) (Hj : fs.(direct_jobs) = [])
    (Hjob : start_job pick cfg salts shuffle format_time salt sequence uninitialised cache_cfg enable_cache_
              now version (image p) fs.(function) = Some (f', [a]))
    (Ha : wf_header a.(header)) (Hal : Z.of_nat (length a.(data)) < 2 ^ 32)
    (Hk : s.(df_connection_map_) !! p.(header).(key) = None) (He : s.(endpoint_socket_map_) = ∅) :
  exists srv' w' y fs' s',
    Server.exec true (Read freed c) srv = Some srv' /\
    srv.(launcher_).(workers) !! w' = Some y /\ y.(valid_) = true /\
    serves c srv srv' [] [mk_packet (serialize (address_request p)).1.(header) y.(Worker.endpoint)] /\
    execs [DirectReceive c' (serialize p).2; DirectRead c'; DirectJob 0 now version] fs = Some fs' /\
    fs'.(function) = f' /\ fs'.(accepted) !! c' = Some (mk_direct [] true (h ++ [a])) /\
    direct_send (fun _ => mk_net (Some y.(Worker.endpoint)) Connected true (serialize a).2 true) p s
    = Some (s', Some a.(data), 1%nat).
Proof.
  destruct (address_given freed c x p rest srv w) as (srv' & w' & y & E & Ey & Hv & Hs); [done..|].
  destruct (Haddr _ _ Ey Hv) as (ep & Eep & Hip & Hport). pose proof (parse_address_roundtrip ep Hip Hport) as Hparse. rewrite <- Eep in Hparse.
  exists srv', w', y. eexists _, _. split; [exact E|]. split; [done|]. split; [done|]. split; [exact Hs|].
  split; [|split; [|split]].
  - change [DirectReceive c' (serialize p).2; DirectRead c'; DirectJob 0 now version] with
      ([DirectReceive c' (serialize p).2] ++ replicate (length [p]) (DirectRead c') ++ ((fun t => DirectJob 0 t.1 t.2) <$> [(now, version)])).
    rewrite direct_execs_app. cbn [direct_execs direct_exec]. rewrite Hc'. cbn [mbind option_bind received listening handed app].
    rewrite direct_execs_app. erewrite (direct_reads c' _ [p] []);
      [|cbn; apply lookup_insert_eq|done|by constructor|cbn; by rewrite !app_nil_r].
    cbn [mbind option_bind handed].
    apply (direct_runs c' (mk_direct [] true h) [(now, version)] [image p] _ f' [a]); [cbn; apply lookup_insert_eq|cbn; by rewrite Hj|done|].
    cbn [zip zip_with start_jobs function with_accepted]. by rewrite Hjob.
  - done.
  - cbn. apply lookup_insert_eq.
  - unfold direct_send. cbn [direct_send_loop].
    set (e := mk_net _ _ _ _ _). set (n := length s.(sockets)).
    assert (get_direct_worker_socket e p s = Some (mk_direct_client (s.(sockets) ++ [mk_socket true (Some ep) []])
      (<[p.(header).(key) := n]> s.(df_connection_map_)) (<[ep := n]> s.(endpoint_socket_map_)), Some n)) as Hg.
    { erewrite get_socket_unknown by done. rewrite add_endpoint_connects by (rewrite ?He; done). done. }
    rewrite (send_request_answered e p s _ n ep [] a [] Hg); [|cbn; by rewrite lookup_app_r, Nat.sub_diag by done|done|done|done|cbn; by rewrite app_nil_r].
    reflexivity.
Qed.

End direct_facts.
(** ** The pool *)

Record pool_ok (s : client_pool) : Prop := {
  po_held : forall i, s.(locked) !! i = Some true <-> exists t, thread t s = Holding i;
  po_once : forall t t' i, thread t s = Holding i -> thread t' s = Holding i -> t = t'
}.

Lemma thread_insert t t' x l m : thread t (mk_client_pool l (<[t' := x]> m)) = if decide (t = t') then x else thread t (mk_client_pool l m).
Proof. unfold thread. cbn. case_decide; [subst; by rewrite lookup_insert_eq|by rewrite lookup_insert_ne]. Qed.

Lemma pool_ok_new n : pool_ok (new_pool n).
Proof.
  split; unfold thread; cbn.
  - intros i. split; [by intros [[=] _]%lookup_replicate|intros [t E]; by rewrite lookup_empty in E].
  - intros t t' i E. by rewrite lookup_empty in E.
Qed.

Lemma pool_ok_exec e s s' : pool_ok s -> client_pool_exec e s = Some s' -> pool_ok s' /\ length s'.(locked) = length s.(locked).
Proof.
  intros [H1 H2] E. assert (forall t, thread t (mk_client_pool s.(locked) s.(threads)) = thread t s) as Ht by done.
  destruct e as [t|t i|t]; cbn [client_pool_exec] in E; destruct (thread t s) as [| |j] eqn:Et; try done.
  - injection E as <-. split; [|done]. split.
    + intros i. cbn. rewrite H1. split; intros [t' E]; exists t'; rewrite thread_insert, Ht in *; case_decide; subst; congruence.
    + intros t1 t2 i. rewrite !thread_insert, !Ht. repeat case_decide; try done. by apply H2.
  - destruct (s.(locked) !! i) as [[]|] eqn:El; [|cbn in E|done]; injection E as <-; [by split|]. cbn. rewrite length_insert. split; [|done].
    assert (forall t', thread t' s <> Holding i) as Hfree by (intros t' E; assert (s.(locked) !! i = Some true) by (apply H1; eauto); congruence).
    split; cbn.
    + intros k. destruct (decide (k = i)) as [->|Hne].
      * rewrite list_lookup_insert_eq by (by eapply lookup_lt_Some). split; [|done]. intros _. exists t. rewrite thread_insert. by case_decide.
      * rewrite list_lookup_insert_ne by done. rewrite H1. split; intros [t' E]; exists t'; rewrite thread_insert in *; case_decide; subst; try congruence; exact E.
    + intros t1 t2 k. rewrite !thread_insert. repeat case_decide; subst; try done.
      * intros [= <-] E. by destruct (Hfree t2).
      * intros E [= <-]. by destruct (Hfree t1).
      * apply H2.
  - injection E as <-. cbn. rewrite length_insert. split; [|done]. assert (s.(locked) !! j = Some true) as Hj by (apply H1; eauto).
    split; cbn.
    + intros k. destruct (decide (k = j)) as [->|Hne].
      * rewrite list_lookup_insert_eq by (by eapply lookup_lt_Some). split; [done|]. intros [t' E]. rewrite thread_insert in E.
        case_decide; [done|]. by pose proof (H2 _ _ _ Et E).
      * rewrite list_lookup_insert_ne by done. rewrite H1. split; intros [t' E]; exists t'; rewrite thread_insert in *; case_decide; subst; try congruence; exact E.
    + intros t1 t2 k. rewrite !thread_insert. repeat case_decide; try done. apply H2.
Qed.

(** A client of the pool is used by one thread at a time: in every run of threads that
    enter [send], draw and leave, a mutex is locked exactly while one thread holds it,
    and a thread that draws a client nobody holds gets it. *)
Theorem pool_exclusive n es s (E : client_pool_execs es (new_pool n) = Some s) :
  (forall i, s.(locked) !! i = Some true <-> exists t, thread t s = Holding i) /\
  (forall t t' i, thread t s = Holding i -> thread t' s = Holding i -> t = t') /\
  (forall t i, (i < n)%nat -> thread t s = Drawing -> (forall t', thread t' s <> Holding i) ->
    exists s', client_pool_exec (Draw t i) s = Some s' /\ thread t s' = Holding i).
Proof.
  assert (forall s0 s1, pool_ok s0 -> client_pool_execs es s0 = Some s1 -> pool_ok s1 /\ length s1.(locked) = length s0.(locked)) as Hok.
  { clear E. induction es as [|e es IH]; intros s0 s1 Hs0 E; [by injection E as <-|]. cbn in E.
    destruct (client_pool_exec e s0) as [s2|] eqn:E2; [|done]. destruct (pool_ok_exec _ _ _ Hs0 E2) as [Hs2 <-]. by apply IH. }
  destruct (Hok _ _ (pool_ok_new n) E) as [[H1 H2] Hl]. cbn in Hl. rewrite length_replicate in Hl. split; [done|]. split; [done|].
  intros t i Hi Ht Hfree. cbn [client_pool_exec]. rewrite Ht. destruct (lookup_lt_is_Some_2 s.(locked) i) as [b Eb]; [lia|].
  rewrite Eb. cbn [mbind option_bind]. destruct b; [apply H1 in Eb as [t' Et]; by destruct (Hfree t')|].
  eexists. split; [reflexivity|]. rewrite thread_insert. by case_decide.
Qed.

(** ** Concrete clients and functions *)

Definition direct_init : packet := on_wire x05 (packet_create.init [] [] (df_uuid (directory []))).
Definition asks : Server.server := with_launcher one_worker.(launcher_) (one_client (serialize (address_request direct_init)).2).
Definition one_function : tcp_server (D := gmap bytes bytes) := mk_tcp_server {[0%nat := mk_direct [] true []]} [] df_start.
Definition new_client : direct_client := mk_direct_client [] ∅ ∅.
Definition sample_job (p : packet) :=
  start_job sample_pick sample_cfg sample_salts sample_shuffle (fun _ => []) [] [] sample_reserved (Cache.mk_config 4096 false) false 0 4 p df_start.

Lemma direct_init_request : direct_request direct_init.
Proof.
  assert (framed direct_init) as (H1 & H2 & _) by (apply framedb_correct; vm_compute; reflexivity).
  split; [exact H1|]. split; [exact H2|]. vm_compute. reflexivity.
Qed.

Lemma sample_job_answers : exists f' a, sample_job (serialize direct_init).1 = Some (f', [a]) /\ wf_header a.(header) /\
  Z.of_nat (length a.(data)) < 2 ^ 32 /\ a.(data) = msg_ok.
Proof.
  assert (match sample_job (serialize direct_init).1 with
          | Some (_, [a]) => framedb (mk_packet (set_type trigger a.(header)) []) && bool_decide (a.(header).(type) = code worker_response) && bool_decide (a.(data) = msg_ok)
          | _ => false
          end = true) as H by (vm_compute; reflexivity).
  destruct (sample_job _) as [[f' [|a []]]|]; try discriminate H. exists f', a. split; [reflexivity|].
  apply andb_prop in H as [H H3]. apply andb_prop in H as [H1 H2]. apply bool_decide_eq_true in H2, H3.
  apply framedb_correct in H1 as [[] _]. split; [split; try done; rewrite H2; apply code_range|]. rewrite H3. split; [done|reflexivity].
Qed.

Lemma asks_worker w y : asks.(launcher_).(workers) !! w = Some y -> y.(Worker.endpoint) = replicate 6 x0a.
Proof.
  cbn. intros Ey. destruct (decide (w = 0%nat)) as [->|Hne]; [|by rewrite lookup_insert_ne in Ey].
  rewrite lookup_insert_eq in Ey. by injection Ey as <-.
Qed.

Lemma direct_request_answered_witness : exists srv' a (fs' : tcp_server (D := gmap bytes bytes)) s',
  Server.exec true (Read [] 0%nat) asks = Some srv' /\ fs'.(accepted) !! 0%nat = Some (mk_direct [] true [a]) /\
  direct_send (fun _ => mk_net (Some (replicate 6 x0a)) Connected true (serialize a).2 true) direct_init new_client = Some (s', Some msg_ok, 1%nat).
Proof.
  destruct sample_job_answers as (f' & a & Ejob & Ha & Hal & Ed).
  destruct (direct_request_answered sample_pick sample_cfg sample_salts sample_shuffle (fun _ => []) [] [] sample_reserved
    (Cache.mk_config 4096 false) false [] 0%nat (waiting_client (serialize (address_request direct_init)).2) direct_init [] asks 0%nat
    0%nat [] 0 4 one_function f' a new_client) as (srv' & w' & y & fs' & s' & E1 & Ey & Hv & Hs & E2 & Ef & Ec & E3).
  - exact direct_init_request.
  - reflexivity.
  - reflexivity.
  - by rewrite app_nil_r.
  - intros w Hw. destruct (decide (w = 0%nat)) as [->|Hne]; [by left|]. unfold is_valid in Hw.
    cbn [asks one_worker with_launcher launcher_ with_worker workers with_set empty_proxy] in Hw. by rewrite lookup_insert_ne in Hw.
  - reflexivity.
  - intros w y Ey _. exists (mk_endpoint (replicate 4 x0a) 2570). split; [exact (asks_worker w y Ey)|]. split; [reflexivity|cbn; lia].
  - reflexivity.
  - reflexivity.
  - exact Ejob.
  - exact Ha.
  - exact Hal.
  - apply lookup_empty.
  - reflexivity.
  - pose proof (asks_worker w' y Ey) as Ep. exists srv', a, fs', s'. split; [exact E1|]. split; [exact Ec|].
    rewrite <- Ep, <- Ed. exact E3.
Defined.

Definition some_endpoint : Ring.endpoint := mk_endpoint (replicate 4 x0a) 2570.
Definition silent : net := mk_net (Some (replicate 6 x0a)) Connected false [] false.
Definition hangs_up : net := mk_net (Some (replicate 6 x0a)) Connected false [] true.
Definition answers_init : net := mk_net (Some (replicate 6 x0a)) Connected true (serialize direct_init).2 true.
Definition connected_client : direct_client :=
  mk_direct_client [mk_socket true (Some some_endpoint) []] {[direct_init.(header).(key) := 0%nat]} {[some_endpoint := 0%nat]}.

Lemma direct_send_ends_witness : exists s' r n, direct_send (fun _ => silent) direct_init new_client = Some (s', r, n) /\ (1 <= n <= 5)%nat.
Proof.
  destruct (direct_send_ends (fun _ => silent) direct_init new_client) as (s' & r & n & E & _ & Hn & _).
  - split; cbn; [intros k m Hk; by rewrite lookup_empty in Hk|intros ep m Hm; by rewrite lookup_empty in Hm|intros m sk Hm; by rewrite lookup_nil in Hm].
  - intros i raw [= <-]. cbn. lia.
  - exists s', r, n. split; [exact E|exact Hn].
Defined.

Lemma dead_connection_recovers_witness : exists s' m,
  direct_send (fun i => match i with O => hangs_up | _ => answers_init end) direct_init connected_client = Some (s', Some direct_init.(data), 2%nat) /\
  s'.(endpoint_socket_map_) !! some_endpoint = Some m /\ s'.(sockets) !! m = Some (mk_socket true (Some some_endpoint) []).
Proof.
  destruct (dead_connection_recovers (fun i => match i with O => hangs_up | _ => answers_init end) direct_init connected_client 0%nat
    some_endpoint [] (replicate 6 x0a) some_endpoint direct_init) as (s' & m & E & _ & He & Hs).
  - apply lookup_insert_eq.
  - reflexivity.
  - split; reflexivity.
  - reflexivity.
  - reflexivity.
  - by left.
  - split; [reflexivity|split; reflexivity].
  - apply direct_init_request.
  - reflexivity.
  - exists s', m. split; [exact E|]. split; [exact He|exact Hs].
Defined.

Lemma dead_endpoint_stays_witness : exists s', direct_send (fun _ => silent) direct_init connected_client = Some (s', None, 5%nat) /\
  s'.(endpoint_socket_map_) = connected_client.(endpoint_socket_map_).
Proof.
  destruct (dead_endpoint_stays (fun _ => silent) direct_init connected_client 0%nat some_endpoint []) as (s' & E & _ & Hm & _).
  - apply lookup_insert_eq.
  - reflexivity.
  - right. apply lookup_insert_eq.
  - intros _. split; [reflexivity|]. split; [reflexivity|]. exists (replicate 6 x0a). split; reflexivity.
  - exists s'. split; [exact E|exact Hm].
Defined.

Definition pool_run : list pool_step := [Enter 0; Enter 1; Draw 0 1; Draw 1 1; Draw 1 0; Leave 0]%nat.

Lemma pool_exclusive_witness : exists s, client_pool_execs pool_run (new_pool 2) = Some s /\
  (s.(locked) !! 0%nat = Some true <-> exists t, thread t s = Holding 0) /\ s.(locked) = [true; false].
Proof.
  destruct (client_pool_execs pool_run (new_pool 2)) as [s|] eqn:E; [|vm_compute in E; discriminate E]. exists s. split; [reflexivity|].
  split; [apply (pool_exclusive 2 pool_run s E)|]. assert (locked <$> client_pool_execs pool_run (new_pool 2) = Some [true; false]) as E' by (vm_compute; reflexivity).
  rewrite E in E'. cbn in E'. by injection E'.
Defined.
