(* ===== verification/Api.v ===== *)
(** * The file system as a program calls it ([clients/client.hpp])

    [class Client] turns calls on paths into packets, sends them to the proxy or straight
    to a data function, and turns the answers into 1 or -1.  Its two transports, the
    clients of the library, are known by an interface ([Transport]); the instance
    [served] is one proxy with one data function.  Times are nanoseconds; the statistics
    kept as [double] are left out. *)
From Stdlib Require Import ZArith Lia.
From stdpp Require Import base tactics option list gmap strings.
From S2P Require Import Prelude Wire KvLog Ssbd Request Stripe Coordinator Cluster Directory Filesystem Cache Launcher Client Worker DataFunction Ring Direct.
Import pack.

(** ** Statistics *)

Record OperationMetrics := mk_metrics {
  min_latency : Z; max_latency : Z; total_latency : Z; successful_count : Z; unsuccessful_count : Z
}.

(** [nanoseconds::max ()] and [min ()] to begin with. *)
Definition no_metrics : OperationMetrics := mk_metrics (2 ^ 63 - 1) (- 2 ^ 63) 0 0 0.

Definition count_success (duration : Z) (m : OperationMetrics) : OperationMetrics :=
  mk_metrics (Z.min m.(min_latency) duration) (Z.max m.(max_latency) duration) (m.(total_latency) + duration)
    (u64 (m.(successful_count) + 1)) m.(unsuccessful_count).
Definition count_failure (m : OperationMetrics) : OperationMetrics :=
  mk_metrics m.(min_latency) m.(max_latency) m.(total_latency) m.(successful_count) (u64 (m.(unsuccessful_count) + 1)).

(** ** The transports *)

(** [client::send] and [direct_client::send] ([None] inside: they throw; outside:
    undefined), [direct_client::add_endpoint] ([false]: it throws),
    [client::compare_proxies_by_key], and the random bytes of [gen]. *)
Class Transport (S : Type) := {
  send : packet -> S -> option (S * option bytes);
  direct_send : packet -> S -> option (S * option bytes);
  add_endpoint : Ring.endpoint -> packet -> S -> S * bool;
  compare_proxies_by_key : bytes -> bytes -> S -> bool;
  draw : S -> S * (bytes * bytes)
}.

Record client_state (S : Type) := mk_client {
  metrics : gmap bytes OperationMetrics;
  overall_metrics : OperationMetrics;
  world : S;
  background : list bytes                  (* the detached threads, each with its [parent_path] *)
}.
Arguments mk_client {S}. Arguments metrics {S}. Arguments overall_metrics {S}. Arguments world {S}. Arguments background {S}.

Section client.
Context {S : Type} `{Transport S}.
Variable get_uuid : bytes -> bytes.

(** Code that may throw. *)
Definition M (A : Type) : Type := client_state S -> option (client_state S * option A).
Definition ret {A} (a : A) : M A := fun s => Some (s, Some a).
Definition bind {A B} (m : M A) (k : A -> M B) : M B := fun s =>
  '(s, r) ← m s;
  match r with Some a => k a s | None => Some (s, None) end.
(** [try { m } catch (boost::exception) { h }]. *)
Definition guarded {A} (m h : M A) : M A := fun s =>
  '(s, r) ← m s;
  match r with Some a => Some (s, Some a) | None => h s end.

Definition with_world {A} (w : S) (r : A) (s : client_state S) : option (client_state S * A) :=
  Some (mk_client s.(metrics) s.(overall_metrics) w s.(background), r).

Definition transmit (f : packet -> S -> option (S * option bytes)) (p : packet) : M bytes := fun s =>
  '(w, r) ← f p s.(world); with_world w r s.
Definition connect_to (ep : Ring.endpoint) (p : packet) : M unit := fun s =>
  let '(w, ok) := add_endpoint ep p s.(world) in with_world w (if ok then Some tt else None) s.
Definition same_proxy (k1 k2 : bytes) : M bool := fun s => Some (s, Some (compare_proxies_by_key k1 k2 s.(world))).
(** A function of [packet_create], with the bytes its packet draws. *)
Definition create (f : bytes -> bytes -> option packet) : M packet := fun s =>
  let '(w, (salt, sequence)) := draw s.(world) in p ← f salt sequence; with_world w (Some p) s.
Definition detach (parent_path : bytes) : M unit := fun s =>
  Some (mk_client s.(metrics) s.(overall_metrics) s.(world) (s.(background) ++ [parent_path]), Some tt).
(** The address at the front of an answer, which [memcpy] takes wherever it ends. *)
Definition address (resp : bytes) : M Ring.endpoint := fun s => ep ← parse_address resp; Some (s, Some ep).

Notation "'let?' x := m 'in' k" := (bind m (fun x => k)) (at level 100, x name, m at level 100, k at level 200).

(** ** What an answer says *)

Definition says (text : string) (resp : bytes) : bool := bool_decide (until_nul resp = lit text).
(** [rfind (text, 0) == 0]. *)
Definition begins (text resp : bytes) : bool := bool_decide (take (length text) resp = text).
(** [find (text) != npos]. *)
Fixpoint contains (text resp : bytes) : bool :=
  begins text resp || match resp with [] => false | _ :: resp => contains text resp end.

Definition ok_or_not (resp : bytes) : Z := if says "OK" resp then 1 else -1.
Definition error_or_not (resp : bytes) : Z := if contains (lit "Error"%string) resp then -1 else 1.

(** ** [execute_operation] *)

Definition update_metrics (operation_name : bytes) (duration : Z) (success : bool) (s : client_state S) : client_state S :=
  let count := if success then count_success duration else count_failure in
  mk_client (<[operation_name := count (default no_metrics (s.(metrics) !! operation_name))]> s.(metrics))
    (count s.(overall_metrics)) s.(world) s.(background).

Definition execute_operation (operation_name : string) (duration : Z) (func : M Z) : M Z := fun s =>
  '(s, r) ← func s;
  match r with
  | Some result => Some (update_metrics (lit operation_name) duration (result =? 1) s, Some result)
  | None => Some (s, None)
  end.

(** A request to the proxy whose answer is judged. *)
Definition ask (request : packet) (judge : bytes -> Z) : M Z :=
  guarded (let? resp := transmit send request in ret (judge resp)) (ret (-1)).
Definition ask_directly (request : packet) (judge : bytes -> Z) : M Z :=
  guarded (let? resp := transmit direct_send request in ret (judge resp)) (ret (-1)).

(** ** Operations *)

Definition mkdir (d : Z) (directory : bytes) : M Z :=
  execute_operation "mkdir" d (let? request := create (fun a b => packet_create.mkdir_path a b get_uuid directory) in ask request ok_or_not).
Definition add_file (d : Z) (file_path : bytes) : M Z :=
  execute_operation "add_file" d (let? request := create (fun a b => packet_create.add_file_v2 a b get_uuid file_path) in ask request ok_or_not).
Definition delete_file (d : Z) (file_path : bytes) : M Z :=
  execute_operation "delete_file" d (let? request := create (fun a b => packet_create.delete_file_path a b get_uuid file_path) in ask request ok_or_not).

Definition open_file (d : Z) (file_path : bytes) : M Z :=
  execute_operation "open_file" d (
    let? request := create (fun a b => packet_create.open_path a b get_uuid file_path) in
    guarded (
      let? resp := transmit send request in
      if begins (lit "ERROR"%string) resp then ret (-1)
      else let? ep := address resp in let? _ := connect_to ep request in ret 1)
    (ret (-1))).

Definition close_file (d : Z) (file_path : bytes) : M Z :=
  execute_operation "close_file" d (let? request := create (fun a b => packet_create.close_path a b get_uuid file_path) in ask request ok_or_not).
Definition ls (d : Z) (path : bytes) : M Z :=
  execute_operation "ls" d (let? request := create (fun a b => Some (packet_create.ls_path a b get_uuid path)) in ask request error_or_not).
Definition get_stat_file (d : Z) (file_path : bytes) : M Z :=
  execute_operation "get_stat_file" d (let? request := create (fun a b => packet_create.get_stat_file a b get_uuid file_path) in ask request error_or_not).
Definition get_stat_dir (d : Z) (dir_path : bytes) : M Z :=
  execute_operation "get_stat_dir" d (let? request := create (fun a b => packet_create.get_stat_dir a b get_uuid dir_path) in ask request error_or_not).
Definition init (d : Z) (dir_path : bytes) : M Z :=
  execute_operation "init" d (let? request := create (fun a b => Some (packet_create.init_path a b get_uuid dir_path)) in ask request ok_or_not).

Definition rename_file (d : Z) (file_path new_file_path : bytes) : M Z :=
  execute_operation "rename_file" d (
    let parent_path := get_parent_path file_path in
    let? same := same_proxy (get_uuid (get_parent_path new_file_path)) (get_uuid parent_path) in
    let? locked :=
      if (same : bool) then ret true
      else let? request := create (fun a b => Some (packet_create.lock_path a b get_uuid parent_path)) in
           guarded (let? _ := transmit send request in ret true) (ret false) in
    if (locked : bool) then
      let? request := create (fun a b => packet_create.rename_file_path a b get_uuid file_path new_file_path) in
      guarded (let? _ := transmit send request in let? _ := detach parent_path in ret 1)
        (let? _ := detach parent_path in ret (-1))
    else ret (-1)).

Definition read (d : Z) (fileName : bytes) (size : Z) : M Z :=
  execute_operation "read" d (let? request := create (fun a b => packet_create.read_v2_path a b get_uuid fileName size 0) in ask_directly request error_or_not).
Definition write (d : Z) (fileName buffer : bytes) (position : Z) : M Z :=
  execute_operation "write" d (let? request := create (fun a b => packet_create.write_v2_path a b get_uuid fileName buffer position) in
    ask_directly request ok_or_not).
Definition create_and_write_file_single_request (d : Z) (fileName buffer : bytes) : M Z :=
  execute_operation "create_and_write_file" d (
    let? request := create (fun a b => packet_create.create_and_write_path a b get_uuid fileName buffer) in ask request ok_or_not).

(** [direct_read] and [direct_write] open, transfer and close; an endpoint that cannot be
    reached is ignored. *)
Definition opened_transfer (file_path : bytes) (transfer : bytes -> bytes -> option packet) (judge : bytes -> Z) : M Z :=
  guarded (
    let? request := create (fun a b => packet_create.open_path a b get_uuid file_path) in
    let? resp := transmit send request in
    if begins (lit "ERROR"%string) resp then ret (-1)
    else
      let? ep := address resp in
      let? _ := guarded (connect_to ep request) (ret tt) in
      let? request := create transfer in
      let? resp2 := transmit direct_send request in
      if begins (lit "ERROR"%string) resp2 then ret (-1)
      else
        let? request := create (fun a b => packet_create.close_path a b get_uuid file_path) in
        let? resp3 := transmit send request in
        ret (judge resp3))
  (ret (-1)).

Definition direct_read (d : Z) (file_path : bytes) (size : Z) : M Z :=
  execute_operation "direct_read" d (opened_transfer file_path (fun a b => packet_create.read_v2_path a b get_uuid file_path size 0)
    (fun resp3 => if begins (lit "ERROR"%string) (until_nul resp3) then -1 else 1)).
Definition direct_write (d : Z) (file_path buffer : bytes) (position : Z) : M Z :=
  execute_operation "direct_write" d (opened_transfer file_path (fun a b => packet_create.write_v2_path a b get_uuid file_path buffer position) ok_or_not).

(** [reset_latencies]. *)
Definition reset_latencies (s : client_state S) : client_state S :=
  mk_client ((fun _ => no_metrics) <$> s.(metrics)) no_metrics s.(world) s.(background).

(** The detached thread: it unlocks until the answer is OK; an exception, which nothing
    catches, ends the process. *)
Inductive thread_end := Running | Finished | Terminated.

Fixpoint unlock_loop (fuel : nat) (request : packet) (w : S) : option (S * thread_end) :=
  match fuel with
  | O => Some (w, Running)
  | Datatypes.S fuel =>
      '(w, r) ← send request w;
      match r with
      | None => Some (w, Terminated)
      | Some result => if bool_decide (result = lit "OK"%string) then Some (w, Finished) else unlock_loop fuel request w
      end
  end.

Definition unlock_thread (fuel : nat) (parent_path : bytes) (w : S) : option (S * thread_end) :=
  let '(w, (salt, sequence)) := draw w in
  unlock_loop fuel (packet_create.unlock_path salt sequence get_uuid parent_path) w.

End client.

(** ** One proxy with one data function *)

(** The tables of the proxy, the function, and how many requests it has run. *)
Record served (D : Type) := mk_served { tables : launcher; function : function_state (D := D); clock : nat }.
Arguments mk_served {D}. Arguments tables {D}. Arguments function {D}. Arguments clock {D}.

(** What the proxy makes of an answer of its worker: the data for the client, and the
    tables (see [answer_for_client]). *)
Definition reply_of (worker_address : bytes) (a : packet) : bytes :=
  match of_code a.(header).(type) with
  | Some open_file_success => worker_address
  | Some open_file_not_found => err_open_not_found
  | Some rename_success => text_ok
  | Some rename_fail => err_invalid
  | _ => a.(data)
  end.

Definition tables_after (a : packet) (l : launcher) : option launcher :=
  match of_code a.(header).(type) with
  | Some open_file_success => k ← mem_get 0 key_size a.(data); Some (on_worker_finished_opening_a_file l k true)
  | Some open_file_not_found => k ← mem_get 0 key_size a.(data); Some (on_worker_finished_opening_a_file l k false)
  | Some (rename_success | rename_fail) => k ← mem_get 0 key_size a.(data); Some (on_worker_finished_renaming_file l k)
  | _ => Some l
  end.

Lemma answer_for_client w x a s : s.(workers) !! w = Some x -> x.(reading) = true ->
  of_code a.(header).(type) ∈ [Some worker_response; Some open_file_success; Some open_file_not_found; Some rename_success; Some rename_fail] ->
  from_worker w a s = l ← tables_after a s.(Worker.tables);
    Some (post (Responded w (has_data (reply_of x.(Worker.endpoint) a) a)) (with_tables l s)).
Proof.
  intros Hw Hr Ht. unfold from_worker, on_body, tables_after, reply_of. rewrite Hw. cbn [mbind option_bind]. rewrite Hr.
  repeat (apply elem_of_cons in Ht as [->|Ht]); [..|by apply elem_of_nil in Ht]; cbn [mbind option_bind];
    try (destruct (mem_get 0 key_size a.(data)); done).
  by destruct s, a as [[] ?].
Qed.

Section served.
Context {D : Type} `{KVStore D}.
Variable pick : bytes -> Z -> Z -> Z.
Variable cfg : Coordinator.config.
Variable salts : Z -> bytes.
Variable shuffle : forall A : Type, list A -> list A.
Variable format_time : Z -> bytes.
Variables salt sequence uninitialised : bytes.
Variable cache_cfg : Cache.config.
Variable enable_cache_ : bool.
Variables client_salt client_sequence : bytes.
(** When the n-th request is run and the version its commits get; what a locked
    directory's request reads ([Launcher.start_trigger_post]); the address of the
    function, and which addresses can be connected to. *)
Variable tick : nat -> Z * Z.
Variable freed : bytes.
Variable worker_address : bytes.
Variable reachable : Ring.endpoint -> bool.

Local Abbreviation job := (start_job pick cfg salts shuffle format_time salt sequence uninitialised cache_cfg enable_cache_).

(** [None]: no answer comes, or more than one. *)
Definition through_function (p : packet) (w : served D) : option (served D * packet) :=
  '(f, answers) ← job (tick w.(clock)).1 (tick w.(clock)).2 p w.(function);
  match answers with
  | [a] => Some (mk_served w.(tables) f (Datatypes.S w.(clock)), a)
  | _ => None
  end.

Definition served_send (p : packet) (w : served D) : option (served D * option bytes) :=
  '(l, q) ← start_trigger_post freed w.(tables) p;
  let w := mk_served l w.(function) w.(clock) in
  match of_code q.(header).(type) with
  | Some proxy_send_ip => Some (w, Some worker_address)
  | Some (proxy_send_error | proxy_send_ok) => Some (w, Some q.(data))
  | _ =>
      '(w, a) ← through_function q w;
      l ← tables_after a w.(tables);
      Some (mk_served l w.(function) w.(clock), Some (reply_of worker_address a))
  end.

Definition served_directly (p : packet) (w : served D) : option (served D * option bytes) :=
  '(w, a) ← through_function p w; Some (w, Some a.(data)).

Definition served_transport : Transport (served D) := {|
  send := served_send;
  direct_send := served_directly;
  add_endpoint ep _ w := (w, reachable ep);
  compare_proxies_by_key _ _ _ := true;
  draw w := (w, (client_salt, client_sequence))
|}.

End served.

(** ** Answers *)

Lemma says_ok_text : says "OK" msg_ok = true /\ says "OK" err_file_exists = false /\ says "OK" err_not_found = false.
Proof. split; [|split]; vm_compute; reflexivity. Qed.

Lemma contains_middle text a b : contains text (a ++ text ++ b) = true.
Proof.
  induction a as [|x a IH]; cbn [app].
  - assert (begins text (text ++ b) = true) as E by (unfold begins; apply bool_decide_eq_true; by rewrite take_app_length).
    destruct (text ++ b); cbn [contains]; by rewrite E.
  - cbn [contains]. by rewrite IH, orb_true_r.
Qed.

(** A request of no directory that is locked and no file in use is passed on. *)
Lemma passed_on freed l p op i : describes p metadata (meta_operation_code op) i -> op ∈ [addfile; deletefile; Request.init] ->
  l.(locked_directories_for_rename) !! i.(in_uuid) = None ->
  (op = deletefile -> l.(locked_files_for_open) !! i.(in_key) = None /\ l.(opened_files) !! i.(in_key) = None) ->
  start_trigger_post freed l p = Some (l, has_type worker_push_request p).
Proof.
  intros Hd Hop Hl Hf. pose proof (parse_input_inv _ _ (ds_input _ _ _ _ Hd)) as (Hk & _ & Hh). destruct Hd as [_ Ht Ho _].
  unfold start_trigger_post. rewrite Hk. cbn [mbind option_bind]. rewrite Hh, Hl.
  unfold is_metadata. rewrite Ht. cbn [mbind option_bind]. rewrite type_of_code_code, bool_decide_eq_true_2 by done.
  unfold request_parser.meta_operation. rewrite Ho. cbn [mbind option_bind]. unfold proxy_operation_of_code. rewrite meta_operation_of_code_code.
  repeat (apply elem_of_cons in Hop as [->|Hop]); [done| |done|by apply elem_of_nil in Hop].
  destruct (Hf eq_refl) as [E1 E2]. unfold admit_metadata. rewrite E1, E2. rewrite bool_decide_eq_false_2; [done|].
  intros [[? ?]|[? ?]]; congruence.
Qed.

Section api_facts.
Context {D : Type} `{KVLaws D}.
Variable pick : bytes -> Z -> Z -> Z.
Variable cfg : Coordinator.config.
Variable salts : Z -> bytes.
Variable shuffle : forall A : Type, list A -> list A.
Variable format_time : Z -> bytes.
Variables salt sequence uninitialised : bytes.
Variable cache_cfg : Cache.config.
Variable enable_cache_ : bool.
Variables client_salt client_sequence : bytes.
Variable tick : nat -> Z * Z.
Variable freed : bytes.
Variable worker_address : bytes.
Variable reachable : Ring.endpoint -> bool.
Variable get_uuid : bytes -> bytes.
Hypothesis Huuid : forall path, length (get_uuid path) = key_size.
Hypothesis Hcfg : config_ok pick cfg salts shuffle.

Local Instance transport : Transport (served D) := served_transport pick cfg salts shuffle format_time salt sequence uninitialised
  cache_cfg enable_cache_ client_salt client_sequence tick freed worker_address reachable.
Local Abbreviation key_of_dir dir := (get_uuid (directory dir)).
Local Abbreviation directory_holds w key n m := (holds_map pick cfg (checked (function w)) (servers (function w)) key n m).

(** A request of metadata that is passed on is answered by what its operation replies. *)
Lemma send_passed p op i w cl rec reply a : describes p metadata (meta_operation_code op) i -> op ∈ [addfile; deletefile; Request.init] ->
  w.(tables).(locked_directories_for_rename) !! i.(in_uuid) = None ->
  (op = deletefile -> w.(tables).(locked_files_for_open) !! i.(in_key) = None /\ w.(tables).(opened_files) !! i.(in_key) = None) ->
  run_step pick cfg salts shuffle format_time salt sequence uninitialised w.(function).(servers) w.(function).(checked)
    (mk_step (tick w.(clock)).1 (tick w.(clock)).2 op i) = Some (cl, rec, [reply]) ->
  respond p reply = Some (has_data a (has_type worker_response p)) ->
  send p w = Some (mk_served w.(tables) (mk_function w.(function).(cache_engine_) cl rec) (Datatypes.S w.(clock)), Some a).
Proof.
  intros Hd Hop Hl Hf E Er. cbn [send transport served_transport]. unfold served_send.
  rewrite (passed_on freed w.(tables) p op i Hd Hop Hl Hf). cbn [mbind option_bind].
  change (of_code (has_type worker_push_request p).(header).(type)) with (Some worker_push_request). cbv iota.
  unfold through_function. cbn [function clock].
  pose proof (start_job_metadata pick cfg salts shuffle format_time salt sequence uninitialised cache_cfg enable_cache_
    (tick w.(clock)).1 (tick w.(clock)).2 p op i w.(function) cl rec reply _ Hd E Er) as Ej.
  change (start_job pick cfg salts shuffle format_time salt sequence uninitialised cache_cfg enable_cache_ (tick w.(clock)).1 (tick w.(clock)).2
    (has_type worker_push_request p) w.(function)) with
    (start_job pick cfg salts shuffle format_time salt sequence uninitialised cache_cfg enable_cache_ (tick w.(clock)).1 (tick w.(clock)).2 p w.(function)).
  rewrite Ej. done.
Qed.

(** *** Sessions of calls *)

Inductive call := AddCall (d : Z) (f : bytes) | DeleteCall (d : Z) (f : bytes).
Definition request_of (c : call) : DataFunction.request := match c with AddCall _ f => AddFile f | DeleteCall _ f => DeleteFile f end.

Variable dir : list bytes.

Definition run_call (c : call) : M Z :=
  match c with
  | AddCall d f => add_file get_uuid d (render (dir ++ [f]))
  | DeleteCall d f => delete_file get_uuid d (render (dir ++ [f]))
  end.

Fixpoint run_calls (cs : list call) (s : client_state (served D)) : option (client_state (served D) * list (option Z)) :=
  match cs with
  | [] => Some (s, [])
  | c :: cs => '(s, r) ← run_call c s; '(s, rs) ← run_calls cs s; Some (s, r :: rs)
  end.

(** The steps of the map the calls stand for, the first at a given clock. *)
Fixpoint steps_of (n : nat) (cs : list call) : list Filesystem.step :=
  match cs with
  | [] => []
  | c :: cs => step_of get_uuid dir ((tick n), request_of c) :: steps_of (Datatypes.S n) cs
  end.

Definition call_ok (c : call) : Prop := component (file_of_request (request_of c)) /\ name_ok (file_of_request (request_of c)).
Definition result_of (reply : bytes) : Z := if bool_decide (reply = msg_ok) then 1 else -1.

Lemma ok_or_not_result m step : ok_or_not (spec_step m step).2 = result_of (spec_step m step).2.
Proof. unfold spec_step. repeat case_match; vm_compute; reflexivity. Qed.

Hypothesis Hticks : forall i, 0 <= (tick i).2 < 2 ^ 32.

(** The packet of a call. *)
Definition packet_of (c : call) : option packet :=
  match c with
  | AddCall _ f => packet_create.add_file_v2 client_salt client_sequence get_uuid (render (dir ++ [f]))
  | DeleteCall _ f => packet_create.delete_file_path client_salt client_sequence get_uuid (render (dir ++ [f]))
  end.

(** Sent to the proxy it is answered with what the map says. *)
Lemma send_call_spec c w n m : directory_holds w (key_of_dir dir) n m -> w.(tables) = empty_launcher -> call_ok c ->
  Z.of_nat (Datatypes.S n) < 2 ^ 25 ->
  let step := step_of get_uuid dir (tick w.(clock), request_of c) in
  exists p w', packet_of c = Some p /\ send p w = Some (w', Some (spec_step m step).2) /\ w'.(tables) = empty_launcher /\
    w'.(clock) = Datatypes.S w.(clock) /\ directory_holds w' (key_of_dir dir) (Datatypes.S n) (spec_step m step).1.
Proof.
  intros Hh Ht (Hc & Hn) Hl step. set (t := (tick w.(clock), request_of c)) in *.
  assert (request_ok t) as Hok by (subst t; unfold request_ok; pose proof (Hticks w.(clock)); by destruct (tick _) as [now version]).
  destruct (request_describes client_salt client_sequence get_uuid dir Huuid t Hok) as (p & Ep & Hd & Ha).
  destruct (run_step_spec pick cfg salts shuffle format_time salt sequence uninitialised Hcfg w.(function).(checked)
    w.(function).(servers) _ n m step Hh (request_step_ok get_uuid dir t Hok) Hl) as (cl & rec & E & Hh1).
  assert (mk_step (tick w.(clock)).1 (tick w.(clock)).2 step.(st_op) step.(st_input) = step) as Es
    by (subst step t; destruct (tick _), (request_of c); done).
  exists p, (mk_served empty_launcher (mk_function w.(function).(cache_engine_) cl rec) (Datatypes.S w.(clock))).
  split; [subst t; by destruct c|]. split; [|by split_and!]. rewrite <- Ht.
  apply (send_passed p step.(st_op) step.(st_input) w cl rec (spec_step m step).2);
    [exact Hd| |rewrite Ht; apply lookup_empty|intros _; rewrite Ht; split; apply lookup_empty|by rewrite Es|].
  - subst step t. destruct c; cbn; destruct (tick _); cbn; rewrite !elem_of_cons; auto.
  - rewrite Ha. subst t. by destruct c.
Qed.

Lemma run_call_spec c s n m : directory_holds s.(world) (key_of_dir dir) n m -> s.(world).(tables) = empty_launcher -> call_ok c ->
  Z.of_nat (Datatypes.S n) < 2 ^ 25 ->
  let step := step_of get_uuid dir (tick s.(world).(clock), request_of c) in
  exists s', run_call c s = Some (s', Some (result_of (spec_step m step).2)) /\ s'.(world).(tables) = empty_launcher /\
    s'.(world).(clock) = Datatypes.S s.(world).(clock) /\
    directory_holds s'.(world) (key_of_dir dir) (Datatypes.S n) (spec_step m step).1.
Proof.
  intros Hh Ht Hc Hl step. destruct (send_call_spec c s.(world) n m Hh Ht Hc Hl) as (p & w' & Ep & Esend & Hw).
  assert (forall name d f, f client_salt client_sequence = Some p ->
    exists s', execute_operation name d (bind (create f) (fun request => ask request ok_or_not)) s = Some (s', Some (ok_or_not (spec_step m step).2)) /\
      s'.(world) = w') as Hrun.
  { intros name d f Ef. unfold execute_operation, bind, create. cbn [draw transport served_transport]. rewrite Ef. cbn [mbind option_bind with_world].
    unfold ask, guarded, bind, transmit. unfold with_world at 1. cbn [mbind option_bind world]. rewrite Esend. cbn [mbind option_bind with_world ret].
    eexists. split; [reflexivity|reflexivity]. }
  rewrite <- ok_or_not_result.
  destruct c as [d f|d f]; [destruct (Hrun "add_file"%string d (fun a b => packet_create.add_file_v2 a b get_uuid (render (dir ++ [f]))) Ep) as (s' & Er & Ew)
    |destruct (Hrun "delete_file"%string d (fun a b => packet_create.delete_file_path a b get_uuid (render (dir ++ [f]))) Ep) as (s' & Er & Ew)];
    (exists s'; split; [exact Er|]; by rewrite Ew).
Qed.

(** A program sees the directory as a map from names: any sequence of calls of
    [add_file] and [delete_file] on paths inside a directory returns 1 where the map has
    the name to delete, or has not the name to add, and -1 otherwise, and leaves the
    servers with the map these calls leave - from the path and the packet through the
    proxy's tables, the data function, the two-phase commits and back to the integer. *)
Theorem api_session_refines_map cs s n m
    (Hh : directory_holds s.(world) (key_of_dir dir) n m) (Ht : s.(world).(tables) = empty_launcher)
    (Hcs : Forall call_ok cs) (Hl : Z.of_nat (n + length cs) < 2 ^ 25) :
  let spec := spec_session m (steps_of s.(world).(clock) cs) in
  exists s', run_calls cs s = Some (s', Some ∘ result_of <$> spec.2) /\
    s'.(world).(tables) = empty_launcher /\ directory_holds s'.(world) (key_of_dir dir) (n + length cs) spec.1.
Proof.
  cbv zeta. revert s n m Hh Ht Hl. induction Hcs as [|c cs Hc Hcs IH]; intros s n m Hh Ht Hl.
  - exists s. split; [done|]. split; [done|]. cbn. by rewrite Nat.add_0_r.
  - cbn [length] in Hl. destruct (run_call_spec c s n m Hh Ht Hc ltac:(lia)) as (s1 & E1 & Ht1 & Hk1 & Hh1).
    destruct (IH s1 _ _ Hh1 Ht1 ltac:(lia)) as (s' & E' & Ht' & Hh').
    exists s'. cbn [run_calls steps_of spec_session]. rewrite E1. cbn [mbind option_bind]. rewrite E'. cbn [mbind option_bind].
    rewrite Hk1 in *. destruct (spec_step m _) as [m1 r1]. cbn [fst snd] in *. destruct (spec_session m1 _) as [m2 rs]. cbn [fst snd] in *.
    split; [done|]. split; [done|]. cbn [length]. by rewrite <- Nat.add_succ_comm.
Qed.

(** The thread of a rename sends [unlock], which is [init]: each round empties the
    directory, and the answer, which ends in a NUL, is not the text it waits for. *)
Lemma unlock_loop_runs fuel path w : let key := get_uuid path in
  hosts_ok cfg w.(function).(servers) -> idle pick cfg w.(function).(checked) w.(function).(servers) key ->
  length uninitialised = 60%nat -> w.(tables).(locked_directories_for_rename) !! key = None ->
  exists w', unlock_loop fuel (packet_create.unlock_path client_salt client_sequence get_uuid path) w = Some (w', Running) /\
    (fuel <> 0%nat -> directory_holds w' key 0 ∅).
Proof.
  cbv zeta. intros Hok Hi Hun Hl. revert w Hok Hi Hl. induction fuel as [|fuel IH]; intros w Hok Hi Hl; [by exists w|]. cbn [unlock_loop].
  pose proof (init_describes client_salt client_sequence (get_uuid path)) as Hd.
  destruct (run_init_spec pick cfg salts shuffle format_time salt sequence uninitialised Hcfg w.(function).(checked) w.(function).(servers) (get_uuid path)
    (mk_step (tick w.(clock)).1 (tick w.(clock)).2 Request.init (mk_input (get_uuid path) 0 0 [] (replicate 32 x00) [])) Hok (Huuid path) Hi eq_refl eq_refl (Hticks _) Hun)
    as (cl & E & Hh).
  erewrite (send_passed (packet_create.unlock_path client_salt client_sequence get_uuid path) _ _ w cl _ msg_ok msg_ok Hd);
    [|rewrite !elem_of_cons; auto|done|done|exact E|by eapply respond_other].
  cbn [mbind option_bind]. rewrite bool_decide_eq_false_2 by (by vm_compute).
  set (w1 := mk_served _ _ _). pose proof Hh as (Hok1 & _ & Hi1 & _).
  destruct fuel as [|fuel]; [exists w1; split; [done|]; intros _; exact Hh|].
  destruct (IH w1 Hok1 Hi1 Hl) as (w' & E' & Hh'). exists w'. split; [exact E'|]. intros _. by apply Hh'.
Qed.

End api_facts.

Lemma bind_ret {S A B} (a : A) (k : A -> M (S := S) B) s : bind (ret a) k s = k a s.
Proof. done. Qed.

Lemma bind_same_proxy {S B} `{Transport S} k1 k2 (k : bool -> M (S := S) B) s : bind (same_proxy k1 k2) k s = k (compare_proxies_by_key k1 k2 s.(world)) s.
Proof. done. Qed.

(** A rename that returns 1 has started the thread. *)
Lemma rename_detaches {S} `{Transport S} get_uuid d file_path new_file_path s s' :
  rename_file get_uuid d file_path new_file_path s = Some (s', Some 1) -> s'.(background) = s.(background) ++ [get_parent_path file_path].
Proof.
  unfold rename_file, execute_operation, bind, guarded, create, transmit, detach, ret, with_world, same_proxy. cbn [mbind option_bind].
  destruct (compare_proxies_by_key _ _ _); cbn [mbind option_bind]; intros E;
    repeat (simplify_option_eq; try case_match); try done.
Qed.

(** A rename reports success, and starts the thread, whatever the answer was. *)
Lemma rename_succeeds {S} `{Transport S} get_uuid d file_path new_file_path s :
  (forall p w, exists w' resp, send p w = Some (w', Some resp)) ->
  (forall salt sequence, is_Some (packet_create.rename_file_path salt sequence get_uuid file_path new_file_path)) ->
  exists s', rename_file get_uuid d file_path new_file_path s = Some (s', Some 1) /\
    s'.(background) = s.(background) ++ [get_parent_path file_path].
Proof.
  intros Hsend Hmade. unfold rename_file, execute_operation.
  assert (forall s0 : client_state S, s0.(background) = s.(background) -> exists s',
    bind (create (fun a b => packet_create.rename_file_path a b get_uuid file_path new_file_path))
      (fun request => guarded (bind (transmit send request) (fun _ => bind (detach (get_parent_path file_path)) (fun _ => ret 1)))
        (bind (detach (get_parent_path file_path)) (fun _ => ret (-1)))) s0 = Some (s', Some 1) /\
    s'.(background) = s.(background) ++ [get_parent_path file_path]) as Hrest.
  { intros s0 Hb. unfold bind, create. destruct (draw s0.(world)) as [w [salt sequence]]. destruct (Hmade salt sequence) as [p ->].
    cbn [mbind option_bind with_world]. unfold guarded, transmit. unfold with_world at 1. cbn [mbind option_bind world].
    destruct (Hsend p w) as (w' & resp & ->). cbn. eexists. split; [reflexivity|]. cbn. by rewrite Hb. }
  rewrite bind_same_proxy. destruct (compare_proxies_by_key _ _ _).
  - rewrite bind_ret. destruct (Hrest s eq_refl) as (s' & -> & Hb). cbn [mbind option_bind]. eexists. split; [reflexivity|done].
  - assert (exists s1, bind (create (fun a b => Some (packet_create.lock_path a b get_uuid (get_parent_path file_path))))
        (fun request => guarded (bind (transmit send request) (fun _ => ret true)) (ret false)) s = Some (s1, Some true) /\
      s1.(background) = s.(background)) as (s1 & E1 & Hb1).
    { unfold bind, create. destruct (draw s.(world)) as [w [salt sequence]]. cbn [mbind option_bind with_world].
      unfold guarded, transmit. unfold with_world at 1. cbn [mbind option_bind world].
      destruct (Hsend (packet_create.lock_path salt sequence get_uuid (get_parent_path file_path)) w) as (w' & resp & ->).
      cbn. eexists. split; reflexivity. }
    unfold bind at 1. rewrite E1. cbn [mbind option_bind]. destruct (Hrest s1 Hb1) as (s' & -> & Hb). cbn [mbind option_bind].
    eexists. split; [reflexivity|done].
Qed.

(** C23. A rename through the library empties the directory it renames from, for ever: a
    [rename_file] that returns 1 has detached a thread, and however often the thread has
    sent its [unlock], it is still sending (the answer, OK and a NUL, is not the text it
    compares with), and the directory is empty, whatever it held. *)
Theorem rename_wipes_directory {D} `{KVLaws D} pick cfg salts shuffle format_time salt sequence uninit cache_cfg enable_cache
    csalt csequence tick freed worker_address reachable get_uuid
    (Hcfg : config_ok pick cfg salts shuffle) (Huuid : forall path, length (get_uuid path) = key_size)
    (Hticks : forall i : nat, 0 <= (tick i).2 < 2 ^ 32) (Hun : length uninit = 60%nat) :
  let T := served_transport pick cfg salts shuffle format_time salt sequence uninit cache_cfg enable_cache
             csalt csequence tick freed worker_address reachable in
  forall d file_path new_file_path s s', rename_file (H := T) get_uuid d file_path new_file_path s = Some (s', Some 1) ->
  let parent_path := get_parent_path file_path in
  s'.(background) = s.(background) ++ [parent_path] /\
  forall fuel (w : served D), hosts_ok cfg w.(function).(servers) ->
    idle pick cfg w.(function).(checked) w.(function).(servers) (get_uuid parent_path) ->
    w.(tables).(locked_directories_for_rename) !! get_uuid parent_path = None ->
    exists w', unlock_thread (H := T) get_uuid fuel parent_path w = Some (w', Running) /\
      (fuel <> 0%nat -> holds_map pick cfg w'.(function).(checked) w'.(function).(servers) (get_uuid parent_path) 0 ∅).
Proof.
  intros T d file_path new_file_path s s' E parent_path. split; [by eapply rename_detaches|].
  intros fuel w Hok Hi Hl.
  pose proof (unlock_loop_runs pick cfg salts shuffle format_time salt sequence uninit cache_cfg enable_cache csalt csequence tick
    freed worker_address reachable get_uuid Huuid Hcfg Hticks fuel parent_path w Hok Hi Hun Hl) as Hr. exact Hr.
Qed.

(** A file that is not there is opened at the address its error message spells: the text
    begins with Error, not with ERROR, so its first six bytes are taken for the address
    and the port of a worker, and the call returns 1 if somebody answers there. *)
Theorem open_missing_connects {S} `{Transport S} get_uuid d file_path (s : client_state S) w salt sequence p w' :
  draw s.(world) = (w, (salt, sequence)) -> packet_create.open_path salt sequence get_uuid file_path = Some p ->
  send p w = Some (w', Some err_open_not_found) ->
  exists s', open_file get_uuid d file_path s
    = Some (s', Some (if (add_endpoint (mk_endpoint (lit "Erro"%string) 29242) p w').2 then 1 else -1)).
Proof.
  intros Ed Ep Es. unfold open_file, execute_operation, bind, create. rewrite Ed. cbn [mbind option_bind]. rewrite Ep.
  cbn [mbind option_bind with_world]. unfold guarded, transmit. unfold with_world at 1. cbn [mbind option_bind world]. rewrite Es.
  cbn [mbind option_bind with_world]. assert (begins (lit "ERROR"%string) err_open_not_found = false) as -> by (vm_compute; reflexivity).
  unfold address. assert (parse_address err_open_not_found = Some (mk_endpoint (lit "Erro"%string) 29242)) as -> by (vm_compute; reflexivity).
  cbn [mbind option_bind]. unfold connect_to. cbn [world]. destruct (add_endpoint _ _ _) as [w2 []]; cbn; eexists; reflexivity.
Qed.

(** ** The statistics *)

(** What is reported of the durations of successful operations, and of failures. *)
Definition summary (os : list (Z * bool)) : OperationMetrics :=
  let durations := fst <$> filter (fun o => o.2 = true) os in
  mk_metrics (foldr Z.min (2 ^ 63 - 1) durations) (foldr Z.max (- 2 ^ 63) durations) (foldr Z.add 0 durations)
    (u64 (Z.of_nat (length durations))) (u64 (Z.of_nat (length os - length durations))).

Lemma fold_app (f : Z -> Z -> Z) a l x : (forall a b c, f a (f b c) = f b (f a c)) -> foldr f a (l ++ [x]) = f x (foldr f a l).
Proof. intros Hf. induction l as [|y l IH]; cbn; [done|]. by rewrite IH, Hf. Qed.

Lemma summary_snoc os d (success : bool) :
  summary (os ++ [(d, success)]) = (if success then count_success d else count_failure) (summary os).
Proof.
  assert (forall a, u64 (u64 a + 1) = u64 (a + 1)) as Hu by (intros a; unfold wrap; apply Zplus_mod_idemp_l).
  assert (length (fst <$> filter (fun o : Z * bool => o.2 = true) os) <= length os)%nat as Hle by (rewrite length_fmap; apply length_filter).
  unfold summary. rewrite filter_app, length_app. cbn [length]. destruct success.
  - rewrite filter_cons_True by done. rewrite filter_nil, fmap_app. cbn [fmap list_fmap fst]. unfold count_success.
    cbn [min_latency max_latency total_latency successful_count unsuccessful_count]. rewrite !fold_app by lia. rewrite length_app, Hu. cbn [length].
    f_equal; [lia|lia|lia|f_equal; lia|f_equal; lia].
  - rewrite filter_cons_False by done. rewrite filter_nil, app_nil_r. unfold count_failure. cbn. rewrite Hu. do 2 f_equal. lia.
Qed.

Definition update_all {S} (os : list (bytes * (Z * bool))) (s : client_state S) : client_state S :=
  foldl (fun s o => update_metrics o.1 o.2.1 o.2.2 s) s os.

(** The statistics are what they say: after any operations the overall record holds
    the least, the greatest and the sum of the durations of those that succeeded, and
    how many succeeded and failed; and the record of an operation the same of its own. *)
Theorem metrics_summarise {S} os (w : S) name :
  let s := update_all os (mk_client ∅ no_metrics w []) in
  s.(overall_metrics) = summary os.*2 /\
  default no_metrics (s.(metrics) !! name) = summary (filter (fun o => o.1 = name) os).*2.
Proof.
  cbv zeta. induction os as [|[n [d success]] os IH] using rev_ind; [split; [vm_compute; reflexivity|by cbn; rewrite lookup_empty]|].
  destruct IH as [IH1 IH2]. unfold update_all in *. rewrite foldl_app. cbn [foldl fst snd]. unfold update_metrics at 1 3.
  cbn [overall_metrics metrics]. rewrite fmap_app, filter_app. cbn [fmap list_fmap snd]. rewrite summary_snoc. split; [by rewrite IH1|].
  destruct (decide (n = name)) as [->|Hne].
  - rewrite lookup_insert_eq. cbn [default from_option id]. rewrite filter_cons_True by done. rewrite filter_nil, fmap_app. cbn [fmap list_fmap snd].
    rewrite summary_snoc. cbn. by rewrite IH2.
  - rewrite lookup_insert_ne by done. rewrite filter_cons_False by done. rewrite filter_nil, app_nil_r. exact IH2.
Qed.

(** ** Concrete calls *)

Definition sample_served : Transport (served (gmap bytes bytes)) :=
  served_transport sample_pick sample_cfg sample_salts sample_shuffle (fun _ => []) [] [] sample_reserved (Cache.mk_config 4096 false) false
    [] [] (fun _ => (0, 5)) [] (replicate 6 x0a) (fun _ => true).

Lemma sample_ticks (i : nat) : 0 <= ((fun _ : nat => (0, 5)) i).2 < 2 ^ 32.
Proof. cbn. lia. Qed.

Definition sample_calls : list call := [AddCall 5 [x61]; AddCall 6 [x61]; DeleteCall 7 [x61]; DeleteCall 8 [x61]].

Lemma sample_calls_ok : Forall call_ok sample_calls.
Proof.
  assert (component [x61] /\ name_ok [x61]) as [Hc Hn].
  { split; split; [done| |cbn; unfold file_name_length; lia|]; by apply (bool_decide_unpack _). }
  unfold sample_calls. repeat (apply Forall_cons_2; [split; [exact Hc|exact Hn]|]). apply Forall_nil_2.
Qed.

Lemma api_session_refines_map_witness : exists f s',
  run_calls sample_pick sample_cfg sample_salts sample_shuffle (fun _ => []) [] [] sample_reserved (Cache.mk_config 4096 false) false
    [] [] (fun _ => (0, 5)) [] (replicate 6 x0a) (fun _ => true) df_uuid [] sample_calls
    (mk_client ∅ no_metrics (mk_served empty_launcher f 0) []) = Some (s', [Some 1; Some (-1); Some 1; Some (-1)]) /\
  holds_map sample_pick sample_cfg (checked (function (world s'))) (servers (function (world s'))) (df_uuid (directory [])) 4 ∅.
Proof.
  destruct (run_init_path [] [] sample_pick sample_cfg sample_salts sample_shuffle (fun _ => []) [] [] sample_reserved
    (Cache.mk_config 4096 false) false sample_config_ok 0 3 (df_uuid (directory [])) df_start) as (f & _ & Hm);
    [apply sample_hosts_ok|reflexivity|apply sample_idle|lia|reflexivity|].
  destruct (api_session_refines_map sample_pick sample_cfg sample_salts sample_shuffle (fun _ => []) [] [] sample_reserved
    (Cache.mk_config 4096 false) false [] [] (fun _ => (0, 5)) [] (replicate 6 x0a) (fun _ => true) df_uuid df_uuid_length
    sample_config_ok [] sample_ticks sample_calls (mk_client ∅ no_metrics (mk_served empty_launcher f 0) []) 0 ∅) as (s' & E & _ & Hh).
  - exact Hm.
  - reflexivity.
  - exact sample_calls_ok.
  - cbn. lia.
  - exists f, s'. split; [exact E|exact Hh].
Defined.

Lemma rename_wipes_directory_witness : exists s' w',
  background s' = [lit "/"%string] /\
  unlock_thread (H := sample_served) df_uuid 3 (lit "/"%string) (mk_served empty_launcher df_start 0) = Some (w', Running) /\
  holds_map sample_pick sample_cfg (checked (function w')) (servers (function w')) (df_uuid (lit "/"%string)) 0 ∅ /\
  rename_file (H := sample_served) df_uuid 5 (lit "/a"%string) (lit "/b"%string) (mk_client ∅ no_metrics (mk_served empty_launcher df_start 0) [])
  = Some (s', Some 1).
Proof.
  set (s := mk_client ∅ no_metrics (mk_served empty_launcher df_start 0) []).
  destruct (rename_file (H := sample_served) df_uuid 5 (lit "/a"%string) (lit "/b"%string) s) as [[s' [r|]]|] eqn:E.
  - assert (r = 1) as ->.
    { assert ((fun o => o.2) <$> rename_file (H := sample_served) df_uuid 5 (lit "/a"%string) (lit "/b"%string) s = Some (Some 1)) as Er by (vm_compute; reflexivity).
      rewrite E in Er. cbn in Er. by injection Er. }
    destruct (rename_wipes_directory sample_pick sample_cfg sample_salts sample_shuffle (fun _ => []) [] [] sample_reserved
      (Cache.mk_config 4096 false) false [] [] (fun _ => (0, 5)) [] (replicate 6 x0a) (fun _ => true) df_uuid sample_config_ok df_uuid_length
      sample_ticks eq_refl 5 (lit "/a"%string) (lit "/b"%string) s s' E) as [Hb Hw].
    destruct (Hw 3%nat (mk_served empty_launcher df_start 0) sample_hosts_ok (sample_idle _ _) (lookup_empty _)) as (w' & E' & Hh).
    exists s', w'. split; [exact Hb|]. split; [exact E'|]. split; [apply Hh; discriminate|reflexivity].
  - exfalso. assert (bool_decide ((fun o => o.2) <$> rename_file (H := sample_served) df_uuid 5 (lit "/a"%string) (lit "/b"%string) s = Some (Some 1)) = true) as Er
      by (vm_compute; reflexivity). rewrite E in Er. discriminate Er.
  - exfalso. assert (bool_decide ((fun o => o.2) <$> rename_file (H := sample_served) df_uuid 5 (lit "/a"%string) (lit "/b"%string) s = Some (Some 1)) = true) as Er
      by (vm_compute; reflexivity). rewrite E in Er. discriminate Er.
Defined.
