(* ===== verification/Binding.v ===== *)
(** * The binding for Java
    ([clients/com_gmail_benrcarver_distributed_DistributedFileSystem.cpp])

    Java holds the address of a client as a number, its handle, and hands it back with every
    call.  Here are the functions of the binding over the class of [Api], with the clients
    that are alive and the threads they have left behind. *)
From Stdlib Require Import ZArith Lia.
From stdpp Require Import base tactics option list gmap strings.
From S2P Require Import Prelude Wire KvLog Ssbd Request Stripe Coordinator Cluster Directory Filesystem Cache Launcher Client Worker DataFunction Ring Direct Api.
Import pack.

Section binding.
Context {S : Type} `{Transport S}.
Variable get_uuid : bytes -> bytes.
Local Abbreviation call := (M (S := S) Z).

(** A client but for what all clients share, which is [world_]. *)
Record instance := mk_instance { metrics_ : gmap bytes OperationMetrics; overall_ : OperationMetrics }.

(** A detached thread of a client: the directory it unlocks, and its request when it has
    made it. *)
Record thread := mk_thread { owner : Z; parent_path : bytes; request_ : option packet }.

(** [alive]: the clients by their addresses. *)
Record jvm := mk_jvm { alive : gmap Z instance; world_ : S; threads : list thread }.

(** A call of a member through a pointer; if no client is there it is undefined. *)
Definition member {A} (f : client_state S -> option (client_state S * A)) (h : Z) (j : jvm) : option (jvm * A) :=
  i ← j.(alive) !! h;
  '(s, r) ← f (mk_client i.(metrics_) i.(overall_) j.(world_) []);
  Some (mk_jvm (<[h := mk_instance s.(metrics) s.(overall_metrics)]> j.(alive)) s.(world)
          (j.(threads) ++ ((fun path => mk_thread h path None) <$> s.(background))), r).

(** An operation; no exception passes its [catch]. *)
Definition operation (f : call) : client_state S -> option (client_state S * Z) := fun s =>
  '(s, r) ← f s; z ← r; Some (s, z).

(** What [GetStringUTFChars] returns of a string of Java, up to its NUL; [None] is null. *)
Definition c_string (raw : option bytes) : option bytes := until_nul <$> raw.

(** A function of the binding: first its strings, then the handle. *)
Definition native (f : option (call)) (h : Z) (j : jvm) : option (jvm * Z) :=
  match f with
  | None => Some (j, -1)
  | Some f => if h =? 0 then Some (j, -1) else member (operation f) h j
  end.

Definition with_string (raw : option bytes) (f : bytes -> call) : option (call) := b ← c_string raw; Some (f b).
Definition with_strings (raw1 raw2 : option bytes) (f : bytes -> bytes -> call) : option (call) := a ← c_string raw1; b ← c_string raw2; Some (f a b).

(** The address that [new] returns is given. *)
Definition initNative (raw : option bytes) (address : Z) (j : jvm) : jvm * Z :=
  match c_string raw with
  | None => (j, -1)
  | Some _ => (mk_jvm (<[address := mk_instance ∅ no_metrics]> j.(alive)) j.(world_) j.(threads), address)
  end.

(** [delete] of what is not there is undefined; the threads of the client go on. *)
Definition disposeNative (h : Z) (j : jvm) : option jvm :=
  if h =? 0 then Some j else _ ← j.(alive) !! h; Some (mk_jvm (delete h j.(alive)) j.(world_) j.(threads)).

Definition resetNative (h : Z) (j : jvm) : option jvm :=
  if h =? 0 then Some j else '(j, _) ← member (fun s => Some (reset_latencies s, tt)) h j; Some j.

(** [d] is how long the operation takes. *)
Definition readNative (d h : Z) (jFilePath : option bytes) := native (with_string jFilePath (fun filePath => direct_read get_uuid d filePath 4000)) h.
Definition writeNative (d h : Z) (jFilePath jBuffer : option bytes) (jPosition : Z) :=
  native (with_strings jFilePath jBuffer (fun filePath buffer => write get_uuid d filePath buffer (u32 jPosition))) h.
Definition mkdirNative (d h : Z) (jDirectory : option bytes) := native (with_string jDirectory (mkdir get_uuid d)) h.
Definition createFileNative (d h : Z) (jFilePath : option bytes) := native (with_string jFilePath (add_file get_uuid d)) h.
Definition deleteFileNative (d h : Z) (jFilePath : option bytes) := native (with_string jFilePath (delete_file get_uuid d)) h.
Definition lsNative (d h : Z) (jPath : option bytes) := native (with_string jPath (ls get_uuid d)) h.
Definition getStatFileNative (d h : Z) (jPath : option bytes) := native (with_string jPath (get_stat_file get_uuid d)) h.
Definition getStatDirNative (d h : Z) (jPath : option bytes) := native (with_string jPath (get_stat_dir get_uuid d)) h.
Definition openNative (d h : Z) (jPath : option bytes) := native (with_string jPath (open_file get_uuid d)) h.
Definition closeNative (d h : Z) (jPath : option bytes) := native (with_string jPath (close_file get_uuid d)) h.
Definition renameNative (d h : Z) (jPath jNewPath : option bytes) := native (with_strings jPath jNewPath (rename_file get_uuid d)) h.
Definition createRootNative (d h : Z) := native (Some (init get_uuid d (lit "/"%string))) h.
Definition createFileWithDataNative (d h : Z) (jFilePath jBuffer : option bytes) :=
  native (with_strings jFilePath jBuffer (create_and_write_file_single_request get_uuid d)) h.

(** In nanoseconds, before the division by a million; [-1] without a success. *)
Definition getTotalLatencyNative (h : Z) (j : jvm) : option Z :=
  if h =? 0 then Some (-1)
  else i ← j.(alive) !! h; Some (if 0 <? i.(overall_).(successful_count) then i.(overall_).(total_latency) else -1).

(** A step of a detached thread: its request, sent through the client that made it, until
    the answer is OK; an exception ends the process. *)
Definition thread_step (n : nat) (j : jvm) : option (jvm * thread_end) :=
  t ← j.(threads) !! n;
  _ ← j.(alive) !! t.(owner);
  let '(w, request) := match t.(request_) with
    | Some request => (j.(world_), request)
    | None => let '(w, (salt, sequence)) := draw j.(world_) in (w, packet_create.unlock_path salt sequence get_uuid t.(parent_path))
    end in
  '(w, e) ← unlock_loop 1 request w;
  Some (mk_jvm j.(alive) w match e with Running => <[n := mk_thread t.(owner) t.(parent_path) (Some request)]> j.(threads) | _ => delete n j.(threads) end, e).

(** ** Strings and handles *)

(** Nothing is done without a string or a handle. *)
Lemma native_refuses f h j : f = None \/ h = 0 -> native f h j = Some (j, -1).
Proof. intros [->| ->]; [done|]. by destruct f. Qed.

Lemma member_other {A} (f : client_state S -> option (client_state S * A)) h h' j j' r : member f h j = Some (j', r) -> h' <> h ->
  j'.(alive) !! h' = j.(alive) !! h'.
Proof. intros (i & Hi & ([s x] & _ & E)%bind_Some)%bind_Some Hne. injection E as <- _. cbn. by rewrite lookup_insert_ne. Qed.

Lemma native_alive f h j j' r : native f h j = Some (j', r) -> dom j'.(alive) = dom j.(alive).
Proof.
  unfold native. destruct f as [f|]; [|by intros [= <- _]]. destruct (h =? 0); [by intros [= <- _]|].
  intros (i & Hi & ([s x] & _ & E)%bind_Some)%bind_Some. injection E as <- _. cbn [alive]. by rewrite dom_insert_lookup_L.
Qed.

(** C40. A client that has renamed a file cannot be disposed of: a [renameNative] that returns 1
    leaves a thread behind that sends through the client, and when the handle is disposed
    of before the thread has ended, its next step follows a pointer to what was freed. *)
Theorem renamed_then_disposed d h path newPath j j1 j2
    (Hrename : renameNative d h (Some path) (Some newPath) j = Some (j1, 1)) (Hdispose : disposeNative h j1 = Some j2) :
  h <> 0 /\
  exists n, j2.(threads) !! n = Some (mk_thread h (get_parent_path (until_nul path)) None) /\ n = length j.(threads) /\
    thread_step n j2 = None.
Proof.
  unfold renameNative, with_strings, c_string in Hrename. cbn [fmap option_fmap option_map mbind option_bind native] in Hrename.
  destruct (h =? 0) eqn:Eh; [discriminate Hrename|]. apply Z.eqb_neq in Eh. split; [done|].
  apply bind_Some in Hrename as (i & Hi & ([s r] & Es & E)%bind_Some). injection E as <- ->.
  apply bind_Some in Es as ([s' r'] & Es & (z & -> & E)%bind_Some). injection E as -> ->. apply rename_detaches in Es. cbn [background] in Es.
  unfold disposeNative in Hdispose. rewrite (proj2 (Z.eqb_neq h 0)) in Hdispose by done. apply bind_Some in Hdispose as (i' & Hi' & E). injection E as <-.
  cbn [threads alive]. rewrite Es. exists (length j.(threads)).
  assert ((j.(threads) ++ ((fun path => mk_thread h path None) <$> [] ++ [get_parent_path (until_nul path)])) !! length j.(threads)
    = Some (mk_thread h (get_parent_path (until_nul path)) None)) as El by (by rewrite lookup_app_r, Nat.sub_diag).
  split; [done|]. split; [done|]. unfold thread_step. cbn [threads alive]. rewrite El. cbn [mbind option_bind owner].
  by rewrite lookup_delete_eq.
Qed.

End binding.

(** ** Several clients of one directory *)

Section session.
Context {D : Type} `{KVLaws D}.
Variable pick : bytes -> Z -> Z -> Z.
Variable cfg : Coordinator.config.
Variable salts : Z -> bytes.
Variable shuffle : forall A : Type, list A -> list A.
Variable format_time : Z -> bytes.
Variables salt sequence uninitialised : bytes.
Variable cache_cfg : Cache.config.
Variable enable_cache_ : bool.
Variables client_salt client_sequence : bytes.
Variable tick : nat -> Z * Z.
Variable freed : bytes.
Variable worker_address : bytes.
Variable reachable : Ring.endpoint -> bool.
Variable get_uuid : bytes -> bytes.
Hypothesis Huuid : forall path, length (get_uuid path) = key_size.
Hypothesis Hcfg : config_ok pick cfg salts shuffle.
Hypothesis Hticks : forall i, 0 <= (tick i).2 < 2 ^ 32.
Variable dir : list bytes.

Local Instance java : Transport (served D) := served_transport pick cfg salts shuffle format_time salt sequence uninitialised
  cache_cfg enable_cache_ client_salt client_sequence tick freed worker_address reachable.
Local Abbreviation directory_holds w n m := (holds_map pick cfg (checked (function w)) (servers (function w)) (get_uuid (directory dir)) n m).

Definition java_path (c : call) : bytes := render (dir ++ [file_of_request (Api.request_of c)]).

(** A call of Java, with the handle it is made on. *)
Definition java_call (hc : Z * call) : jvm (S := served D) -> option (jvm * Z) :=
  match hc.2 with
  | AddCall d _ => createFileNative get_uuid d hc.1 (Some (java_path hc.2))
  | DeleteCall d _ => deleteFileNative get_uuid d hc.1 (Some (java_path hc.2))
  end.

Fixpoint java_calls (cs : list (Z * call)) (j : jvm) : option (jvm * list Z) :=
  match cs with
  | [] => Some (j, [])
  | c :: cs => '(j, r) ← java_call c j; '(j, rs) ← java_calls cs j; Some (j, r :: rs)
  end.

(** On a handle that is alive, with a path that Java can pass. *)
Definition java_ok (j : jvm (S := served D)) (hc : Z * call) : Prop :=
  hc.1 <> 0 /\ hc.1 ∈ dom j.(alive) /\ call_ok hc.2 /\ x00 ∉ java_path hc.2.

Lemma java_call_spec h c j n m : java_ok j (h, c) -> directory_holds j.(world_) n m -> j.(world_).(Api.tables) = empty_launcher ->
  Z.of_nat (Datatypes.S n) < 2 ^ 25 ->
  let step := step_of get_uuid dir (tick j.(world_).(clock), Api.request_of c) in
  exists j', java_call (h, c) j = Some (j', result_of (spec_step m step).2) /\ dom j'.(alive) = dom j.(alive) /\
    j'.(world_).(Api.tables) = empty_launcher /\ j'.(world_).(clock) = Datatypes.S j.(world_).(clock) /\
    directory_holds j'.(world_) (Datatypes.S n) (spec_step m step).1.
Proof.
  intros (Hz & Ha & Hc & Hn) Hh Ht Hl step. cbn [fst snd] in *. apply elem_of_dom in Ha as [i Hi].
  destruct (run_call_spec pick cfg salts shuffle format_time salt sequence uninitialised cache_cfg enable_cache_ client_salt client_sequence tick freed
    worker_address reachable get_uuid Huuid Hcfg dir Hticks c (mk_client i.(metrics_) i.(overall_) j.(world_) []) n m Hh Ht Hc Hl) as (s' & E & Ht' & Hk' & Hh').
  cbn [world] in *.
  assert (forall f, f (mk_client i.(metrics_) i.(overall_) j.(world_) []) = Some (s', Some (result_of (spec_step m step).2)) ->
    exists j', native (Some f) h j = Some (j', result_of (spec_step m step).2) /\ j'.(world_) = s'.(world)) as Hnative.
  { intros f Ef. unfold native. rewrite (proj2 (Z.eqb_neq h 0)) by done. unfold member, operation. rewrite Hi. cbn [mbind option_bind].
    rewrite Ef. cbn [mbind option_bind]. eexists. split; reflexivity. }
  assert (exists j', java_call (h, c) j = Some (j', result_of (spec_step m step).2) /\ j'.(world_) = s'.(world)) as (j' & Ej & Ew).
  { unfold java_call. cbn [fst snd]. destruct c as [d f|d f]; cbn [createFileNative deleteFileNative]; unfold createFileNative, deleteFileNative, with_string, c_string;
      cbn [fmap option_fmap option_map mbind option_bind]; rewrite until_nul_no_nul by done; by apply Hnative. }
  exists j'. split; [exact Ej|]. split; [|by rewrite Ew]. unfold java_call in Ej. destruct c; eapply native_alive, Ej.
Qed.

(** Java programs see the directory as a map from names: whatever clients they have made and
    in whatever order they call [createFile] and [deleteFile] on them, each call returns 1
    where the map has the name to delete, or has not the name to add, and -1 otherwise, and
    the servers end with the map these calls leave; the clients stay alive. *)
Theorem natives_refine_map cs j n m (Hh : directory_holds j.(world_) n m) (Ht : j.(world_).(Api.tables) = empty_launcher)
    (Hcs : Forall (java_ok j) cs) (Hl : Z.of_nat (n + length cs) < 2 ^ 25) :
  let spec := spec_session m (steps_of tick get_uuid dir j.(world_).(clock) cs.*2) in
  exists j', java_calls cs j = Some (j', result_of <$> spec.2) /\ dom j'.(alive) = dom j.(alive) /\
    j'.(world_).(Api.tables) = empty_launcher /\ directory_holds j'.(world_) (n + length cs) spec.1.
Proof.
  cbv zeta. revert j n m Hh Ht Hcs Hl. induction cs as [|[h c] cs IH]; intros j n m Hh Ht Hcs Hl.
  - exists j. split; [done|]. split; [done|]. split; [done|]. cbn. by rewrite Nat.add_0_r.
  - apply Forall_cons in Hcs as [Hc Hcs]. cbn [length] in Hl.
    destruct (java_call_spec h c j n m Hc Hh Ht ltac:(lia)) as (j1 & E1 & Ha1 & Ht1 & Hk1 & Hh1).
    destruct (IH j1 _ _ Hh1 Ht1) as (j' & E' & Ha' & Ht' & Hh'); [|lia|].
    { eapply Forall_impl; [exact Hcs|]. intros x (? & ? & ?). unfold java_ok. by rewrite Ha1. }
    exists j'. cbn [java_calls fmap list_fmap snd steps_of spec_session]. rewrite E1. cbn [mbind option_bind]. rewrite E'. cbn [mbind option_bind].
    rewrite Hk1 in *. destruct (spec_step m _) as [m1 r1]. cbn [fst snd] in *. destruct (spec_session m1 _) as [m2 rs]. cbn [fst snd] in *.
    split; [done|]. split; [by rewrite Ha'|]. split; [done|]. cbn [length]. by rewrite <- Nat.add_succ_comm.
Qed.

End session.

(** ** Two clients *)

Definition two_clients (f : function_state (D := gmap bytes bytes)) : jvm (S := served (gmap bytes bytes)) :=
  (initNative (Some (lit "zk"%string)) 64 (initNative (Some (lit "zk"%string)) 32 (mk_jvm ∅ (mk_served empty_launcher f 0) [])).1).1.

Lemma natives_refine_map_witness : exists f j',
  java_calls sample_pick sample_cfg sample_salts sample_shuffle (fun _ => []) [] [] sample_reserved (Cache.mk_config 4096 false) false
    [] [] (fun _ => (0, 5)) [] (replicate 6 x0a) (fun _ => true) df_uuid [] (zip [32; 64; 64; 32] sample_calls) (two_clients f) = Some (j', [1; -1; 1; -1]) /\
  holds_map sample_pick sample_cfg (checked (function (world_ j'))) (servers (function (world_ j'))) (df_uuid (directory [])) 4 ∅.
Proof.
  destruct (run_init_path [] [] sample_pick sample_cfg sample_salts sample_shuffle (fun _ => []) [] [] sample_reserved
    (Cache.mk_config 4096 false) false sample_config_ok 0 3 (df_uuid (directory [])) df_start) as (f & _ & Hm);
    [apply sample_hosts_ok|reflexivity|apply sample_idle|lia|reflexivity|].
  destruct (natives_refine_map sample_pick sample_cfg sample_salts sample_shuffle (fun _ => []) [] [] sample_reserved
    (Cache.mk_config 4096 false) false [] [] (fun _ => (0, 5)) [] (replicate 6 x0a) (fun _ => true) df_uuid df_uuid_length
    sample_config_ok sample_ticks [] (zip [32; 64; 64; 32] sample_calls) (two_clients f) 0 ∅) as (j' & E & _ & _ & Hh).
  - exact Hm.
  - reflexivity.
  - pose proof sample_calls_ok as Hok. unfold sample_calls in Hok |- *. cbn [zip zip_with].
    repeat (apply Forall_cons in Hok as [Hc Hok]; apply Forall_cons_2;
      [split; [discriminate|split; [apply elem_of_dom; eexists; vm_compute; reflexivity|split; [exact Hc|apply (bool_decide_unpack _); vm_compute; exact I]]]|clear Hc]).
    apply Forall_nil_2.
  - cbn. lia.
  - exists f, j'. split; [exact E|exact Hh].
Defined.

Lemma renamed_then_disposed_witness : exists (j1 j2 : jvm (S := served (gmap bytes bytes))) n,
  renameNative (H := sample_served) df_uuid 5 32 (Some (lit "/a"%string)) (Some (lit "/b"%string)) (two_clients df_start) = Some (j1, 1) /\
  disposeNative (S := served (gmap bytes bytes)) 32 j1 = Some j2 /\ thread_step (H := sample_served) df_uuid n j2 = None /\ is_Some (j2.(threads) !! n).
Proof.
  destruct (renameNative (H := sample_served) df_uuid 5 32 (Some (lit "/a"%string)) (Some (lit "/b"%string)) (two_clients df_start)) as [[j1 r]|] eqn:E;
    [|exfalso; apply (f_equal (fun o => bool_decide (is_Some o))) in E; vm_compute in E; discriminate E].
  assert (r = 1) as -> by (apply (f_equal (fun o => match o with Some (_, r) => r | None => 0 end)) in E; vm_compute in E; congruence).
  assert (exists j2, disposeNative (S := served (gmap bytes bytes)) 32 j1 = Some j2) as [j2 E2].
  { unfold disposeNative. cbn [Z.eqb]. apply native_alive in E. assert (32 ∈ dom j1.(alive)) as [i ->]%elem_of_dom.
    { rewrite E. apply elem_of_dom. eexists. vm_compute. reflexivity. }
    by eexists. }
  destruct (renamed_then_disposed (H := sample_served) df_uuid 5 32 (lit "/a"%string) (lit "/b"%string) (two_clients df_start) j1 j2 E E2) as (_ & n & En & _ & Hn).
  exists j1, j2, n. split_and!; [reflexivity|exact E2|exact Hn|by eexists].
Defined.
