(* ===== verification/Trigger.v ===== *)
(** * Invoking functions over HTTP ([trigger.hpp], [server.hpp] lines 41-52)

    A [trigger] posts requests to the serverless platform: each resolves the host,
    connects, shakes hands, is written, and an answer is read before the next is written.
    The operations of Boost are a list of what is outstanding; a step completes one of
    them, with or without an error, in any order.  The proxy makes one trigger for every
    worker it starts ([create_worker]) and one for every bucket with a binding. *)
From Stdlib Require Import ZArith Lia.
From stdpp Require Import base tactics option list strings.
From S2P Require Import Prelude Policy.

(** ** Data *)

(** [StreamType]. *)
Inductive stream_type := ssl_type | tcp_stream.

Inductive field := f_host | f_user_agent | f_content_type | f_authorization | f_content_length.

#[global] Instance field_eq_dec : EqDecision field.
Proof. solve_decision. Defined.

(** [http::request<http::string_body>], with [post] for the method. *)
Record request := mk_request { fields : list (field * bytes); target_ : bytes; post : bool; body : bytes }.

(** [set] of a header field replaces what is there. *)
Fixpoint set_field (f : field) (v : bytes) (fs : list (field * bytes)) : list (field * bytes) :=
  match fs with
  | [] => [(f, v)]
  | (g, w) :: fs => if decide (f = g) then (f, v) :: fs else (g, w) :: set_field f v fs
  end.

Definition with_field f v (r : request) : request := mk_request (set_field f v r.(fields)) r.(target_) r.(post) r.(body).

(** [prepare_payload] of a request with a body. *)
Definition prepare_payload (r : request) : request :=
  with_field f_content_length (to_string (Z.of_nat (length r.(body)))) r.

Record httphost := mk_httphost { host : bytes; port : bytes; target : bytes }.

Definition authorization : bytes :=
  lit "Basic MjNiYzQ2YjEtNzFmNi00ZWQ1LThjNTQtODE2YWE0ZjhjNTAyOjEyM3pPM3haQ0xyTU42djJCS0sxZFhZRnBYbFBrY2NPRnFtMTJDZEFzTWdSVTRWck5aOWx5R1ZDR3VNREdJd1A=".

(** The operations of a trigger that have not completed. *)
Inductive op := Resolving (r : request) | Connecting (r : request) | Handshaking (r : request)
| Writing (r : request) | Reading.

(** [stream]: how many streams were made before the one in use.  [sent]: the requests
    given to [async_write]; [answers]: the bodies that were read; [called]: the slots of
    [on_read_] that ran, with the body. *)
Record trigger := mk_trigger {
  httphost_ : httphost;
  stream : nat;
  stream_is_connected_ : bool;
  stream_is_writing_ : bool;
  pending_requests_ : list request;
  retried_ : Z;
  on_read_ : list nat;
  outstanding : list op;
  sent : list request;
  answers : list bytes;
  called : list (nat * bytes)
}.

Definition new_trigger (h : httphost) : trigger := mk_trigger h 0 false false [] 0 [] [] [] [] [].

Definition with_outstanding ops t := mk_trigger t.(httphost_) t.(stream) t.(stream_is_connected_) t.(stream_is_writing_)
  t.(pending_requests_) t.(retried_) t.(on_read_) ops t.(sent) t.(answers) t.(called).
Definition async (o : op) t := with_outstanding (t.(outstanding) ++ [o]) t.
Definition with_stream n c t := mk_trigger t.(httphost_) n c t.(stream_is_writing_)
  t.(pending_requests_) t.(retried_) t.(on_read_) t.(outstanding) t.(sent) t.(answers) t.(called).
Definition with_connected c t := with_stream t.(stream) c t.
Definition with_writing w t := mk_trigger t.(httphost_) t.(stream) t.(stream_is_connected_) w
  t.(pending_requests_) t.(retried_) t.(on_read_) t.(outstanding) t.(sent) t.(answers) t.(called).
Definition with_pending q t := mk_trigger t.(httphost_) t.(stream) t.(stream_is_connected_) t.(stream_is_writing_)
  q t.(retried_) t.(on_read_) t.(outstanding) t.(sent) t.(answers) t.(called).
Definition with_retried n t := mk_trigger t.(httphost_) t.(stream) t.(stream_is_connected_) t.(stream_is_writing_)
  t.(pending_requests_) n t.(on_read_) t.(outstanding) t.(sent) t.(answers) t.(called).
Definition with_slots l t := mk_trigger t.(httphost_) t.(stream) t.(stream_is_connected_) t.(stream_is_writing_)
  t.(pending_requests_) t.(retried_) l t.(outstanding) t.(sent) t.(answers) t.(called).
Definition add_sent r t := mk_trigger t.(httphost_) t.(stream) t.(stream_is_connected_) t.(stream_is_writing_)
  t.(pending_requests_) t.(retried_) t.(on_read_) t.(outstanding) (t.(sent) ++ [r]) t.(answers) t.(called).
Definition add_answer res t := mk_trigger t.(httphost_) t.(stream) t.(stream_is_connected_) t.(stream_is_writing_)
  t.(pending_requests_) t.(retried_) [] t.(outstanding) t.(sent) (t.(answers) ++ [res])
  (t.(called) ++ ((fun slot => (slot, res)) <$> t.(on_read_))).

Section trigger.
(** [BOOST_BEAST_VERSION_STRING], and the instance of the template. *)
Variable user_agent : bytes.
Variable StreamType : stream_type.

(** ** Operations *)

Definition gen_request (h : httphost) : request :=
  mk_request [(f_host, h.(host)); (f_user_agent, user_agent); (f_content_type, lit "application/json");
              (f_authorization, authorization)] h.(target) false [].

Definition register_on_read (slot : nat) (t : trigger) : trigger := with_slots (t.(on_read_) ++ [slot]) t.

(** [sni]: whether [SSL_set_tlsext_host_name] succeeds. *)
Definition start_resolve (sni : bool) (r : request) (t : trigger) : trigger :=
  match StreamType with
  | ssl_type => if sni then async (Resolving r) t else t
  | tcp_stream => async (Resolving r) t
  end.

(** The request that [start_post] makes. *)
Definition post_request (h : httphost) (b : bytes) : request :=
  let r := gen_request h in mk_request r.(fields) r.(target_) true b.

Definition start_post (sni : bool) (b : bytes) (t : trigger) : trigger :=
  start_resolve sni (post_request t.(httphost_) b) t.

Definition start_write (r : request) (t : trigger) : trigger :=
  if t.(stream_is_writing_) then with_pending (t.(pending_requests_) ++ [r]) t
  else let r := prepare_payload r in add_sent r (async (Writing r) (with_writing true t)).

(** The handlers; [ec] is an error. *)
Definition on_resolved (ec : bool) (r : request) (t : trigger) : trigger :=
  if ec then t else async (Connecting r) t.

Definition on_connected (sni ec : bool) (r : request) (t : trigger) : trigger :=
  if ec then
    let t := with_connected false t in
    match StreamType with
    | ssl_type => start_resolve sni r (with_stream (S t.(stream)) t.(stream_is_connected_) t)
    | tcp_stream => t
    end
  else
    with_connected true
      match StreamType with
      | ssl_type => async (Handshaking r) t
      | tcp_stream => start_write r t
      end.

Definition on_handshake (ec : bool) (r : request) (t : trigger) : trigger :=
  if ec then t else start_write r t.

Definition on_written (sni ec : bool) (r : request) (t : trigger) : trigger :=
  if negb ec then async Reading t
  else if t.(retried_) <? 3 then let t := start_resolve sni r t in with_retried (t.(retried_) + 1) t
  else with_retried 0 t.

Definition on_read (ec : bool) (res : bytes) (t : trigger) : trigger :=
  if ec then t
  else
    let t := with_writing false (with_connected true (add_answer res t)) in
    match t.(pending_requests_) with
    | [] => t
    | r :: q => start_write r (with_pending q t)
    end.

(** The completion of the [i]-th operation. *)
Definition complete (i : nat) (sni ec : bool) (res : bytes) (t : trigger) : option trigger :=
  o ← t.(outstanding) !! i;
  let t := with_outstanding (delete i t.(outstanding)) t in
  Some match o with
       | Resolving r => on_resolved ec r t
       | Connecting r => on_connected sni ec r t
       | Handshaking r => on_handshake ec r t
       | Writing r => on_written sni ec r t
       | Reading => on_read ec res t
       end.

(** What happens to a trigger. *)
Inductive event := Register (slot : nat) | Post (b : bytes) (sni : bool) | Done (i : nat) (sni ec : bool) (res : bytes).

Definition exec (e : event) (t : trigger) : option trigger :=
  match e with
  | Register slot => Some (register_on_read slot t)
  | Post b sni => Some (start_post sni b t)
  | Done i sni ec res => complete i sni ec res t
  end.

Fixpoint execs (es : list event) (t : trigger) : option trigger :=
  match es with
  | [] => Some t
  | e :: es => t ← exec e t; execs es t
  end.

(** ** Making triggers *)

(** Poco's [URI]. *)
Variable parse_uri : bytes -> httphost.

(** [make_trigger]: one of the functions [0 .. max_func_count] is drawn. *)
Definition function_url (draw : Z) : bytes :=
  lit "https://ow-ctrl/api/v1/namespaces/_/actions/slsfs-datafunction-" ++ to_string draw ++ lit "?blocking=false&result=false".

Definition make_trigger (draw : Z) : trigger := new_trigger (parse_uri (function_url draw)).

(** [create_worker]: the pool counts the start, and a trigger of its own, with a slot
    that logs the answer, posts the configuration. *)
Definition create_worker_request (post_string : bytes) (draw : Z) (sni : bool) : trigger :=
  start_post sni post_string (register_on_read 0 (make_trigger draw)).

(** The members [binding_] of a bucket. *)
Definition bucket_url : bytes :=
  lit "https://zion01/api/v1/namespaces/_/actions/slsfs-metadatafunction?blocking=false&result=false".

Definition to_trigger (binding : option trigger) : trigger :=
  default (new_trigger (parse_uri bucket_url)) binding.

Definition start_trigger_post (sni : bool) (b : bytes) (binding : option trigger) : option trigger :=
  Some (start_post sni b (to_trigger binding)).

End trigger.

(** ** One request at a time *)

Definition busy (o : op) : bool := match o with Writing _ | Reading => true | _ => false end.
Definition busy_ops (l : list op) : nat := length (filter (fun o => busy o = true) l).

Arguments busy_ops : simpl never.
Arguments start_write : simpl never.
Arguments start_resolve : simpl never.

Lemma busy_ops_app l l' : busy_ops (l ++ l') = (busy_ops l + busy_ops l')%nat.
Proof. unfold busy_ops. by rewrite filter_app, length_app. Qed.

Lemma busy_ops_one o : busy_ops [o] = if busy o then 1%nat else 0%nat.
Proof. unfold busy_ops. rewrite filter_cons, filter_nil. by destruct (busy o). Qed.

Lemma busy_ops_delete l i o : l !! i = Some o -> busy_ops l = (busy_ops [o] + busy_ops (delete i l))%nat.
Proof.
  intros E. rewrite <- busy_ops_app. apply Permutation_length.
  cut (l ≡ₚ [o] ++ delete i l); [by intros <-|]. by apply delete_Permutation.
Qed.

#[export] Hint Rewrite busy_ops_app busy_ops_one : trigger.

(** At most one operation writes or reads, and then the flag is set. *)
Definition one_busy (t : trigger) : Prop :=
  (busy_ops t.(outstanding) <= if t.(stream_is_writing_) then 1 else 0)%nat.

(** The flag is set and nothing is there to clear it. *)
Definition stalled (t : trigger) : Prop := t.(stream_is_writing_) = true /\ busy_ops t.(outstanding) = 0%nat.

(** What the steps keep: [keeps] is the flag, the requests written and the answers, and
    the number of operations that write or read. *)
Definition keeps (t t' : trigger) : Prop :=
  t'.(stream_is_writing_) = t.(stream_is_writing_) /\ busy_ops t'.(outstanding) = busy_ops t.(outstanding) /\
  t'.(sent) = t.(sent) /\ t'.(answers) = t.(answers).

Lemma keeps_resolve ty sni r t : keeps t (start_resolve ty sni r t).
Proof.
  unfold keeps, start_resolve, async. destruct ty, sni; cbn; rewrite ?busy_ops_app, ?busy_ops_one; cbn;
    rewrite ?Nat.add_0_r; split_and!; done.
Qed.

Section facts.
Variables (user_agent : bytes) (StreamType : stream_type).
Notation complete := (complete StreamType).
Notation exec := (exec user_agent StreamType).
Notation execs := (execs user_agent StreamType).

Lemma trigger_execs_app es es' t : execs (es ++ es') t = t ← execs es t; execs es' t.
Proof.
  revert t. induction es as [|e es IH]; intros t; [done|]. cbn [app Trigger.execs].
  destruct (exec e t); [|done]. apply IH.
Qed.

(** A property that every step keeps holds after a run. *)
Lemma execs_ind (P : trigger -> Prop) :
  (forall e t t', exec e t = Some t' -> P t -> P t') ->
  forall es t t', execs es t = Some t' -> P t -> P t'.
Proof.
  intros Hs es. induction es as [|e es IH]; intros t t' E H; cbn [Trigger.execs] in E; [by simplify_eq|].
  destruct (exec e t) as [t1|] eqn:E1; [|done]. eauto.
Qed.

(** A completion removes an operation and runs its handler. *)
Lemma complete_inv i sni ec res t t' : complete i sni ec res t = Some t' ->
  exists o t0, t0 = with_outstanding (delete i t.(outstanding)) t /\ t.(outstanding) !! i = Some o /\
  busy_ops t.(outstanding) = (busy_ops [o] + busy_ops t0.(outstanding))%nat /\
  t' = match o with
       | Resolving r => on_resolved ec r t0
       | Connecting r => on_connected StreamType sni ec r t0
       | Handshaking r => on_handshake ec r t0
       | Writing r => on_written StreamType sni ec r t0
       | Reading => on_read ec res t0
       end.
Proof.
  unfold Trigger.complete. destruct (t.(outstanding) !! i) as [o|] eqn:Eo; [|done]. cbn [mbind option_bind].
  intros [= <-]. exists o, (with_outstanding (delete i t.(outstanding)) t). split_and!; try done.
  by apply busy_ops_delete.
Qed.

Lemma keeps_write r t : t.(stream_is_writing_) = true -> keeps t (start_write r t).
Proof. intros E. unfold keeps, start_write. rewrite E. by split_and!. Qed.

Lemma one_busy_write r t : one_busy t -> one_busy (start_write r t).
Proof.
  unfold one_busy, start_write, async. destruct (stream_is_writing_ t) eqn:E; cbn; [by rewrite E|].
  rewrite busy_ops_app, busy_ops_one. cbn. lia.
Qed.

Lemma keeps_one_busy t t' : keeps t t' -> one_busy t -> one_busy t'.
Proof. unfold keeps, one_busy. by intros (-> & -> & _). Qed.

Lemma keeps_stalled t t' : keeps t t' -> stalled t -> stalled t' /\ t'.(sent) = t.(sent) /\ t'.(answers) = t.(answers).
Proof. unfold keeps, stalled. by intros (-> & -> & -> & ->). Qed.

(** A handler of an operation that neither writes nor reads. *)
Lemma handler_keeps o sni ec res t : busy o = false ->
  let t' := match o with
            | Resolving r => on_resolved ec r t
            | Connecting r => on_connected StreamType sni ec r t
            | Handshaking r => on_handshake ec r t
            | Writing r => on_written StreamType sni ec r t
            | Reading => on_read ec res t
            end in
  (one_busy t -> one_busy t') /\ (t.(stream_is_writing_) = true -> keeps t t').
Proof.
  intros Ho. destruct o as [r|r|r|r|]; try done; cbn zeta.
  - unfold on_resolved, async. destruct ec; [done|].
    split; [apply keeps_one_busy|intros _]; unfold keeps; cbn; rewrite busy_ops_app, busy_ops_one, Nat.add_0_r; by split_and!.
  - unfold on_connected. destruct ec; [destruct StreamType|].
    + pose proof (keeps_resolve ssl_type sni r (with_stream (S t.(stream)) false t)) as Hk.
      split; [by apply keeps_one_busy|done].
    + split; [apply keeps_one_busy|intros _]; done.
    + destruct StreamType.
      * split; [apply keeps_one_busy|intros _]; unfold keeps; cbn; rewrite busy_ops_app, busy_ops_one, Nat.add_0_r; by split_and!.
      * split; [apply one_busy_write|apply keeps_write].
  - unfold on_handshake. destruct ec; [done|]. split; [apply one_busy_write|apply keeps_write].
Qed.

Lemma one_busy_exec e t t' : exec e t = Some t' -> one_busy t -> one_busy t'.
Proof.
  intros E H. destruct e as [slot|b sni|i sni ec res]; cbn [Trigger.exec] in E.
  - by simplify_eq.
  - simplify_eq. eapply keeps_one_busy, H. apply keeps_resolve.
  - apply complete_inv in E as (o & t0 & Et0 & Eo & Hb & ->). rewrite busy_ops_one in Hb.
    assert (Ht0 : one_busy t0) by (unfold one_busy in *; rewrite Et0 in *; cbn in *; lia).
    destruct (busy o) eqn:Ho; [|by apply (handler_keeps o sni ec res t0)].
    assert (busy_ops t0.(outstanding) = 0%nat /\ t0.(stream_is_writing_) = true) as [Hn Hw].
    { unfold one_busy in *. rewrite Et0 in *. cbn in *. destruct (stream_is_writing_ t); [lia|]. lia. }
    clear Et0 Eo Hb H t. destruct o as [r|r|r|r|]; try done.
    + unfold on_written. destruct ec; cbn.
      * case_match; [|done]. eapply (keeps_one_busy t0); [apply (keeps_resolve StreamType sni r t0)|done].
      * unfold one_busy, async. cbn. rewrite busy_ops_app, busy_ops_one, Hw, Hn. done.
    + unfold on_read. destruct ec; [done|]. cbn. case_match; [|apply one_busy_write]; unfold one_busy; cbn; lia.
Qed.

Lemma stalled_exec e t t' : exec e t = Some t' -> stalled t ->
  stalled t' /\ t'.(sent) = t.(sent) /\ t'.(answers) = t.(answers).
Proof.
  intros E H. destruct e as [slot|b sni|i sni ec res]; cbn [Trigger.exec] in E.
  - by simplify_eq.
  - simplify_eq. eapply keeps_stalled, H. apply keeps_resolve.
  - apply complete_inv in E as (o & t0 & Et0 & Eo & Hb & ->). rewrite busy_ops_one in Hb. destruct H as [Hw Hn].
    destruct (busy o) eqn:Ho; [lia|].
    pose proof (proj2 (handler_keeps o sni ec res t0 Ho)) as Hk.
    eapply keeps_stalled in Hk; [..|split].
    all: subst t0; cbn in *; try lia; done.
Qed.

Lemma stalled_execs es t t' : execs es t = Some t' -> stalled t -> t'.(sent) = t.(sent) /\ t'.(answers) = t.(answers).
Proof.
  intros E H. cut (stalled t' /\ t'.(sent) = t.(sent) /\ t'.(answers) = t.(answers)); [tauto|].
  eapply (execs_ind (fun u => stalled u /\ u.(sent) = t.(sent) /\ u.(answers) = t.(answers))); [|exact E|done].
  intros e u u' Eu (Hu & Hs & Ha). destruct (stalled_exec _ _ _ Eu Hu) as (? & -> & ->). done.
Qed.

Lemma failure_stalls i sni res o t t' :
  one_busy t -> t.(outstanding) !! i = Some o -> busy o = true -> complete i sni true res t = Some t' ->
  stalled t' /\ t'.(sent) = t.(sent) /\ t'.(answers) = t.(answers).
Proof.
  intros H Eo Ho (o' & t0 & Et0 & Eo' & Hb & ->)%complete_inv. simplify_eq. rewrite busy_ops_one, Ho in Hb.
  assert (Hs : stalled (with_outstanding (delete i t.(outstanding)) t)).
  { unfold one_busy, stalled in *. cbn in *. destruct (stream_is_writing_ t); lia || (split; [done|lia]). }
  destruct o as [r|r|r|r|]; try done. unfold on_written. cbn [negb]. case_match; [|done].
  destruct (keeps_stalled _ _ (keeps_resolve StreamType sni r _) Hs) as (? & Es & Ea). split_and!; [done|exact Es|exact Ea].
Qed.

(** ** Runs without errors *)

Definition no_error (e : event) : Prop :=
  match e with Register _ => True | Post _ sni => sni = true | Done _ _ ec _ => ec = false end.

(** The bodies posted in a run, and how many operations completed. *)
Definition posts (es : list event) : list bytes := omap (fun e => match e with Post b _ => Some b | _ => None end) es.
Definition dones (es : list event) : nat := length (omap (fun e => match e with Done i _ _ _ => Some i | _ => None end) es).

(** The requests on their way to a write. *)
Definition waiting (l : list op) : list request :=
  omap (fun o => match o with Resolving r | Connecting r | Handshaking r => Some (prepare_payload r) | _ => None end) l.

Arguments waiting : simpl never.

(** How many steps an operation is from its end. *)
Definition steps (o : op) : nat :=
  match o with Resolving _ => 5 | Connecting _ => 4 | Handshaking _ => 3 | Writing _ => 2 | Reading => 1 end.
Definition remaining (t : trigger) : nat := sum_list_with steps t.(outstanding) + 2 * length t.(pending_requests_).

Definition all_requests (t : trigger) : list request :=
  t.(sent) ++ (prepare_payload <$> t.(pending_requests_)) ++ waiting t.(outstanding).

Record delivering (h : httphost) (ps : list bytes) (n : nat) (t : trigger) : Prop := {
  d_host : t.(httphost_) = h;
  d_all : all_requests t ≡ₚ (prepare_payload ∘ post_request user_agent h) <$> ps;
  d_busy : busy_ops t.(outstanding) = if t.(stream_is_writing_) then 1%nat else 0%nat;
  d_pending : t.(stream_is_writing_) = false -> t.(pending_requests_) = [];
  d_answers : length t.(sent) = (length t.(answers) + busy_ops t.(outstanding))%nat;
  d_steps : (n + remaining t <= 5 * length ps)%nat
}.

(** The same with a request in hand, [k] steps from its end. *)
Record carrying (h : httphost) (ps : list bytes) (n k : nat) (r : request) (t : trigger) : Prop := {
  c_host : t.(httphost_) = h;
  c_all : prepare_payload r :: all_requests t ≡ₚ (prepare_payload ∘ post_request user_agent h) <$> ps;
  c_busy : busy_ops t.(outstanding) = if t.(stream_is_writing_) then 1%nat else 0%nat;
  c_answers : length t.(sent) = (length t.(answers) + busy_ops t.(outstanding))%nat;
  c_steps : (n + k + remaining t <= 5 * length ps)%nat
}.

Lemma waiting_ops_app l l' : waiting (l ++ l') = waiting l ++ waiting l'.
Proof. apply omap_app. Qed.

Lemma remaining_delete i o t : t.(outstanding) !! i = Some o ->
  remaining t = (steps o + remaining (with_outstanding (delete i t.(outstanding)) t))%nat.
Proof.
  intros E. unfold remaining. cbn. rewrite <- (take_drop_middle _ _ _ E) at 1. rewrite delete_take_drop.
  rewrite !sum_list_with_app. cbn. lia.
Qed.

Lemma waiting_delete i o l : l !! i = Some o -> waiting l ≡ₚ waiting [o] ++ waiting (delete i l).
Proof.
  intros E. rewrite <- waiting_ops_app. unfold waiting. apply omap_Permutation. by apply delete_Permutation.
Qed.

Lemma carry_async h ps n k r o t : carrying h ps n k r t -> (t.(stream_is_writing_) = false -> t.(pending_requests_) = []) ->
  waiting [o] = [prepare_payload r] -> busy o = false ->
  (steps o <= k)%nat -> delivering h ps n (async o t).
Proof.
  intros [] Hp Hw Ho Hk. constructor; cbn; rewrite ?busy_ops_app, ?busy_ops_one, ?Ho, ?Nat.add_0_r; try done.
  - etrans; [|exact c_all0]. unfold all_requests. cbn. rewrite waiting_ops_app, Hw. solve_Permutation.
  - unfold remaining in *. cbn. rewrite sum_list_with_app. cbn. lia.
Qed.

Lemma carry_write h ps n k r t : carrying h ps n k r t -> (2 <= k)%nat -> delivering h ps n (start_write r t).
Proof.
  intros [] Hk. unfold start_write. destruct (stream_is_writing_ t) eqn:Ew.
  - constructor; cbn; rewrite ?Ew; try done.
    + etrans; [|exact c_all0]. unfold all_requests. cbn. rewrite fmap_app. cbn. solve_Permutation.
    + unfold remaining in *. cbn. rewrite length_app. cbn. lia.
  - constructor; cbn; rewrite ?busy_ops_app, ?busy_ops_one; cbn; try done.
    + etrans; [|exact c_all0]. unfold all_requests. cbn. rewrite waiting_ops_app. change (waiting [Writing (prepare_payload r)]) with (@nil request). solve_Permutation.
    + lia.
    + rewrite length_app. cbn. lia.
    + unfold remaining in *. cbn. rewrite sum_list_with_app. cbn. lia.
Qed.

Lemma delivering_connected h ps n c t : delivering h ps n t -> delivering h ps n (with_connected c t).
Proof. by intros []. Qed.

(** A completed operation leaves its request in hand. *)
Lemma complete_carries h ps n i o r t : delivering h ps n t -> t.(outstanding) !! i = Some o ->
  waiting [o] = [prepare_payload r] -> busy o = false ->
  carrying h ps (n + 1) (steps o - 1) r (with_outstanding (delete i t.(outstanding)) t).
Proof.
  intros [] Eo Hw Ho. pose proof (busy_ops_delete _ _ _ Eo) as Hb. rewrite busy_ops_one, Ho in Hb.
  pose proof (remaining_delete _ _ _ Eo) as Hr. constructor; cbn in *; rewrite <- ?Hb; try done.
  - etrans; [|exact d_all0]. unfold all_requests. cbn. rewrite (waiting_delete i o t.(outstanding)) by done. rewrite Hw. solve_Permutation.
  - destruct o; cbn in *; lia.
Qed.

(** A completed write waits for its answer. *)
Lemma delivering_written h ps n i r t : delivering h ps n t -> t.(outstanding) !! i = Some (Writing r) ->
  delivering h ps (n + 1) (async Reading (with_outstanding (delete i t.(outstanding)) t)).
Proof.
  intros [] Eo. pose proof (busy_ops_delete _ _ _ Eo) as Hb. rewrite busy_ops_one in Hb. cbn [busy] in Hb.
  pose proof (remaining_delete _ _ _ Eo) as Hr.
  constructor; cbn in *; rewrite ?busy_ops_app, ?busy_ops_one; cbn; try done; try lia.
  - etrans; [|exact d_all0]. unfold all_requests. cbn. rewrite waiting_ops_app, (waiting_delete _ _ _ Eo). cbn. solve_Permutation.
  - unfold remaining in *. cbn in *. rewrite sum_list_with_app. cbn. lia.
Qed.

(** An answer is handed on, and the next request is written. *)
Lemma delivering_read h ps n i res t : delivering h ps n t -> t.(outstanding) !! i = Some Reading ->
  delivering h ps (n + 1) (on_read false res (with_outstanding (delete i t.(outstanding)) t)).
Proof.
  intros [] Eo. pose proof (busy_ops_delete _ _ _ Eo) as Hb. rewrite busy_ops_one in Hb. cbn [busy] in Hb.
  pose proof (remaining_delete _ _ _ Eo) as Hr. pose proof (waiting_delete _ _ _ Eo) as Hw.
  change (waiting [Reading]) with (@nil request) in Hw. cbn [app] in Hw.
  assert (busy_ops (delete i t.(outstanding)) = 0%nat) as Hn by (destruct (stream_is_writing_ t); lia).
  unfold on_read. cbn. destruct (pending_requests_ t) as [|r q] eqn:Ep.
  - constructor; cbn; try done; rewrite ?Hn, ?length_app; cbn; try lia.
    + etrans; [|exact d_all0]. unfold all_requests. cbn. by rewrite Hw, Ep.
    + unfold remaining in *. cbn in Hr |- *. rewrite Ep in Hr. cbn in Hr, d_steps0. rewrite ?Ep. cbn. lia.
  - apply (carry_write h ps (n + 1) 2); [|done]. constructor; cbn; try done; rewrite ?Hn, ?length_app; cbn; try lia.
    + etrans; [|exact d_all0]. unfold all_requests. cbn. rewrite Hw, Ep. cbn. solve_Permutation.
    + unfold remaining in *. cbn in Hr |- *. rewrite Ep in Hr. cbn in Hr, d_steps0. rewrite ?Ep. cbn. rewrite Ep in d_steps0. cbn in d_steps0. lia.
Qed.

Lemma delivering_exec h ps n e t t' : no_error e -> exec e t = Some t' -> delivering h ps n t ->
  delivering h (ps ++ posts [e]) (n + dones [e]) t'.
Proof.
  intros He E H. destruct e as [slot|b sni|i sni ec res]; cbn in He; cbn [Trigger.exec] in E; unfold posts, dones; cbn.
  - simplify_eq. rewrite app_nil_r, Nat.add_0_r. by destruct H.
  - simplify_eq. rewrite Nat.add_0_r. unfold start_post.
    assert (Hc : carrying h (ps ++ [b]) n 5 (post_request user_agent (httphost_ t) b) t).
    { destruct H. constructor; try done.
      - rewrite fmap_app. cbn. rewrite <- d_all0, d_host0. solve_Permutation.
      - rewrite length_app. cbn. lia. }
    unfold start_resolve. destruct StreamType; eapply carry_async; try done; apply H.
  - subst ec. rewrite app_nil_r. unfold Trigger.complete in E. destruct (outstanding t !! i) as [o|] eqn:Eo; [|done].
    cbn [mbind option_bind] in E. simplify_eq. destruct o as [r|r|r|r|].
    + eapply carry_async; [by eapply complete_carries|apply H|done..].
    + apply delivering_connected. destruct StreamType.
      * eapply carry_async; [by eapply complete_carries|apply H|done..].
      * eapply carry_write; [by eapply complete_carries|cbn; lia].
    + eapply carry_write; [by eapply complete_carries|cbn; lia].
    + by eapply delivering_written.
    + by eapply delivering_read.
Qed.

Lemma delivering_execs h es t0 t ps n : Forall no_error es -> execs es t0 = Some t -> delivering h ps n t0 ->
  delivering h (ps ++ posts es) (n + dones es) t.
Proof.
  revert t0 ps n. induction es as [|e es IH]; intros t0 ps n He E H; cbn [Trigger.execs] in E.
  - simplify_eq. by rewrite app_nil_r, Nat.add_0_r.
  - apply Forall_cons in He as [He Hes]. destruct (exec e t0) as [t1|] eqn:E1; [|done]. cbn [mbind option_bind] in E.
    pose proof (IH _ _ _ Hes E (delivering_exec _ _ _ _ _ _ He E1 H)) as Hd.
    change (posts (e :: es)) with (posts ([e] ++ es)). change (dones (e :: es)) with (dones ([e] ++ es)).
    unfold posts, dones in *. rewrite !omap_app, length_app, (assoc_L (++)), Nat.add_assoc. done.
Qed.

Lemma delivering_new h : delivering h [] 0 (new_trigger h).
Proof. by constructor. Qed.

Lemma one_busy_run h es t : execs es (new_trigger h) = Some t -> one_busy t.
Proof. intros E. apply (execs_ind one_busy one_busy_exec es _ _ E). cbv. lia. Qed.
End facts.

(** ** Delivery *)

(** C25. While no operation fails, a trigger delivers what it is given: in any order of
    completions it takes at most five steps for a request, something can always be
    completed while something is left, and when nothing is left every posted body has
    been written once, in a request to the host with its length, and as many answers have
    been read. *)
Theorem invocations_delivered user_agent ty h es t :
  Forall no_error es -> execs user_agent ty es (new_trigger h) = Some t ->
  (dones es <= 5 * length (posts es))%nat /\
  (t.(outstanding) <> [] -> is_Some (complete ty 0 true false [] t)) /\
  (t.(outstanding) = [] ->
     t.(pending_requests_) = [] /\ length t.(answers) = length (posts es) /\
     t.(sent) ≡ₚ (prepare_payload ∘ post_request user_agent h) <$> posts es).
Proof.
  intros He E. pose proof (delivering_execs _ _ h es _ _ [] 0 He E (delivering_new _ h)) as [? Hall Hb Hp Ha Hs].
  cbn in *. split_and!.
  - lia.
  - intros Ho. unfold complete. destruct (outstanding t) as [|o l]; [done|]. by eexists.
  - intros Ho. rewrite Ho in *. cbn in Hb. assert (t.(stream_is_writing_) = false) as Hw by (by destruct (stream_is_writing_ t)).
    specialize (Hp Hw). unfold all_requests in Hall. rewrite Hp, Ho in Hall. cbn in Hall. rewrite app_nil_r in Hall.
    split_and!; [done| |done]. apply Permutation_length in Hall. rewrite length_fmap in Hall. change (busy_ops []) with 0%nat in Ha. lia.
Qed.

(** After a write or a read that fails, in any run, the trigger never writes again:
    the flag that says it is writing stays set, so the request that is retried and
    every later one wait in the queue for good. *)
Theorem failed_write_ends user_agent ty h es t i sni res o t' es' t'' :
  execs user_agent ty es (new_trigger h) = Some t ->
  t.(outstanding) !! i = Some o -> busy o = true -> complete ty i sni true res t = Some t' ->
  execs user_agent ty es' t' = Some t'' ->
  t''.(sent) = t.(sent) /\ t''.(answers) = t.(answers).
Proof.
  intros E Eo Ho E' E''. apply one_busy_run in E.
  destruct (failure_stalls _ _ _ _ _ _ _ E Eo Ho E') as (Hst & <- & <-). by eapply stalled_execs.
Qed.

(** ** Starting workers *)

Section starting.
Variables (user_agent : bytes) (parse_uri : bytes -> httphost).

(** [create_worker], with the request: the pool counts a start and a trigger is made. *)
Definition create_worker (post_string : bytes) (draw : Z) (s : pool * list trigger) : pool * list trigger :=
  (Policy.create_worker s.1, s.2 ++ [create_worker_request user_agent ssl_type parse_uri post_string draw true]).

(** [start_create_worker_with_policy]: one draw of a function for each worker. *)
Definition start_create_worker_with_policy (post_string : bytes) (draws : list Z) (s : pool * list trigger) : pool * list trigger :=
  foldl (fun s draw => create_worker post_string draw s) s
    (take (Z.to_nat (get_ideal_worker_count_delta s.1.(workers_) s.1.(policy))) draws).

Lemma create_workers_spec post_string draws s :
  foldl (fun s draw => create_worker post_string draw s) s draws
  = (Nat.iter (length draws) Policy.create_worker s.1,
     s.2 ++ ((fun draw => create_worker_request user_agent ssl_type parse_uri post_string draw true) <$> draws)).
Proof.
  revert s. induction draws as [|d draws IH]; intros [p ts]; [by rewrite app_nil_r|].
  cbn [foldl]. rewrite IH. cbn [fst snd create_worker length fmap list_fmap]. rewrite <- (assoc_L (++)). f_equal.
  by rewrite Nat.iter_succ_r.
Qed.

(** A tick of the launcher's timer makes one trigger for each worker the pool counts. *)
Theorem tick_posts post_string draws p ts :
  length draws = Z.to_nat (get_ideal_worker_count_delta p.(workers_) p.(policy)) ->
  start_create_worker_with_policy post_string draws (p, ts)
  = (Policy.start_create_worker_with_policy p,
     ts ++ ((fun draw => create_worker_request user_agent ssl_type parse_uri post_string draw true) <$> draws)).
Proof.
  intros Hl. unfold start_create_worker_with_policy. cbn [fst]. rewrite <- Hl, firstn_all.
  rewrite create_workers_spec. unfold Policy.start_create_worker_with_policy. by rewrite <- Hl.
Qed.

(** The configuration reaches the function drawn: resolve, connect, shake hands, write,
    read; the answer goes to the slot that logs it. *)
Theorem worker_requested post_string draw res :
  let h := parse_uri (function_url draw) in
  exists t, execs user_agent ssl_type (replicate 5 (Done 0 true false res))
              (create_worker_request user_agent ssl_type parse_uri post_string draw true) = Some t /\
    t.(outstanding) = [] /\ t.(called) = [(0%nat, res)] /\
    t.(sent) = [mk_request [(f_host, h.(host)); (f_user_agent, user_agent); (f_content_type, lit "application/json");
                  (f_authorization, authorization); (f_content_length, to_string (Z.of_nat (length post_string)))]
                h.(target) true post_string].
Proof. eexists. split; [lazy - [lit to_string function_url]; reflexivity|]. split; [reflexivity|]. split; reflexivity. Qed.
End starting.

(** ** A trigger that is given two requests, and one whose write fails *)

Definition sample_host : httphost := mk_httphost (lit "ow-ctrl") (lit "443") (lit "/api").
Definition two_posts : list event :=
  [Register 7; Post (lit "first") true; Post (lit "second") true] ++ replicate 10 (Done 0 true false (lit "ok")).

Lemma invocations_delivered_witness : exists t, execs [] ssl_type two_posts (new_trigger sample_host) = Some t /\
  t.(sent) ≡ₚ [prepare_payload (post_request [] sample_host (lit "first")); prepare_payload (post_request [] sample_host (lit "second"))] /\
  length t.(answers) = 2%nat /\ t.(called) = [(7%nat, lit "ok")].
Proof.
  destruct (execs [] ssl_type two_posts (new_trigger sample_host)) as [t|] eqn:E; [|vm_compute in E; discriminate E].
  destruct (invocations_delivered [] ssl_type sample_host two_posts t) as (_ & _ & H); [|exact E|].
  - repeat constructor.
  - assert (Ho : option_map outstanding (execs [] ssl_type two_posts (new_trigger sample_host)) = Some []) by (by vm_compute).
    assert (Hc : option_map called (execs [] ssl_type two_posts (new_trigger sample_host)) = Some [(7%nat, lit "ok")]) by (by vm_compute).
    rewrite E in Ho, Hc. cbn in Ho, Hc. injection Ho as Ho. injection Hc as Hc. destruct (H Ho) as (_ & Ha & Hs).
    exists t. split; [reflexivity|]. split; [exact Hs|]. split; [exact Ha|exact Hc].
Defined.

Definition written : list event := Post (lit "first") true :: replicate 3 (Done 0 true false []).
Definition after_failure : list event := Post (lit "second") true :: replicate 6 (Done 0 true false []).

Definition first_request : request := prepare_payload (post_request [] sample_host (lit "first")).
Definition before : trigger := default (new_trigger sample_host) (execs [] ssl_type written (new_trigger sample_host)).
Definition failed : trigger := default before (complete ssl_type 0 true true [] before).
Definition later : trigger := default failed (execs [] ssl_type after_failure failed).

Lemma failed_write_ends_witness : failed.(outstanding) = [Resolving first_request] /\
  later.(sent) = [first_request] /\ later.(outstanding) = [] /\ length later.(pending_requests_) = 2%nat.
Proof.
  split; [by vm_compute|]. split; [|split; by vm_compute].
  destruct (failed_write_ends [] ssl_type sample_host written before 0 true [] (Writing first_request) failed after_failure later) as [-> _];
    by vm_compute.
Defined.

Lemma tick_posts_witness :
  (start_create_worker_with_policy [] (fun _ => sample_host) (lit "cfg") [4; 2] (mk_pool (new_fix_pool 2 3) 0 0 0, [])).1
  = Policy.start_create_worker_with_policy (mk_pool (new_fix_pool 2 3) 0 0 0).
Proof. by rewrite (tick_posts [] (fun _ => sample_host) (lit "cfg") [4; 2] (mk_pool (new_fix_pool 2 3) 0 0 0) []). Defined.
