(* ===== verification/Base64.v ===== *)
(** * Base64 with the URL alphabet ([libslsfs/slsfs/cppcodec/], [basetypes.hpp] lines 22-32)

    Values are kept in Cassandra as text.  The codec is the one the repository carries:
    [encode] goes through blocks of three bytes and pads the last; [decode] collects
    indices in an array of four and ends at a padding character, at a NUL or at an error.
    [None] is an access outside a buffer or a call of [abort], a [parse_error] an
    exception. *)
From Stdlib Require Import ZArith Lia.
From stdpp Require Import base tactics option list strings.
From S2P Require Import Prelude.

(** ** Data *)

Inductive parse_error := symbol_error (c : byte) | padding_error | invalid_input_length.

#[global] Instance parse_error_eq_dec : EqDecision parse_error.
Proof. solve_decision. Defined.

Abbreviation result A := (option (parse_error + A)).

Definition base64_url_alphabet : bytes := lit "ABCDEFGHIJKLMNOPQRSTUVWXYZabcdefghijklmnopqrstuvwxyz0123456789-_".

Definition symbol (idx : Z) : byte := nth (Z.to_nat idx) base64_url_alphabet x00.

Definition padding_symbol : byte := x3d.

(** The indices that are not symbols. *)
Definition padding_idx : Z := 256.
Definition invalid_idx : Z := 512.
Definition eof_idx : Z := 1024.

Definition is_stop_character (idx : Z) : bool := negb (Z.land idx (Z.lnot 255) =? 0).

(** [index_if_in_alphabet] tries the symbols from the first on. *)
Fixpoint index_if_in_alphabet (alphabet : bytes) (idx : Z) (c : byte) : Z :=
  match alphabet with
  | [] => invalid_idx
  | s :: alphabet => if decide (s = c) then idx else index_if_in_alphabet alphabet (idx + 1) c
  end.

(** [alphabet_index_info::index_of]: what the lookup table holds for a character. *)
Definition for_symbol (c : byte) : Z :=
  let idx := index_if_in_alphabet base64_url_alphabet 0 c in
  if idx =? invalid_idx
  then if decide (c = x00) then eof_idx else if decide (c = padding_symbol) then padding_idx else invalid_idx
  else idx.

(** ** Encoding *)

Definition binary_block_size : nat := 3.
Definition encoded_block_size : nat := 4.

(** [index] of a block of three bytes and [index_last] of a tail. *)
Definition index (i : nat) (b0 b1 b2 : Z) : Z :=
  match i with
  | 0%nat => Z.shiftr b0 2
  | 1%nat => Z.lor (Z.shiftl (Z.land b0 3) 4) (Z.shiftr b1 4)
  | 2%nat => Z.lor (Z.shiftl (Z.land b1 15) 2) (Z.shiftr b2 6)
  | _ => Z.land b2 63
  end.

Definition index_last (i : nat) (b0 b1 : Z) : Z :=
  match i with
  | 1%nat => Z.shiftl (Z.land b0 3) 4
  | _ => Z.shiftl (Z.land b1 15) 2
  end.

(** [encoder::block]. *)
Definition encode_block (b0 b1 b2 : byte) : bytes :=
  (fun i => symbol (index i (byte_val b0) (byte_val b1) (byte_val b2))) <$> seq 0 encoded_block_size.

(** [stream_codec::encode]: whole blocks, then a tail of one or two bytes with padding. *)
Fixpoint stream_encode (src : bytes) : bytes :=
  match src with
  | b0 :: b1 :: b2 :: src => encode_block b0 b1 b2 ++ stream_encode src
  | [b0; b1] => [symbol (index 0 (byte_val b0) (byte_val b1) 0); symbol (index 1 (byte_val b0) (byte_val b1) 0);
                 symbol (index_last 2 (byte_val b0) (byte_val b1)); padding_symbol]
  | [b0] => [symbol (index 0 (byte_val b0) 0 0); symbol (index_last 1 (byte_val b0) 0); padding_symbol; padding_symbol]
  | [] => []
  end.

Definition encoded_size (binary_size : nat) : nat :=
  let n := (binary_size + (binary_block_size - 1))%nat in
  ((n - n mod binary_block_size) * encoded_block_size / binary_block_size)%nat.

(** ** Decoding *)

Definition decoded_max_size (encoded_size : nat) : nat := (encoded_size / encoded_block_size * binary_block_size)%nat.

(** [data::put] into a buffer of [cap] bytes. *)
Definition put (cap : nat) (c : Z) (out : bytes) : option bytes :=
  if Nat.ltb (length out) cap then Some (out ++ [byte_of c]) else None.

(** [decode_block] and [decode_tail], from the indices collected. *)
Definition decode_block (cap : nat) (idx : list Z) (out : bytes) : option bytes :=
  i0 ← idx !! 0%nat; i1 ← idx !! 1%nat; i2 ← idx !! 2%nat; i3 ← idx !! 3%nat;
  let dec := Z.lor (Z.lor (Z.lor (Z.shiftl i0 18) (Z.shiftl i1 12)) (Z.shiftl i2 6)) i3 in
  out ← put cap (Z.shiftr dec 16) out;
  out ← put cap (Z.land (Z.shiftr dec 8) 255) out;
  put cap (Z.land dec 255) out.

Definition decode_tail (cap : nat) (idx : list Z) (idx_len : nat) (out : bytes) : result bytes :=
  if Nat.eqb idx_len 1 then Some (inl invalid_input_length)
  else
    i0 ← idx !! 0%nat; i1 ← idx !! 1%nat;
    out ← put cap (Z.shiftl i0 2 + Z.shiftr (Z.land i1 48) 4) out;
    if Nat.eqb idx_len 2 then Some (inr out)
    else i2 ← idx !! 2%nat; out ← put cap (Z.shiftl (Z.land i1 15) 4 + Z.shiftr (Z.land i2 60) 2) out; Some (inr out).

(** A store of an element of [alphabet_indexes]. *)
Definition set_index (ptr : nat) (i : Z) (idx : list Z) : option (list Z) :=
  if Nat.ltb ptr (length idx) then Some (<[ptr := i]> idx) else None.

(** The first loop: up to a stop character, or the end. *)
Fixpoint scan (cap : nat) (src : bytes) (idx : list Z) (ptr : nat) (out : bytes) : option (bytes * list Z * nat * bytes) :=
  match src with
  | [] => Some ([], idx, ptr, out)
  | c :: src' =>
      idx ← set_index ptr (for_symbol c) idx;
      if is_stop_character (for_symbol c) then Some (src, idx, ptr, out)
      else if Nat.eqb (S ptr) encoded_block_size then out ← decode_block cap idx out; scan cap src' idx 0 out
      else scan cap src' idx (S ptr) out
  end.

(** The second loop, after a first padding character: [last] counts. *)
Fixpoint paddings (src : bytes) (idx : list Z) (ptr last : nat) : result (list Z * nat) :=
  match src with
  | [] => Some (inr (idx, last))
  | c :: src =>
      idx ← set_index ptr (for_symbol c) idx;
      if for_symbol c =? eof_idx then idx ← set_index ptr padding_idx idx; Some (inr (idx, last))
      else if negb (for_symbol c =? padding_idx) then Some (inl padding_error)
      else if Nat.ltb encoded_block_size (S last) then Some (inl padding_error)
      else paddings src idx ptr (S last)
  end.

(** What follows the loops; padding is required. *)
Definition end_block (cap : nat) (idx : list Z) (ptr last : nat) (out : bytes) : result bytes :=
  if Nat.eqb last 0 then Some (inr out)
  else if negb (Nat.eqb last encoded_block_size) then Some (inl padding_error)
  else if Nat.leb encoded_block_size ptr then None
  else decode_tail cap idx ptr out.

Definition after_scan (cap : nat) (src : bytes) (idx : list Z) (ptr : nat) (out : bytes) : result bytes :=
  i ← idx !! ptr;
  if i =? invalid_idx then c ← head src; Some (inl (symbol_error c))
  else if i =? padding_idx then
    if Nat.eqb ptr 0 then Some (inl padding_error)
    else
      r ← paddings (tail src) idx ptr (S ptr);
      match r with
      | inl e => Some (inl e)
      | inr (idx, last) => end_block cap idx ptr last out
      end
  else end_block cap idx ptr ptr out.

Definition decode_from (cap : nat) (src : bytes) (idx : list Z) (ptr : nat) (out : bytes) : result bytes :=
  '(rest, idx, ptr, out) ← scan cap src idx ptr out;
  after_scan cap rest idx ptr out.

Definition stream_decode (cap : nat) (src : bytes) : result bytes := decode_from cap src [eof_idx; 0; 0; 0] 0 [].

(** ** [base::encode] and [base::decode] *)

Definition encode (v : bytes) : bytes := stream_encode v.
Definition decode (v : bytes) : result bytes := stream_decode (decoded_max_size (length v)) v.

(** ** Bits *)

(** Linear arithmetic with divisions by constants. *)
Ltac euclid := Z.to_euclidean_division_equations; lia.

Lemma lor_low n a y : 0 <= n -> a mod 2 ^ n = 0 -> 0 <= y < 2 ^ n -> Z.lor a y = a + y.
Proof.
  intros Hn Ha Hy. symmetry. apply Z.add_nocarry_lor, Z.bits_inj'. intros m Hm. rewrite Z.land_spec, Z.bits_0.
  destruct (Z.ltb_spec m n) as [Hlt|Hge].
  - rewrite <- (Z.mod_pow2_bits_low a n) by lia. by rewrite Ha, Z.bits_0.
  - rewrite <- (Z.mod_small y (2 ^ n)), Z.mod_pow2_bits_high by lia. apply andb_false_r.
Qed.

Lemma land_ones x n : 0 <= n -> Z.land x (2 ^ n - 1) = x mod 2 ^ n.
Proof. intros Hn. rewrite <- Z.land_ones by done. by rewrite Z.ones_equiv, Z.sub_1_r. Qed.

(** Reading a byte as the digits of its upper and lower bits. *)
Lemma byte_split b n : 0 <= n <= 8 -> exists x y, byte_val b = x * 2 ^ n + y /\ 0 <= x < 2 ^ (8 - n) /\ 0 <= y < 2 ^ n /\
  Z.shiftr (byte_val b) n = x /\ Z.land (byte_val b) (2 ^ n - 1) = y.
Proof.
  intros Hn. pose proof (byte_val_range b). assert (0 < 2 ^ n) by (apply Z.pow_pos_nonneg; lia).
  exists (byte_val b / 2 ^ n), (byte_val b mod 2 ^ n). rewrite Z.shiftr_div_pow2, land_ones by lia.
  pose proof (Z.div_mod (byte_val b) (2 ^ n) ltac:(lia)). pose proof (Z.mod_pos_bound (byte_val b) (2 ^ n) ltac:(lia)).
  split; [lia|]. split; [split|split; [lia|done]].
  - apply Z.div_pos; lia.
  - apply Z.div_lt_upper_bound; [lia|]. rewrite <- Z.pow_add_r by lia. replace (n + (8 - n)) with 8 by lia. cbn. lia.
Qed.

Lemma shiftl_value x n : 0 <= n -> Z.shiftl x n = x * 2 ^ n.
Proof. apply Z.shiftl_mul_pow2. Qed.

(** The four indices of a block hold its three bytes. *)
Lemma block_indices b0 b1 b2 :
  let i := fun k => index k (byte_val b0) (byte_val b1) (byte_val b2) in
  let dec := Z.lor (Z.lor (Z.lor (Z.shiftl (i 0%nat) 18) (Z.shiftl (i 1%nat) 12)) (Z.shiftl (i 2%nat) 6)) (i 3%nat) in
  (0 <= i 0%nat < 64 /\ 0 <= i 1%nat < 64 /\ 0 <= i 2%nat < 64 /\ 0 <= i 3%nat < 64) /\
  dec = byte_val b0 * 65536 + byte_val b1 * 256 + byte_val b2.
Proof.
  destruct (byte_split b0 2 ltac:(lia)) as (x & y & E0 & Hx & Hy & E0s & E0l).
  destruct (byte_split b1 4 ltac:(lia)) as (z & w & E1 & Hz & Hw & E1s & E1l).
  destruct (byte_split b2 6 ltac:(lia)) as (u & v & E2 & Hu & Hv & E2s & E2l).
  change (2 ^ 2 - 1) with 3 in *. change (2 ^ 4 - 1) with 15 in *. change (2 ^ 6 - 1) with 63 in *.
  change (8 - 2) with 6 in *. change (8 - 4) with 4 in *. change (8 - 6) with 2 in *. cbn in Hx, Hy, Hz, Hw, Hu, Hv.
  intros i. assert (i 0%nat = x /\ i 1%nat = y * 16 + z /\ i 2%nat = w * 4 + u /\ i 3%nat = v) as (I0 & I1 & I2 & I3).
  { unfold i, index. rewrite E0s, E0l, E1s, E1l, E2s, E2l, !shiftl_value by lia.
    rewrite (lor_low 4), (lor_low 2) by (cbn; lia || apply Z.mod_mul; lia). by split_and!. }
  cbn zeta. rewrite I0, I1, I2, I3. split; [lia|]. rewrite !shiftl_value by lia.
  rewrite (lor_low 18 (x * 2 ^ 18)) by (cbn; lia || apply Z.mod_mul; lia).
  rewrite (lor_low 12 (x * 2 ^ 18 + _)) by (cbn; lia || (replace (x * 2 ^ 18 + (y * 16 + z) * 2 ^ 12) with ((x * 64 + (y * 16 + z)) * 2 ^ 12) by lia; apply Z.mod_mul; lia)).
  rewrite (lor_low 6 (x * 2 ^ 18 + _ + _)) by (cbn; lia || (replace (x * 2 ^ 18 + (y * 16 + z) * 2 ^ 12 + (w * 4 + u) * 2 ^ 6) with ((x * 4096 + (y * 16 + z) * 64 + (w * 4 + u)) * 2 ^ 6) by lia; apply Z.mod_mul; lia)).
  lia.
Qed.

(** ** Symbols *)

Lemma for_symbol_symbol i : 0 <= i < 64 -> for_symbol (symbol i) = i /\ is_stop_character (for_symbol (symbol i)) = false.
Proof.
  intros Hi. assert (Hall : Forall (fun n => for_symbol (symbol (Z.of_nat n)) = Z.of_nat n /\
    is_stop_character (for_symbol (symbol (Z.of_nat n))) = false) (seq 0 64)).
  { apply (bool_decide_unpack _). by vm_compute. }
  rewrite Forall_forall in Hall. specialize (Hall (Z.to_nat i)). rewrite Z2Nat.id in Hall by lia.
  apply Hall. apply elem_of_seq. lia.
Qed.

Lemma for_padding : for_symbol padding_symbol = padding_idx.
Proof. by vm_compute. Qed.

(** The table holds symbol indices and the three stop characters. *)
Lemma for_symbol_cases c : (0 <= for_symbol c < 64 /\ is_stop_character (for_symbol c) = false) \/
  ((for_symbol c = padding_idx \/ for_symbol c = invalid_idx \/ (for_symbol c = eof_idx /\ c = x00)) /\
   is_stop_character (for_symbol c) = true).
Proof. destruct c; vm_compute; (left; by split_and!) || (right; by auto 6). Qed.

Lemma eof_is_nul c : for_symbol c = eof_idx -> c = x00.
Proof. destruct (for_symbol_cases c) as [[? _]|[[->|[->|[_ ->]]] _]]; unfold eof_idx in *; try done. lia. Qed.

(** No symbol is a NUL: an encoded string survives as a C string. *)
Lemma symbol_not_nul i : 0 <= i < 64 -> symbol i <> x00.
Proof. intros Hi E. pose proof (for_symbol_symbol i Hi) as [H _]. rewrite E in H. vm_compute in H. lia. Qed.

Lemma put_fits cap c out : (length out < cap)%nat -> put cap c out = Some (out ++ [byte_of c]).
Proof. intros H. unfold put. by rewrite (proj2 (Nat.ltb_lt _ _) H). Qed.

(** ** Round trip *)

(** Induction by blocks of three. *)
Lemma blocks_ind {A} (P : list A -> Prop) :
  P [] -> (forall a, P [a]) -> (forall a b, P [a; b]) -> (forall a b c l, P l -> P (a :: b :: c :: l)) -> forall l, P l.
Proof.
  intros H0 H1 H2 H3. fix IH 1. intros [|a [|b [|c l]]]; [done|apply H1|apply H2|apply H3, IH].
Qed.

Lemma encode_block_cons b0 b1 b2 : exists i0 i1 i2 i3,
  encode_block b0 b1 b2 = [symbol i0; symbol i1; symbol i2; symbol i3] /\
  (0 <= i0 < 64 /\ 0 <= i1 < 64 /\ 0 <= i2 < 64 /\ 0 <= i3 < 64) /\
  forall cap out, (length out + 3 <= cap)%nat -> decode_block cap [i0; i1; i2; i3] out = Some (out ++ [b0; b1; b2]).
Proof.
  destruct (block_indices b0 b1 b2) as [Hi Hd]. do 4 eexists. split; [reflexivity|]. split; [exact Hi|].
  intros cap out Hcap. unfold decode_block. cbn [lookup list_lookup mbind option_bind]. rewrite Hd.
  pose proof (byte_val_range b0). pose proof (byte_val_range b1). pose proof (byte_val_range b2).
  change 255 with (2 ^ 8 - 1). rewrite !land_ones, !Z.shiftr_div_pow2 by lia.
  change (2 ^ 16) with 65536. change (2 ^ 8) with 256.
  assert ((byte_val b0 * 65536 + byte_val b1 * 256 + byte_val b2) / 65536 = byte_val b0) as -> by euclid.
  assert ((byte_val b0 * 65536 + byte_val b1 * 256 + byte_val b2) / 256 mod 256 = byte_val b1) as -> by euclid.
  assert ((byte_val b0 * 65536 + byte_val b1 * 256 + byte_val b2) mod 256 = byte_val b2) as -> by euclid.
  rewrite put_fits by lia. cbn [mbind option_bind]. rewrite put_fits by (rewrite length_app; cbn; lia).
  cbn [mbind option_bind]. rewrite put_fits by (rewrite !length_app; cbn; lia). by rewrite !byte_of_val, <- !(assoc_L (++)).
Qed.

(** What the loop needs of the array. *)
Definition indices_ok (idx : list Z) : Prop :=
  length idx = 4%nat /\ forall i, idx !! 0%nat = Some i -> i <> invalid_idx /\ i <> padding_idx.

Lemma scan_symbol cap i src idx ptr out : 0 <= i < 64 -> length idx = 4%nat -> (ptr < 3)%nat ->
  scan cap (symbol i :: src) idx ptr out = scan cap src (<[ptr := i]> idx) (S ptr) out.
Proof.
  intros Hi Hl Hp. cbn [scan]. destruct (for_symbol_symbol i Hi) as [-> ->]. unfold set_index.
  rewrite Hl, (proj2 (Nat.ltb_lt _ _)) by lia. cbn [mbind option_bind]. unfold encoded_block_size.
  by rewrite (proj2 (Nat.eqb_neq _ _)) by lia.
Qed.

Lemma scan_block cap b0 b1 b2 src idx out : length idx = 4%nat -> (length out + 3 <= cap)%nat ->
  exists idx', indices_ok idx' /\
    scan cap (encode_block b0 b1 b2 ++ src) idx 0 out = scan cap src idx' 0 (out ++ [b0; b1; b2]).
Proof.
  intros Hl Hcap. destruct (encode_block_cons b0 b1 b2) as (i0 & i1 & i2 & i3 & -> & (H0 & H1 & H2 & H3) & Hd).
  exists [i0; i1; i2; i3]. split.
  { split; [done|]. intros i [= <-]. unfold invalid_idx, padding_idx. lia. }
  destruct idx as [|a [|b [|c [|d [|]]]]]; try done. cbn [app].
  rewrite !scan_symbol by done || lia. cbn [scan insert list_insert].
  destruct (for_symbol_symbol i3 H3) as [E ->]. unfold set_index. cbn [length Nat.ltb Nat.leb mbind option_bind insert list_insert].
  rewrite E. cbn [Nat.eqb encoded_block_size]. by rewrite Hd.
Qed.

Lemma after_scan_start cap src idx out : indices_ok idx -> after_scan cap src idx 0 out = Some (inr out).
Proof.
  intros [Hl Hi]. unfold after_scan. destruct idx as [|i idx]; [done|]. cbn [lookup list_lookup mbind option_bind].
  destruct (Hi i eq_refl) as [H1 H2]. by rewrite (proj2 (Z.eqb_neq _ _) H1), (proj2 (Z.eqb_neq _ _) H2).
Qed.

Lemma scan_padding cap src idx ptr out : length idx = 4%nat -> (ptr < 4)%nat ->
  scan cap (padding_symbol :: src) idx ptr out = Some (padding_symbol :: src, <[ptr := padding_idx]> idx, ptr, out).
Proof.
  intros Hl Hp. cbn [scan]. rewrite for_padding. unfold set_index. by rewrite Hl, (proj2 (Nat.ltb_lt _ _)) by done.
Qed.


(** The bits that [decode_tail] picks. *)
Lemma index_bits i : 0 <= i < 64 ->
  Z.shiftr (Z.land i 48) 4 = i / 16 /\ Z.land i 15 = i mod 16 /\ Z.shiftr (Z.land i 60) 2 = i / 4.
Proof.
  intros Hi. assert (Hall : Forall (fun n => Z.shiftr (Z.land (Z.of_nat n) 48) 4 = Z.of_nat n / 16 /\
    Z.land (Z.of_nat n) 15 = Z.of_nat n mod 16 /\ Z.shiftr (Z.land (Z.of_nat n) 60) 2 = Z.of_nat n / 4) (seq 0 64)).
  { apply (bool_decide_unpack _). by vm_compute. }
  rewrite Forall_forall in Hall. specialize (Hall (Z.to_nat i)). rewrite Z2Nat.id in Hall by lia.
  apply Hall, elem_of_seq. lia.
Qed.

(** Whatever was in the array, [decode_tail] has the indices of a tail of [n] symbols and
    the padding that follows. *)
Lemma decode_padded cap i0 i1 out idx : 0 <= i0 < 64 -> 0 <= i1 < 64 -> length idx = 4%nat ->
  exists a b, decode_from cap [symbol i0; symbol i1; padding_symbol; padding_symbol] idx 0 out
  = decode_tail cap [i0; i1; a; b] 2 out.
Proof.
  intros H0 H1 Hl. destruct idx as [|? [|? [|? [|d [|]]]]]; try done. exists padding_idx, d.
  unfold decode_from. rewrite !scan_symbol by done || (cbn; lia). cbn [insert list_insert].
  rewrite scan_padding by done || lia. reflexivity.
Qed.

Lemma decode_padded_one cap i0 i1 i2 out idx : 0 <= i0 < 64 -> 0 <= i1 < 64 -> 0 <= i2 < 64 -> length idx = 4%nat ->
  exists a, decode_from cap [symbol i0; symbol i1; symbol i2; padding_symbol] idx 0 out
  = decode_tail cap [i0; i1; i2; a] 3 out.
Proof.
  intros H0 H1 H2 Hl. destruct idx as [|? [|? [|? [|d [|]]]]]; try done. exists padding_idx.
  unfold decode_from. rewrite !scan_symbol by done || (cbn; lia). cbn [insert list_insert].
  rewrite scan_padding by done || lia. reflexivity.
Qed.

Lemma decode_one cap b idx out : length idx = 4%nat -> (length out + 1 <= cap)%nat ->
  decode_from cap (stream_encode [b]) idx 0 out = Some (inr (out ++ [b])).
Proof.
  intros Hl Hcap. destruct (byte_split b 2 ltac:(lia)) as (x & y & E & Hx & Hy & Es & El).
  change (2 ^ 2 - 1) with 3 in *. change (8 - 2) with 6 in *. cbn in Hx, Hy.
  cbn [stream_encode index index_last]. rewrite Es, El, (shiftl_value y) by lia.
  destruct (decode_padded cap x (y * 2 ^ 4) out idx) as (p & q & ->); [lia..|done|].
  unfold decode_tail. cbn [Nat.eqb lookup list_lookup mbind option_bind].
  destruct (index_bits (y * 2 ^ 4)) as (-> & _); [lia|]. rewrite put_fits by lia. cbn [mbind option_bind]. do 4 f_equal.
  rewrite shiftl_value by lia. apply byte_val_inj. rewrite byte_val_of, E. euclid.
Qed.

Lemma decode_two cap b b' idx out : length idx = 4%nat -> (length out + 2 <= cap)%nat ->
  decode_from cap (stream_encode [b; b']) idx 0 out = Some (inr (out ++ [b; b'])).
Proof.
  intros Hl Hcap. destruct (byte_split b 2 ltac:(lia)) as (x & y & E & Hx & Hy & Es & El).
  destruct (byte_split b' 4 ltac:(lia)) as (z & w & E' & Hz & Hw & Es' & El').
  change (2 ^ 2 - 1) with 3 in *. change (8 - 2) with 6 in *. change (2 ^ 4 - 1) with 15 in *. change (8 - 4) with 4 in *.
  cbn in Hx, Hy, Hz, Hw. cbn [stream_encode index index_last]. rewrite Es, El, Es', El', (shiftl_value y), (shiftl_value w) by lia.
  rewrite (lor_low 4) by (lia || apply Z.mod_mul; lia).
  destruct (decode_padded_one cap x (y * 2 ^ 4 + z) (w * 2 ^ 2) out idx) as (p & ->); [lia..|done|].
  unfold decode_tail. cbn [Nat.eqb lookup list_lookup mbind option_bind].
  destruct (index_bits (y * 2 ^ 4 + z)) as (-> & -> & _); [lia|]. destruct (index_bits (w * 2 ^ 2)) as (_ & _ & ->); [lia|].
  rewrite put_fits by lia. cbn [mbind option_bind]. rewrite put_fits by (rewrite length_app; cbn; lia). cbn [mbind option_bind].
  rewrite <- (assoc_L (++)). cbn [app]. do 4 f_equal.
  - rewrite shiftl_value by lia. apply byte_val_inj. rewrite byte_val_of, E. euclid.
  - rewrite shiftl_value by lia. f_equal. apply byte_val_inj. rewrite byte_val_of, E'. euclid.
Qed.

Lemma decode_encoded cap b idx out : indices_ok idx -> (length out + length b <= cap)%nat ->
  decode_from cap (stream_encode b) idx 0 out = Some (inr (out ++ b)).
Proof.
  revert idx out. induction b as [|b0|b0 b1|b0 b1 b2 b IH] using blocks_ind; intros idx out Hi Hcap; cbn [length] in Hcap.
  - rewrite app_nil_r. unfold decode_from. cbn [stream_encode scan mbind option_bind]. by apply after_scan_start.
  - apply decode_one; [apply Hi|lia].
  - apply decode_two; [apply Hi|lia].
  - cbn [stream_encode]. destruct (scan_block cap b0 b1 b2 (stream_encode b) idx out) as (idx' & Hi' & E); [apply Hi|lia|].
    unfold decode_from. rewrite E. change (decode_from cap (stream_encode b) idx' 0 (out ++ [b0; b1; b2]) = Some (inr (out ++ b0 :: b1 :: b2 :: b))).
    rewrite IH by (done || (rewrite length_app; cbn; lia)). by rewrite <- (assoc_L (++)).
Qed.

Lemma length_stream_encode b : length (stream_encode b) = (4 * ((length b + 2) / 3))%nat.
Proof.
  induction b as [|b0|b0 b1|b0 b1 b2 b IH] using blocks_ind; try done.
  cbn [stream_encode]. rewrite length_app, IH. cbn [length encode_block fmap list_fmap seq encoded_block_size].
  replace (S (S (S (length b))) + 2)%nat with (length b + 2 + 1 * 3)%nat by lia. rewrite Nat.div_add by lia. lia.
Qed.

(** ** Every string is decoded or refused *)

(** Where the first loop ends: at the end of the string, or at a stop character, which
    it has stored. *)
Definition stopped (rest : bytes) (idx : list Z) (ptr : nat) : Prop :=
  match rest with
  | [] => Forall (fun i => i <> invalid_idx /\ i <> padding_idx) idx
  | c :: _ => idx !! ptr = Some (for_symbol c) /\ is_stop_character (for_symbol c) = true
  end.

Lemma not_stop c : is_stop_character (for_symbol c) = false -> 0 <= for_symbol c < 64.
Proof. destruct (for_symbol_cases c) as [[H _]|[_ H]]; [done|]. by rewrite H. Qed.

Lemma decode_block_total cap idx out : length idx = 4%nat -> (length out + 3 <= cap)%nat ->
  exists out', decode_block cap idx out = Some out' /\ length out' = (length out + 3)%nat.
Proof.
  intros Hl Hcap. destruct idx as [|a [|b [|c [|d [|]]]]]; try done. unfold decode_block.
  cbn [lookup list_lookup mbind option_bind]. rewrite put_fits by lia. cbn [mbind option_bind].
  rewrite put_fits by (rewrite length_app; cbn; lia). cbn [mbind option_bind].
  rewrite put_fits by (rewrite !length_app; cbn; lia). eexists. split; [done|]. rewrite !length_app. cbn. lia.
Qed.

Lemma scan_total cap src idx ptr out :
  length idx = 4%nat -> (ptr < 4)%nat -> Forall (fun i => i <> invalid_idx /\ i <> padding_idx) idx ->
  (length out + 3 * ((ptr + length src) / 4) <= cap)%nat ->
  exists rest idx' ptr' out', scan cap src idx ptr out = Some (rest, idx', ptr', out') /\
    length idx' = 4%nat /\ (ptr' < 4)%nat /\ stopped rest idx' ptr' /\ suffix rest src /\
    (length out' + 3 * ((ptr' + length rest) / 4) <= cap)%nat /\
    ((ptr' + length rest) mod 4 = (ptr + length src) mod 4)%nat.
Proof.
  revert idx ptr out. induction src as [|c src IH]; intros idx ptr out Hl Hp Hf Hcap; cbn [scan].
  { exists [], idx, ptr, out. split_and!; done. }
  unfold set_index. rewrite Hl, (proj2 (Nat.ltb_lt _ _) Hp). cbn [mbind option_bind].
  destruct (is_stop_character (for_symbol c)) eqn:Es.
  { exists (c :: src), (<[ptr := for_symbol c]> idx), ptr, out. rewrite length_insert. split_and!; try done.
    split; [|done]. by rewrite list_lookup_insert_eq by lia. }
  pose proof (not_stop _ Es) as Hc.
  assert (Hf' : Forall (fun i => i <> invalid_idx /\ i <> padding_idx) (<[ptr := for_symbol c]> idx)).
  { apply Forall_insert; [done|]. unfold invalid_idx, padding_idx. lia. }
  cbn [length] in Hcap. rewrite Nat.add_succ_r in Hcap.
  assert (Hs : forall ptr' n, (ptr' + n = S (ptr + length src) -> (ptr' + n) mod 4 = (ptr + length (c :: src)) mod 4)%nat).
  { intros ptr' n ->. cbn [length]. by rewrite Nat.add_succ_r. }
  destruct (Nat.eqb_spec (S ptr) encoded_block_size) as [Ep|Ep]; unfold encoded_block_size in Ep.
  - assert (S (ptr + length src) = length src + 1 * 4)%nat as E4 by lia. rewrite E4, Nat.div_add in Hcap by lia.
    destruct (decode_block_total cap (<[ptr := for_symbol c]> idx) out) as (out1 & -> & Hout1); [by rewrite length_insert|lia|].
    cbn [mbind option_bind].
    destruct (IH (<[ptr := for_symbol c]> idx) 0%nat out1) as (rest & idx' & ptr' & out' & E & H1 & H2 & H3 & H4 & H5 & H6); [by rewrite length_insert|lia|done|rewrite Nat.add_0_l; lia|].
    exists rest, idx', ptr', out'. split_and!; try done; [by apply suffix_cons_r|]. rewrite H6. cbn [Nat.add length].
    rewrite Nat.add_succ_r, E4. by rewrite Nat.Div0.mod_add.
  - destruct (IH (<[ptr := for_symbol c]> idx) (S ptr) out) as (rest & idx' & ptr' & out' & E & H1 & H2 & H3 & H4 & H5 & H6); [by rewrite length_insert|lia|done|done|].
    exists rest, idx', ptr', out'. split_and!; try done; [by apply suffix_cons_r|]. rewrite H6. apply Hs. lia.
Qed.

(** The second loop refuses, or counts up to [last'] characters, all of the string unless
    it meets a NUL. *)
Lemma paddings_total src idx ptr last : length idx = 4%nat -> (ptr < 4)%nat -> (last <= 4)%nat ->
  exists r, paddings src idx ptr last = Some r /\
    forall idx' last', r = inr (idx', last') -> length idx' = 4%nat /\ (last <= last' <= last + length src)%nat /\
      (x00 ∉ src -> last' = (last + length src)%nat).
Proof.
  revert idx last. induction src as [|c src IH]; intros idx last Hl Hp Hlast; cbn [paddings].
  { eexists. split; [done|]. intros idx' last' [= <- <-]. cbn. split_and!; done || lia. }
  unfold set_index. rewrite Hl, (proj2 (Nat.ltb_lt _ _) Hp). cbn [mbind option_bind].
  destruct (Z.eqb_spec (for_symbol c) eof_idx) as [Ee|Ee].
  { rewrite length_insert, Hl, (proj2 (Nat.ltb_lt _ _) Hp). cbn [mbind option_bind]. eexists. split; [done|].
    intros idx' last' [= <- <-]. rewrite !length_insert. split_and!; [done|lia|cbn; lia|].
    intros Hn. destruct Hn. rewrite (eof_is_nul _ Ee). by left. }
  destruct (for_symbol c =? padding_idx); cbn [negb]; [|by eexists].
  destruct (Nat.ltb_spec encoded_block_size (S last)) as [|Hlt]; [by eexists|]. unfold encoded_block_size in Hlt.
  destruct (IH (<[ptr := for_symbol c]> idx) (S last)) as (r & -> & Hr); [by rewrite length_insert|done|lia|].
  exists r. split; [done|]. intros idx' last' E. destruct (Hr idx' last' E) as (H1 & H2 & H3). cbn [length].
  split_and!; [done|lia|lia|]. intros [_ Hn]%not_elem_of_cons. rewrite (H3 Hn). lia.
Qed.

Lemma end_block_total cap idx ptr last out : length idx = 4%nat -> (ptr < 4)%nat -> (last = 4 -> length out + 3 <= cap)%nat ->
  (last <> 0 -> ptr <> 0)%nat ->
  exists r, end_block cap idx ptr last out = Some r /\ forall b, r = inr b -> (last mod 4 = 0)%nat.
Proof.
  intros Hl Hp Hcap H0. unfold end_block. destruct (Nat.eqb_spec last 0) as [->|Hlast]; [by eexists|].
  destruct (Nat.eqb_spec last encoded_block_size) as [->|]; cbn [negb]; [|by eexists]. unfold encoded_block_size in *.
  rewrite (proj2 (Nat.leb_gt _ _)) by lia. specialize (H0 Hlast). specialize (Hcap eq_refl).
  destruct idx as [|i0 [|i1 [|i2 [|i3 [|]]]]]; try done. unfold decode_tail. destruct (Nat.eqb ptr 1); [by eexists|].
  cbn [lookup list_lookup mbind option_bind]. rewrite put_fits by lia. cbn [mbind option_bind].
  destruct (Nat.eqb ptr 2); [by eexists|]. rewrite put_fits by (rewrite length_app; cbn; lia). by eexists.
Qed.

Lemma decode_stream_encode b : decode (stream_encode b) = Some (inr b).
Proof.
  unfold decode, stream_decode. rewrite length_stream_encode. rewrite decode_encoded; [done| |].
  - split; [done|]. by intros i [= <-].
  - unfold decoded_max_size, encoded_block_size, binary_block_size. cbn [length]. rewrite (Nat.mul_comm 4), Nat.div_mul by lia.
    pose proof (Nat.div_mod (length b + 2) 3 ltac:(lia)). pose proof (Nat.mod_upper_bound (length b + 2) 3 ltac:(lia)). lia.
Qed.

(** Every character of an encoded string is a symbol or padding: the symbols of a tail are
    those of a block that ends in zero bytes. *)
Lemma encode_forall (P : byte -> Prop) b : (forall i, 0 <= i < 64 -> P (symbol i)) -> P padding_symbol -> Forall P (stream_encode b).
Proof.
  intros Hs Hp.
  assert (Hblock : forall b0 b1 b2, Forall P (encode_block b0 b1 b2)).
  { intros b0 b1 b2. destruct (encode_block_cons b0 b1 b2) as (i0 & i1 & i2 & i3 & -> & (H0 & H1 & H2 & H3) & _).
    repeat constructor; by apply Hs. }
  assert (Hone : forall b0, stream_encode [b0] = take 2 (encode_block b0 x00 x00) ++ [padding_symbol; padding_symbol]).
  { intros b0. cbn. by rewrite Z.lor_0_r. }
  assert (Htwo : forall b0 b1, stream_encode [b0; b1] = take 3 (encode_block b0 b1 x00) ++ [padding_symbol]).
  { intros b0 b1. cbn. by rewrite Z.lor_0_r. }
  induction b as [|b0|b0 b1|b0 b1 b2 b IH] using blocks_ind.
  - constructor.
  - rewrite Hone. apply Forall_app. split; [by apply Forall_take|by repeat constructor].
  - rewrite Htwo. apply Forall_app. split; [by apply Forall_take|by repeat constructor].
  - cbn [stream_encode]. by apply Forall_app.
Qed.

Lemma encode_no_nul b : x00 ∉ stream_encode b.
Proof.
  intros Hin. assert (Forall (fun c => c <> x00) (stream_encode b)) as Hf by (apply encode_forall; [apply symbol_not_nul|done]).
  rewrite Forall_forall in Hf. by apply (Hf x00).
Qed.

(** ** Properties *)

(** C26. What [base::encode] makes of any bytes, [base::decode] turns back into them; the
    text has the length the codec reserves for it and contains no NUL. *)
Theorem base64_decode_encode b :
  decode (encode b) = Some (inr b) /\ length (encode b) = encoded_size (length b) /\ x00 ∉ encode b.
Proof.
  unfold encode. split_and!.
  - apply decode_stream_encode.
  - rewrite length_stream_encode. unfold encoded_size, encoded_block_size, binary_block_size. cbn [Nat.sub].
    pose proof (Nat.div_mod (length b + 2) 3 ltac:(lia)) as Hd.
    replace (length b + 2 - (length b + 2) mod 3)%nat with ((length b + 2) / 3 * 3)%nat by lia.
    replace ((length b + 2) / 3 * 3 * 4)%nat with ((length b + 2) / 3 * 4 * 3)%nat by lia. rewrite Nat.div_mul by lia. lia.
  - apply encode_no_nul.
Qed.

(** A result that is an error. *)
Ltac refused := eexists; split; [reflexivity|]; intros; by eexists.

(** [decode] leaves no buffer and never aborts: every string is decoded, or refused
    with an error; one without a NUL whose length is not a multiple of four is refused. *)
Theorem decode_total s : exists r, decode s = Some r /\ (x00 ∉ s -> (length s mod 4 <> 0)%nat -> exists e, r = inl e).
Proof.
  unfold decode, stream_decode, decode_from.
  destruct (scan_total (decoded_max_size (length s)) s [eof_idx; 0; 0; 0] 0 []) as (rest & idx & ptr & out & -> & Hl & Hp & Hst & Hsuf & Hcap & Hmod);
    [done|lia|repeat (constructor; [split; discriminate|]); constructor|cbn [length]; unfold decoded_max_size, encoded_block_size, binary_block_size; rewrite !Nat.add_0_l; lia|].
  cbn [mbind option_bind Nat.add] in *. unfold after_scan.
  destruct (lookup_lt_is_Some_2 idx ptr) as [i Ei]; [lia|]. rewrite Ei. cbn [mbind option_bind]. destruct rest as [|c rest].
  - rewrite Nat.add_0_r in *. cbn [stopped] in Hst. pose proof (proj1 (Forall_lookup _ _) Hst _ _ Ei) as [Hi1 Hi2].
    rewrite (proj2 (Z.eqb_neq _ _) Hi1), (proj2 (Z.eqb_neq _ _) Hi2).
    destruct (end_block_total (decoded_max_size (length s)) idx ptr ptr out) as (r & -> & Hr); [done|done|lia|done|].
    exists r. split; [done|]. intros _ Hne. destruct r as [e|b]; [by exists e|]. destruct Hne. rewrite <- Hmod. by apply (Hr b).
  - destruct Hst as [Ec Hst]. rewrite Ei in Ec. injection Ec as ->.
    destruct (Z.eqb_spec (for_symbol c) invalid_idx) as [E1|E1]; [refused|].
    destruct (Z.eqb_spec (for_symbol c) padding_idx) as [E2|E2].
    + destruct (Nat.eqb_spec ptr 0) as [|Hp0]; [refused|]. cbn [tail].
      destruct (paddings_total rest idx ptr (S ptr)) as (r & -> & Hr); [done|done|lia|]. cbn [mbind option_bind].
      destruct r as [e|[idx' last]]; [refused|]. destruct (Hr _ _ eq_refl) as (Hl' & Hle & Hno).
      destruct (end_block_total (decoded_max_size (length s)) idx' ptr last out) as (r & -> & Hr'); [done|done| |done|].
      { intros ->. cbn [length] in *. pose proof (Nat.div_le_mono 4 (ptr + S (length rest)) 4 ltac:(lia) ltac:(lia)) as Hd. change (4 / 4)%nat with 1%nat in Hd. lia. }
      exists r. split; [done|]. intros Hn Hne. destruct r as [e|b]; [by exists e|]. destruct Hne. rewrite <- Hmod.
      cbn [length]. rewrite Nat.add_succ_r, <- Nat.add_succ_l, <- Hno; [by apply (Hr' b)|].
      intros Hin. apply Hn. destruct Hsuf as [k ->]. rewrite elem_of_app, elem_of_cons. auto.
    + destruct (end_block_total (decoded_max_size (length s)) idx ptr ptr out) as (r & -> & Hr); [done|done|lia|done|].
      exists r. split; [done|]. intros Hn _. destruct Hn.
      destruct (for_symbol_cases c) as [[_ Hc]|[[?|[?|[_ ->]]] _]]; [congruence|done|done|].
      destruct Hsuf as [k ->]. rewrite elem_of_app, elem_of_cons. auto.
Qed.

Lemma decode_total_witness : exists r e, decode (lit "QQ") = Some r /\ r = inl e.
Proof.
  destruct (decode_total (lit "QQ")) as (r & E & He). destruct He as [e ->]; [apply (bool_decide_unpack _); by vm_compute|done|by exists (inl e), e].
Defined.

(** Bits of the last symbol that no byte takes are ignored: several texts stand for the
    same bytes. *)
Example padding_bits : decode (lit "QQ==") = Some (inr (lit "A")) /\ decode (lit "QR==") = Some (inr (lit "A")) /\
  decode (lit "QQ=") = Some (inl padding_error) /\ decode (lit "Q===") = Some (inl invalid_input_length) /\
  decode (lit "Q/==") = Some (inl (symbol_error x2f)).
Proof. by vm_compute. Qed.
