(* ===== verification/Storages.v ===== *)
(** * Storages that answer at once ([storage-conf.hpp], [storage-conf-cass.hpp],
    [storage-conf-swift.hpp], [storage-cassandra.hpp], [storage-swiftkv-minio.hpp])

    A data function can keep blocks in a table of Cassandra or in a bucket of an object
    store.  What these services hold is a [KVStore], reached through their drivers; whether
    they are reachable, and the chunks in which an object arrives, are given.  [None] is an
    exception, an access outside a buffer, a null pointer handed to a driver or a wait that
    does not end. *)
From Stdlib Require Import ZArith Lia.
From stdpp Require Import base tactics option list gmap strings.
From S2P Require Import Prelude KvLog Wire Request Coordinator Cache Base64 DataFunction.
Import pack.

(** ** The interface of a storage *)

(** [storage::interface], the members that the configurations call.  [read_key name
    partition location size], [write_key name partition buffer location version]. *)
Class Storage (S : Type) := {
  read_key : bytes -> Z -> Z -> Z -> S -> option bytes;
  write_key : bytes -> Z -> bytes -> Z -> Z -> S -> option S
}.

(** ** The names of keys *)

Definition slash : byte := x2f.
Definition underscore : byte := x5f.
Definition minus : byte := x2d.

Section names.
(** Poco's [Base64Encoder]. *)
Variable poco_base64 : bytes -> bytes.

(** [uuid::encode_base64]: slashes become underscores. *)
Definition encode_base64 (key : bytes) : bytes :=
  (fun c => if decide (c = slash) then underscore else c) <$> poco_base64 key.

(** The key of a row: a partition is a [size_t]. *)
Definition casskey (key : bytes) (partition : Z) : bytes :=
  encode_base64 key ++ [minus] ++ to_string (u64 partition).

(** ** Cassandra *)

(** [connected]: the error code of the connection is [CASS_OK].  [executes]: a statement
    has a result. *)
Record cassandra (D : Type) := mk_cassandra { connected : bool; executes : bool; table : D }.
Arguments mk_cassandra {D}.
Arguments connected {D}.
Arguments executes {D}.
Arguments table {D}.

Section cassandra.
Context {D : Type} `{KVStore D}.

(** A string is bound up to its first NUL.  A result of a failed query is null, and
    [read_key] hands it to the driver. *)
Definition cass_read_key (name : bytes) (partition location size : Z) (s : cassandra D) : option bytes :=
  buf ← (if negb s.(connected) then Some []
         else if negb s.(executes) then None
         else match db_get (until_nul (casskey name partition)) s.(table) with
              | None => Some []
              | Some v => r ← decode v; match r with inl _ => None | inr buf => Some buf end
              end);
  let minsize := Z.min (Z.of_nat (length buf)) size in
  if minsize =? 0 then Some [] else mem_get (Z.to_nat location) (Z.to_nat minsize) buf.

Definition cass_write_key (name : bytes) (partition : Z) (buffer : bytes) (location version : Z) (s : cassandra D)
    : option (cassandra D) :=
  Some (if s.(connected) && s.(executes)
        then mk_cassandra s.(connected) s.(executes)
               (db_put (until_nul (casskey name partition)) (until_nul (encode buffer)) s.(table))
        else s).

#[global] Instance cassandra_storage : Storage (cassandra D) :=
  {| read_key := cass_read_key; write_key := cass_write_key |}.

End cassandra.

(** ** An object store *)

(** [accepts]: whether objects can be put; [chunks]: how the client hands on an object. *)
Record swiftkv (D : Type) := mk_swiftkv { accepts : bool; chunks : bytes -> list bytes; objects : D }.
Arguments mk_swiftkv {D}.
Arguments accepts {D}.
Arguments chunks {D}.
Arguments objects {D}.

Section swiftkv.
Context {D : Type} `{KVStore D}.

(** The constructor looks whether the bucket exists; an error is an exception. *)
Definition new_swiftkv (exists_ : option bool) (chunks : bytes -> list bytes) (objects : D) : option (swiftkv D) :=
  e ← exists_;
  if e : bool then Some (mk_swiftkv true chunks objects) else None.

(** Each chunk sets the value of one promise: a second one throws, and without one the
    future is never ready. *)
Definition swift_read_key (name : bytes) (partition location size : Z) (s : swiftkv D) : option bytes :=
  match db_get (encode_base64 name) s.(objects) with
  | None => Some (lit_buf "KEYNOTFOUND")
  | Some v => match s.(chunks) v with [c] => Some c | _ => None end
  end.

Definition swift_write_key (name : bytes) (partition : Z) (buffer : bytes) (location version : Z) (s : swiftkv D)
    : option (swiftkv D) :=
  Some (if s.(accepts) then mk_swiftkv s.(accepts) s.(chunks) (db_put (encode_base64 name) buffer s.(objects)) else s).

#[global] Instance swiftkv_storage : Storage (swiftkv D) :=
  {| read_key := swift_read_key; write_key := swift_write_key |}.

End swiftkv.
End names.
Arguments mk_cassandra {D}.
Arguments connected {D}.
Arguments executes {D}.
Arguments table {D}.
Arguments mk_swiftkv {D}.
Arguments accepts {D}.
Arguments chunks {D}.
Arguments objects {D}.

(** ** The configurations *)

(** [storage_conf]. *)
Record storage_conf (S : Type) := mk_conf { fullsize_ : Z; hostlist_ : list S }.
Arguments mk_conf {S}.
Arguments fullsize_ {S}.
Arguments hostlist_ {S}.

Section conf.
Context {S : Type} `{HS : Storage S}.

(** [init]: the storage is the one host; the size of a block may be configured. *)
Definition init (block_size : option Z) (host : S) : storage_conf S :=
  mk_conf (match block_size with Some n => u32 n | None => 4096 end) [host].

(** A position is divided as an unsigned number and kept in an [int]; as a [size_t] it is
    sign-extended. *)
Definition block_of (conf : storage_conf S) (realpos : Z) : option (Z * Z) :=
  if conf.(fullsize_) =? 0 then None
  else Some (s32 (u32 realpos / conf.(fullsize_)), s32 (u32 realpos mod conf.(fullsize_))).

Fixpoint write_hosts (name : bytes) (blockid : Z) (b : bytes) (offset : Z) (hosts : list S) : option (list S) :=
  match hosts with
  | [] => Some []
  | h :: hosts => h ← write_key name blockid b offset 0 h; hosts ← write_hosts name blockid b offset hosts; Some (h :: hosts)
  end.

(** The response is that of the last host. *)
Fixpoint read_hosts (name : bytes) (blockid offset size : Z) (hosts : list S) (response : bytes) : option bytes :=
  match hosts with
  | [] => Some response
  | h :: hosts => response ← read_key name blockid offset size h; read_hosts name blockid offset size hosts response
  end.

(** [perform], the same in both configurations. *)
Definition perform (conf : storage_conf S) (operation : Z) (i : input) : option (storage_conf S * bytes) :=
  match operation_of_code operation with
  | Some write =>
      '(blockid, offset) ← block_of conf i.(in_position);
      b ← mem_get 0 (Z.to_nat i.(in_size)) i.(in_data);
      hosts ← write_hosts i.(in_uuid) (u64 blockid) b (u64 offset) conf.(hostlist_);
      Some (mk_conf conf.(fullsize_) hosts, lit "OK")
  | Some read =>
      '(blockid, offset) ← block_of conf i.(in_position);
      response ← read_hosts i.(in_uuid) (u64 blockid) (u64 offset) i.(in_size) conf.(hostlist_) [];
      Some (conf, response)
  | None => Some (conf, [])
  end.

(** ** A job of a function with such a storage *)

(** [storage_perform], by the type of the request: metadata requests are performed as well. *)
Definition storage_perform (cfg : Cache.config) (p : packet) (c : cache) (conf : storage_conf S) (i : input)
    : option (cache * storage_conf S * bytes) :=
  t ← request_parser.type p.(data);
  operation ← request_parser.operation p.(data);
  match type_of_code t with
  | Some file => Cache.storage_perform perform cfg c conf operation i
  | Some metadata => '(conf, v) ← perform conf operation i; Some (c, conf, v)
  | _ => Some (c, conf, [])
  end.

(** The branch of [start_job] for [use_async () == false]. *)
Definition start_job_at_once (cfg : Cache.config) (p : packet) (c : cache) (conf : storage_conf S)
    : option (cache * storage_conf S * packet) :=
  i ← parse_input p;
  '(c, conf, v) ← storage_perform cfg p c conf i;
  response ← respond_sync p v;
  Some (c, conf, response).

End conf.

(** ** Keys of rows *)

(** The characters of base64. *)
Definition base64_character (c : byte) : bool :=
  let z := byte_val c in
  ((65 <=? z) && (z <=? 90)) || ((97 <=? z) && (z <=? 122)) || ((48 <=? z) && (z <=? 57)) || (z =? 43) || (z =? 47) || (z =? 61).

(** What the code relies on of Poco, for the 32 bytes of a key: the text is base64, on one
    line, and no two keys have the same. *)
Record poco_laws (poco_base64 : bytes -> bytes) : Prop := {
  poco_alphabet : forall k, length k = key_length -> Forall (fun c => base64_character c = true) (poco_base64 k);
  poco_inj : forall k k', length k = key_length -> length k' = key_length -> poco_base64 k = poco_base64 k' -> k = k'
}.

(** No slash, minus or NUL is left. *)
Lemma encode_base64_characters poco k : poco_laws poco -> length k = key_length ->
  Forall (fun c => c <> slash /\ c <> minus /\ c <> x00) (encode_base64 poco k).
Proof.
  intros [Ha _] Hk. specialize (Ha k Hk). unfold encode_base64. apply Forall_fmap. eapply Forall_impl; [exact Ha|].
  intros c Hc. cbn. destruct (decide (c = slash)); [by split_and!|]. split; [done|]. split; intros ->; vm_compute in Hc; discriminate Hc.
Qed.

Lemma encode_base64_inj poco k k' : poco_laws poco -> length k = key_length -> length k' = key_length ->
  encode_base64 poco k = encode_base64 poco k' -> k = k'.
Proof.
  intros [Ha Hi] Hk Hk' E. apply (Hi k k' Hk Hk'). specialize (Ha k Hk) as H1. specialize (Ha k' Hk') as H2. revert E H1 H2.
  unfold encode_base64. generalize (poco k), (poco k'). intros l. induction l as [|c l IH]; intros [|c' l'] E H1 H2; try done.
  cbn in E. injection E as E El. apply Forall_cons in H1 as [Hc H1], H2 as [Hc' H2]. f_equal; [|by apply IH].
  repeat case_decide; by subst.
Qed.

(** Two strings that end at the same character, which neither contains, are the same. *)
Lemma split_at_inj (x : byte) a b r s : x ∉ a -> x ∉ b -> a ++ x :: r = b ++ x :: s -> a = b /\ r = s.
Proof.
  revert b. induction a as [|c a IH]; intros [|d b] Ha Hb E; cbn in E.
  - by injection E.
  - injection E as -> _. destruct Hb. by left.
  - injection E as -> _. destruct Ha. by left.
  - injection E as -> E. apply not_elem_of_cons in Ha as [_ Ha], Hb as [_ Hb]. by destruct (IH b Ha Hb E) as [-> ->].
Qed.

Lemma forall_not_in (P : byte -> Prop) x (l : bytes) : Forall (fun c => P c) l -> ~ P x -> x ∉ l.
Proof. intros Hf Hn Hin. rewrite Forall_forall in Hf. by apply Hn, Hf. Qed.

Section rows.
Variable poco : bytes -> bytes.
Hypothesis Hpoco : poco_laws poco.

Lemma casskey_inj k k' b b' : length k = key_length -> length k' = key_length -> 0 <= b < 2 ^ 63 -> 0 <= b' < 2 ^ 63 ->
  casskey poco k b = casskey poco k' b' -> k = k' /\ b = b'.
Proof.
  intros Hk Hk' Hb Hb' E. unfold casskey in E. cbn [app] in E. apply split_at_inj in E as [E1 E2].
  - split; [by eapply encode_base64_inj|]. rewrite !wrap_small in E2 by (unfold modulus; cbn; lia).
    by apply to_string_inj.
  - eapply forall_not_in; [by apply encode_base64_characters|]. cbn. tauto.
  - eapply forall_not_in; [by apply encode_base64_characters|]. cbn. tauto.
Qed.

(** As a C string it is whole. *)
Lemma casskey_no_nul k b : length k = key_length -> until_nul (casskey poco k b) = casskey poco k b.
Proof.
  intros Hk. apply until_nul_no_nul. unfold casskey. rewrite !elem_of_app. intros [Hin|[Hin|Hin]].
  - revert Hin. eapply forall_not_in; [by apply encode_base64_characters|]. cbn. tauto.
  - apply list_elem_of_singleton in Hin. discriminate Hin.
  - revert Hin. eapply forall_not_in; [apply to_string_digits|]. by vm_compute.
Qed.

End rows.

(** ** What the configurations promise *)

Definition aligned (bs : Z) (op : operation_t) (i : input) : Prop :=
  length i.(in_uuid) = key_length /\ 0 <= i.(in_position) < 2 ^ 32 /\ i.(in_position) mod bs = 0 /\
  0 <= i.(in_size) /\ (op = write -> i.(in_size) <= Z.of_nat (length i.(in_data))).

(** A map from files and block numbers to the bytes last written there. *)
Abbreviation block_store := (gmap (bytes * Z) bytes).

Definition block_id (bs : Z) (i : input) : bytes * Z := (i.(in_uuid), i.(in_position) / bs).

Definition spec_perform (bs : Z) (op : operation_t) (i : input) (m : block_store) : block_store * bytes :=
  match op with
  | write => (<[block_id bs i := take (Z.to_nat i.(in_size)) i.(in_data)]> m, lit "OK")
  | read => (m, take (Z.to_nat i.(in_size)) (default [] (m !! block_id bs i)))
  end.

Fixpoint spec_session (bs : Z) (ops : list (operation_t * input)) (m : block_store) : block_store * list bytes :=
  match ops with
  | [] => (m, [])
  | (op, i) :: ops => let '(m, v) := spec_perform bs op i m in let '(m, vs) := spec_session bs ops m in (m, v :: vs)
  end.

Fixpoint session {S} `{HS : Storage S} (ops : list (operation_t * input)) (conf : storage_conf S) : option (storage_conf S * list bytes) :=
  match ops with
  | [] => Some (conf, [])
  | (op, i) :: ops => '(conf, v) ← perform conf (operation_code op) i; '(conf, vs) ← session ops conf; Some (conf, v :: vs)
  end.

Section cassandra_facts.
Context {D : Type} `{KVLaws D}.
Variable poco : bytes -> bytes.
Hypothesis Hpoco : poco_laws poco.

(** The table holds the blocks of a map. *)
Definition holds (d : D) (m : block_store) : Prop :=
  forall k b, length k = key_length -> 0 <= b < 2 ^ 63 -> db_get (casskey poco k b) d = encode <$> m !! (k, b).

Definition one_cassandra (bs : Z) (d : D) : storage_conf (cassandra D) := mk_conf bs [mk_cassandra true true d].

Lemma aligned_block bs op i (d : D) : 1 < bs < 2 ^ 32 -> aligned bs op i ->
  block_of (one_cassandra bs d) i.(in_position) = Some (i.(in_position) / bs, 0) /\ 0 <= i.(in_position) / bs < 2 ^ 31.
Proof.
  intros Hbs (_ & Hp & Hm & _). unfold block_of, one_cassandra. cbn [fullsize_].
  assert (0 <= i.(in_position) / bs < 2 ^ 31) as Hd.
  { split; [apply Z.div_pos; lia|]. apply Z.div_lt_upper_bound; [lia|]. nia. }
  split; [|done]. rewrite (proj2 (Z.eqb_neq _ _)) by lia. rewrite u32_small by lia. rewrite Hm. do 2 f_equal.
  unfold s32. rewrite Z.mod_small by lia. lia.
Qed.

Lemma u64_small z : 0 <= z < 2 ^ 64 -> u64 z = z.
Proof. by apply (wrap_small 8). Qed.

Lemma encode_c_string b : until_nul (encode b) = encode b.
Proof. apply until_nul_no_nul, encode_no_nul. Qed.

Lemma perform_holds bs op i d m : 1 < bs < 2 ^ 32 -> aligned bs op i -> holds d m ->
  exists d', perform (HS := cassandra_storage poco) (one_cassandra bs d) (operation_code op) i = Some (one_cassandra bs d', (spec_perform bs op i m).2) /\
    holds d' (spec_perform bs op i m).1.
Proof.
  intros Hbs Hi Hd. destruct (aligned_block bs op i d Hbs Hi) as [Eb Hb]. destruct Hi as (Hk & Hp & Hm & Hs & Hw).
  unfold perform. rewrite operation_of_code_code. destruct op; rewrite Eb; cbn [mbind option_bind].
  - specialize (Hw eq_refl). rewrite mem_get_Some by lia. rewrite drop_0. cbn [mbind option_bind one_cassandra hostlist_ fullsize_ write_hosts write_key cassandra_storage].
    unfold cass_write_key. cbn [connected executes andb table mbind option_bind].
    rewrite u64_small by lia. rewrite casskey_no_nul, encode_c_string by done.
    eexists. split; [reflexivity|]. cbn [spec_perform fst]. intros k b Hk' Hb'. unfold block_id.
    destruct (decide ((k, b) = (i.(in_uuid), i.(in_position) / bs))) as [[= -> ->]|Hne].
    + rewrite db_get_put, lookup_insert_eq. done.
    + rewrite db_get_put_ne, lookup_insert_ne by (congruence || (intros E; destruct Hne; apply casskey_inj in E as [-> ->]; done || lia)).
      by apply Hd.
  - exists d. split; [|done]. rewrite !u64_small by lia.
    cbn [one_cassandra hostlist_ fullsize_ read_hosts read_key cassandra_storage mbind option_bind].
    unfold cass_read_key. cbn [connected executes negb table]. rewrite casskey_no_nul by done.
    rewrite (Hd i.(in_uuid) (i.(in_position) / bs)) by (done || lia). unfold spec_perform, block_id.
    destruct (m !! (in_uuid i, in_position i / bs)) as [b|] eqn:Em; cbn [fmap option_fmap option_map default id mbind option_bind snd].
    + rewrite decode_stream_encode. cbn [mbind option_bind].
      destruct (Z.eqb_spec (Z.min (Z.of_nat (length b)) (in_size i)) 0) as [E0|E0].
      * cbn [mbind option_bind]. do 3 f_equal. destruct (decide (in_size i = 0)) as [->|]; [done|]. destruct b as [|? b]; [by rewrite take_nil|cbn [length] in E0; lia].
      * rewrite mem_get_Some by (cbn; lia). change (drop (Z.to_nat 0) b) with b. cbn [mbind option_bind]. do 2 f_equal.
        destruct (Z.min_spec (Z.of_nat (length b)) (in_size i)) as [[Hlt ->]|[Hle ->]]; [|done].
        rewrite !take_ge by lia. done.
    + rewrite Z.min_l by (cbn; lia). cbn. by rewrite take_nil.
Qed.

End cassandra_facts.

(** ** Properties *)

(** Over Cassandra, requests at positions that are multiples of the block size, each
    within a block, act on a map from files and block numbers to the bytes written last:
    a write replaces the bytes of its block, a read answers with the first [size] of them,
    and nothing else changes. *)
Theorem cassandra_refines_map {D} `{KVLaws D} poco bs ops (d : D) m
    (Hpoco : poco_laws poco) (Hbs : 1 < bs < 2 ^ 32) (Hops : Forall (fun o => aligned bs o.1 o.2) ops) (Hd : holds poco d m) :
  exists d', session (HS := cassandra_storage poco) ops (one_cassandra bs d)
             = Some (one_cassandra bs d', (spec_session bs ops m).2) /\
    holds poco d' (spec_session bs ops m).1.
Proof.
  revert d m Hd. induction ops as [|[op i] ops IH]; intros d m Hd; [by exists d|].
  apply Forall_cons in Hops as [Hi Hops]. cbn [session spec_session].
  destruct (perform_holds poco Hpoco bs op i d m Hbs Hi Hd) as (d1 & E1 & Hd1). rewrite E1. cbn [mbind option_bind].
  destruct (spec_perform bs op i m) as [m1 v]. cbn [fst snd] in *.
  destruct (IH Hops d1 m1 Hd1) as (d2 & E2 & Hd2). rewrite E2. cbn [mbind option_bind].
  destruct (spec_session bs ops m1) as [m2 vs]. by exists d2.
Qed.

(** The place inside a block is ignored by a write and not by a read: bytes written at
    an offset are the first of the block afterwards, whatever it held, and reading them
    where they were written leaves the buffer. *)
Theorem cassandra_offset_lost {D} `{KVLaws D} poco bs (d : D) i j
    (Hpoco : poco_laws poco) (Hbs : 1 < bs < 2 ^ 31) (Hk : length i.(in_uuid) = key_length)
    (Hp : 0 <= i.(in_position) < 2 ^ 32) (Hoff : 0 < i.(in_position) mod bs)
    (Hs : 0 < i.(in_size) <= Z.of_nat (length i.(in_data)))
    (Hjk : j.(in_uuid) = i.(in_uuid)) (Hjp : j.(in_position) = i.(in_position) / bs * bs) (Hjs : j.(in_size) = i.(in_size)) :
  exists conf, perform (HS := cassandra_storage poco) (one_cassandra bs d) (operation_code write) i = Some (conf, lit "OK") /\
    perform (HS := cassandra_storage poco) conf (operation_code read) i = None /\
    perform (HS := cassandra_storage poco) conf (operation_code read) j = Some (conf, take (Z.to_nat i.(in_size)) i.(in_data)).
Proof.
  pose proof (Z.mod_pos_bound i.(in_position) bs ltac:(lia)) as Hm.
  pose proof (Z.div_mod i.(in_position) bs ltac:(lia)) as Hd.
  assert (0 <= i.(in_position) / bs < 2 ^ 31) as Hq by (split; [apply Z.div_pos; lia|apply Z.div_lt_upper_bound; nia]).
  assert (block_of (one_cassandra bs d) i.(in_position) = Some (i.(in_position) / bs, i.(in_position) mod bs)) as Eb.
  { unfold block_of, one_cassandra. cbn [fullsize_]. rewrite (proj2 (Z.eqb_neq _ _)) by lia. rewrite u32_small by lia.
    unfold s32. rewrite !(Z.mod_small (_ + 2 ^ 31)) by lia. do 2 f_equal; lia. }
  set (v := take (Z.to_nat i.(in_size)) i.(in_data)).
  assert (length v = Z.to_nat i.(in_size)) as Hv by (unfold v; rewrite length_take; lia).
  set (d' := db_put (casskey poco i.(in_uuid) (i.(in_position) / bs)) (encode v) d).
  assert (forall x o n, x.(in_uuid) = i.(in_uuid) -> block_of (one_cassandra bs d') x.(in_position) = Some (i.(in_position) / bs, o) ->
    0 <= o < 2 ^ 31 -> x.(in_size) = i.(in_size) -> mem_get (Z.to_nat o) (Z.to_nat i.(in_size)) v = n ->
    perform (HS := cassandra_storage poco) (one_cassandra bs d') (operation_code read) x = b ← n; Some (one_cassandra bs d', b)) as Hread.
  { intros x o n Hx Ex Ho Hxs En. unfold perform. rewrite operation_of_code_code, Ex. cbn [mbind option_bind].
    cbn [one_cassandra hostlist_ fullsize_ read_hosts read_key cassandra_storage mbind option_bind].
    unfold cass_read_key. cbn [connected executes negb table]. rewrite Hx, Hxs, !u64_small, casskey_no_nul by (done || lia).
    unfold d'. rewrite db_get_put, decode_stream_encode. cbn [mbind option_bind].
    rewrite Hv, Z2Nat.id, Z.min_id, (proj2 (Z.eqb_neq _ _)), En by lia. by destruct n. }
  exists (one_cassandra bs d'). split_and!.
  - unfold perform. rewrite operation_of_code_code, Eb. cbn [mbind option_bind]. rewrite mem_get_Some, drop_0 by lia.
    cbn [mbind option_bind one_cassandra hostlist_ fullsize_ write_hosts write_key cassandra_storage].
    unfold cass_write_key. cbn [connected executes andb table mbind option_bind].
    by rewrite u64_small, casskey_no_nul, encode_c_string by (done || lia).
  - rewrite (Hread i (i.(in_position) mod bs) None); try done; [lia|]. unfold mem_get. rewrite decide_False by lia. done.
  - rewrite (Hread j 0 (Some v)); try done.
    + unfold block_of, one_cassandra. cbn [fullsize_]. rewrite Hjp, (proj2 (Z.eqb_neq _ _)), u32_small by nia.
      rewrite Z.div_mul, Z.mod_mul by lia. unfold s32. rewrite !Z.mod_small by lia. do 2 f_equal; lia.
    + rewrite mem_get_Some by (cbn; lia). change (drop (Z.to_nat 0) v) with v. by rewrite <- Hv, firstn_all.
Qed.

(** In an object store a file is its last write: whatever position and size a read
    names, it is answered with exactly the bytes of the last write to the file, wherever
    they were written. *)
Theorem swift_last_write_wins {D} `{KVLaws D} poco bs chunking (d : D) i
    (Hbs : 0 < bs < 2 ^ 31) (Hs : 0 <= i.(in_size) <= Z.of_nat (length i.(in_data))) (Hc : forall v, chunking v = [v]) :
  exists conf, perform (HS := swiftkv_storage poco) (mk_conf bs [mk_swiftkv true chunking d]) (operation_code write) i = Some (conf, lit "OK") /\
    forall j, j.(in_uuid) = i.(in_uuid) ->
      perform (HS := swiftkv_storage poco) conf (operation_code read) j = Some (conf, take (Z.to_nat i.(in_size)) i.(in_data)).
Proof.
  assert (forall (dd : D) x, exists b o, block_of (mk_conf bs [mk_swiftkv true chunking dd]) x = Some (b, o)) as Hb.
  { intros dd x. unfold block_of. cbn [fullsize_]. rewrite (proj2 (Z.eqb_neq _ _)) by lia. by do 2 eexists. }
  exists (mk_conf bs [mk_swiftkv true chunking (db_put (encode_base64 poco i.(in_uuid)) (take (Z.to_nat i.(in_size)) i.(in_data)) d)]).
  split.
  - unfold perform. rewrite operation_of_code_code. destruct (Hb d i.(in_position)) as (b & o & ->).
    cbn [mbind option_bind]. by rewrite mem_get_Some, drop_0 by lia.
  - intros j Hj. unfold perform. rewrite operation_of_code_code. destruct (Hb (db_put (encode_base64 poco (in_uuid i)) (take (Z.to_nat (in_size i)) (in_data i)) d) j.(in_position)) as (b & o & ->).
    cbn [mbind option_bind hostlist_ read_hosts read_key swiftkv_storage]. unfold swift_read_key. cbn [objects chunks].
    rewrite Hj, db_get_put, Hc. done.
Qed.

Lemma first_block i : 0 < i.(in_size) -> 0 <= i.(in_position) -> i.(in_position) + i.(in_size) < 2 ^ 32 ->
  forall ids, get_block_ids i = Some ids -> exists rest, ids = i.(in_position) / blocksize :: rest.
Proof.
  intros Hs Hp Hb ids. unfold get_block_ids. rewrite (proj2 (Z.eqb_neq _ _)) by lia. cbn [block_ids_loop].
  rewrite u32_small by lia. rewrite (proj2 (Z.ltb_lt _ _)) by lia.
  destruct (block_ids_loop _ _ _); [|done]. cbn. intros [= <-]. by eexists.
Qed.

(** A read of a file that was never written goes beyond the empty answer of Cassandra: a
    function that reads through its cache copies [size] bytes from it. *)
Theorem unwritten_read_undefined {D} `{KVLaws D} poco cfg bs (d : D) c i
    (Hpoco : poco_laws poco) (Hbs : 1 < bs < 2 ^ 32) (Hi : aligned bs read i) (Hs : 0 < i.(in_size))
    (Hb : i.(in_position) + i.(in_size) < 2 ^ 32)
    (Hd : db_get (casskey poco i.(in_uuid) (i.(in_position) / bs)) d = None) (Hc : c.(caching_map_) !! i.(in_uuid) = None) :
  Cache.storage_perform (perform (HS := cassandra_storage poco)) cfg c (one_cassandra bs d) (operation_code read) i = None.
Proof.
  destruct (aligned_block bs read i d Hbs Hi) as [Eb Hq]. destruct Hi as (Hk & Hp & Hm & _).
  unfold Cache.storage_perform. change (operation_code read =? operation_code write) with false. cbn iota.
  unfold read_from_cache. rewrite Hc. cbn [mbind option_bind]. unfold perform. rewrite operation_of_code_code, Eb. cbn [mbind option_bind].
  cbn [one_cassandra hostlist_ fullsize_ read_hosts read_key cassandra_storage mbind option_bind].
  unfold cass_read_key. cbn [connected executes negb table]. rewrite !u64_small, casskey_no_nul, Hd by (done || lia).
  cbn [mbind option_bind length]. rewrite Z.min_l by lia. change (Z.of_nat 0 =? 0) with true. cbn [mbind option_bind].
  unfold write_to_cache. destruct (get_block_ids i) as [ids|] eqn:Ei; [|done]. cbn [mbind option_bind].
  destruct (first_block i Hs ltac:(lia) Hb ids Ei) as [rest ->]. rewrite Hc. cbn [write_new].
  assert (block_slice i [] (in_position i / blocksize) = None) as ->; [|done].
  unfold block_slice, copy_size. rewrite Z.sub_diag, Z.mul_0_l, Z.sub_0_r. rewrite (u32_small i.(in_size)) by lia.
  unfold mem_get. rewrite decide_False; [done|]. unfold blocksize. cbn [length]. change (u32 0) with 0. lia.
Qed.

(** Requests about directories have no effect but [init], which is taken for a write. *)
Theorem metadata_lost {S} `{HS : Storage S} cfg p c (conf : storage_conf S) i o
    (Ht : request_parser.type p.(data) = Some (type_code metadata)) (Ho : request_parser.operation p.(data) = Some (meta_operation_code o))
    c' conf' v (E : storage_perform cfg p c conf i = Some (c', conf', v)) (Hne : o <> Request.init) :
  c' = c /\ conf' = conf /\ (o <> addfile -> v = []).
Proof.
  unfold storage_perform in E. rewrite Ht, Ho in E. cbn [mbind option_bind] in E. rewrite type_of_code_code in E.
  unfold perform in E. destruct o; try done; cbn [meta_operation_code] in E; cbn in E; simplify_eq; try done.
  destruct (block_of conf (in_position i)) as [[b off]|]; [|done]. cbn in E.
  destruct (read_hosts _ _ _ _ _ _); [|done]. cbn in E. by simplify_eq.
Qed.

(** ** A table and a bucket *)

(** Base64 with the standard alphabet. *)
Definition to_standard (c : byte) : byte := if decide (c = minus) then x2b else if decide (c = underscore) then slash else c.
Definition to_url (c : byte) : byte := if decide (c = x2b) then minus else if decide (c = slash) then underscore else c.
Definition sample_base64 (b : bytes) : bytes := to_standard <$> encode b.

Lemma to_standard_ok b : Forall (fun c => base64_character (to_standard c) = true /\ to_url (to_standard c) = c) (encode b).
Proof.
  apply encode_forall; [|by vm_compute]. intros i Hi.
  assert (Hall : Forall (fun n => base64_character (to_standard (symbol (Z.of_nat n))) = true /\
    to_url (to_standard (symbol (Z.of_nat n))) = symbol (Z.of_nat n)) (seq 0 64)).
  { apply (bool_decide_unpack _). by vm_compute. }
  rewrite Forall_forall in Hall. specialize (Hall (Z.to_nat i)). rewrite Z2Nat.id in Hall by lia. apply Hall, elem_of_seq. lia.
Qed.

Lemma sample_base64_laws : poco_laws sample_base64.
Proof.
  split.
  - intros k _. unfold sample_base64. apply Forall_fmap. eapply Forall_impl; [apply to_standard_ok|]. by intros c [Hc _].
  - intros k k' _ _ E. apply (f_equal (fmap to_url)) in E. unfold sample_base64 in E. rewrite <- !list_fmap_compose in E.
    assert (forall b, to_url ∘ to_standard <$> encode b = encode b) as Hid.
    { intros b. rewrite <- (list_fmap_id (encode b)) at 2. apply list_fmap_ext. intros j c Hj. cbn.
      by apply (proj1 (Forall_lookup _ _) (to_standard_ok b) j c Hj). }
    rewrite !Hid in E. apply (f_equal decode) in E. unfold encode in E. rewrite !decode_stream_encode in E. by simplify_eq.
Qed.

Definition sample_key : bytes := replicate key_length x07.
Definition sample_table : gmap bytes bytes := ∅.
Definition sample_input (position size : Z) (data : bytes) : input := mk_input sample_key position size [] [] data.

Lemma sample_aligned op position size data : 0 <= position < 2 ^ 32 -> position mod 4096 = 0 ->
  0 <= size <= Z.of_nat (length data) -> aligned 4096 op (sample_input position size data).
Proof. intros ? ? [? ?]. unfold aligned. cbn [sample_input in_uuid in_position in_size in_data]. split_and!; done || lia. Qed.

Lemma holds_nothing : holds sample_base64 sample_table ∅.
Proof. intros k b _ _. by rewrite lookup_empty. Qed.

Lemma cassandra_refines_map_witness : exists d',
  session (HS := cassandra_storage sample_base64)
    [(write, sample_input 8192 5 (lit "first")); (write, sample_input 0 4 (lit "head")); (read, sample_input 8192 3 (lit "---"))]
    (one_cassandra 4096 sample_table) = Some (one_cassandra 4096 d', [lit "OK"; lit "OK"; lit "fir"]).
Proof.
  destruct (cassandra_refines_map sample_base64 4096
    [(write, sample_input 8192 5 (lit "first")); (write, sample_input 0 4 (lit "head")); (read, sample_input 8192 3 (lit "---"))]
    sample_table ∅ sample_base64_laws) as (d' & E & _); [lia| |apply holds_nothing|].
  - repeat (constructor; [apply sample_aligned; [lia|done|cbn; lia]|]). constructor.
  - exists d'. exact E.
Defined.

Lemma cassandra_offset_lost_witness : exists conf,
  perform (HS := cassandra_storage sample_base64) (one_cassandra 4096 sample_table) (operation_code write) (sample_input 100 5 (lit "hello"))
  = Some (conf, lit "OK") /\
  perform (HS := cassandra_storage sample_base64) conf (operation_code read) (sample_input 100 5 (lit "hello")) = None /\
  perform (HS := cassandra_storage sample_base64) conf (operation_code read) (sample_input 0 5 []) = Some (conf, lit "hello").
Proof.
  apply (cassandra_offset_lost sample_base64 4096 sample_table (sample_input 100 5 (lit "hello")) (sample_input 0 5 []) sample_base64_laws);
    [lia|done|vm_compute; intuition discriminate|vm_compute; intuition discriminate|vm_compute; intuition discriminate|done|done|done].
Defined.

Lemma swift_last_write_wins_witness : exists conf,
  perform (HS := swiftkv_storage sample_base64) (mk_conf 4096 [mk_swiftkv true (fun v => [v]) sample_table]) (operation_code write)
    (sample_input 40960 3 (lit "end")) = Some (conf, lit "OK") /\
  perform (HS := swiftkv_storage sample_base64) conf (operation_code read) (sample_input 0 1000 []) = Some (conf, lit "end").
Proof.
  destruct (swift_last_write_wins sample_base64 4096 (fun v => [v]) sample_table (sample_input 40960 3 (lit "end"))) as (conf & E & Hr);
    [lia|cbn; lia|done|]. exists conf. split; [exact E|]. by apply (Hr (sample_input 0 1000 [])).
Defined.

Lemma unwritten_read_undefined_witness :
  Cache.storage_perform (perform (HS := cassandra_storage sample_base64)) (Cache.mk_config 1000000 false) empty_cache
    (one_cassandra 4096 sample_table) (operation_code read) (sample_input 0 5 (lit "-----")) = None.
Proof.
  apply (unwritten_read_undefined sample_base64 (Cache.mk_config 1000000 false) 4096 sample_table empty_cache (sample_input 0 5 (lit "-----")) sample_base64_laws);
    [lia|apply sample_aligned; [lia|done|cbn; lia]|cbn; lia|cbn; lia|done|done].
Defined.

Definition mkdir_request : packet :=
  mk_packet (mk_header 0 0 sample_key 0 [] []) (store_request (request_to_network
    (mk_request (type_code metadata) (meta_operation_code mkdir) 0 0 (replicate file_name_length x00) (replicate key_length x00)))).

Lemma metadata_lost_witness : forall c' conf' v,
  storage_perform (HS := cassandra_storage sample_base64) (Cache.mk_config 1000000 false) mkdir_request empty_cache
    (one_cassandra 4096 sample_table) (sample_input 0 0 []) = Some (c', conf', v) -> conf' = one_cassandra 4096 sample_table.
Proof.
  intros c' conf' v E.
  apply (metadata_lost (HS := cassandra_storage sample_base64) _ mkdir_request empty_cache (one_cassandra 4096 sample_table) (sample_input 0 0 []) mkdir
    eq_refl eq_refl c' conf' v E). discriminate.
Defined.
