(* ===== verification/Lists.v ===== *)
(** * Lists in a table ([storage-cassandra.hpp], [ssbd/metadatafunction.hpp])

    The part of [storage::interface] for lists: rows that hold a list of texts, to which
    entries are appended and whose entries are handed to a function; and what an earlier
    program for directories made of them. *)
From Stdlib Require Import ZArith Lia.
From stdpp Require Import base tactics option list gmap strings.
From S2P Require Import Prelude Base64 Storages.

Section lists.
(** Poco's [Base64Encoder]. *)
Variable poco_base64 : bytes -> bytes.

(** A column of lists; [connected] and [executes] as for the other queries. *)
Record list_table := mk_list_table { connected : bool; executes : bool; rows : gmap bytes (list bytes) }.

Definition row_key (name : bytes) : bytes := until_nul (encode_base64 poco_base64 name).

(** [UPDATE ... SET value = value + ?] makes a row if there is none. *)
Definition append_list_key (name buffer : bytes) (t : list_table) : list_table :=
  if t.(connected) && t.(executes)
  then mk_list_table t.(connected) t.(executes)
         (<[row_key name := default [] (t.(rows) !! row_key name) ++ [until_nul (encode buffer)]]> t.(rows))
  else t.

(** An item that is no base64 is an exception: [None]. *)
Definition decode_item (s : bytes) : option bytes := r ← decode s; match r with inl _ => None | inr b => Some b end.

(** The items that [reduce] is called with, or [None] inside if it is not called: no
    connection, no row.  The null result of a failed query is handed to the driver. *)
Definition merge_list_key (name : bytes) (t : list_table) : option (option (list bytes)) :=
  if negb t.(connected) then Some None
  else if negb t.(executes) then None
  else match t.(rows) !! row_key name with
       | None => Some None
       | Some items => bufs ← mapM decode_item items; Some (Some bufs)
       end.

Definition get_list_key (name : bytes) : bytes := [].

(** The function that lists a directory: [files] are the names written already. *)
Fixpoint list_names (files : gset bytes) (buf : list bytes) : bytes :=
  match buf with
  | [] => []
  | n :: buf => (if decide (n ∈ files) then [] else n ++ [x3b; x20]) ++ list_names ({[n]} ∪ files) buf
  end.

(** The cases [addnewfile] and [ls] of [perform_single_request], for one host. *)
Definition addnewfile (uuid data : bytes) (t : list_table) : list_table := append_list_key uuid data t.

Definition ls (uuid : bytes) (t : list_table) : option bytes :=
  r ← merge_list_key uuid t; Some (match r with Some buf => list_names ∅ buf | None => [] end).

(** ** What is listed *)

(** The first occurrences. *)
Fixpoint firsts (seen : list bytes) (l : list bytes) : list bytes :=
  match l with
  | [] => []
  | n :: l => if decide (n ∈ seen) then firsts seen l else n :: firsts (n :: seen) l
  end.

Lemma firsts_NoDup l : forall seen, NoDup (firsts seen l) /\ forall n, n ∈ firsts seen l <-> n ∈ l /\ n ∉ seen.
Proof.
  induction l as [|x l IH]; intros seen; cbn [firsts].
  - split; [constructor|]. intros n. rewrite elem_of_nil. tauto.
  - destruct (decide (x ∈ seen)) as [Hin|Hin].
    + destruct (IH seen) as [H1 H2]. split; [done|]. intros n. rewrite H2, elem_of_cons. naive_solver.
    + destruct (IH (x :: seen)) as [H1 H2]. split.
      * constructor; [|done]. rewrite H2. intros [_ Hn]. apply Hn, list_elem_of_here.
      * intros n. rewrite elem_of_cons, H2, !elem_of_cons. destruct (decide (n = x)) as [->|]; naive_solver.
Qed.

Lemma list_names_firsts l : forall (files : gset bytes) seen, (forall n, n ∈ files <-> n ∈ seen) ->
  list_names files l = concat ((fun n => n ++ [x3b; x20]) <$> firsts seen l).
Proof.
  induction l as [|x l IH]; intros files seen Hs; cbn [list_names firsts]; [done|].
  destruct (decide (x ∈ files)) as [Hx|Hx], (decide (x ∈ seen)) as [Hx'|Hx']; [|naive_solver..|].
  - apply IH. intros n. rewrite elem_of_union, elem_of_singleton. naive_solver.
  - cbn [fmap list_fmap concat]. f_equal. apply IH. intros n. by rewrite elem_of_union, elem_of_singleton, elem_of_cons, Hs.
Qed.

Lemma until_nul_encode b : until_nul (encode b) = encode b.
Proof. apply until_nul_no_nul, encode_no_nul. Qed.

Lemma mapM_decode_encode l : mapM decode_item (encode <$> l) = Some l.
Proof. apply mapM_fmap_Some. intros b. unfold decode_item. change (decode (encode b)) with (decode (stream_encode b)). by rewrite decode_stream_encode. Qed.

Definition appends (name : bytes) (l : list bytes) (t : list_table) : list_table := foldl (fun t b => append_list_key name b t) t l.

Lemma appends_rows name l : forall t, t.(connected) = true -> t.(executes) = true ->
  (appends name l t).(connected) = true /\ (appends name l t).(executes) = true /\
  (l <> [] -> (appends name l t).(rows) !! row_key name = Some (default [] (t.(rows) !! row_key name) ++ (encode <$> l))) /\
  forall k, k <> row_key name -> (appends name l t).(rows) !! k = t.(rows) !! k.
Proof.
  induction l as [|b l IH]; intros t Hc He; [done|]. cbn [appends foldl]. fold (appends name l (append_list_key name b t)).
  assert (append_list_key name b t = mk_list_table true true (<[row_key name := default [] (t.(rows) !! row_key name) ++ [encode b]]> t.(rows))) as E.
  { unfold append_list_key. by rewrite Hc, He, until_nul_encode. }
  rewrite E. set (t1 := mk_list_table _ _ _). destruct (IH t1) as (H1 & H2 & H3 & H4); [done..|]. split; [done|]. split; [done|]. split.
  - intros _. destruct l as [|b' l].
    + cbn. by rewrite lookup_insert_eq.
    + rewrite H3 by done. cbn [t1 rows]. rewrite lookup_insert_eq. change (default [] (Some ?x)) with x. cbn [fmap list_fmap]. by rewrite <- (assoc_L (++)).
  - intros k Hk. rewrite H4 by done. cbn [t1 rows]. by rewrite lookup_insert_ne by done.
Qed.

(** Files added to a directory that is new are listed: [merge_list_key] hands on what was
    appended, byte for byte and in order, and the listing has every name once, at its first
    place; lists under other names are what they were, and nothing is listed for them. *)
Theorem directory_listed uuid l t (Hc : t.(connected) = true) (He : t.(executes) = true)
    (Hl : l <> []) (Hnew : t.(rows) !! row_key uuid = None) :
  let t' := foldl (fun t n => addnewfile uuid n t) t l in
  merge_list_key uuid t' = Some (Some l) /\
  ls uuid t' = Some (concat ((fun n => n ++ [x3b; x20]) <$> firsts [] l)) /\
  NoDup (firsts [] l) /\ (forall n, n ∈ firsts [] l <-> n ∈ l) /\
  forall other, row_key other <> row_key uuid -> merge_list_key other t' = merge_list_key other t.
Proof.
  cbn zeta. change (foldl _ t l) with (appends uuid l t). destruct (appends_rows uuid l t Hc He) as (H1 & H2 & H3 & H4).
  assert (merge_list_key uuid (appends uuid l t) = Some (Some l)) as Em.
  { unfold merge_list_key. rewrite H1, H2, H3, Hnew by done. cbn [negb default from_option app]. by rewrite mapM_decode_encode. }
  destruct (firsts_NoDup l []) as [Hd Hf]. split; [done|]. split; [|split; [done|split]].
  - unfold ls. rewrite Em. cbn [mbind option_bind]. f_equal. apply list_names_firsts. intros n. by rewrite elem_of_empty, elem_of_nil.
  - intros n. rewrite Hf. pose proof (not_elem_of_nil n). tauto.
  - intros other Ho. unfold merge_list_key. by rewrite H1, H2, Hc, He, H4.
Qed.

End lists.

Lemma directory_listed_witness : ls (fun b => b) (lit "dir") (foldl (fun t n => addnewfile (fun b => b) (lit "dir") n t) (mk_list_table true true ∅) [lit "a"; lit "b"; lit "a"])
  = Some (lit "a; b; ").
Proof.
  destruct (directory_listed (fun b => b) (lit "dir") [lit "a"; lit "b"; lit "a"] (mk_list_table true true ∅) eq_refl eq_refl) as (_ & H & _); [discriminate|apply lookup_empty|].
  rewrite H. reflexivity.
Defined.
