(* ===== verification/Entry.v ===== *)
(** * The start of a data function ([functions/datafunction/entry.cpp])

    A function is started with a JSON object, which names the storage and how to run: as a
    server of a proxy, or directly, for one read or write.  The parsed object, Poco's
    base64 and the storages' services are given; the strings of the object are compared by
    a hash.  [do_datafunction] catches exceptions; a null pointer, a missing key of a
    constant object and an access outside a buffer are undefined. *)
From Stdlib Require Import ZArith Lia.
From stdpp Require Import base tactics option list gmap strings.
From S2P Require Import Prelude KvLog Wire Request Coordinator Cluster Directory DataFunction Base64 Storages Outcome.
Import pack recoder.

(** ** JSON *)

Inductive json := JNull | JBool (b : bool) | JNumber (z : Z) | JString (s : bytes) | JArray (l : list json)
| JObject (l : list (bytes * json)).

Fixpoint find_key (k : bytes) (l : list (bytes * json)) : option json :=
  match l with
  | [] => None
  | (k', v) :: l => if decide (k = k') then Some v else find_key k l
  end.

(** [operator[]] of a constant object: the key has to be there. *)
Definition at_ (k : String.string) (j : json) : outcome json :=
  match j with JObject l => defined (find_key (lit k) l) | _ => Throws end.

(** Of a variable one: a missing key is made, with the value null. *)
Definition at_mut (k : String.string) (j : json) : outcome json :=
  match j with
  | JObject l => Ok (default JNull (find_key (lit k) l))
  | JNull => Ok JNull
  | _ => Throws
  end.

(** [get<T>]. *)
Definition get_string (j : json) : outcome bytes := match j with JString s => Ok s | _ => Throws end.
Definition get_bool (j : json) : outcome bool := match j with JBool b => Ok b | _ => Throws end.
Definition get_number (j : json) : outcome Z :=
  match j with JNumber z => Ok z | JBool b => Ok (if b then 1 else 0) | _ => Throws end.
Definition get_uint32 (j : json) : outcome Z := z ← get_number j; Ok (u32 z).
Definition get_int (j : json) : outcome Z := z ← get_number j; Ok (s32 z).

(** What a loop over a value visits. *)
Definition elements (j : json) : list json :=
  match j with JNull => [] | JArray l => l | JObject l => l.*2 | _ => [j] end.

(** ** Strings in a [switch] ([switchstring.hpp]) *)

(** [sswitch::hash], from a position on. *)
Fixpoint hash_from (s : bytes) : Z :=
  match s with
  | [] => Z.rem 5381 2147483647
  | c :: s => Z.rem (Z.lxor (hash_from s * 33) (signed_char c)) 2147483647
  end.

(** Of a [std::string], as a C string. *)
Definition hash (s : bytes) : Z := hash_from (until_nul s).

(** The [case] whose label has the hash of the string. *)
Fixpoint switch {A} (cases : list (String.string * A)) (s : bytes) : option A :=
  match cases with
  | [] => None
  | (l, a) :: cases => if hash s =? hash (lit l) then Some a else switch cases s
  end.

Inductive storage_type := ssbd | cassandra_type | swift.
Definition storage_cases : list (String.string * storage_type) := [("ssbd", ssbd); ("cassandra", cassandra_type); ("swift", swift)]%string.
Definition type_cases : list (String.string * operation_t) := [("write", write); ("read", read)]%string.
Inductive launch := direct | server.
Definition launch_cases : list (String.string * launch) := [("direct", direct); ("server", server)]%string.

Section base64.
Variables poco_encode poco_decode : bytes -> bytes.

(** ** [base64-conv.hpp] *)

Definition conv_encode (b : bytes) : bytes := Storages.encode_base64 poco_encode b.
Definition conv_decode (s : bytes) : bytes := poco_decode ((fun c => if decide (c = underscore) then slash else c) <$> s).

(** [uuid::decode_base64] copies into the 32 bytes of a key. *)
Definition decode_base64 (uninitialised s : bytes) : outcome bytes :=
  let b := conv_decode s in
  if Nat.ltb key_length (length b) then Undefined else Ok (b ++ drop (length b) uninitialised).

End base64.

(** ** [create-request.hpp] *)

Definition create_read (salt sequence name : bytes) (position size : Z) : packet :=
  mk_packet (gen salt sequence (mk_header 0 0 name 0 (replicate 4 x00) (replicate 4 x00)))
    (store_request (request_to_network (mk_request (type_code file) (operation_code read) position (u32 size)
       (replicate file_name_length x00) (replicate key_length x00)))).

Definition create_write (salt sequence name : bytes) (position : Z) (buf : bytes) : packet :=
  mk_packet (gen salt sequence (mk_header 0 0 name 0 (replicate 4 x00) (replicate 4 x00)))
    (store_request (request_to_network (mk_request (type_code file) (operation_code write) position (u32 (Z.of_nat (length buf)))
       (replicate file_name_length x00) (replicate key_length x00))) ++ buf).

Section entry.
Context {D : Type} `{KVStore D}.
Variables poco_encode poco_decode : bytes -> bytes.
Variable pick : bytes -> Z -> Z -> Z.
Variable salts : Z -> bytes.
Variable shuffle : forall A : Type, list A -> list A.
Variables salt sequence uninitialised : bytes.

#[local] Instance cass : Storage (cassandra D) := cassandra_storage poco_encode.
#[local] Instance bucket : Storage (swiftkv D) := swiftkv_storage poco_encode.

(** ** What is outside of the function *)

(** The block servers and what the function has checked of their files, the table and the
    bucket; [bucket_exists] is [None] when the question fails. *)
Record world := mk_world {
  block_servers : cluster D; checked_ : recoder;
  rows : cassandra D;
  bucket_exists : option bool; objects_ : swiftkv D
}.

(** The configuration the function holds; the block servers stay in the world. *)
Inductive conf := Conf_ssbd (cfg : Coordinator.config) | Conf_cassandra (c : storage_conf (cassandra D))
| Conf_swift (c : storage_conf (swiftkv D)).

(** [storage_conf::init] reads the size of a block. *)
Definition configured_blocksize (config : json) : outcome (option Z) :=
  match config with
  | JObject l => match find_key (lit "blocksize") l with Some j => z ← get_uint32 j; Ok (Some z) | None => Ok None end
  | _ => Ok None
  end.

(** Each host is added once for the first copies and once for the replicas. *)
Definition init_hosts (config : json) : outcome Z :=
  hosts ← at_ "hosts" config;
  foldl (fun n element => n ← n; h ← at_ "host" element; _ ← get_string h; p ← at_ "port" element; _ ← get_string p; Ok (n + 1))
    (Ok 0) (elements hosts).

Definition init_ssbd (config : json) : outcome Coordinator.config :=
  r ← at_ "replication_size" config; replication_size ← get_int r;
  n ← init_hosts config;
  blocksize ← configured_blocksize config;
  Ok (mk_config (default 4096 blocksize) replication_size n).

Definition init_conf (t : storage_type) (config : json) (w : world) : outcome conf :=
  match t with
  | ssbd => cfg ← init_ssbd config; Ok (Conf_ssbd cfg)
  | cassandra_type =>
      h ← at_ "host" config; _ ← get_string h; n ← at_ "tablename" config; _ ← get_string n;
      b ← configured_blocksize config; Ok (Conf_cassandra (Storages.init b w.(rows)))
  | swift =>
      c ← at_ "container" config; _ ← get_string c;
      match w.(bucket_exists) with
      | Some true => b ← configured_blocksize config; Ok (Conf_swift (Storages.init b w.(objects_)))
      | _ => Throws
      end
  end.

(** ** [do_datafunction_direct] *)

(** What is written to the output: the first line, an empty object, or the answer. *)
Inductive output := Greeting | Empty_object | Data (base64 : bytes).

(** The storage performs the request, at once or later; the host of a configuration
    stands for the service. *)
Definition run (now version : Z) (c : conf) (p : packet) (w : world) : outcome (world * option bytes) :=
  i ← defined (parse_input p);
  operation ← defined (request_parser.operation p.(data));
  match c with
  | Conf_ssbd cfg =>
      '(st, reply) ← defined (start_perform pick cfg salts shuffle salt sequence now version (w.(block_servers), w.(checked_)) operation i);
      Ok (mk_world st.1 st.2 w.(rows) w.(bucket_exists) w.(objects_), reply)
  | Conf_cassandra c =>
      '(c, buf) ← defined (perform c operation i);
      Ok (mk_world w.(block_servers) w.(checked_) (List.hd w.(rows) c.(hostlist_)) w.(bucket_exists) w.(objects_), Some buf)
  | Conf_swift c =>
      '(c, buf) ← defined (perform c operation i);
      Ok (mk_world w.(block_servers) w.(checked_) w.(rows) w.(bucket_exists) (List.hd w.(objects_) c.(hostlist_)), Some buf)
  end.

Definition do_datafunction_direct (now version : Z) (j : json) (c : conf) (w : world) : outcome (world * list output) :=
  type ← (t ← at_ "type" j; get_string t);
  name ← (n ← at_ "name" j; get_string n);
  key ← decode_base64 poco_decode uninitialised name;
  pos ← (p ← at_ "pos" j; get_uint32 p);
  size ← (s ← at_ "size" j; get_uint32 s);
  '(ptr, out) ← match switch type_cases type with
    | Some write => d ← at_ "data" j; data ← get_string d;
        Ok (Some (create_write salt sequence key pos (conv_decode poco_decode data)), [])
    | Some read => Ok (Some (create_read salt sequence key pos size), [])
    | None => Ok (None, [Empty_object])
    end;
  match ptr with
  | None => Undefined
  | Some p =>
      '(w, reply) ← run now version c p w;
      Ok (w, out ++ match reply with Some buf => [Data (conv_encode poco_encode buf)] | None => [] end)
  end.

(** ** [do_datafunction_with_proxy] *)

(** What the proxy's commands are served with; the timer closes the connection. *)
Record serving := mk_serving {
  enable_cache : bool; cache_size : Z; cache_policy : bytes; proxyhost : bytes; proxyport : bytes;
  server_port : Z; function_timeout : Z
}.

Definition do_datafunction_with_proxy (j : json) : outcome serving :=
  enable_cache ← (c ← at_ "caching" j; get_bool c);
  cache_size ← (s ← at_ "cachesize" j; get_int s);
  cache_policy ← (p ← at_ "cache-policy" j; get_string p);
  proxyhost ← (h ← at_ "proxyhost" j; get_string h);
  proxyport ← (p ← at_ "proxyport" j; get_string p);
  Ok (mk_serving enable_cache (u32 cache_size) cache_policy proxyhost proxyport 2000 298).

(** ** [do_datafunction] *)

Record started := mk_started { returned : Z; world_ : world; printed : list output; serves : option serving }.

(** [input] is [None] when it is not JSON; [action_loop] is the macro. *)
Definition do_datafunction_body (action_loop : bool) (now version : Z) (input : option json) (w : world) : outcome started :=
  j ← match input with Some j => Ok j | None => Throws end;
  j ← (if action_loop then at_mut "value" j else Ok j);
  storagetype ← (t ← at_mut "storagetype" j; get_string t);
  config ← at_mut "storageconfig" j;
  match switch storage_cases storagetype with
  | None => Undefined
  | Some t =>
      c ← init_conf t config w;
      l ← (l ← at_mut "launch" j; get_string l);
      match switch launch_cases l with
      | Some direct => '(w, out) ← do_datafunction_direct now version j c w; Ok (mk_started 0 w (Greeting :: out) None)
      | Some server => s ← do_datafunction_with_proxy j; Ok (mk_started 0 w [Greeting] (Some s))
      | None => Ok (mk_started 0 w [Greeting] None)
      end
  end.

Definition do_datafunction (action_loop : bool) (now version : Z) (input : option json) (w : world) : outcome started :=
  match do_datafunction_body action_loop now version input w with
  | Throws => Ok (mk_started (-1) w [Greeting] None)
  | o => o
  end.

(** The loop of [main]: it ends with the first error. *)
Fixpoint main_loop (inputs : list (Z * Z * option json)) (w : world) : outcome (world * list output * bool) :=
  match inputs with
  | [] => Ok (w, [], true)
  | (now, version, input) :: inputs =>
      s ← do_datafunction true now version input w;
      if negb (s.(returned) =? 0) then Ok (s.(world_), s.(printed), false)
      else '(w, out, r) ← main_loop inputs s.(world_); Ok (w, s.(printed) ++ out, r)
  end.

End entry.

(** ** Names and packets *)

(** What the code relies on of Poco's codec: it decodes what it encoded, and uses no
    underscore. *)
Record codec_laws (poco_encode poco_decode : bytes -> bytes) : Prop := {
  codec_inverse : forall b, poco_decode (poco_encode b) = b;
  codec_no_underscore : forall b, underscore ∉ poco_encode b
}.

Section names.
Variables poco_encode poco_decode : bytes -> bytes.
Hypothesis Hcodec : codec_laws poco_encode poco_decode.

Lemma conv_roundtrip b : conv_decode poco_decode (conv_encode poco_encode b) = b.
Proof.
  destruct Hcodec as [Hi Hn]. unfold conv_decode, conv_encode, Storages.encode_base64. rewrite <- list_fmap_compose.
  rewrite <- (Hi b) at 2. f_equal. rewrite <- (list_fmap_id (poco_encode b)) at 2. apply list_fmap_ext.
  intros i c Hc. cbn. destruct (decide (c = slash)) as [->|]; [done|]. rewrite decide_False; [done|].
  intros ->. apply (Hn b). by eapply list_elem_of_lookup_2.
Qed.

Lemma decode_base64_key uninitialised k : length k = key_length ->
  decode_base64 poco_decode uninitialised (conv_encode poco_encode k) = Ok (k ++ drop key_length uninitialised).
Proof. intros Hk. unfold decode_base64. rewrite conv_roundtrip, Hk. by rewrite Nat.ltb_irrefl. Qed.

End names.

Lemma parse_input_ext p q : p.(data) = q.(data) -> p.(header).(key) = q.(header).(key) -> parse_input p = parse_input q.
Proof. intros Ed Ek. unfold parse_input, request_parser.uuid. by rewrite Ed, Ek. Qed.

(** The parser reads the packets as they were meant. *)
Lemma parse_create_read salt sequence name position size : 0 <= position < 2 ^ 32 ->
  parse_input (create_read salt sequence name position size)
  = Some (mk_input name position (u32 size) [] (replicate key_length x00) []) /\
  request_parser.operation (create_read salt sequence name position size).(data) = Some (operation_code read).
Proof.
  intros Hp. pose proof (wrap_range 4 size) as Hs. pose proof (wf_internal_request read position (u32 size) Hp Hs) as Hwf. split.
  - rewrite <- (parse_internal_packet salt sequence name read position (u32 size) []) by done.
    apply parse_input_ext; [|done]. cbn [internal_packet create_read data]. by rewrite app_nil_r.
  - cbn [create_read data]. rewrite <- (app_nil_r (store_request _)). by apply (parser_operation _ [] Hwf).
Qed.

Lemma parse_create_write salt sequence name position buf : 0 <= position < 2 ^ 32 -> Z.of_nat (length buf) < 2 ^ 32 ->
  parse_input (create_write salt sequence name position buf)
  = Some (mk_input name position (Z.of_nat (length buf)) [] (replicate key_length x00) buf) /\
  request_parser.operation (create_write salt sequence name position buf).(data) = Some (operation_code write).
Proof.
  intros Hp Hl. pose proof (wf_internal_request write position (Z.of_nat (length buf)) Hp ltac:(lia)) as Hwf.
  unfold create_write. rewrite u32_small by lia. split.
  - rewrite <- (parse_internal_packet salt sequence name write position (Z.of_nat (length buf)) buf) by (done || lia).
    by apply parse_input_ext.
  - cbn [data]. by apply (parser_operation _ buf Hwf).
Qed.

(** ** Direct requests *)

(** The object of a direct request over Cassandra. *)
Definition direct_object (type : String.string) (host tablename name data : bytes) (pos size : Z) : json :=
  JObject [(lit "storagetype", JString (lit "cassandra"));
           (lit "storageconfig", JObject [(lit "host", JString host); (lit "tablename", JString tablename)]);
           (lit "launch", JString (lit "direct"));
           (lit "type", JString (lit type)); (lit "name", JString name);
           (lit "pos", JNumber pos); (lit "size", JNumber size); (lit "data", JString data)]%string.

(** The operation that a direct request asks for. *)
Definition direct_input (key : bytes) (op : operation_t) (pos size : Z) (data : bytes) : input :=
  match op with
  | write => mk_input key pos (Z.of_nat (length data)) [] (replicate key_length x00) data
  | read => mk_input key pos size [] (replicate key_length x00) []
  end.

Definition type_name (op : operation_t) : String.string := match op with write => "write" | read => "read" end.

(** What the function finds in it. *)
Lemma direct_object_fields type host tablename name data pos size (j := direct_object type host tablename name data pos size) :
  at_mut "storagetype" j = Ok (JString (lit "cassandra")) /\
  at_mut "storageconfig" j = Ok (JObject [(lit "host", JString host); (lit "tablename", JString tablename)]) /\
  at_mut "launch" j = Ok (JString (lit "direct")) /\
  at_ "type" j = Ok (JString (lit type)) /\ at_ "name" j = Ok (JString name) /\
  at_ "pos" j = Ok (JNumber pos) /\ at_ "size" j = Ok (JNumber size) /\ at_ "data" j = Ok (JString data).
Proof. split_and!; reflexivity. Qed.

Lemma direct_object_switches : switch storage_cases (lit "cassandra") = Some cassandra_type /\
  switch launch_cases (lit "direct") = Some direct /\ (forall op, switch type_cases (lit (type_name op)) = Some op).
Proof. split_and!; [vm_compute; reflexivity..|]. by intros []; vm_compute. Qed.

Section direct_facts.
Context {D : Type} `{KVLaws D}.
Variables poco_encode poco_decode : bytes -> bytes.
Hypothesis Hcodec : codec_laws poco_encode poco_decode.
Hypothesis Hpoco : poco_laws poco_encode.
Variable pick : bytes -> Z -> Z -> Z.
Variable salts : Z -> bytes.
Variable shuffle : forall A : Type, list A -> list A.
Variables salt sequence uninitialised : bytes.
Hypothesis Hun : length uninitialised = key_length.
Notation run := (run poco_encode pick salts shuffle salt sequence).

Definition with_table (d : D) (w : world) : world :=
  mk_world w.(block_servers) w.(checked_) (mk_cassandra true true d) w.(bucket_exists) w.(objects_).

Lemma run_cassandra now version bs op i (d : D) m w p : 1 < bs < 2 ^ 32 -> aligned bs op i -> holds poco_encode d m ->
  parse_input p = Some i -> request_parser.operation p.(data) = Some (operation_code op) ->
  exists d', run now version (Conf_cassandra (one_cassandra bs d)) p (with_table d w)
             = Ok (with_table d' w, Some (spec_perform bs op i m).2) /\
    holds poco_encode d' (spec_perform bs op i m).1.
Proof.
  intros Hbs Hi Hd Ep Eo. destruct (perform_holds poco_encode Hpoco bs op i d m Hbs Hi Hd) as (d' & E & Hd').
  exists d'. split; [|done]. unfold Entry.run. rewrite Ep, Eo. cbn [defined mbind outcome_bind]. unfold cass. rewrite E. done.
Qed.

(** The start of a direct request over Cassandra is that of its configuration. *)
Lemma body_direct now version type host tablename name data pos size d w :
  let j := direct_object type host tablename name data pos size in
  do_datafunction_body poco_encode poco_decode pick salts shuffle salt sequence uninitialised false now version (Some j) (with_table d w)
  = '(w, out) ← do_datafunction_direct poco_encode poco_decode pick salts shuffle salt sequence uninitialised now version j
                  (Conf_cassandra (one_cassandra 4096 d)) (with_table d w);
    Ok (mk_started 0 w (Greeting :: out) None).
Proof.
  intros j. destruct (direct_object_fields type host tablename name data pos size) as (E1 & E2 & E3 & _).
  destruct direct_object_switches as (S1 & S2 & _). unfold do_datafunction_body. cbn [mbind outcome_bind].
  unfold j. rewrite E1, E2, E3. cbn [mbind outcome_bind get_string]. rewrite S1, S2. reflexivity.
Qed.

(** A direct request performs the packet that it makes. *)
Lemma direct_performs now version op host tablename key data pos size c w :
  length uninitialised = key_length -> length key = key_length -> 0 <= pos < 2 ^ 32 -> 0 <= size < 2 ^ 32 ->
  do_datafunction_direct poco_encode poco_decode pick salts shuffle salt sequence uninitialised now version
    (direct_object (type_name op) host tablename (conv_encode poco_encode key) (conv_encode poco_encode data) pos size) c w
  = '(w, reply) ← run now version c (match op with write => create_write salt sequence key pos data | read => create_read salt sequence key pos size end) w;
    Ok (w, match reply with Some buf => [Data (conv_encode poco_encode buf)] | None => [] end).
Proof.
  intros Hu Hk Hp Hs. unfold do_datafunction_direct.
  destruct (direct_object_fields (type_name op) host tablename (conv_encode poco_encode key) (conv_encode poco_encode data) pos size)
    as (_ & _ & _ & E1 & E2 & E3 & E4 & E5).
  destruct direct_object_switches as (_ & _ & S3). rewrite E1, E2, E3, E4, E5. cbn [mbind outcome_bind get_string get_uint32 get_number].
  rewrite S3, !u32_small by done. rewrite (decode_base64_key _ _ Hcodec), drop_ge, app_nil_r by lia. cbn [mbind outcome_bind].
  destruct op; cbn [mbind outcome_bind]; [rewrite (conv_roundtrip _ _ Hcodec)|]; by destruct (Entry.run _ _ _ _ _ _ _ _ _ _ _) as [[w' r]| |].
Qed.

End direct_facts.

(** ** Properties *)

(** C27. A function that is started for one request over Cassandra, with the base64 names of
    keys and data and a position that is a multiple of the 4096 bytes of a block, answers as
    a map from files and block numbers would (for other positions see
    [cassandra_offset_lost]): a direct write
    prints OK and a direct read prints the first bytes of what was written last, in
    base64, and the table afterwards is that of the map. *)
Theorem direct_refines_map {D} `{KVLaws D} poco_encode poco_decode pick salts shuffle salt sequence uninitialised
    now version op host tablename key data pos size (d : D) m w
    (Hcodec : codec_laws poco_encode poco_decode) (Hpoco : poco_laws poco_encode) (Hun : length uninitialised = key_length)
    (Hk : length key = key_length) (Hpos : 0 <= pos < 2 ^ 32) (Hblock : pos mod 4096 = 0) (Hsize : 0 <= size < 2 ^ 32)
    (Hdata : Z.of_nat (length data) < 2 ^ 32) (Hd : holds poco_encode d m) :
  let r := spec_perform 4096 op (direct_input key op pos size data) m in
  exists d', do_datafunction poco_encode poco_decode pick salts shuffle salt sequence uninitialised false now version
      (Some (direct_object (type_name op) host tablename (conv_encode poco_encode key) (conv_encode poco_encode data) pos size))
      (with_table d w)
    = Ok (mk_started 0 (with_table d' w) [Greeting; Data (conv_encode poco_encode r.2)] None) /\
    holds poco_encode d' r.1.
Proof.
  intros r. assert (aligned 4096 op (direct_input key op pos size data)) as Hi.
  { unfold aligned. destruct op; cbn [direct_input in_uuid in_position in_size in_data]; split_and!; try done; lia. }
  assert (exists d', run poco_encode pick salts shuffle salt sequence now version (Conf_cassandra (one_cassandra 4096 d))
      (match op with write => create_write salt sequence key pos data | read => create_read salt sequence key pos size end) (with_table d w)
      = Ok (with_table d' w, Some r.2) /\ holds poco_encode d' r.1) as (d' & E & Hd').
  { apply (run_cassandra _ Hpoco pick salts shuffle salt sequence now version 4096 op (direct_input key op pos size data)); [done..| |];
      destruct op; [apply parse_create_write|rewrite <- (u32_small size Hsize) at 2; apply parse_create_read|apply parse_create_write|apply parse_create_read]; done. }
  exists d'. split; [|done]. unfold do_datafunction. rewrite body_direct, (direct_performs _ _ Hcodec), E by done. reflexivity.
Qed.

(** C28. What a function does with a request it cannot serve.  Input that is not JSON is
    answered with -1 and an unknown way to launch with 0 and nothing else; an unknown kind
    of storage, a direct request of an unknown type, and a name of more than the 32 bytes
    of a key are undefined behaviour: a null pointer is used, or a key is written beyond
    its end. *)
Theorem bad_requests {D} `{KVStore D} poco_encode poco_decode pick salts shuffle salt sequence uninitialised now version w
    (f := do_datafunction poco_encode poco_decode pick salts shuffle salt sequence uninitialised false now version) :
  f None w = Ok (mk_started (-1) w [Greeting] None) /\
  forall l st, at_mut "storagetype" (JObject l) = Ok (JString st) ->
    (switch storage_cases st = None -> f (Some (JObject l)) w = Undefined) /\
    forall t config c how, switch storage_cases st = Some t -> at_mut "storageconfig" (JObject l) = Ok config ->
      init_conf t config w = Ok c -> at_mut "launch" (JObject l) = Ok (JString how) ->
      (switch launch_cases how = None -> f (Some (JObject l)) w = Ok (mk_started 0 w [Greeting] None)) /\
      (switch launch_cases how = Some direct -> forall type name, at_ "type" (JObject l) = Ok (JString type) ->
        at_ "name" (JObject l) = Ok (JString name) ->
        ((key_length < length (conv_decode poco_decode name))%nat -> f (Some (JObject l)) w = Undefined) /\
        (forall pos size, at_ "pos" (JObject l) = Ok (JNumber pos) -> at_ "size" (JObject l) = Ok (JNumber size) ->
          switch type_cases type = None -> f (Some (JObject l)) w = Undefined)).
Proof.
  split; [done|]. intros l st Est. unfold f, do_datafunction, do_datafunction_body. cbn [mbind outcome_bind].
  rewrite Est. cbn [mbind outcome_bind get_string]. split.
  { intros ->. by destruct (at_mut "storageconfig" _) eqn:Ec. }
  intros t config c how -> -> Hc El. cbn [mbind outcome_bind]. rewrite Hc. cbn [mbind outcome_bind]. rewrite El. cbn [mbind outcome_bind get_string].
  split; [by intros ->|]. intros -> type name Et En. unfold do_datafunction_direct. rewrite Et, En. cbn [mbind outcome_bind get_string].
  split.
  - intros Hlong. unfold decode_base64. by rewrite (proj2 (Nat.ltb_lt _ _) Hlong).
  - intros pos size Ep Es ->. rewrite Ep, Es. destruct (decode_base64 _ _ _) eqn:Ek; [done| |done].
    unfold decode_base64 in Ek. by destruct (Nat.ltb _ _).
Qed.

(** Labels are told apart, and other strings have the hashes of labels. *)
Example hash_collisions : hash (lit "re@e") = hash (lit "read") /\ hash (lit "wr+ve") = hash (lit "write") /\
  NoDup ((fun c => hash (lit c.1)) <$> storage_cases) /\ NoDup ((fun c => hash (lit c.1)) <$> type_cases).
Proof. split_and!; [reflexivity..| |]; apply (bool_decide_unpack _); by vm_compute. Qed.

(** ** A request over a table *)

Definition sample_decode (s : bytes) : bytes :=
  match decode (to_url <$> s) with Some (inr b) => b | _ => [] end.

Lemma sample_codec_laws : codec_laws sample_base64 sample_decode.
Proof.
  split.
  - intros b. unfold sample_decode, sample_base64. rewrite <- list_fmap_compose.
    assert (to_url ∘ to_standard <$> encode b = encode b) as ->.
    { rewrite <- (list_fmap_id (encode b)) at 2. apply list_fmap_ext. intros j c Hj. cbn.
      by apply (proj1 (Forall_lookup _ _) (to_standard_ok b) j c Hj). }
    unfold encode. by rewrite decode_stream_encode.
  - intros b Hin. unfold sample_base64 in Hin. apply list_elem_of_fmap in Hin as (c & E & Hc).
    pose proof (proj1 (Forall_forall _ _) (to_standard_ok b) c Hc) as [Hb _]. rewrite <- E in Hb. by vm_compute in Hb.
Qed.

Definition sample_world : world (D := gmap bytes bytes) := mk_world [] ∅ (mk_cassandra true true ∅) None (mk_swiftkv false (fun v => [v]) ∅).

Lemma direct_refines_map_witness : exists d',
  do_datafunction sample_base64 sample_decode (fun _ _ _ => 0) (fun _ => []) (fun _ l => l) [] [] (replicate key_length x00) false 0 0
    (Some (direct_object "write" (lit "h") (lit "t") (conv_encode sample_base64 sample_key) (conv_encode sample_base64 (lit "hello")) 8192 0))
    (with_table sample_table sample_world)
  = Ok (mk_started 0 (with_table d' sample_world) [Greeting; Data (conv_encode sample_base64 (lit "OK"))] None) /\
  holds sample_base64 d' (spec_perform 4096 write (direct_input sample_key write 8192 0 (lit "hello")) ∅).1.
Proof.
  apply (direct_refines_map sample_base64 sample_decode (fun _ _ _ => 0) (fun _ => []) (fun _ l => l) [] [] (replicate key_length x00) 0 0
    write (lit "h") (lit "t") sample_key (lit "hello") 8192 0 sample_table ∅ sample_world sample_codec_laws sample_base64_laws);
    [done|done|lia|done|lia|cbn; lia|apply holds_nothing].
Defined.

(** A storage that is not known. *)
Definition unknown_storage : list (bytes * json) := [(lit "storagetype", JString (lit "disk"))]%string.

Lemma bad_requests_witness :
  do_datafunction sample_base64 sample_decode (fun _ _ _ => 0) (fun _ => []) (fun _ l => l) [] [] (replicate key_length x00) false 0 0
    (Some (JObject unknown_storage)) sample_world = Undefined.
Proof.
  refine (proj1 (proj2 (bad_requests sample_base64 sample_decode (fun _ _ _ => 0) (fun _ => []) (fun _ l => l) [] [] (replicate key_length x00) 0 0
    sample_world) unknown_storage (lit "disk") eq_refl) _). by vm_compute.
Defined.
