(* ===== verification/Process.v ===== *)
(** * The process of a data function ([proxy-command.hpp], [entry.cpp])

    One process serves several proxies: an object for each, with a listener of its own for
    direct clients.  The commands of one connection are in DataFunction; here are the
    process that has them all, how it comes to a port, registers with a proxy, follows
    [proxyjoin], and ends. *)
From Stdlib Require Import ZArith Lia.
From stdpp Require Import base tactics option list gmap strings.
From S2P Require Import Prelude Wire KvLog Ssbd Request Launcher Client Entry Worker DataFunction Ring Server Direct Outcome.
Import pack.

(** ** Ports *)

(** How the constructor of the acceptor ends. *)
Inductive bind_result := Bound | In_use | Bind_fails.

#[global] Instance bind_result_eq_dec : EqDecision bind_result.
Proof. solve_decision. Defined.

(** The loop of [proxyjoin] over [server_port_ + i], a [std::uint16_t] when it is passed on:
    the next one if a port is in use, an exception for any other error.  The counter is an
    [int], which [all_ports] rounds do not fill. *)
Fixpoint try_ports (fuel : nat) (bind : Z -> bind_result) (server_port i : Z) : option (outcome Z) :=
  match fuel with
  | O => None
  | S fuel =>
      let port := u16 (server_port + i) in
      match bind port with
      | Bound => Some (Ok port)
      | In_use => try_ports fuel bind server_port (i + 1)
      | Bind_fails => Some Throws
      end
  end.

(** As many rounds as there are ports. *)
Definition all_ports : nat := Z.to_nat (2 ^ 16).

Definition find_port (bind : Z -> bind_result) (server_port : Z) : option (outcome Z) := try_ports all_ports bind server_port 1.

(** ** The host's own address *)

Inductive address := V4 (a b c d : byte) | V6.

(** [get_host]: the first answer for the name of the host; the iterator is followed before
    the error is looked at, and the end cannot be. *)
Definition get_host (answers : option (list address)) : outcome bytes :=
  match answers with
  | Some (V4 a b c d :: _) => Ok [a; b; c; d]
  | Some (V6 :: _) => Throws
  | Some [] | None => Undefined
  end.

(** ** The process *)

(** An object [proxy_command]: the proxy it is for, the port it listens on, its connection;
    whether [async_connect] is under way, a [proxyjoin] that found no entry for its proxy
    and has not made one, and whether [close] was called. *)
Record object := mk_object {
  peer : bytes; server_port_ : Z; connection : proxy_command.state; connecting : bool;
  joining : option packet; closing : bool
}.

Inductive fate := Running | Stopped | Terminated.

(** [proxys] is shared by the objects.  The process is stopped with the [io_context]; an
    exception in a handler leaves a thread and terminates it. *)
Record process := mk_process { objects : list object; proxys : list bytes; fate_ : fate }.

Definition set_object (i : nat) (o : object) (p : process) : process := mk_process (<[i := o]> p.(objects)) p.(proxys) p.(fate_).
Definition ends (f : fate) (p : process) : process := mk_process p.(objects) p.(proxys) f.

Definition with_connection (s : proxy_command.state) (o : object) : object := mk_object o.(peer) o.(server_port_) s o.(connecting) o.(joining) o.(closing).
Definition with_joining (c : option packet) (o : object) : object := mk_object o.(peer) o.(server_port_) o.(connection) o.(connecting) c o.(closing).
Definition connected (o : object) : object := mk_object o.(peer) o.(server_port_) o.(connection) false o.(joining) o.(closing).

Definition with_proxys (ps : list bytes) (s : proxy_command.state) : proxy_command.state :=
  proxy_command.mk_state s.(proxy_command.waittime_) s.(proxy_command.last_update_) s.(proxy_command.deadline) ps s.(proxy_command.posted)
    s.(proxy_command.eviction_policy_) s.(proxy_command.caches) s.(proxy_command.written).

(** The constructor, and [start_connect] up to its handler. *)
Definition new_object (now : Z) (policy ep : bytes) (port : Z) : object :=
  mk_object ep port (proxy_command.mk_state 10000 now None [] [] policy [] []) true None false.

(** A port that an object of the process listens on is in use.  [server_port_] is the port
    that was asked for; for port zero the system chooses one that is free, which the model
    does not name. *)
Definition bind_in (p : process) (bind : Z -> bind_result) (port : Z) : bind_result :=
  if decide (port <> 0 /\ port ∈ server_port_ <$> p.(objects)) then In_use else bind port.

(** [do_datafunction_with_proxy]: the first object, for the proxy [ep] that the name in the
    input resolves to. *)
Definition start (now : Z) (bind : Z -> bind_result) (ep : bytes) (v : serving) : outcome process :=
  match bind v.(server_port) with
  | Bound => Ok (mk_process [new_object now v.(cache_policy) ep v.(server_port)] [ep] Running)
  | _ => Throws
  end.

(** The body of a command was read: what is done with it, the acknowledgement, the timer. *)
Definition finish (i : nat) (now : Z) (c : packet) (p : process) : option process :=
  o ← p.(objects) !! i;
  s ← proxy_command.start_listen_commands_body now c (with_proxys p.(proxys) o.(connection));
  Some (set_object i (with_connection s o) p).

Definition is_proxyjoin (c : packet) : bool := bool_decide (of_code c.(header).(type) = Some proxyjoin).

(** A command is there.  For a proxy that is not known there is more to do before it is
    finished, and other threads run meanwhile. *)
Definition on_command (i : nat) (now : Z) (c : packet) (p : process) : option process :=
  o ← p.(objects) !! i;
  match o.(joining) with
  | Some _ => None
  | None =>
      let o := with_connection (proxy_command.start_listen_commands c.(header) o.(connection)) o in
      if is_proxyjoin c then
        ep ← mem_get 0 6 c.(data);
        if decide (ep ∈ p.(proxys)) then finish i now c (set_object i o p)
        else Some (set_object i (with_joining (Some c) o) p)
      else finish i now c (set_object i o p)
  end.

(** The rest of [proxyjoin]: a port, a new object that connects, its entry. *)
Definition on_join (i : nat) (now : Z) (bind : Z -> bind_result) (p : process) : option process :=
  o ← p.(objects) !! i;
  c ← o.(joining);
  ep ← mem_get 0 6 c.(data);
  r ← find_port (bind_in p bind) o.(server_port_);
  match r with
  | Ok port =>
      let new := new_object now o.(connection).(proxy_command.eviction_policy_) ep port in
      let ps := if decide (ep ∈ p.(proxys)) then p.(proxys) else p.(proxys) ++ [ep] in
      finish i now c (mk_process (<[i := with_joining None o]> p.(objects) ++ [new]) ps p.(fate_))
  | Throws => Some (ends Terminated p)
  | Undefined => None
  end.

(** The six bytes of [worker_reg]. *)
Definition announced (host : bytes) (port : Z) : bytes := host ++ le_bytes 2 (hton 2 port).

(** The handler of [async_connect]; after an error nothing is tried again. *)
Definition on_connected (i : nat) (ec : bool) (salt sequence : bytes) (answers : option (list address)) (p : process) : option process :=
  o ← p.(objects) !! i;
  if negb o.(connecting) then None
  else if ec then Some (set_object i (connected o) p)
  else
    match get_host answers with
    | Ok host =>
        Some (set_object i (with_connection (proxy_command.start_connect salt sequence (announced host o.(server_port_)) o.(connection)) (connected o)) p)
    | Throws => Some (ends Terminated p)
    | Undefined => None
    end.

Definition close_object (i : nat) (tables : bytes) (p : process) : option process :=
  o ← p.(objects) !! i;
  let s := proxy_command.close tables (proxy_command.with_deadline None o.(connection)) in
  Some (set_object i (mk_object o.(peer) o.(server_port_) s o.(connecting) o.(joining) true) p).

Inductive event :=
| Command (i : nat) (now : Z) (c : packet)
| Join (i : nat) (now : Z) (bind : Z -> bind_result)
| Connect (i : nat) (ec : bool) (salt sequence : bytes) (answers : option (list address))
| Expire (i : nat) (now : Z) (tables : bytes)      (* the timer of a connection *)
| Time_to_die (tables : bytes)                      (* 298 seconds after the start *)
| Closed (i : nat).                                 (* the last packet of [close] is out *)

Definition process_exec (e : event) (p : process) : option process :=
  match p.(fate_) with
  | Running =>
      match e with
      | Command i now c => on_command i now c p
      | Join i now bind => on_join i now bind p
      | Connect i ec salt sequence answers => on_connected i ec salt sequence answers p
      | Expire i now tables => o ← p.(objects) !! i; if proxy_command.expired now o.(connection) then close_object i tables p else None
      | Time_to_die tables => close_object 0 tables p
      | Closed i => o ← p.(objects) !! i; if o.(closing) then Some (ends Stopped p) else None
      end
  | Stopped | Terminated => None
  end.

Fixpoint process_execs (es : list event) (p : process) : option process :=
  match es with
  | [] => Some p
  | e :: es => p ← process_exec e p; process_execs es p
  end.

(** ** The loop over the ports *)

Lemma try_ports_all bind server_port : (forall q, 0 <= q < 2 ^ 16 -> bind q = In_use) ->
  forall fuel i, try_ports fuel bind server_port i = None.
Proof. intros Hb fuel. induction fuel as [|fuel IH]; intros i; cbn [try_ports]; [done|]. by rewrite (Hb _ (wrap_range 2 _)). Qed.

Lemma try_ports_some bind server_port : forall fuel i, try_ports fuel bind server_port i <> None ->
  exists k, 0 <= k < Z.of_nat fuel /\ (forall j, 0 <= j < k -> bind (u16 (server_port + i + j)) = In_use) /\
    let q := u16 (server_port + i + k) in
    bind q <> In_use /\ try_ports fuel bind server_port i = Some (if decide (bind q = Bound) then Ok q else Throws).
Proof.
  intros fuel. induction fuel as [|fuel IH]; intros i; cbn [try_ports]; [done|].
  destruct (bind (u16 (server_port + i))) eqn:E; [| |]; intros Hn.
  1,3: exists 0; rewrite Z.add_0_r; split; [lia|]; split; [lia|]; cbn zeta; by rewrite E.
  destruct (IH _ Hn) as (k & Hk & Hj & Hq). exists (k + 1). split; [lia|]. split.
  - intros j Hj'. destruct (decide (j = 0)) as [->|]; [by rewrite Z.add_0_r|].
    specialize (Hj (j - 1) ltac:(lia)). by replace (server_port + (i + 1) + (j - 1)) with (server_port + i + j) in Hj by lia.
  - by replace (server_port + (i + 1) + k) with (server_port + i + (k + 1)) in Hq by lia.
Qed.

Lemma try_ports_none bind server_port : forall fuel i, try_ports fuel bind server_port i = None ->
  forall j, 0 <= j < Z.of_nat fuel -> bind (u16 (server_port + i + j)) = In_use.
Proof.
  intros fuel. induction fuel as [|fuel IH]; intros i; cbn [try_ports]; [lia|].
  destruct (bind (u16 (server_port + i))) eqn:E; [done| |done]. intros Hn j Hj.
  destruct (decide (j = 0)) as [->|]; [by rewrite Z.add_0_r|].
  replace (server_port + i + j) with (server_port + (i + 1) + (j - 1)) by lia. apply IH; [done|lia].
Qed.

(** C38. The loop in which a data function looks for the port of a new listener ends exactly if
    one of the 65536 ports is not in use, and then within as many rounds: at the first such
    port after its own, zero following the last, it listens or throws. *)
Theorem join_finds_port bind server_port :
  ((forall fuel, try_ports fuel bind server_port 1 = None) <-> forall q, 0 <= q < 2 ^ 16 -> bind q = In_use) /\
  (forall q, 0 <= q < 2 ^ 16 -> bind q <> In_use -> exists k, 1 <= k <= 2 ^ 16 /\
     (forall j, 1 <= j < k -> bind (u16 (server_port + j)) = In_use) /\ bind (u16 (server_port + k)) <> In_use /\
     find_port bind server_port =
       Some (if decide (bind (u16 (server_port + k)) = Bound) then Ok (u16 (server_port + k)) else Throws)).
Proof.
  assert (forall q, 0 <= q < 2 ^ 16 -> try_ports all_ports bind server_port 1 = None -> bind q = In_use) as Hnone.
  { intros q Hq Hn. pose proof (try_ports_none _ _ _ _ Hn ((q - server_port - 1) mod 2 ^ 16)) as Hj.
    assert (u16 (server_port + 1 + (q - server_port - 1) mod 2 ^ 16) = q) as E.
    { change (wrap 2) with (fun z => z mod 2 ^ 16). cbn beta. rewrite Z.add_mod_idemp_r by done.
      replace (server_port + 1 + (q - server_port - 1)) with q by lia. by apply Z.mod_small. }
    rewrite E in Hj. apply Hj. unfold all_ports. rewrite Z2Nat.id by done. by apply Z.mod_pos_bound. }
  split; [split|].
  - intros Hn q Hq. by apply Hnone.
  - intros Hb fuel. by apply try_ports_all.
  - intros q Hq Hb. destruct (try_ports_some bind server_port all_ports 1) as (k & Hk & Hj & Hq' & E).
    { intros Hn. by apply Hb, Hnone. }
    unfold all_ports in Hk. rewrite Z2Nat.id in Hk by done. exists (k + 1). split; [lia|]. split.
    + intros j Hj'. specialize (Hj (j - 1) ltac:(lia)). by replace (server_port + 1 + (j - 1)) with (server_port + j) in Hj by lia.
    + replace (server_port + 1 + k) with (server_port + (k + 1)) in Hq', E by lia. done.
Qed.

Lemma find_port_bound bind server_port port : find_port bind server_port = Some (Ok port) -> 0 <= port < 2 ^ 16 /\ bind port = Bound.
Proof.
  unfold find_port. intros E. destruct (try_ports_some bind server_port all_ports 1) as (k & _ & _ & _ & Eq); [by rewrite E|].
  rewrite E in Eq. destruct (decide (bind _ = Bound)) as [Hb|]; [|done]. injection Eq as ->. split; [apply (wrap_range 2)|done].
Qed.

#[local] Opaque all_ports.

(** ** What one event does to an object *)

Definition sent (o : object) : list packet := o.(connection).(proxy_command.written).

(** The events that call [close] on an object. *)
Definition closes (e : event) (j : nat) : Prop :=
  match e with Expire i _ _ => i = j | Time_to_die _ => j = 0%nat | _ => False end.

(** The packets an object may write. *)
Definition may_write (e : event) (j : nat) (o : object) (q : packet) : Prop :=
  q.(header).(type) = code ack \/
  (q.(header).(type) = code worker_reg /\ o.(connecting) = true /\ exists host, length host = 4%nat /\ q.(data) = announced host o.(server_port_)) \/
  (q.(header).(type) = code worker_dereg /\ closes e j).

(** What becomes of an object; [ps] are the known proxies. *)
Record stepped (e : event) (ps : list bytes) (j : nat) (o o' : object) : Prop := {
  st_peer : o'.(peer) = o.(peer);
  st_port : o'.(server_port_) = o.(server_port_);
  st_connecting : o'.(connecting) = true -> o.(connecting) = true;
  st_joining : forall c, o'.(joining) = Some c -> o.(joining) = Some c \/ exists ep, mem_get 0 6 c.(data) = Some ep /\ ep ∉ ps;
  st_sent : exists ws, sent o' = sent o ++ ws /\ Forall (may_write e j o) ws
}.

(** One that an event has made. *)
Definition made (e : event) (p : process) (o : object) : Prop :=
  exists i now bind port ep o1 c policy, e = Join i now bind /\ o = new_object now policy ep port /\
    p.(objects) !! i = Some o1 /\ o1.(joining) = Some c /\ mem_get 0 6 c.(data) = Some ep /\
    0 <= port < 2 ^ 16 /\ (port <> 0 -> port ∉ server_port_ <$> p.(objects)).

Lemma stepped_refl e ps j o : stepped e ps j o o.
Proof. split; [done..|auto|]. exists []. by rewrite app_nil_r. Qed.

Lemma finish_spec i now c p p' : finish i now c p = Some p' -> exists o s,
  p.(objects) !! i = Some o /\ p' = set_object i (with_connection s o) p /\
  s.(proxy_command.written) = sent o ++ [proxy_command.ack_of c].
Proof.
  unfold finish. destruct (p.(objects) !! i) as [o|] eqn:Eo; [|done]. cbn [mbind option_bind].
  destruct (proxy_command.start_listen_commands_body _ _ _) as [s|] eqn:Es; [|done]. cbn [mbind option_bind]. intros [= <-].
  exists o, s. split_and!; [done..|]. by apply command_facts.body_spec in Es as (-> & _).
Qed.

Lemma listen_keeps h s : (proxy_command.start_listen_commands h s).(proxy_command.written) = s.(proxy_command.written).
Proof. unfold proxy_command.start_listen_commands. by destruct (bool_decide _). Qed.

(** Replacing one object. *)
Lemma set_object_stepped e ps i o o' p : p.(objects) !! i = Some o -> stepped e ps i o o' ->
  forall j x', (set_object i o' p).(objects) !! j = Some x' -> exists x, p.(objects) !! j = Some x /\ stepped e ps j x x'.
Proof.
  intros Ho Hst j x'. cbn [set_object objects]. destruct (decide (i = j)) as [<-|Hne].
  - rewrite list_lookup_insert_eq by (by eapply lookup_lt_Some). intros [= <-]. by exists o.
  - rewrite list_lookup_insert_ne by done. intros E. exists x'. split; [done|apply stepped_refl].
Qed.

Lemma finish_stepped e ps i now c p p' o0 o : finish i now c p = Some p' ->
  p.(objects) !! i = Some o -> sent o = sent o0 -> stepped e ps i o0 o ->
  exists o', p' = set_object i o' p /\ stepped e ps i o0 o'.
Proof.
  intros (o1 & s & Eo & -> & Ew)%finish_spec Ho Hs [H1 H2 H3 H4 _]. rewrite Ho in Eo. injection Eo as <-.
  exists (with_connection s o). split; [done|]. split; try done. exists [proxy_command.ack_of c].
  change (sent (with_connection s o)) with s.(proxy_command.written). rewrite Ew, Hs. split; [done|]. constructor; [|done]. by left.
Qed.

Record grown (e : event) (p p' : process) : Prop := {
  gr_length : (length p.(objects) <= length p'.(objects))%nat;
  gr_proxys : p.(proxys) ⊆ p'.(proxys);
  gr_objects : forall j o', p'.(objects) !! j = Some o' ->
    (exists o, p.(objects) !! j = Some o /\ stepped e p.(proxys) j o o') \/ (j = length p.(objects) /\ made e p o' /\ o'.(peer) ∈ p'.(proxys))
}.

Lemma grown_set e p i o o' : p.(objects) !! i = Some o -> stepped e p.(proxys) i o o' -> grown e p (set_object i o' p).
Proof.
  intros Ho Hst. split; [by cbn; rewrite length_insert|done|]. intros j x' E. left. by eapply set_object_stepped.
Qed.

Lemma grown_ends e p f : grown e p (ends f p).
Proof. split; [done..|]. intros j o E. left. exists o. split; [done|apply stepped_refl]. Qed.

Lemma set_set i o o' p : set_object i o' (set_object i o p) = set_object i o' p.
Proof. unfold set_object. cbn. by rewrite list_insert_insert_eq. Qed.

Lemma set_object_lookup i o o1 p : p.(objects) !! i = Some o1 -> (set_object i o p).(objects) !! i = Some o.
Proof. intros E. cbn. rewrite list_lookup_insert_eq; [done|by eapply lookup_lt_Some]. Qed.

Lemma on_command_grown i now c p p' : on_command i now c p = Some p' -> grown (Command i now c) p p'.
Proof.
  unfold on_command. destruct (p.(objects) !! i) as [o|] eqn:Eo; [|done]. cbn [mbind option_bind]. destruct o.(joining) eqn:Ej; [done|].
  set (o1 := with_connection _ o). set (e := Command i now c).
  assert (sent o1 = sent o) as Hs by apply listen_keeps.
  assert (stepped e p.(proxys) i o o1) as Hst. { split; [done..|auto|]. exists []. by rewrite app_nil_r. }
  assert (finish i now c (set_object i o1 p) = Some p' -> grown e p p') as Hfin.
  { intros E. eapply finish_stepped in E as (o' & -> & Ho'); [|by eapply set_object_lookup|exact Hs|exact Hst].
    rewrite set_set. by eapply grown_set. }
  destruct (is_proxyjoin c); [|done]. destruct (mem_get 0 6 c.(data)) as [ep|] eqn:Eep; [|done]. cbn [mbind option_bind].
  destruct (decide (ep ∈ p.(proxys))); [done|]. intros [= <-]. eapply grown_set; [done|]. destruct Hst as [H1 H2 H3 H4 H5].
  split; try done. intros c' [= <-]. right. by exists ep.
Qed.

Lemma on_join_grown i now bind p p' : on_join i now bind p = Some p' -> grown (Join i now bind) p p'.
Proof.
  intros (o & Eo & (c & Ej & (ep & Eep & (r & Er & E)%bind_Some)%bind_Some)%bind_Some)%bind_Some. revert E.
  destruct r as [port| |]; [|intros [= <-]; apply grown_ends|done].
  cbv beta iota zeta. set (new := new_object _ _ _ _). set (ps := if decide _ then _ else _). set (p1 := mk_process _ ps _). set (e := Join i now bind).
  assert (Hlt : (i < length p.(objects))%nat) by (by eapply lookup_lt_Some).
  intros E. eapply finish_stepped with (o0 := o) (e := e) (ps := p.(proxys)) in E as (o' & -> & Ho').
  - assert (p.(proxys) ⊆ ps /\ ep ∈ ps) as [Hps Hep].
    { unfold ps. destruct (decide _); [done|]. split; [set_solver|]. rewrite elem_of_app, list_elem_of_singleton. by right. }
    split; [cbn; rewrite length_insert, length_app, length_insert; lia|done|].
    intros j x. cbn [set_object p1 objects]. destruct (decide (j = i)) as [->|Hne].
    + rewrite list_lookup_insert_eq by (rewrite length_app, length_insert; lia). intros [= <-]. left. by exists o.
    + rewrite list_lookup_insert_ne by done. rewrite lookup_app, length_insert, list_lookup_insert_ne by done.
      destruct (p.(objects) !! j) as [x1|] eqn:Ex; [intros [= <-]; left; exists x1; split; [done|apply stepped_refl]|].
      intros E. assert (j = length p.(objects) /\ x = new) as [-> ->].
      { apply lookup_ge_None in Ex. destruct (j - _)%nat eqn:Ed; [|done]. injection E as <-. split; [lia|done]. }
      right. split; [done|]. split; [|done].
      apply find_port_bound in Er as [Hr Hb]. exists i, now, bind, port, ep, o, c. eexists. do 5 (split; [done|]). split; [done|].
      intros Hz Hin. unfold bind_in in Hb. by rewrite decide_True in Hb.
  - cbn [p1 objects]. rewrite lookup_app, list_lookup_insert_eq by exact Hlt. reflexivity.
  - done.
  - split; try done. exists []. by rewrite app_nil_r.
Qed.

Lemma exec_grown e p p' : process_exec e p = Some p' -> grown e p p'.
Proof.
  unfold process_exec. destruct p.(fate_); [|done..].
  assert (forall i tables, closes e i -> close_object i tables p = Some p' -> grown e p p') as Hclose.
  { intros i tables He. unfold close_object. destruct (p.(objects) !! i) as [o|] eqn:Eo; [|done]. cbn [mbind option_bind]. intros [= <-].
    eapply grown_set; [done|]. split; try done; [auto|]. eexists. split; [reflexivity|]. constructor; [|done]. by right; right. }
  destruct e as [i now c|i now bind|i ec salt sequence answers|i now tables|tables|i].
  - apply on_command_grown.
  - apply on_join_grown.
  - unfold on_connected. destruct (p.(objects) !! i) as [o|] eqn:Eo; [|done]. cbn [mbind option_bind]. destruct o.(connecting) eqn:Ec; [|done]. cbn [negb].
    destruct ec; [|destruct answers as [[|[a b c d|] ans]|]; try done]; cbn [get_host]; intros [= <-]; [..|apply grown_ends].
    + eapply grown_set; [done|]. split; try done; [auto|]. exists []. by rewrite app_nil_r.
    + eapply grown_set; [done|]. split; try done; [auto|]. eexists. split; [reflexivity|]. constructor; [|done]. right; left. split_and!; [done..|]. by exists [a; b; c; d].
  - destruct (p.(objects) !! i) as [o|] eqn:Eo; [|done]. cbn [mbind option_bind]. destruct (proxy_command.expired _ _); [|done]. by apply Hclose.
  - by apply Hclose.
  - destruct (p.(objects) !! i) as [o|] eqn:Eo; [|done]. cbn [mbind option_bind]. destruct o.(closing); [|done]. intros [= <-]. apply grown_ends.
Qed.

(** ** Runs *)

Record listening_ok (p : process) : Prop := {
  lo_ports : forall i j o o', p.(objects) !! i = Some o -> p.(objects) !! j = Some o' ->
    o.(server_port_) = o'.(server_port_) -> o.(server_port_) <> 0 -> i = j;
  lo_range : forall i o, p.(objects) !! i = Some o -> 0 <= o.(server_port_) < 2 ^ 16;
  lo_peers : forall i o, p.(objects) !! i = Some o -> o.(peer) ∈ p.(proxys);
  lo_regs : forall i o q, p.(objects) !! i = Some o -> q ∈ sent o -> q.(header).(type) = code worker_reg ->
    exists host, length host = 4%nat /\ q.(data) = announced host o.(server_port_)
}.

Lemma exec_ok e p p' : listening_ok p -> process_exec e p = Some p' -> listening_ok p'.
Proof.
  intros [H1 H2 H3 H4] [_ Hps Hobj]%exec_grown.
  assert (forall i o', p'.(objects) !! i = Some o' -> forall j o, p.(objects) !! j = Some o -> made e p o' -> o'.(server_port_) <> 0 -> o'.(server_port_) <> o.(server_port_)) as Hnew.
  { intros i o' _ j o Ho (? & ? & ? & ? & ? & ? & ? & ? & _ & -> & _ & _ & _ & _ & Hfresh) Hz Heq. apply Hfresh; [done|].
    cbn [new_object server_port_] in Heq. rewrite Heq. apply list_elem_of_fmap. exists o. split; [done|by eapply list_elem_of_lookup_2]. }
  split.
  - intros i j o o' Hi Hj Heq Hz. destruct (Hobj i o Hi) as [(x & Hx & [Px Qx _ _ _])|(Ei & Mi & _)], (Hobj j o' Hj) as [(y & Hy & [Py Qy _ _ _])|(Ej & Mj & _)].
    + rewrite Qx, Qy in Heq. rewrite Qx in Hz. by eapply H1.
    + exfalso. eapply (Hnew j o' Hj i x Hx Mj); congruence.
    + exfalso. eapply (Hnew i o Hi j y Hy Mi); congruence.
    + congruence.
  - intros i o Hi. destruct (Hobj i o Hi) as [(x & Hx & [_ -> _ _ _])|(_ & (? & ? & ? & ? & ? & ? & ? & ? & _ & -> & _ & _ & _ & ? & _) & _)]; [by eapply H2|done].
  - intros i o Hi. destruct (Hobj i o Hi) as [(x & Hx & [-> _ _ _ _])|(_ & _ & ?)]; [|done]. by eapply Hps, H3.
  - intros i o q Hi Hq Ht. destruct (Hobj i o Hi) as [(x & Hx & [_ -> _ _ (ws & E & Hws)])|(_ & (? & ? & ? & ? & ? & ? & ? & ? & _ & -> & _) & _)].
    + rewrite E in Hq. apply elem_of_app in Hq as [Hq|Hq]; [by eapply H4|].
      rewrite Forall_forall in Hws. destruct (Hws _ Hq) as [Ha|[(_ & _ & Hr)|(Hd & _)]]; [rewrite Ha in Ht; discriminate Ht|done|rewrite Hd in Ht; discriminate Ht].
    + by apply elem_of_nil in Hq.
Qed.

Lemma process_execs_ind (P : process -> Prop) es : (forall e p p', P p -> process_exec e p = Some p' -> P p') ->
  forall p p', P p -> process_execs es p = Some p' -> P p'.
Proof.
  intros Hstep. induction es as [|e es IH]; intros p p' Hp; [by intros [= <-]|].
  intros (p1 & E & E')%bind_Some. eapply IH; [|exact E']. by eapply Hstep.
Qed.

Lemma start_ok now bind ep v p : 0 <= v.(server_port) < 2 ^ 16 -> start now bind ep v = Ok p -> listening_ok p.
Proof.
  intros Hr. unfold start. destruct (bind _); [|done..]. intros [= <-]. split; cbn [objects proxys].
  - intros i j o o' [-> _]%list_lookup_singleton_Some [-> _]%list_lookup_singleton_Some. done.
  - by intros i o [-> <-]%list_lookup_singleton_Some.
  - intros i o [-> <-]%list_lookup_singleton_Some. by apply list_elem_of_singleton.
  - intros i o q [-> <-]%list_lookup_singleton_Some Hq. by apply elem_of_nil in Hq.
Qed.

(** C37. Whatever proxies a data function is told of and in whatever order things happen, its
    listeners have different ports, and what it registers with a proxy is the host and the
    port of the listener for that proxy: the proxy makes a worker of it, under an address
    that its clients read back. *)
Theorem registrations_reachable now bind ep v es p0 p (Hport : 0 <= v.(server_port) < 2 ^ 16)
    (Hstart : start now bind ep v = Ok p0) (Hrun : process_execs es p0 = Some p) :
  (forall i j o o', p.(objects) !! i = Some o -> p.(objects) !! j = Some o' -> o.(server_port_) = o'.(server_port_) -> o.(server_port_) <> 0 -> i = j) /\
  forall i o q, p.(objects) !! i = Some o -> q ∈ sent o -> q.(header).(type) = code worker_reg ->
    o.(peer) ∈ p.(proxys) /\
    exists host, length host = 4%nat /\ parse_address q.(data) = Some (Ring.mk_endpoint host o.(server_port_)) /\
      forall s : Worker.proxy, s.(transfer_requests_) = [] -> exists s' w x, add_worker q s = Some s' /\ s'.(workers) !! w = Some x /\ s.(workers) !! w = None /\
        w ∈ s'.(worker_set_) /\ x.(valid_) = true /\ parse_address x.(Worker.endpoint) = Some (Ring.mk_endpoint host o.(server_port_)).
Proof.
  assert (listening_ok p) as [H1 H2 H3 H4]. { eapply process_execs_ind; [apply exec_ok|by eapply start_ok|done]. }
  split; [exact H1|]. intros i o q Ho Hq Ht. split; [by eapply H3|]. destruct (H4 i o q Ho Hq Ht) as (host & Hl & Ed). exists host. split; [done|].
  pose proof (parse_address_roundtrip (Ring.mk_endpoint host o.(server_port_)) Hl (H2 i o Ho)) as Hp. cbn [ip port] in Hp. rewrite Ed. split; [exact Hp|].
  intros s Hs. unfold add_worker. rewrite Ed, <- (app_nil_r (announced _ _)), mem_get_app_exact by (unfold announced; by rewrite length_app, length_le_bytes, Hl).
  cbn [mbind option_bind with_set with_worker transfer_requests_]. rewrite Hs. eexists _, (fresh (dom s.(workers))), _. split; [reflexivity|].
  cbn [with_set with_worker workers worker_set_]. rewrite lookup_insert_eq. split; [reflexivity|]. split; [apply not_elem_of_dom, is_fresh|].
  split; [by apply list_elem_of_here|]. done.
Qed.

(** ** The end *)

Lemma filter_none {A} (P : A -> Prop) `{forall x, Decision (P x)} l : Forall (fun x => ~ P x) l -> filter P l = [].
Proof. induction 1 as [|x l Hx Hl IH]; [done|]. by rewrite filter_cons_False. Qed.

(** How often an object took its leave. *)
Definition leaves (p : process) (j : nat) : nat := match p.(objects) !! j with Some o => length (filter (fun q => q.(header).(type) = code worker_dereg) (sent o)) | None => 0 end.

(** A run in which [close] is not called on an object. *)
Definition quiet (j : nat) (es : list event) : Prop := Forall (fun e => ~ closes e j) es.

Lemma exec_leaves e p p' j : process_exec e p = Some p' -> ~ closes e j -> leaves p' j = leaves p j.
Proof.
  intros [Hlen _ Hobj]%exec_grown Hc. unfold leaves. destruct (p'.(objects) !! j) as [o'|] eqn:E'.
  - destruct (Hobj j o' E') as [(o & -> & [_ _ _ _ (ws & -> & Hws)])|(-> & (? & ? & ? & ? & ? & ? & ? & ? & _ & -> & _) & _)]; [|by rewrite lookup_ge_None_2].
    rewrite filter_app, length_app. rewrite (filter_none _ ws); [cbn; lia|].
    eapply Forall_impl; [exact Hws|]. intros q [Ha|[(Hr & _)|(_ & Hd)]] Ht; [by rewrite Ha in Ht|by rewrite Hr in Ht|done].
  - rewrite lookup_ge_None_2; [done|]. apply lookup_ge_None in E'. lia.
Qed.

Lemma execs_leaves es p p' j : process_execs es p = Some p' -> quiet j es -> leaves p' j = leaves p j.
Proof.
  revert p. induction es as [|e es IH]; intros p; [by intros [= <-]|]. intros (p1 & E & E')%bind_Some [Hc Hq]%Forall_cons.
  rewrite (IH _ E' Hq). by apply exec_leaves with (e := e).
Qed.

Lemma process_execs_app es es' p p' : process_execs (es ++ es') p = Some p' <->
  exists p1, process_execs es p = Some p1 /\ process_execs es' p1 = Some p'.
Proof.
  revert p. induction es as [|e es IH]; intros p; cbn [app process_execs].
  - split; [intros E; by exists p|by intros (? & [= ->] & E)].
  - split.
    + intros (p1 & E & (p2 & E1 & E2)%IH)%bind_Some. exists p2. split; [|done]. by rewrite E.
    + intros (p2 & (p1 & E & E1)%bind_Some & E2). rewrite E. cbn [mbind option_bind]. apply IH. by exists p2.
Qed.

(** C39. The waiting time of one connection ends them all: once the last packet of a closed
    connection is out the process is stopped and nothing happens any more, and every
    connection that was not closed itself has not told its proxy. *)
Theorem one_timer_ends_all es i es' p p' (Hrun : process_execs (es ++ Closed i :: es') p = Some p') :
  es' = [] /\ p'.(fate_) = Stopped /\ (forall e, process_exec e p' = None) /\
  (exists o, p'.(objects) !! i = Some o /\ o.(closing) = true) /\
  forall j, quiet j es -> leaves p' j = leaves p j.
Proof.
  apply process_execs_app in Hrun as (p1 & E1 & (p2 & E2 & E3)%bind_Some).
  assert (exists o, p1.(objects) !! i = Some o /\ o.(closing) = true /\ p2 = ends Stopped p1) as (o & Ho & Hc & ->).
  { unfold process_exec in E2. destruct p1.(fate_); [|done..]. apply bind_Some in E2 as (o & Ho & E2). exists o.
    destruct o.(closing); [|done]. by injection E2 as <-. }
  assert (es' = []) as ->. { destruct es' as [|e es']; [done|]. by apply bind_Some in E3 as (? & E & _). }
  injection E3 as <-. split_and!; [done..|by exists o|]. intros j Hq. rewrite <- (execs_leaves es p p1 j E1 Hq). done.
Qed.

(** ** Joining once *)

(** The objects for a proxy. *)
Definition objects_for (ep : bytes) (p : process) : nat := length (filter (fun o => o.(peer) = ep) p.(objects)).

(** No object is about to make one. *)
Definition nobody_joins (ep : bytes) (p : process) : Prop :=
  forall i o c, p.(objects) !! i = Some o -> o.(joining) = Some c -> mem_get 0 6 c.(data) <> Some ep.

Definition registered (o : object) : nat := length (filter (fun q => q.(header).(type) = code worker_reg) (sent o)).

(** A proxy that is known, that no object is connecting to, and that none will. *)
Record settled (ep : bytes) (p : process) : Prop := {
  se_known : ep ∈ p.(proxys);
  se_nobody : nobody_joins ep p;
  se_idle : forall i o, p.(objects) !! i = Some o -> o.(peer) = ep -> o.(connecting) = false
}.

Lemma exec_settled ep e p p' : settled ep p -> process_exec e p = Some p' ->
  settled ep p' /\
  forall i o', p'.(objects) !! i = Some o' -> o'.(peer) = ep -> exists o, p.(objects) !! i = Some o /\ o.(peer) = ep /\ registered o' = registered o.
Proof.
  intros [H1 H2 H3] [_ Hps Hobj]%exec_grown.
  assert (forall o', made e p o' -> o'.(peer) <> ep) as Hnew.
  { intros o' (i & ? & ? & ? & ep' & o1 & c & ? & _ & -> & Ho1 & Hj & Hep & _). cbn [new_object peer]. intros ->. by apply (H2 i o1 c). }
  split; [split|].
  - by apply Hps.
  - intros i o' c Hi Hj. destruct (Hobj i o' Hi) as [(o & Ho & Hst)|(_ & (? & ? & ? & ? & ? & ? & ? & ? & _ & -> & _) & _)]; [|done].
    destruct (st_joining _ _ _ _ _ Hst c Hj) as [Hj'|(ep' & -> & Hn)]; [by eapply H2|]. intros [= ->]. done.
  - intros i o' Hi Hp. destruct (Hobj i o' Hi) as [(o & Ho & [Hp' _ Hcon _ _])|(_ & Hm & _)]; [|by apply Hnew in Hm].
    destruct o'.(connecting); [|done]. rewrite <- (H3 i o); [symmetry; by apply Hcon|done|congruence].
  - intros i o' Hi Hp. destruct (Hobj i o' Hi) as [(o & Ho & [Hp' _ _ _ (ws & E & Hws)])|(_ & Hm & _)]; [|by apply Hnew in Hm].
    exists o. split; [done|]. split; [congruence|]. unfold registered. rewrite E, filter_app, length_app.
    rewrite (filter_none _ ws); [cbn; lia|]. eapply Forall_impl; [exact Hws|]. intros q [Ha|[(_ & Hcon & _)|(Hd & _)]] Hr; [by rewrite Ha in Hr| |by rewrite Hd in Hr].
    rewrite (H3 i o Ho) in Hcon by congruence. done.
Qed.

Lemma execs_settled ep es : forall p p', settled ep p -> process_execs es p = Some p' ->
  settled ep p' /\
  forall i o', p'.(objects) !! i = Some o' -> o'.(peer) = ep -> exists o, p.(objects) !! i = Some o /\ o.(peer) = ep /\ registered o' = registered o.
Proof.
  induction es as [|e es IH]; intros p p' Hs.
  - intros [= <-]. split; [done|]. intros i o Ho Hp. by exists o.
  - intros (p1 & E & E')%bind_Some. destruct (exec_settled ep e p p1 Hs E) as [Hs1 Hr1]. destruct (IH p1 p' Hs1 E') as [Hs2 Hr2]. split; [done|].
    intros i o' Hi Hp. destruct (Hr2 i o' Hi Hp) as (o1 & Ho1 & Hp1 & ->). by apply Hr1.
Qed.

(** A connection to a proxy that fails is never tried again: while the proxy is known and
    nobody is about to join it, no command and nothing else makes the function register
    with it, though every announcement of it is acknowledged. *)
Theorem failed_connection_forgotten i salt sequence answers es p p1 p' o ep
    (Ho : p.(objects) !! i = Some o) (Hp : o.(peer) = ep) (Hknown : ep ∈ p.(proxys)) (Hnobody : nobody_joins ep p)
    (Hothers : forall j x, p.(objects) !! j = Some x -> x.(peer) = ep -> x.(connecting) = true -> j = i)
    (Hfail : process_exec (Connect i true salt sequence answers) p = Some p1) (Hrun : process_execs es p1 = Some p') :
  (forall j x', p'.(objects) !! j = Some x' -> x'.(peer) = ep -> exists x, p.(objects) !! j = Some x /\ registered x' = registered x) /\
  forall j x c now, p'.(fate_) = Running -> p'.(objects) !! j = Some x -> x.(joining) = None -> is_proxyjoin c = true -> mem_get 0 6 c.(data) = Some ep ->
    exists p'', process_exec (Command j now c) p' = Some p'' /\ length p''.(objects) = length p'.(objects) /\
      (exists x'', p''.(objects) !! j = Some x'' /\ sent x'' = sent x ++ [proxy_command.ack_of c]).
Proof.
  assert (p1 = set_object i (connected o) p) as ->.
  { unfold process_exec, on_connected in Hfail. destruct p.(fate_); [|done..]. rewrite Ho in Hfail. cbn [mbind option_bind] in Hfail.
    destruct o.(connecting); [|done]. by injection Hfail as <-. }
  assert (forall j x, (set_object i (connected o) p).(objects) !! j = Some x -> exists x0, p.(objects) !! j = Some x0 /\ x.(peer) = x0.(peer) /\
    x.(joining) = x0.(joining) /\ sent x = sent x0 /\ (x.(connecting) = true -> x0.(connecting) = true /\ j <> i)) as Hset.
  { intros j x. cbn. destruct (decide (j = i)) as [->|Hne].
    - rewrite list_lookup_insert_eq by (by eapply lookup_lt_Some). intros [= <-]. by exists o.
    - rewrite list_lookup_insert_ne by done. intros E. by exists x. }
  destruct (execs_settled ep es (set_object i (connected o) p) p') as [[K _ _] R]; [|done|].
  { split; [done| |].
    - intros j x c (x0 & Hx0 & _ & -> & _)%Hset. by apply (Hnobody j x0).
    - intros j x (x0 & Hx0 & -> & _ & _ & Hc)%Hset Hpx. destruct x.(connecting); [|done]. destruct (Hc eq_refl) as [Hc0 Hne]. by rewrite (Hothers j x0) in Hne. }
  split.
  - intros j x' Hj Hpx. destruct (R j x' Hj Hpx) as (x & (x0 & Hx0 & _ & _ & Hs & _)%Hset & _ & ->). exists x0. split; [done|]. unfold registered. by rewrite Hs.
  - intros j x c now Hf Hx Hjn Hpj Hep. unfold process_exec. rewrite Hf. unfold on_command. rewrite Hx. cbn [mbind option_bind]. rewrite Hjn, Hpj, Hep. cbn [mbind option_bind].
    rewrite decide_True by done. set (x1 := with_connection _ x).
    assert (exists p'', finish j now c (set_object j x1 p') = Some p'') as [p'' E].
    { unfold finish. rewrite (set_object_lookup j x1 x) by done. cbn [mbind option_bind]. unfold proxy_command.start_listen_commands_body, proxy_command.command.
      unfold is_proxyjoin in Hpj. apply bool_decide_eq_true in Hpj. rewrite Hpj, Hep. cbn [mbind option_bind]. by eexists. }
    exists p''. split; [done|]. apply finish_spec in E as (x2 & s & Ex2 & -> & Ew). rewrite (set_object_lookup j x1 x) in Ex2 by done. injection Ex2 as <-.
    split; [cbn; by rewrite !length_insert|]. exists (with_connection s x1). rewrite set_set, (set_object_lookup j _ x) by done. split; [done|].
    change (sent (with_connection s x1)) with s.(proxy_command.written). rewrite Ew. f_equal. apply listen_keeps.
Qed.

(** ** A function with three proxies *)

Definition sample_proxy (n : Z) : bytes := [x0a; x00; x00; byte_of n; x2e; xe0].
Definition sample_serving : serving := mk_serving true 64 (lit "LRU") (lit "proxy") (lit "12000") 2000 298.
Definition sample_ports (q : Z) : bind_result := if decide (q = 2001) then In_use else Bound.
Definition told (n : Z) : packet := mk_packet (mk_header (code proxyjoin) 0 (replicate 32 x00) 6 (replicate 4 x01) (replicate 4 x02)) (sample_proxy n).
Definition sample_host : option (list address) := Some [V4 x0a x00 x00 x09].

Definition started : process := mk_process [new_object 0 (lit "LRU") (sample_proxy 1) 2000] [sample_proxy 1] Running.

(** It connects, is told of a second proxy, and connects to it on the port after the next. *)
Definition sample_events (ec : bool) : list event :=
  [Connect 0 false [] [] sample_host; Command 0 100 (told 2); Join 0 110 sample_ports; Connect 1 ec [] [] sample_host].

Definition run_to (es : list event) (p : process) : process := default p (process_execs es p).

Definition summary (p : process) : list (bytes * Z * nat * bool) :=
  (fun o => (o.(peer), o.(server_port_), registered o, o.(connecting))) <$> p.(objects).

Lemma registrations_reachable_witness : exists p o q,
  process_execs (sample_events false) started = Some p /\ p.(objects) !! 1%nat = Some o /\ q ∈ sent o /\
  parse_address q.(data) = Some (Ring.mk_endpoint [x0a; x00; x00; x09] 2002).
Proof.
  destruct (process_execs (sample_events false) started) as [p|] eqn:E; [|vm_compute in E; discriminate E].
  destruct (registrations_reachable 0 sample_ports (sample_proxy 1) sample_serving (sample_events false) started p) as [_ H]; [cbn; lia|reflexivity|exact E|].
  destruct (p.(objects) !! 1%nat) as [o|] eqn:Eo; [|vm_compute in E; injection E as <-; discriminate Eo].
  destruct (sent o) as [|q qs] eqn:Es; [vm_compute in E; injection E as <-; vm_compute in Eo; injection Eo as <-; discriminate Es|].
  assert (q.(header).(type) = code worker_reg /\ o.(server_port_) = 2002 /\ take 4 q.(data) = [x0a; x00; x00; x09]) as (Ht & Hp & Hd).
  { vm_compute in E; injection E as <-; vm_compute in Eo; injection Eo as <-; vm_compute in Es; injection Es as <- _. by vm_compute. }
  assert (q ∈ sent o) as Hq by (rewrite Es; apply list_elem_of_here).
  destruct (H 1%nat o q Eo Hq Ht) as (_ & host & Hl & Ha & _). exists p, o, q. split_and!; [reflexivity|exact Eo|exact Hq|].
  rewrite Hp in Ha. rewrite Ha. apply bind_Some in Ha as (h & Eh & (b & _ & Ha)%bind_Some). injection Ha as -> _. do 2 f_equal.
  unfold mem_get in Eh. destruct (decide _); [|discriminate Eh]. injection Eh as <-. exact Hd.
Defined.

(** Two objects are told of one proxy before either has made the object for it: both do, and
    the function registers with that proxy twice. *)
Example joined_twice : let p := run_to (sample_events false ++ [Command 0 200 (told 3); Command 1 200 (told 3); Join 0 210 sample_ports; Join 1 211 sample_ports;
    Connect 2 false [] [] sample_host; Connect 3 false [] [] sample_host]) started in
  objects_for (sample_proxy 3) p = 2%nat /\
  summary p = [(sample_proxy 1, 2000, 1%nat, false); (sample_proxy 2, 2002, 1%nat, false); (sample_proxy 3, 2003, 1%nat, false); (sample_proxy 3, 2004, 1%nat, false)].
Proof. by vm_compute. Qed.

Lemma one_timer_ends_all_witness : exists p,
  process_execs (sample_events false ++ [Expire 1 20000 []] ++ [Closed 1]) started = Some p /\ p.(fate_) = Stopped /\ leaves p 0 = 0%nat /\ leaves p 1 = 1%nat.
Proof.
  destruct (process_execs (sample_events false ++ [Expire 1 20000 []] ++ [Closed 1]) started) as [p|] eqn:E; [|vm_compute in E; discriminate E].
  exists p. destruct (one_timer_ends_all (sample_events false ++ [Expire 1 20000 []]) 1 [] started p) as (_ & Hf & _ & _ & Hl).
  - rewrite <- E. reflexivity.
  - split_and!; [reflexivity|exact Hf| |].
    + rewrite (Hl 0%nat); [reflexivity|]. repeat constructor; cbn; [..|intros H; discriminate H]; intros [].
    + vm_compute in E. injection E as <-. reflexivity.
Defined.

Lemma failed_connection_forgotten_witness : exists p p' : process,
  process_execs (take 3 (sample_events true)) started = Some p /\ process_exec (Connect 1 true [] [] None) p = Some p' /\
  forall j x', p'.(objects) !! j = Some x' -> x'.(peer) = sample_proxy 2 -> exists x, p.(objects) !! j = Some x /\ registered x' = registered x.
Proof.
  destruct (process_execs (take 3 (sample_events true)) started) as [p|] eqn:E; [|vm_compute in E; discriminate E].
  assert (exists o, p.(objects) !! 1%nat = Some o /\ o.(peer) = sample_proxy 2) as (o & Ho & Hp).
  { vm_compute in E. injection E as <-. eexists. split; reflexivity. }
  destruct (process_exec (Connect 1 true [] [] None) p) as [p'|] eqn:E'; [|vm_compute in E; injection E as <-; discriminate E'].
  exists p, p'. split_and!; [reflexivity|exact E'|].
  refine (proj1 (failed_connection_forgotten 1 [] [] None [] p p' p' o (sample_proxy 2) Ho Hp _ _ _ E' eq_refl)).
  - vm_compute in E. injection E as <-. by right; left.
  - vm_compute in E. injection E as <-. intros i x c Hi. by repeat (destruct i as [|i]; [injection Hi as <-|]).
  - vm_compute in E. injection E as <-. intros [|[|j]] x Hx; [injection Hx as <-; intros H; discriminate H|done|by destruct j].
Defined.
