(* ===== verification/Measure.v ===== *)
(** * Measuring a storage ([functions/datafunction/test-storage.cpp])

    A program writes blocks through a configuration of a storage and takes the time of each
    write: one after the other in a loop, when the storage answers at once, and with each
    answer starting the next write, when it answers later.  The bytes of the generators and
    the durations are given.  The rates and averages, which are printed as floating point
    numbers, are left out. *)
From Stdlib Require Import ZArith Lia.
From stdpp Require Import base tactics option list gmap strings.
From S2P Require Import Prelude KvLog Wire Request Coordinator Storages Entry Outcome.
Import pack.

(** ** Requests *)

(** What a round is given: salt and sequence of the header, the byte of the generator, and
    the nanoseconds it takes. *)
Record round := mk_round { r_salt : bytes; r_sequence : bytes; r_draw : byte; r_duration : Z }.

(** [key_t {n}]: the other bytes are zero. *)
Definition test_key (b : byte) : bytes := b :: replicate 31 x00.

Definition buf : bytes := replicate 4096 x41.

Definition test_request (b : byte) (r : round) : packet := create_write r.(r_salt) r.(r_sequence) (test_key b) 0 buf.

(** ** Answers that come later *)

(** [Waiting left]: the callback of a request holds [left] (which is [left_request - 1]);
    [Finished]: [on_finish] was called, which ends the process; [Stopped]: nothing is left
    to call. *)
Inductive phase := Waiting (left_request : Z) | Finished | Stopped.

Record client := mk_client { sent : list packet; result_vector : list Z; now_ : phase }.

#[global] Instance phase_eq_dec : EqDecision phase.
Proof. solve_decision. Defined.

Definition send_one_request (left_request : Z) (r : round) (c : client) : client :=
  mk_client (c.(sent) ++ [test_request r.(r_draw) r]) c.(result_vector) (Waiting (left_request - 1)).

(** The storage answers the request of the last round; [r] is what the next request uses. *)
Definition on_answer (duration : Z) (r : round) (c : client) : client :=
  match c.(now_) with
  | Waiting remaining =>
      let c := mk_client c.(sent) (c.(result_vector) ++ [duration]) c.(now_) in
      if remaining =? 0 then mk_client c.(sent) c.(result_vector) Finished
      else if 0 <? remaining then send_one_request remaining r c
      else mk_client c.(sent) c.(result_vector) Stopped
  | _ => c
  end.

(** The answers that come, each with what the next request is given. *)
Fixpoint answers (ds : list (Z * round)) (c : client) : client :=
  match ds with [] => c | (d, r) :: ds => answers ds (on_answer d r c) end.

Definition start_client (single_requests : Z) (r : round) : client :=
  send_one_request single_requests r (mk_client [] [] Stopped).

(** ** Answers at once *)

Section at_once.
Context {S : Type} `{HS : Storage S}.

(** [conf->perform(ptr)]. *)
Definition perform_packet (conf : storage_conf S) (p : packet) : option (storage_conf S * bytes) :=
  i ← parse_input p; operation ← request_parser.operation p.(data); perform conf operation i.

(** The loop over [single_requests] rounds: each writes with the same key. *)
Fixpoint measure_rounds (rs : list round) (conf : storage_conf S) : option (storage_conf S * list Z) :=
  match rs with
  | [] => Some (conf, [])
  | r :: rs =>
      '(conf, _) ← perform_packet conf (test_request x01 r);
      '(conf, ds) ← measure_rounds rs conf;
      Some (conf, r.(r_duration) :: ds)
  end.

Definition measure_at_once (single_requests : Z) (rs : nat -> round) (conf : storage_conf S) : option (storage_conf S * list Z) :=
  measure_rounds (rs <$> seq 0 (Z.to_nat single_requests)) conf.

End at_once.

(** ** Statistics *)

(** [dist]: how many results have each number of milliseconds, kept in an [int]. *)
Definition bucket_of (duration : Z) : Z := s32 (duration / 1000000).

Definition count (duration : Z) (dist : gmap Z Z) : gmap Z Z :=
  <[bucket_of duration := default 0 (dist !! bucket_of duration) + 1]> dist.

Definition stats (results : list Z) : gmap Z Z := foldl (fun dist d => count d dist) ∅ results.

Lemma stats_from results dist k :
  default 0 (foldl (fun dist d => count d dist) dist results !! k)
  = default 0 (dist !! k) + Z.of_nat (length (filter (fun d => bucket_of d = k) results)).
Proof.
  revert dist. induction results as [|d results IH]; intros dist; [cbn; lia|].
  cbn [foldl]. rewrite IH. unfold count. rewrite filter_cons. destruct (decide (bucket_of d = k)) as [->|Hne].
  - rewrite lookup_insert_eq. cbn [length default from_option]. unfold id. lia.
  - by rewrite lookup_insert_ne.
Qed.

(** Every result is counted once, under its milliseconds. *)
Theorem stats_counts results k :
  default 0 (stats results !! k) = Z.of_nat (length (filter (fun d => bucket_of d = k) results)).
Proof. unfold stats. by rewrite stats_from, lookup_empty. Qed.

(** ** One request at a time *)

Lemma answers_waiting ds c left : c.(now_) = Waiting left -> Z.of_nat (length ds) <= left ->
  let c' := answers ds c in
  c'.(now_) = Waiting (left - Z.of_nat (length ds)) /\ c'.(result_vector) = c.(result_vector) ++ ds.*1 /\
  c'.(sent) = c.(sent) ++ ((fun r => test_request r.(r_draw) r) <$> ds.*2).
Proof.
  revert c left. induction ds as [|[d r] ds IH]; intros c left Ec Hl.
  { cbn. rewrite !app_nil_r. split_and!; [rewrite Ec; f_equal; lia|done..]. }
  cbn [length answers fmap list_fmap fst snd] in *.
  assert (on_answer d r c = mk_client (c.(sent) ++ [test_request r.(r_draw) r]) (c.(result_vector) ++ [d]) (Waiting (left - 1))) as ->.
  { unfold on_answer. rewrite Ec. rewrite (proj2 (Z.eqb_neq _ _)), (proj2 (Z.ltb_lt _ _)) by lia. done. }
  destruct (IH (mk_client (c.(sent) ++ [test_request r.(r_draw) r]) (c.(result_vector) ++ [d]) (Waiting (left - 1))) (left - 1) eq_refl ltac:(lia))
    as (E1 & E2 & E3).
  cbn zeta. rewrite E1, E2, E3. cbn [sent result_vector]. rewrite <- !(assoc_L (++)).
  split_and!; [f_equal; lia|done..].
Qed.

(** With [n] writes to make, where [n] is positive, a request is outstanding after each of
    the first [n - 1] answers, one more than were answered was sent, and the answer to the
    last finishes: the results are the durations in their order. *)
Theorem measured_one_by_one n r ds d r' : Z.of_nat (length ds) = n - 1 ->
  let before := answers ds (start_client n r) in
  before.(now_) = Waiting 0 /\ length before.(sent) = S (length ds) /\
  on_answer d r' before = mk_client before.(sent) (ds.*1 ++ [d]) Finished.
Proof.
  intros Hn. destruct (answers_waiting ds (start_client n r) (n - 1) eq_refl) as (E1 & E2 & E3); [lia|].
  cbn zeta. rewrite E1, E3. cbn [start_client send_one_request sent app length]. rewrite !length_fmap.
  split_and!; [f_equal; lia|done|]. unfold on_answer. rewrite E1, E2.
  rewrite (proj2 (Z.eqb_eq _ _)) by lia. by rewrite E3.
Qed.

(** With none, one write is made all the same, and nothing ever finishes. *)
Theorem measured_none n r ds : n <= 0 -> (answers ds (start_client n r)).(now_) <> Finished /\
  length (answers ds (start_client n r)).(sent) = 1%nat.
Proof.
  intros Hn. assert (forall ds c, c.(now_) = Stopped -> answers ds c = c) as Hs.
  { clear. induction ds as [|[d r] ds IH]; intros c Ec; [done|]. cbn [answers]. unfold on_answer at 1. rewrite Ec. by apply IH. }
  destruct ds as [|[d r'] ds]; [done|]. cbn [answers].
  assert (on_answer d r' (start_client n r) = mk_client [test_request r.(r_draw) r] [d] Stopped) as ->.
  { unfold on_answer, start_client, send_one_request. cbn [now_ sent result_vector app].
    rewrite (proj2 (Z.eqb_neq _ _)), (proj2 (Z.ltb_ge _ _)) by lia. done. }
  by rewrite Hs.
Qed.

(** ** All writes go to one block *)

Definition test_input : input := mk_input (test_key x01) 0 4096 [] (replicate key_length x00) buf.

Lemma test_request_reads r : parse_input (test_request x01 r) = Some test_input /\
  request_parser.operation (test_request x01 r).(data) = Some (operation_code write).
Proof.
  unfold test_request. apply (parse_create_write r.(r_salt) r.(r_sequence) (test_key x01) 0 buf); [lia|].
  unfold buf. rewrite length_replicate. lia.
Qed.

Section cassandra_facts.
Context {D : Type} `{KVLaws D}.
Variable poco : bytes -> bytes.
Hypothesis Hpoco : poco_laws poco.
Variable bs : Z.
Hypothesis Hbs : 1 < bs < 2 ^ 32.

Lemma measure_step r (d : D) m : holds poco d m ->
  exists d', perform_packet (HS := cassandra_storage poco) (one_cassandra bs d) (test_request x01 r)
    = Some (one_cassandra bs d', lit "OK") /\ holds poco d' (<[(test_key x01, 0) := buf]> m).
Proof.
  intros Hd. assert (aligned bs write test_input) as Ha.
  { unfold aligned, test_input, buf. cbn [in_uuid in_position in_size in_data].
    split_and!; [done|lia|lia|apply Z.mod_0_l; lia|lia|]. intros _. rewrite length_replicate. lia. }
  destruct (perform_holds poco Hpoco bs write test_input d m Hbs Ha Hd) as (d' & E & Hd').
  exists d'. split.
  - unfold perform_packet. destruct (test_request_reads r) as [-> ->]. exact E.
  - revert Hd'. cbn [spec_perform fst]. unfold block_id, test_input. cbn [in_uuid in_position in_size in_data].
    rewrite Z.div_0_l by lia. unfold buf. by rewrite take_ge by (rewrite length_replicate; lia).
Qed.

Lemma measure_rounds_holds rs (d : D) m : holds poco d m ->
  exists d', measure_rounds (HS := cassandra_storage poco) rs (one_cassandra bs d)
    = Some (one_cassandra bs d', r_duration <$> rs) /\
    holds poco d' (match rs with [] => m | _ => <[(test_key x01, 0) := buf]> m end).
Proof.
  revert d m. induction rs as [|r rs IH]; intros d m Hd; [by exists d|].
  cbn [measure_rounds]. destruct (measure_step r d m Hd) as (d1 & -> & Hd1). cbn [mbind option_bind].
  destruct (IH d1 _ Hd1) as (d2 & -> & Hd2). cbn [mbind option_bind]. exists d2. split; [done|].
  destruct rs; [done|]. by rewrite insert_insert_eq in Hd2.
Qed.

End cassandra_facts.

(** Over Cassandra the loop ends with one result for each round, and however many rounds it
    makes, the table changes in one block of one file. *)
Theorem measured_at_once {D} `{KVLaws D} poco bs n rs (d : D) m
    (Hpoco : poco_laws poco) (Hbs : 1 < bs < 2 ^ 32) (Hd : holds poco d m) :
  exists d' ds, measure_at_once (HS := cassandra_storage poco) n rs (one_cassandra bs d) = Some (one_cassandra bs d', ds) /\
    Z.of_nat (length ds) = Z.max 0 n /\
    holds poco d' (if 0 <? n then <[(test_key x01, 0) := buf]> m else m).
Proof.
  destruct (measure_rounds_holds poco Hpoco bs Hbs (rs <$> seq 0 (Z.to_nat n)) d m Hd) as (d' & E & Hd').
  exists d', (r_duration <$> (rs <$> seq 0 (Z.to_nat n))). split; [done|]. rewrite !length_fmap, length_seq. split; [lia|].
  destruct (Z.ltb_spec 0 n) as [Hn|Hn].
  - destruct (Z.to_nat n) as [|k] eqn:E'; [lia|]. exact Hd'.
  - by replace (Z.to_nat n) with O in Hd' by lia.
Qed.
