(* ===== verification/Stun.v ===== *)
(** * The address of a data function from outside ([functions/traversal/opener.hpp])

    A datagram asks a STUN server under which address and port it sees the function; the
    attributes of the answer are searched for it. *)
From Stdlib Require Import ZArith Lia.
From stdpp Require Import base tactics option list strings.
From S2P Require Import Prelude Outcome.

Definition kBindingRequest : Z := 0x0001.
Definition kBindingResponse : Z := 0x0101.
Definition kXorMappedAddress : Z := 0x0020.
Definition magic_cookie : Z := 0x2112A442.

(** [int16_t]. *)
Definition s16 (z : Z) : Z := (z + 2 ^ 15) mod 2 ^ 16 - 2 ^ 15.

(** [StunRequest] as it is sent; [draws] are the twelve bytes of [rand]. *)
Definition stun_request (draws : bytes) : bytes :=
  be_bytes 2 kBindingRequest ++ be_bytes 2 0 ++ be_bytes 4 magic_cookie ++ draws.

Definition attributes_size : nat := 1000.
Definition response_size : nat := 20 + attributes_size.

Record ip_and_port := mk_ip_and_port { ip_ : bytes; port_ : Z }.

#[global] Instance ip_and_port_eq_dec : EqDecision ip_and_port.
Proof. solve_decision. Defined.

Definition dot : byte := x2e.

(** [inet_ntoa]. *)
Definition inet_ntoa (a : bytes) : bytes :=
  match a with
  | [a; b; c; d] => to_string (byte_val a) ++ [dot] ++ to_string (byte_val b) ++ [dot]
      ++ to_string (byte_val c) ++ [dot] ++ to_string (byte_val d)
  | _ => []
  end.

(** [resolved] are the addresses of [getaddrinfo], as they lie in memory; [None] is its error.
    The address is taken from where it is in a [sockaddr_in], of whatever family it is. *)
Definition HostnameToIP (resolved : option (list bytes)) : outcome bytes :=
  match resolved with
  | None => Ok []
  | Some servinfo => defined (p ← last servinfo; a ← mem_get 4 4 p; Some (inet_ntoa a))
  end.

(** Two bytes of the attributes in network order; past their end the behaviour is undefined. *)
Definition u16_at (attributes : bytes) (i : Z) : option Z := be_val <$> mem_get (Z.to_nat i) 2 attributes.

(** The address in the attribute at [i]. *)
Definition unmask (attributes : bytes) (i : Z) : option ip_and_port :=
  p ← u16_at attributes (i + 6);
  ip ← mem_get (Z.to_nat (i + 8)) 4 attributes;
  match ip with
  | [a; b; c; d] =>
      Some (mk_ip_and_port
        (to_string (Z.lxor (byte_val a) 0x21) ++ [dot] ++ to_string (Z.lxor (byte_val b) 0x12) ++ [dot]
         ++ to_string (Z.lxor (byte_val c) 0xA4) ++ [dot] ++ to_string (Z.lxor (byte_val d) 0x42) ++ [dot])
        (s16 (Z.lxor (s16 p) 0x2112)))
  | _ => None
  end.

(** The loop over the attributes; [None] is out of fuel, [Ok None] is no address. *)
Fixpoint search (fuel : nat) (attributes : bytes) (attributes_length i : Z) : option (outcome (option ip_and_port)) :=
  match fuel with
  | O => None
  | S fuel =>
      if i <? attributes_length then
        match (ty ← u16_at attributes i; len ← u16_at attributes (i + 2); Some (ty, len)) with
        | None => Some Undefined
        | Some (ty, len) =>
            if ty =? kXorMappedAddress then Some (defined (Some <$> unmask attributes i))
            else search fuel attributes attributes_length (i + (4 + len))
        end
      else Some (Ok None)
  end.

Definition attributes_length (message_length : Z) : Z := Z.min (s16 message_length) (Z.of_nat attributes_size).

(** One more than the rounds of four bytes in the attributes. *)
Definition search_fuel : nat := 251.

(** What the call leaves: what it returns, the address in its argument, whether the socket
    was closed. *)
Record result := mk_result { returned : bool; found : ip_and_port; closed : bool }.

(** [binds], [sends] and [received] are what the system calls do; [stale] is what the
    uninitialised [StunResponse] holds. *)
Definition PerformStunRequest (draws stale : bytes) (binds sends : bool) (received : option bytes)
    (out : ip_and_port) : outcome result :=
  let fails := Ok (mk_result false out false) in
  if negb binds then fails
  else if negb sends then fails
  else
    match received with
    | None => fails
    | Some datagram =>
        let stun_response := overlay 0 (take response_size datagram) stale in
        ty ← defined (u16_at stun_response 0);
        len ← defined (u16_at stun_response 2);
        transaction_id ← defined (mem_get 8 12 stun_response);
        attributes ← defined (mem_get 20 attributes_size stun_response);
        if decide (transaction_id = draws) then
          if negb (ty =? kBindingResponse) then fails
          else
            a ← default Undefined (search search_fuel attributes (attributes_length len) 0);
            Ok (mk_result true (default out a) true)
        else fails
    end.

(** ** The loop ends *)

Lemma u16_at_range attributes i z : u16_at attributes i = Some z -> 0 <= z < 2 ^ 16.
Proof.
  unfold u16_at. intros (b & Hb%mem_get_length & ->)%fmap_Some. pose proof (be_val_range b) as Hr. rewrite Hb in Hr. exact Hr.
Qed.

Lemma search_ends fuel attributes n i : 0 <= i -> n - i <= 4 * (Z.of_nat fuel - 1) ->
  0 < Z.of_nat fuel -> is_Some (search fuel attributes n i).
Proof.
  revert i. induction fuel as [|fuel IH]; intros i Hi Hn Hf; [lia|]. cbn [search].
  destruct (i <? n) eqn:E; [|by eexists]. apply Z.ltb_lt in E.
  destruct (u16_at attributes i) as [ty|]; [|by eexists]. cbn [mbind option_bind].
  destruct (u16_at attributes (i + 2)) as [len|] eqn:El; [|by eexists]. cbn [mbind option_bind].
  destruct (ty =? _); [by eexists|]. apply u16_at_range in El.
  apply IH; lia.
Qed.

(** The search ends for every answer: each round goes on by at least four bytes, and the
    length, which is cut to an [int16_t], is at most the size of the array. *)
Theorem every_answer_is_searched attributes message_length :
  is_Some (search search_fuel attributes (attributes_length message_length) 0).
Proof. apply search_ends; unfold attributes_length, search_fuel, attributes_size; lia. Qed.

Lemma attributes_length_small n : 0 <= n <= Z.of_nat attributes_size -> attributes_length n = n.
Proof.
  unfold attributes_length, attributes_size, s16. intros Hn. rewrite Z.mod_small by lia. lia.
Qed.

(** A length of 32768 or more is negative as an [int16_t]: nothing is searched. *)
Lemma long_answer_is_not_searched fuel attributes message_length : 2 ^ 15 <= message_length < 2 ^ 16 ->
  search (S fuel) attributes (attributes_length message_length) 0 = Some (Ok None).
Proof.
  intros Hl. cbn [search]. unfold attributes_length, s16.
  replace ((message_length + 2 ^ 15) mod 2 ^ 16) with (message_length - 2 ^ 15)
    by (apply (Z.mod_unique_pos _ _ 1); lia).
  by rewrite (proj2 (Z.ltb_ge _ _)) by (unfold attributes_size; lia).
Qed.

(** ** An answer *)

Definition attribute (ty : Z) (value : bytes) : bytes :=
  be_bytes 2 ty ++ be_bytes 2 (Z.of_nat (length value)) ++ value.

Definition mask (ip : byte * byte * byte * byte) : bytes :=
  let '(a, b, c, d) := ip in
  [byte_of (Z.lxor (byte_val a) 0x21); byte_of (Z.lxor (byte_val b) 0x12);
   byte_of (Z.lxor (byte_val c) 0xA4); byte_of (Z.lxor (byte_val d) 0x42)].

(** The attribute with the address, as RFC 5389 has it for IPv4. *)
Definition mapped (ip : byte * byte * byte * byte) (port : Z) : bytes :=
  attribute kXorMappedAddress ([x00; x01] ++ be_bytes 2 (Z.lxor port 0x2112) ++ mask ip).

Definition ip_bytes (ip : byte * byte * byte * byte) : bytes := let '(a, b, c, d) := ip in [a; b; c; d].

Definition stun_answer (draws attributes : bytes) : bytes :=
  be_bytes 2 kBindingResponse ++ be_bytes 2 (Z.of_nat (length attributes)) ++ be_bytes 4 magic_cookie
  ++ draws ++ attributes.

Lemma u16_at_app pre z rest i : i = Z.of_nat (length pre) -> 0 <= z < 2 ^ 16 ->
  u16_at (pre ++ be_bytes 2 z ++ rest) i = Some z.
Proof.
  intros -> Hz. unfold u16_at. rewrite mem_get_app_r by lia. rewrite Nat2Z.id, Nat.sub_diag.
  rewrite mem_get_app_exact by apply length_be_bytes. cbn [fmap option_fmap option_map].
  rewrite be_val_be_bytes. f_equal. apply wrap_small. exact Hz.
Qed.

Lemma s16_s16_lxor p : s16 (Z.lxor (s16 (Z.lxor p 0x2112)) 0x2112) = s16 p.
Proof.
  assert (forall a b, a mod 2 ^ 16 = b mod 2 ^ 16 -> s16 a = s16 b) as Hs.
  { intros a b E. unfold s16. by rewrite Z.add_mod, E, <- Z.add_mod by lia. }
  assert (forall a, s16 a mod 2 ^ 16 = a mod 2 ^ 16) as Hm.
  { intros a. unfold s16. rewrite Zminus_mod_idemp_l. f_equal. lia. }
  apply Hs. apply Z.bits_inj'. intros k Hk. destruct (Z.lt_ge_cases k 16) as [Hlt|Hge].
  - rewrite !Z.mod_pow2_bits_low, Z.lxor_spec by done.
    rewrite <- (Z.mod_pow2_bits_low (s16 _) 16) by done. rewrite Hm, Z.mod_pow2_bits_low, Z.lxor_spec by done.
    by destruct (Z.testbit p k), (Z.testbit 0x2112 k).
  - by rewrite !Z.mod_pow2_bits_high by lia.
Qed.

Lemma lxor_byte b k : 0 <= k < 256 -> Z.lxor (byte_val (byte_of (Z.lxor (byte_val b) k))) k = byte_val b.
Proof.
  intros Hk. rewrite byte_val_of, Z.mod_small.
  - by rewrite Z.lxor_assoc, Z.lxor_nilpotent, Z.lxor_0_r.
  - pose proof (byte_val_range b). split; [by apply Z.lxor_nonneg; lia|].
    destruct (Z.eq_dec (Z.lxor (byte_val b) k) 0) as [->|Hn]; [lia|].
    assert (0 <= Z.lxor (byte_val b) k) by (apply Z.lxor_nonneg; lia).
    apply (Z.log2_lt_pow2 _ 8); [lia|]. eapply Z.le_lt_trans; [apply Z.log2_lxor; lia|].
    assert (forall z, 0 <= z < 256 -> Z.log2 z < 8) as Hl.
    { intros z Hz. destruct (Z.eq_dec z 0) as [->|]; [done|]. apply Z.log2_lt_pow2; lia. }
    apply Z.max_lub_lt; by apply Hl.
Qed.

Definition other (a : Z * bytes) : Prop :=
  0 <= a.1 < 2 ^ 16 /\ a.1 <> kXorMappedAddress /\ Z.of_nat (length a.2) < 2 ^ 16.

Definition attributes_of (others : list (Z * bytes)) : bytes := concat ((fun a => attribute a.1 a.2) <$> others).

Lemma length_attribute ty value : length (attribute ty value) = (4 + length value)%nat.
Proof. unfold attribute. rewrite !length_app, !length_be_bytes. lia. Qed.

(** The header of an attribute. *)
Lemma attribute_header pre ty value rest i : i = Z.of_nat (length pre) ->
  0 <= ty < 2 ^ 16 -> Z.of_nat (length value) < 2 ^ 16 ->
  u16_at (pre ++ attribute ty value ++ rest) i = Some ty /\
  u16_at (pre ++ attribute ty value ++ rest) (i + 2) = Some (Z.of_nat (length value)).
Proof.
  intros -> Hty Hl. unfold attribute. rewrite <- !(assoc_L (++)). split; [by apply u16_at_app|].
  rewrite (assoc_L (++) pre). apply u16_at_app; [|lia]. rewrite length_app, length_be_bytes. lia.
Qed.

Lemma search_others fuel others pre rest n : Forall other others ->
  Z.of_nat (length pre + length (attributes_of others)) < n ->
  search (length others + fuel) (pre ++ attributes_of others ++ rest) n (Z.of_nat (length pre))
  = search fuel (pre ++ attributes_of others ++ rest) n (Z.of_nat (length pre + length (attributes_of others))).
Proof.
  revert pre. induction others as [|[ty v] others IH]; intros pre Ho Hn.
  { cbn [length Nat.add attributes_of fmap list_fmap concat]. by rewrite Nat.add_0_r. }
  apply Forall_cons in Ho as [(Hty & Hne & Hv) Ho]. cbn [fst snd] in *.
  change (attributes_of ((ty, v) :: others)) with (attribute ty v ++ attributes_of others) in *.
  rewrite length_app, length_attribute in *. rewrite <- (assoc_L (++)).
  cbn [length Nat.add search]. rewrite (proj2 (Z.ltb_lt _ _)) by lia.
  destruct (attribute_header pre ty v (attributes_of others ++ rest) _ eq_refl Hty Hv) as [-> ->].
  cbn [mbind option_bind]. rewrite (proj2 (Z.eqb_neq _ _)) by done.
  specialize (IH (pre ++ attribute ty v) Ho). rewrite length_app, length_attribute, <- (assoc_L (++)) in IH.
  replace (Z.of_nat (length pre) + (4 + Z.of_nat (length v))) with (Z.of_nat (length pre + (4 + length v))) by lia.
  rewrite IH by lia. f_equal; lia.
Qed.

Lemma length_mapped ip port : length (mapped ip port) = 12%nat.
Proof. by destruct ip as [[[? ?] ?] ?]. Qed.

Lemma lxor_port_range port : 0 <= port < 2 ^ 16 -> 0 <= Z.lxor port 0x2112 < 2 ^ 16.
Proof.
  intros Hp. assert (0 <= Z.lxor port 0x2112) as H0 by (apply Z.lxor_nonneg; lia). split; [done|].
  destruct (Z.eq_dec (Z.lxor port 0x2112) 0) as [->|Hn]; [lia|]. apply Z.log2_lt_pow2; [lia|].
  eapply Z.le_lt_trans; [apply Z.log2_lxor; lia|]. apply Z.max_lub_lt; [|done].
  destruct (Z.eq_dec port 0) as [->|]; [done|]. apply Z.log2_lt_pow2; lia.
Qed.

Lemma unmask_mapped pre ip port rest : 0 <= port < 2 ^ 16 ->
  unmask (pre ++ mapped ip port ++ rest) (Z.of_nat (length pre))
  = Some (mk_ip_and_port (inet_ntoa (ip_bytes ip) ++ [dot]) (s16 port)).
Proof.
  intros Hp. destruct ip as [[[a b] c] d]. unfold mapped, attribute. rewrite <- !(assoc_L (++)).
  set (t := be_bytes 2 kXorMappedAddress). set (l := be_bytes 2 (Z.of_nat _)). unfold unmask.
  replace (pre ++ t ++ l ++ [x00; x01] ++ be_bytes 2 (Z.lxor port 0x2112) ++ mask (a, b, c, d) ++ rest)
    with ((pre ++ t ++ l ++ [x00; x01]) ++ be_bytes 2 (Z.lxor port 0x2112) ++ mask (a, b, c, d) ++ rest)
    by (by rewrite <- !(assoc_L (++))).
  rewrite u16_at_app; [| |by apply lxor_port_range].
  2: { rewrite !length_app. unfold t, l. rewrite !length_be_bytes. cbn [length]. lia. }
  cbn [mbind option_bind]. rewrite (assoc_L (++)), mem_get_app_r.
  2: { rewrite !length_app. unfold t, l. rewrite !length_be_bytes. cbn [length]. lia. }
  replace (Z.to_nat (Z.of_nat (length pre) + 8) - _)%nat with O
    by (rewrite !length_app; unfold t, l; rewrite !length_be_bytes; cbn [length]; lia).
  rewrite mem_get_app_exact by done. unfold mask. cbn [mbind option_bind].
  rewrite !lxor_byte by lia. rewrite s16_s16_lxor. cbn [ip_bytes inet_ntoa]. by rewrite <- !(assoc_L (++)).
Qed.

Lemma mapped_header ip port : exists value, mapped ip port = attribute kXorMappedAddress value /\ length value = 8%nat.
Proof. destruct ip as [[[a b] c] d]. by eexists. Qed.

Lemma search_answer others ip port rest :
  Forall other others -> 0 <= port < 2 ^ 16 ->
  let n := (length (attributes_of others) + 12)%nat in (n <= attributes_size)%nat ->
  forall m, Z.of_nat n <= m -> search search_fuel (attributes_of others ++ mapped ip port ++ rest) m 0
  = Some (Ok (Some (mk_ip_and_port (inet_ntoa (ip_bytes ip) ++ [dot]) (s16 port)))).
Proof.
  intros Ho Hp n Hn m Hm. subst n.
  assert (4 * length others <= length (attributes_of others))%nat as Hl.
  { clear. induction others as [|[ty v] others IH]; [done|].
    change (attributes_of ((ty, v) :: others)) with (attribute ty v ++ attributes_of others).
    rewrite length_app, length_attribute. cbn [length]. lia. }
  unfold attributes_size in Hn.
  replace search_fuel with (length others + (S (250 - length others)))%nat by (unfold search_fuel; lia).
  pose proof (search_others (S (250 - length others)) others [] (mapped ip port ++ rest) m Ho) as Hs.
  change (Z.of_nat (length (@nil byte))) with 0 in Hs. cbn [app length Nat.add] in Hs. rewrite Hs by lia. cbn [search]. rewrite (proj2 (Z.ltb_lt _ _)) by lia.
  rewrite unmask_mapped by done. destruct (mapped_header ip port) as (v & -> & Hv).
  destruct (attribute_header (attributes_of others) kXorMappedAddress v rest _ eq_refl) as [-> ->]; [done|lia|].
  done.
Qed.

(** What the fields of a response hold when [answer] was received over it. *)
Lemma response_fields draws attributes stale : length draws = 12%nat -> length stale = response_size ->
  (length attributes <= attributes_size)%nat ->
  let r := overlay 0 (take response_size (stun_answer draws attributes)) stale in
  u16_at r 0 = Some kBindingResponse /\ u16_at r 2 = Some (Z.of_nat (length attributes)) /\
  mem_get 8 12 r = Some draws /\
  exists rest, mem_get 20 attributes_size r = Some (attributes ++ rest).
Proof.
  intros Hd Hs Ha. unfold response_size, attributes_size in *. cbn zeta.
  assert (length (stun_answer draws attributes) = 20 + length attributes)%nat as Hl.
  { unfold stun_answer. rewrite !length_app, !length_be_bytes. lia. }
  rewrite take_ge by lia. unfold overlay. rewrite take_0, Hl. cbn [app Nat.add].
  set (rest := drop _ (resize_to _ stale)). assert (length rest = 1000 - length attributes)%nat as Hr
    by (unfold rest; rewrite length_drop, length_resize_to; lia).
  unfold stun_answer. rewrite <- !(assoc_L (++)). split; [by apply (u16_at_app [])|]. split.
  { apply u16_at_app; [by rewrite length_be_bytes|lia]. }
  split.
  - do 3 (rewrite mem_get_app_r by (rewrite length_be_bytes; lia); rewrite length_be_bytes).
    by apply mem_get_app_exact.
  - exists rest. do 3 (rewrite mem_get_app_r by (rewrite length_be_bytes; lia); rewrite length_be_bytes).
    rewrite mem_get_app_r by lia. rewrite Hd. apply mem_get_all. rewrite length_app. unfold attributes_size. lia.
Qed.

(** The answer of a server, as RFC 5389 has it for IPv4, is read back, whatever other
    attributes are before the address, if none of them is padded, and whatever the memory
    held: the address, with a dot at its end, and the port as an [int16_t]. *)
Theorem answer_read_back draws stale others ip port after out : length draws = 12%nat ->
  length stale = response_size -> Forall other others -> 0 <= port < 2 ^ 16 ->
  (length (attributes_of others ++ mapped ip port ++ after) <= attributes_size)%nat ->
  PerformStunRequest draws stale true true
    (Some (stun_answer draws (attributes_of others ++ mapped ip port ++ after))) out
  = Ok (mk_result true (mk_ip_and_port (inet_ntoa (ip_bytes ip) ++ [dot]) (s16 port)) true).
Proof.
  intros Hd Hs Ho Hp Hl. unfold PerformStunRequest. cbn [negb].
  destruct (response_fields draws _ stale Hd Hs Hl) as (-> & -> & -> & rest & ->).
  cbn [defined mbind outcome_bind]. rewrite decide_True by done. rewrite Z.eqb_refl. cbn [negb].
  rewrite <- !(assoc_L (++)).
  rewrite attributes_length_small by lia. rewrite !length_app, length_mapped in *.
  rewrite search_answer by (done || lia). done.
Qed.

(** Two attributes before the address 192.0.2.7, port 40000, which is -25536 as an [int16_t]. *)
Definition draws_1 : bytes := replicate 12 x2a.
Definition unread : ip_and_port := mk_ip_and_port [] 0.

Lemma answer_read_back_witness :
  PerformStunRequest draws_1 (replicate 1020 xcc) true true
    (Some (stun_answer draws_1 (attributes_of [(0x8022, lit "test"%string); (0x8023, [])]
      ++ mapped (xc0, x00, x02, x07) 40000 ++ []))) unread
  = Ok (mk_result true (mk_ip_and_port (lit "192.0.2.7."%string) (-25536)) true).
Proof.
  apply (answer_read_back draws_1 (replicate 1020 xcc) [(0x8022, lit "test"%string); (0x8023, [])]
    (xc0, x00, x02, x07) 40000 [] unread); [done|done| |lia|vm_compute; lia].
  repeat (apply Forall_cons; split); [by vm_compute..|by apply Forall_nil].
Defined.

(** ** What else happens *)

(** An answer without an address: the call returns [true], and the address is as before. *)
Lemma no_address_succeeds draws stale out : length draws = 12%nat -> length stale = response_size ->
  PerformStunRequest draws stale true true (Some (stun_answer draws [])) out = Ok (mk_result true out true).
Proof.
  intros Hd Hs. unfold PerformStunRequest. cbn [negb].
  destruct (response_fields draws [] stale Hd Hs) as (-> & -> & -> & rest & ->); [cbn; lia|].
  cbn [defined mbind outcome_bind]. rewrite decide_True by done. rewrite Z.eqb_refl. cbn [negb length].
  by rewrite attributes_length_small by (unfold attributes_size; lia).
Qed.

(** Every other way out leaves the socket open. *)
Lemma failed_leaves_socket draws stale binds sends received out r :
  PerformStunRequest draws stale binds sends received out = Ok r -> r.(closed) = r.(returned).
Proof.
  unfold PerformStunRequest. destruct binds; cbn [negb]; [|by intros [= <-]].
  destruct sends; cbn [negb]; [|by intros [= <-]]. destruct received as [d|]; [|by intros [= <-]].
  intros (ty & _ & (len & _ & (id & _ & (attributes & _ & E)%bind_Ok)%bind_Ok)%bind_Ok)%bind_Ok.
  revert E. case_decide; [|by intros [= <-]]. destruct (negb _); [by intros [= <-]|].
  by intros (a & _ & [= <-])%bind_Ok.
Qed.

(** RFC 5389 pads attributes to four bytes; the padding is taken for the next header. *)
Example padded_attribute_hides_address :
  PerformStunRequest draws_1 (replicate 1020 xcc) true true
    (Some (stun_answer draws_1 (attribute 0x8022 (lit "abcde"%string) ++ replicate 3 x00
      ++ mapped (xc0, x00, x02, x07) 40000))) unread
  = Ok (mk_result true unread true).
Proof. vm_refl. Qed.

(** An attribute whose header is where the array ends. *)
Example search_leaves_array :
  search search_fuel (attribute 0x8022 (replicate 994 x00) ++ replicate 2 x00) 1000 0 = Some Undefined.
Proof. vm_refl. Qed.

(** Of a host with an IPv6 address alone, the flow label is shown. *)
Example ipv6_shown : HostnameToIP (Some [lit "xx"%string ++ [x00; x50] ++ [x00; x01; x02; x03] ++ replicate 16 xff])
  = Ok (lit "0.1.2.3"%string).
Proof. vm_refl. Qed.
