(* ===== verification/Startup.v ===== *)
(** * The start of a proxy ([main.cpp], [server.hpp] lines 396-548, [basic.hpp])

    [main] reads options, names the policies and their parameters, fills the configuration
    of the functions and announces the proxy in ZooKeeper.  The parser of the command line,
    the file system, [boost::format], SHA-256 and the product with 255 that places an id on
    the ring, a [double], are given. *)
From Stdlib Require Import ZArith Lia.
From stdpp Require Import base tactics option list gmap strings.
From S2P Require Import Prelude Wire Launcher Worker DataFunction Policy Ring Outcome.

(** ** Strings in a [switch] *)

(** [sswitcher::hash], from the first character on. *)
Definition strhash (s : bytes) : Z :=
  foldl (fun h c => Z.land (Z.lxor (h * 33) (signed_char c)) (2 ^ 48 - 1)) 5381 s.

Fixpoint switch {A} (cases : list (String.string * A)) (s : bytes) : option A :=
  match cases with
  | [] => None
  | (l, a) :: cases => if strhash s =? strhash (lit l) then Some a else switch cases s
  end.

(** ** [std::regex_search] for groups of digits with colons between them *)

(** The longest run of digits. *)
Fixpoint span_digits (b : bytes) : bytes * bytes :=
  match b with
  | [] => ([], [])
  | c :: b' => if is_digit c then let '(d, r) := span_digits b' in (c :: d, r) else ([], b)
  end.

(** The match of [n] further groups, at the front. *)
Fixpoint match_groups (n : nat) (b : bytes) : option (list bytes) :=
  let '(d, r) := span_digits b in
  match d, n with
  | [], _ => None
  | _, O => Some [d]
  | _, S n =>
      match r with
      | c :: r => if decide (c = colon) then gs ← match_groups n r; Some (d :: gs) else None
      | [] => None
      end
  end.

Fixpoint regex_search (n : nat) (b : bytes) : option (list bytes) :=
  match match_groups n b with
  | Some gs => Some gs
  | None => match b with [] => None | _ :: b => regex_search n b end
  end.

(** ** The policies *)

Inductive file_policy := Lowest_load | Random_assign | Active (a : active_lowest_load).

(** The error margin of a moving interval is a percentage. *)
Inductive keepalive_policy := Const_time (waittime : Z) | Moving (k : moving_interval) (margin : Z)
| Moving_global (k : moving_global) (margin : Z).

Inductive file_name := lowest_load_name | random_assign_name | active_name.
Definition file_cases : list (String.string * file_name) :=
  [("lowest-load", lowest_load_name); ("random-assign", random_assign_name); ("active-load-balance", active_name)]%string.

(** The arguments are not looked at. *)
Definition set_policy_filetoworker (policy args : bytes) : outcome file_policy :=
  match switch file_cases policy with
  | Some lowest_load_name => Ok Lowest_load
  | Some random_assign_name => Ok Random_assign
  | Some active_name => Ok (Active (mk_active ∅ (replicate 32 x00) ∅ ∅))
  | None => Throws
  end.

Inductive launch_name := const_average_load_name | max_queue_name | single_request_name | fix_pool_name.
Definition launch_cases : list (String.string * launch_name) :=
  [("const-average-load", const_average_load_name); ("max-queue", max_queue_name);
   ("single-request", single_request_name); ("fix-pool", fix_pool_name)]%string.

(** The groups of the regular expression of [n + 1] groups; no match is an exception. *)
Definition groups (n : nat) (args : bytes) : outcome (list bytes) := or_throw (regex_search n args).

Definition group (i : nat) (match_ : list bytes) : bytes := default [] (match_ !! i).

Definition set_policy_launch (now : Z) (policy args : bytes) : outcome launch_policy :=
  match switch launch_cases policy with
  | Some const_average_load_name =>
      match_ ← groups 1 args; a ← stoi (group 0 match_); b ← stoull (group 1 match_);
      Ok (new_const_average_load now a b)
  | Some max_queue_name =>
      match_ ← groups 1 args; a ← stoi (group 0 match_); b ← stoull (group 1 match_);
      Ok (new_max_queue a b)
  | Some single_request_name => match_ ← groups 0 args; a ← stoi (group 0 match_); Ok (new_single_request a)
  | Some fix_pool_name =>
      match_ ← groups 1 args; a ← stoi (group 0 match_); b ← stoi (group 1 match_);
      Ok (new_fix_pool a b)
  | None => Throws
  end.

Inductive keepalive_name := const_time_name | moving_interval_name | moving_interval_global_name.
Definition keepalive_cases : list (String.string * keepalive_name) :=
  [("const-time", const_time_name); ("moving-interval", moving_interval_name);
   ("moving-interval-global", moving_interval_global_name)]%string.

Definition four_numbers (args : bytes) : outcome (Z * Z * Z * Z) :=
  match_ ← groups 3 args;
  a ← stoi (group 0 match_); b ← stoi (group 1 match_); c ← stoi (group 2 match_); d ← stoi (group 3 match_);
  Ok (a, b, c, d).

Definition set_policy_keepalive (policy args : bytes) : outcome keepalive_policy :=
  match switch keepalive_cases policy with
  | Some const_time_name => ms ← stoi args; Ok (Const_time (u32 ms))
  | Some moving_interval_name =>
      '(size, wait, threshold, margin) ← four_numbers args;
      Ok (Moving (mk_moving (Z.to_nat size) wait threshold ∅ ∅) margin)
  | Some moving_interval_global_name =>
      '(size, wait, threshold, margin) ← four_numbers args;
      Ok (Moving_global (mk_moving_global (new_sma_global (Z.to_nat size)) true wait threshold 0) margin)
  | None => Throws
  end.

(** ** [main] *)

(** The options; [None] has no default and was not given.  [server_id] is the position
    times 255, rounded down, when the position is from 0 to 1. *)
Record options := mk_options {
  help : bool; listen : Z; verbose : option bytes; new_cluster : bool; server_id : option Z; announce : option bytes;
  report : bytes;
  policy_filetoworker : option bytes; policy_filetoworker_args : bytes;
  policy_launch : option bytes; policy_launch_args : bytes;
  policy_keepalive : option bytes; policy_keepalive_args : bytes;
  enable_direct_connection : bool; enable_cache : bool; enable_log_history : bool;
  cache_size : Z; cache_policy : bytes; worker_config : option bytes;
  shutdown : Z; max_function_count : Z; blocksize : Z
}.

(** A proxy that runs; [level] is the severity from which records are logged, [info] is 2. *)
Record running := mk_running {
  level : Z; id : bytes; listens : Z; files : file_policy; launch : launch_policy; keepalive : keepalive_policy;
  post_string : bytes; max_func_count : Z; direct : bool; history : bool; report_file : bytes;
  announce_buf : bytes; resets : bool; shutdown_after : option Z
}.

Inductive ends := Exit (code : Z) | Runs (p : running).

Section main.
Variable sha256 : bytes -> bytes.
(** The contents of a file that can be opened. *)
Variable file : bytes -> option bytes.
(** [boost::format] with its arguments; it throws when their number is wrong. *)
Variable format : bytes -> list bytes -> outcome bytes.

(** [gen_uuid_static_seed]: the generator it seeds is not used. *)
Definition gen_uuid_static_seed (any : bytes) : bytes := sha256 any.

Definition choose_id (location : option Z) (announce : bytes) : bytes :=
  match location with
  | Some n => byte_of n :: replicate 31 x00
  | None => gen_uuid_static_seed announce
  end.

(** An [int] in decimal. *)
Definition decimal (z : Z) : bytes := if z <? 0 then x2d :: to_string (- z) else to_string z.

Definition announcement (announce : bytes) (port : Z) : bytes :=
  announce ++ [colon] ++ to_string port ++ [colon] ++ to_string 1.

(** The option that is asked for is not the one that was declared, so [verbosity_values]
    is what follows [--verbose]. *)
Definition log_level (o : options) : Z := 2 - Z.of_nat (length (default [] o.(verbose))).

Definition cache_bytes (megabytes : Z) : outcome Z :=
  let b := megabytes * 1024 * 1024 in if decide (- 2 ^ 31 <= b < 2 ^ 31) then Ok b else Undefined.

(** [now] is the time at which the launch policy is made. *)
Definition main (now : Z) (o : options) : outcome ends :=
  if o.(help) then Ok (Exit 0)
  else
    announce ← or_throw o.(announce);
    cache_size ← cache_bytes o.(cache_size);
    let id := choose_id o.(server_id) announce in
    path ← or_throw o.(worker_config);
    match file path with
    | None => Ok (Exit 1)
    | Some template =>
        config ← format template [announce; to_string o.(listen); decimal o.(blocksize);
          lit (if o.(enable_cache) then "true" else "false"); decimal cache_size; o.(cache_policy)];
        f ← or_throw o.(policy_filetoworker); files ← set_policy_filetoworker f o.(policy_filetoworker_args);
        l ← or_throw o.(policy_launch); launch ← set_policy_launch now l o.(policy_launch_args);
        k ← or_throw o.(policy_keepalive); keepalive ← set_policy_keepalive k o.(policy_keepalive_args);
        Ok (Runs (mk_running (log_level o) id o.(listen) files launch keepalive config o.(max_function_count)
          o.(enable_direct_connection) o.(enable_log_history) o.(report)
          (announcement announce o.(listen)) o.(new_cluster)
          (if o.(shutdown) =? 0 then None else Some o.(shutdown))))
    end.

End main.

(** ** The regular expression *)

Definition all_digits (b : bytes) : Prop := Forall (fun c => is_digit c = true) b.
Definition stops (b : bytes) : Prop := match b with [] => True | c :: _ => is_digit c = false end.

Fixpoint colons (gs : list bytes) : bytes :=
  match gs with
  | [] => []
  | [g] => g
  | g :: gs => g ++ [colon] ++ colons gs
  end.

(** A place where the expression of [n + 1] groups matches. *)
Definition occurrence (n : nat) (pre : bytes) (gs : list bytes) (post s : bytes) : Prop :=
  s = pre ++ colons gs ++ post /\ length gs = S n /\ Forall (fun g => g <> [] /\ all_digits g) gs.

Lemma colon_not_digit : is_digit colon = false.
Proof. reflexivity. Qed.

Lemma span_digits_spec b : b = (span_digits b).1 ++ (span_digits b).2 /\ all_digits (span_digits b).1 /\ stops (span_digits b).2.
Proof.
  unfold all_digits. induction b as [|c b IH]; cbn [span_digits]; [done|]. destruct (is_digit c) eqn:Ec; [|by split_and!].
  destruct (span_digits b) as [d r]. cbn [fst snd] in *. destruct IH as (-> & Hd & Hr). split_and!; [done|by constructor|done].
Qed.

Lemma span_digits_app d r : all_digits d -> stops r -> span_digits (d ++ r) = (d, r).
Proof.
  unfold all_digits. intros Hd Hr. induction Hd as [|c d Hc _ IH]; cbn [app span_digits].
  - destruct r as [|c r]; [done|]. cbn [stops] in Hr. cbn [span_digits]. by rewrite Hr.
  - by rewrite Hc, IH.
Qed.

(** Digits in front of something else are a part of the longest run. *)
Lemma digits_prefix g r d r' : all_digits g -> all_digits d -> stops r' -> g ++ r = d ++ r' -> exists k, d = g ++ k.
Proof.
  unfold all_digits. revert d. induction g as [|c g IH]; intros [|c' d] Hg Hd Hr E; cbn in E.
  - by exists [].
  - by eexists.
  - destruct r' as [|x r']; [done|]. injection E as -> _. apply Forall_cons in Hg as [Hc _]. cbn in Hr. congruence.
  - injection E as -> E. apply Forall_cons in Hg as [_ Hg]. apply Forall_cons in Hd as [_ Hd].
    destruct (IH d Hg Hd Hr E) as [k ->]. by exists k.
Qed.

Lemma colons_cons g gs : gs <> [] -> colons (g :: gs) = g ++ colon :: colons gs.
Proof. by destruct gs. Qed.

(** The groups at the front: they match if anything does, and are the longest. *)
Lemma match_groups_spec n s :
  match match_groups n s with
  | Some gs => exists post, occurrence n [] gs post s /\ stops post /\
                 forall gs' post', occurrence n [] gs' post' s -> (length post <= length post')%nat
  | None => forall gs post, ~ occurrence n [] gs post s
  end.
Proof.
  revert s. induction n as [|n IH]; intros s; cbn [match_groups]; pose proof (span_digits_spec s) as (Es & Hd & Hr);
    destruct (span_digits s) as [d r]; cbn [fst snd] in *; subst s.
  - destruct d as [|c d].
    { intros [|g gs] post (E & Hl & Hg); [done|]. apply Forall_cons in Hg as [[Hne Hg] _]. destruct gs; [|done].
      destruct (digits_prefix g post [] r Hg Hd Hr) as [k Ek]; [done|]. by destruct g. }
    exists r. split_and!; [by split_and!; [| |constructor]|done|].
    intros [|g [|]] post (E & Hl & Hg); try done. apply Forall_cons in Hg as [[Hne Hg] _]. cbn [colons] in E. rewrite app_nil_l in E.
    symmetry in E. destruct (digits_prefix g post (c :: d) r Hg Hd Hr E) as [k Ek]. rewrite Ek, <- (assoc_L (++)) in E.
    apply app_inv_head in E as ->. rewrite length_app. lia.
  - assert (forall gs post, occurrence (S n) [] gs post (d ++ r) -> d <> [] /\
      exists r' gs', r = colon :: r' /\ gs = d :: gs' /\ occurrence n [] gs' post r') as Hinv.
    { intros [|g [|g' gs]] post (E & Hl & Hg); try done. apply Forall_cons in Hg as [[Hne Hg] Hgs].
      rewrite colons_cons in E by done. cbn [app] in E. rewrite <- !(assoc_L (++)) in E.
      destruct (digits_prefix g (colon :: colons (g' :: gs) ++ post) d r Hg Hd Hr) as [k ->]; [by rewrite E|].
      rewrite <- !(assoc_L (++)) in E. apply app_inv_head in E. destruct k as [|x k].
      - rewrite app_nil_r. split; [done|]. cbn [app] in E. exists (colons (g' :: gs) ++ post), (g' :: gs). split_and!; [done|done|].
        split_and!; [done|cbn in *; lia|done].
      - apply Forall_app in Hd as [_ Hd]. apply Forall_cons in Hd as [Hx _]. injection E as -> _. by rewrite colon_not_digit in Hx. }
    destruct d as [|c d]; [intros gs post Ho; by apply Hinv in Ho as [? _]|].
    destruct r as [|x r]; [intros gs post Ho; by apply Hinv in Ho as (_ & ? & ? & ? & _)|].
    destruct (decide (x = colon)) as [->|Hx]; [|intros gs post Ho; apply Hinv in Ho as (_ & ? & ? & ? & _); congruence].
    specialize (IH r). destruct (match_groups n r) as [gs|]; cbn [mbind option_bind].
    + destruct IH as (post & (E & Hl & Hg) & Hs & Hmax). exists post. split_and!; [|done|].
      * split_and!; [|cbn; lia|by constructor]. rewrite colons_cons by (by destruct gs). cbn [app] in *. rewrite E at 1.
        by rewrite <- (assoc_L (++)).
      * intros gs' post' Ho. apply Hinv in Ho as (_ & r' & gs'' & [= <-] & -> & Ho). by eapply Hmax.
    + intros gs post Ho. apply Hinv in Ho as (_ & r' & gs' & [= <-] & -> & Ho). by eapply IH.
Qed.

Lemma match_groups_colons gs post : gs <> [] -> Forall (fun g => g <> [] /\ all_digits g) gs -> stops post ->
  match_groups (length gs - 1) (colons gs ++ post) = Some gs.
Proof.
  intros Hne Hgs Hp. induction Hgs as [|g gs [Hg Hd] Hgs IH]; [done|]. destruct gs as [|g' gs].
  - cbn [colons length Nat.sub match_groups]. rewrite span_digits_app by done. by destruct g.
  - rewrite colons_cons by done. cbn [length Nat.sub match_groups]. rewrite <- (assoc_L (++)), span_digits_app by done.
    specialize (IH ltac:(done)). cbn [length Nat.sub] in IH. rewrite Nat.sub_0_r in IH. destruct g as [|c g]; [done|].
    cbn [app]. rewrite decide_True by done. by rewrite IH.
Qed.

(** Text without digits in front is passed over. *)
Lemma search_skips n pre s : Forall (fun c => is_digit c = false) pre -> regex_search n (pre ++ s) = regex_search n s.
Proof.
  induction 1 as [|c pre Hc _ IH]; [done|]. cbn [app regex_search].
  assert (match_groups n (c :: pre ++ s) = None) as -> by (destruct n; cbn [match_groups span_digits]; by rewrite Hc). exact IH.
Qed.

Lemma search_colons pre gs post : gs <> [] -> Forall (fun c => is_digit c = false) pre -> Forall (fun g => g <> [] /\ all_digits g) gs ->
  stops post -> regex_search (length gs - 1) (pre ++ colons gs ++ post) = Some gs.
Proof.
  intros Hne Hpre Hgs Hp. rewrite search_skips by done. pose proof (match_groups_colons gs post Hne Hgs Hp) as E.
  destruct (colons gs ++ post); cbn [regex_search]; by rewrite E.
Qed.

(** ** What [main] makes *)

Lemma to_string_all_digits z : to_string z <> [] /\ all_digits (to_string z).
Proof. split; [destruct (to_string_cons z) as (d & r & ->); done|apply to_string_digits]. Qed.

(** Two numbers, as the policies read them. *)
Lemma two_numbers pre a b post : Forall (fun c => is_digit c = false) pre -> stops post ->
  groups 1 (pre ++ colons [to_string a; to_string b] ++ post) = Ok [to_string a; to_string b].
Proof.
  intros Hpre Hp. unfold groups. change 1%nat with (length [to_string a; to_string b] - 1)%nat.
  rewrite search_colons; [done|done|done| |done]. repeat constructor; apply to_string_all_digits.
Qed.

Lemma one_number pre a post : Forall (fun c => is_digit c = false) pre -> stops post ->
  groups 0 (pre ++ to_string a ++ post) = Ok [to_string a].
Proof.
  intros Hpre Hp. unfold groups. change 0%nat with (length [to_string a] - 1)%nat.
  change (to_string a ++ post) with (colons [to_string a] ++ post).
  rewrite search_colons; [done|done|done| |done]. repeat constructor; apply to_string_all_digits.
Qed.

Lemma digits_nonneg acc b : 0 <= acc -> 0 <= (parse_digits acc b).1.
Proof.
  revert acc. induction b as [|c b IH]; intros acc Ha; cbn [parse_digits]; [done|].
  destruct (is_digit c) eqn:Ec; [|done]. apply IH. unfold is_digit in Ec. lia.
Qed.

Lemma stoi_group_nonneg n args match_ i z : groups n args = Ok match_ -> stoi (group i match_) = Ok z -> 0 <= z.
Proof.
  unfold groups, group. intros Eg Ez. destruct (match_ !! i) as [g|] eqn:Ei; cbn [default] in Ez; [|done].
  assert (g <> [] /\ all_digits g) as [Hne Hg].
  { clear Ez z. revert match_ i g Ei Eg. induction args as [|c args IH]; intros match_ i g Ei Eg; cbn [regex_search] in Eg.
    - destruct n; done.
    - pose proof (match_groups_spec n (c :: args)) as Hs. destruct (match_groups n (c :: args)) as [gs|]; [|by eapply IH].
      destruct Hs as (post & (_ & _ & Hf) & _). injection Eg as <-. rewrite Forall_lookup in Hf. by eapply Hf. }
  unfold stoi, stoll in Ez. destruct g as [|d g]; [done|]. pose proof (Forall_inv Hg) as Hd. cbn beta in Hd.
  destruct (is_digit_not_space d Hd) as (Hs & Hm & Hp). change (Datatypes.id (d :: g)) with (d :: g) in Ez. cbn [skip_space] in Ez. rewrite Hs, Hm, Hp, Hd in Ez.
  pose proof (digits_nonneg 0 (d :: g) ltac:(lia)) as Hn. cbv zeta in Ez.
  case_decide; cbn [or_throw mbind outcome_bind] in Ez; [|done]. case_decide; [|done]. by injection Ez as <-.
Qed.

(** How many groups of digits the arguments of a launch policy have, less one. *)
Definition further_groups (k : launch_name) : nat := match k with single_request_name => 0 | _ => 1 end.

(** Launch policies begin with no worker being started, with the first number of their
    arguments as the maximum, and a fixed pool with the second one as its size. *)
Lemma set_policy_launch_begins now policy args p : set_policy_launch now policy args = Ok p ->
  exists k match_ a, switch launch_cases policy = Some k /\ regex_search (further_groups k) args = Some match_ /\
    stoi (group 0 match_) = Ok a /\ 0 <= a /\
    p.(base_).(starting_worker_count_) = 0 /\ p.(base_).(max_outstanding_starting_request_) = a /\
    (p.(class_) = fix_pool <-> k = fix_pool_name) /\
    (k = fix_pool_name -> exists b, stoi (group 1 match_) = Ok b /\ 0 <= b /\ p.(base_).(default_pool_value_) = b).
Proof.
  unfold set_policy_launch. intros E. destruct (switch launch_cases policy) as [k|]; [|done]. exists k.
  assert (exists match_ a, regex_search (further_groups k) args = Some match_ /\ stoi (group 0 match_) = Ok a /\ 0 <= a) as (match_ & a & Eg & Ea & Ha).
  { destruct k; destruct (groups _ args) as [match_| |] eqn:Eg; try done; cbn [mbind outcome_bind] in E;
      (destruct (stoi (group 0 match_)) as [a| |] eqn:Ea; [|done..]); exists match_, a;
      (split; [unfold groups in Eg; cbn [further_groups]; destruct (regex_search _ _); [by injection Eg as ->|done]|]);
      (split; [done|by eapply stoi_group_nonneg]). }
  exists match_, a. split; [done|]. split; [done|]. split; [done|]. split; [done|]. unfold groups in E.
  destruct k; cbn [further_groups] in Eg; rewrite Eg in E; cbn [or_throw mbind outcome_bind] in E; rewrite Ea in E; cbn [mbind outcome_bind] in E.
  1,2: destruct (stoull _); try done; injection E as <-; by split_and!.
  - injection E as <-. by split_and!.
  - destruct (stoi (group 1 match_)) as [b| |] eqn:Eb; [|done..]. cbn [mbind outcome_bind] in E. injection E as <-. split_and!; [done..|].
    intros _. exists b. split_and!; [done| |done]. apply (stoi_group_nonneg 1 args match_ 1); [unfold groups; by rewrite Eg|done].
Qed.

Lemma main_launch sha256 file format now o r : main sha256 file format now o = Ok (Runs r) ->
  exists policy, o.(policy_launch) = Some policy /\ set_policy_launch now policy o.(policy_launch_args) = Ok r.(launch).
Proof.
  unfold main. intros E. destruct o.(help); [done|].
  repeat match type of E with
  | (x ← or_throw ?a; _) = _ => destruct a eqn:?; cbn [or_throw mbind outcome_bind] in E; [|done]
  | (x ← ?a; _) = _ => destruct a eqn:?; cbn [mbind outcome_bind] in E; [|done..]
  | match ?a with _ => _ end = _ => destruct a; [|done]
  end. injection E as <-. cbn. eauto.
Qed.

(** ** Properties *)

(** The search of the regular expressions of the policies is the leftmost, longest
    match: what it finds is an occurrence, none begins earlier, none that begins there
    ends later; and when it finds nothing there is no occurrence. *)
Theorem search_leftmost n s :
  match regex_search n s with
  | Some gs => exists pre post, occurrence n pre gs post s /\
      forall pre' gs' post', occurrence n pre' gs' post' s ->
        (length pre < length pre' \/ length pre = length pre' /\ length post <= length post')%nat
  | None => forall pre gs post, ~ occurrence n pre gs post s
  end.
Proof.
  induction s as [|c s IH]; cbn [regex_search].
  - pose proof (match_groups_spec n []) as Hs. destruct (match_groups n []) as [gs|].
    + destruct Hs as (post & Ho & _ & Hmax). exists [], post. split; [done|]. intros [|? pre'] gs' post' (E & ?); [|done].
      right. split; [done|]. eapply Hmax. by split.
    + intros [|? pre] gs post (E & ?); [|done]. apply (Hs gs post). by split.
  - pose proof (match_groups_spec n (c :: s)) as Hs. destruct (match_groups n (c :: s)) as [gs|].
    + destruct Hs as (post & Ho & _ & Hmax). exists [], post. split; [done|]. intros [|? pre'] gs' post' (E & ?); [|left; cbn; lia].
      right. split; [done|]. eapply Hmax. by split.
    + destruct (regex_search n s) as [gs|].
      * destruct IH as (pre & post & (E & Ho) & Hmax). exists (c :: pre), post. split; [split; [cbn; by rewrite E at 1|done]|].
        intros [|x pre'] gs' post' (E' & Ho'); [destruct (Hs gs' post'); by split|]. injection E' as _ E'.
        destruct (Hmax pre' gs' post') as [?|[? ?]]; [by split|left; cbn; lia|right; cbn; lia].
      * intros [|x pre] gs post (E & Ho); [apply (Hs gs post); by split|]. injection E as _ E. apply (IH pre gs post). by split.
Qed.

(** The parameters of a launch policy are read back from the text they are written as,
    with anything but digits around it. *)
Theorem launch_args_read_back now pre post a b
    (Hpre : Forall (fun c => is_digit c = false) pre) (Hpost : stops post)
    (Ha : 0 <= a < 2 ^ 31) (Hb : 0 <= b < 2 ^ 64) :
  let args := pre ++ colons [to_string a; to_string b] ++ post in
  set_policy_launch now (lit "const-average-load") args = Ok (new_const_average_load now a b) /\
  set_policy_launch now (lit "max-queue") args = Ok (new_max_queue a b) /\
  set_policy_launch now (lit "fix-pool") args = (if b <? 2 ^ 31 then Ok (new_fix_pool a b) else Throws) /\
  set_policy_launch now (lit "single-request") (pre ++ to_string a ++ post) = Ok (new_single_request a).
Proof.
  intros args. unfold set_policy_launch.
  change (switch launch_cases (lit "const-average-load")) with (Some const_average_load_name).
  change (switch launch_cases (lit "max-queue")) with (Some max_queue_name).
  change (switch launch_cases (lit "fix-pool")) with (Some fix_pool_name).
  change (switch launch_cases (lit "single-request")) with (Some single_request_name). cbv iota.
  unfold args. rewrite two_numbers, one_number by done. cbn [mbind outcome_bind].
  change (group 0 [to_string a; to_string b]) with (to_string a). change (group 1 [to_string a; to_string b]) with (to_string b).
  change (group 0 [to_string a]) with (to_string a). rewrite stoi_to_string, stoull_to_string by done. split_and!; [done|done| |done].
  destruct (Z.ltb_spec b (2 ^ 31)) as [Hlt|Hge].
  - cbn [mbind outcome_bind]. by rewrite stoi_to_string by lia.
  - cbn [mbind outcome_bind]. assert (stoi (to_string b) = Throws) as ->; [|done].
    unfold stoi. destruct (decide (b < 2 ^ 63)) as [H63|H63].
    + rewrite stoll_to_string by lia. cbn [or_throw mbind outcome_bind]. by rewrite decide_False by lia.
    + unfold stoll. destruct (to_string_cons b) as (d & r & E). pose proof (to_string_digits b) as Hd. pose proof (parse_to_string b ltac:(lia)) as Hp.
      rewrite E in *. apply Forall_inv in Hd. destruct (is_digit_not_space d Hd) as (Hs & Hm & Hpl). cbn [skip_space].
      rewrite Hs, Hm, Hpl, Hd, Hp. cbv zeta. by rewrite decide_False by lia.
Qed.

(** C31. A proxy that has started keeps its starts of workers within the numbers its
    launch policy was given: [main] refuses arguments without them, and in every run in
    which a second is enough for the handlers that a tick posts, the workers started and
    awaited, less those that connected without being started here, are at most the first
    number of the arguments, and with [fix-pool] the workers are at most the second one
    less this number; it is not negative while only workers that the proxy started connect
    ([own]).  The numbers are the ones found leftmost in the arguments (see
    [search_leftmost]). *)
Theorem started_pools_bounded sha256 file format now o r own s
    (Hm : main sha256 file format now o = Ok (Runs r)) (Hr : pool_reaches own (mk_pool r.(launch) 0 0 0) s) :
  exists policy k match_ a, o.(policy_launch) = Some policy /\ switch launch_cases policy = Some k /\
    regex_search (further_groups k) o.(policy_launch_args) = Some match_ /\ stoi (group 0 match_) = Ok a /\
    awaited s <= a /\ 0 <= s.(workers_) /\ (own = true -> 0 <= awaited s) /\
    (k = fix_pool_name -> exists b, stoi (group 1 match_) = Ok b /\ s.(workers_) + awaited s <= b).
Proof.
  destruct (main_launch _ _ _ _ _ _ Hm) as (policy & Ep & E).
  apply set_policy_launch_begins in E as (k & match_ & a & Ek & Eg & Ea & Ha & H1 & H2 & H3 & H4).
  destruct (starts_in_bounds own r.(launch) 0 s H1 ltac:(lia) ltac:(lia)) as (B1 & B2 & B3 & B4); [|done|].
  - intros Hk%H3. destruct (H4 Hk) as (b & _ & ? & ?). lia.
  - exists policy, k, match_, a. split_and!; [done..|lia|done|done|]. intros Hk. destruct (H4 Hk) as (b & Eb & _ & <-).
    exists r.(launch).(base_).(default_pool_value_). split; [done|]. by apply B3, H3.
Qed.

(** What a proxy announces is read back: clients find its host, its port and that it is
    alive; another proxy looks for the service [port:1] at the host, which is the port and
    the liveliness behind it. *)
Theorem announcement_read_back (resolve : bytes -> bytes -> option endpoint) (nodes : gmap bytes bytes) cache child announce port
    (Ha : colon ∉ announce) (Hp : 0 <= port < 2 ^ 16) (Hn : nodes !! child = Some (announcement announce port)) (Hc : cache !! child = None) :
  parse_details (announcement announce port) = Some (announce, to_string port, 1) /\
  get_details resolve nodes cache child = (e ← resolve announce (to_string port); Some (<[child := e]> cache, 1)) /\
  client_get_uuid resolve nodes cache child = (e ← resolve announce (to_string port); Some (<[child := e]> cache, e)) /\
  proxy_get_uuid resolve nodes cache child
  = (e ← resolve announce (to_string port ++ [colon] ++ to_string 1); Some (<[child := e]> cache, e)).
Proof.
  assert (forall a b, colon ∉ a -> split_at colon (a ++ [colon] ++ b) = Some (a, b)) as Hsplit.
  { intros a b Hin. induction a as [|c a IH]; cbn [app split_at]; [by rewrite decide_True|].
    apply not_elem_of_cons in Hin as [Hne Hin]. rewrite decide_False by congruence. cbn [app] in IH. by rewrite IH. }
  assert (colon ∉ to_string port) as Hd.
  { intros Hin. pose proof (to_string_digits port) as Hf. rewrite Forall_forall in Hf. specialize (Hf _ Hin). discriminate Hf. }
  assert (parse_details (announcement announce port) = Some (announce, to_string port, 1)) as Ep.
  { unfold parse_details, announcement. rewrite Hsplit by done. cbn [mbind option_bind]. rewrite Hsplit by done. cbn [mbind option_bind].
    rewrite stoll_to_string by lia. reflexivity. }
  split_and!; [done|..].
  - unfold get_details. rewrite Hc, Hn. cbn [mbind option_bind]. by rewrite Ep.
  - unfold client_get_uuid. rewrite Hc, Hn. cbn [mbind option_bind]. unfold announcement. rewrite Hsplit by done. cbn [mbind option_bind].
    by rewrite Hsplit by done.
  - unfold proxy_get_uuid. rewrite Hc, Hn. cbn [mbind option_bind]. unfold announcement. by rewrite Hsplit by done.
Qed.

(** What [main] refuses: no address to announce is an exception, a cache of 2048
    megabytes or more overflows, a configuration that cannot be opened ends with 1, and
    policies that are missing or unknown, or whose arguments do not match, are exceptions;
    nothing runs then. *)
Theorem start_refused sha256 file format now o (Hh : o.(help) = false) :
  (o.(announce) = None -> main sha256 file format now o = Throws) /\
  forall a, o.(announce) = Some a ->
    (2048 <= o.(cache_size) -> main sha256 file format now o = Undefined) /\
    (0 <= o.(cache_size) < 2048 ->
      (o.(worker_config) = None -> main sha256 file format now o = Throws) /\
      forall path, o.(worker_config) = Some path ->
        (file path = None -> main sha256 file format now o = Ok (Exit 1)) /\
        (is_Some (file path) ->
          (forall t l, format t l <> Undefined) ->
          (forall f, o.(policy_filetoworker) = Some f -> set_policy_filetoworker f o.(policy_filetoworker_args) = Throws) \/
          (forall l, o.(policy_launch) = Some l -> set_policy_launch now l o.(policy_launch_args) = Throws) \/
          (forall k, o.(policy_keepalive) = Some k -> set_policy_keepalive k o.(policy_keepalive_args) = Throws) ->
          main sha256 file format now o = Throws)).
Proof.
  unfold main. rewrite Hh. split; [by intros ->|]. intros a ->. cbn [or_throw mbind outcome_bind].
  unfold cache_bytes. cbv zeta. split; [intros Hc; by rewrite decide_False by lia|]. intros Hc. rewrite decide_True by lia. cbn [mbind outcome_bind].
  split; [by intros ->|]. intros path ->. cbn [or_throw mbind outcome_bind]. split; [by intros ->|]. intros [t ->] Hf Hpol.
  destruct (format t _) eqn:Ef; cbn [mbind outcome_bind]; [|done|by apply Hf in Ef].
  assert (forall policy args, set_policy_filetoworker policy args <> Undefined) as H1.
  { intros p args. unfold set_policy_filetoworker. by destruct (switch file_cases p) as [[]|]. }
  assert (forall policy args, set_policy_launch now policy args <> Undefined) as H2.
  { intros p args. unfold set_policy_launch, groups. destruct (switch launch_cases p) as [[]|]; [eauto 10 with outcome..|done]. }
  destruct (policy_filetoworker o) as [f|]; cbn [or_throw mbind outcome_bind]; [|done].
  destruct (set_policy_filetoworker f _) eqn:E1; cbn [mbind outcome_bind]; [|done|by apply H1 in E1].
  destruct (policy_launch o) as [l|]; cbn [or_throw mbind outcome_bind]; [|done].
  destruct (set_policy_launch now l _) eqn:E2; cbn [mbind outcome_bind]; [|done|by apply H2 in E2].
  destruct (policy_keepalive o) as [k|]; cbn [or_throw mbind outcome_bind]; [|done].
  destruct Hpol as [H|[H|H]]; [by rewrite (H _ eq_refl) in E1|by rewrite (H _ eq_refl) in E2|by rewrite (H _ eq_refl)].
Qed.

(** The id of a proxy without a position does not depend on its port: two proxies of one
    host are one node of the ring. *)
Lemma one_id_per_host sha256 file format now o o' r r' : main sha256 file format now o = Ok (Runs r) ->
  main sha256 file format now o' = Ok (Runs r') -> o.(announce) = o'.(announce) ->
  o.(server_id) = None -> o'.(server_id) = None -> r.(id) = r'.(id).
Proof.
  assert (forall o r, main sha256 file format now o = Ok (Runs r) -> exists a, o.(announce) = Some a /\ r.(id) = choose_id sha256 o.(server_id) a) as Hid.
  { clear. intros o r. unfold main. intros E. destruct o.(help); [done|].
    destruct o.(announce) as [a|]; cbn [or_throw mbind outcome_bind] in E; [|done]. exists a. split; [done|].
    repeat match type of E with
    | (x ← or_throw ?a; _) = _ => destruct a eqn:?; cbn [or_throw mbind outcome_bind] in E; [|done]
    | (x ← ?a; _) = _ => destruct a eqn:?; cbn [or_throw mbind outcome_bind] in E; [|done..]
    | match ?a with _ => _ end = _ => destruct a; [|done]
    end. by injection E as <-. }
  intros (a & Ea & ->)%Hid (a' & Ea' & ->)%Hid Eo -> ->. unfold choose_id. congruence.
Qed.

(** ** A proxy *)

(** [proxy --announce h --listen 12000 --policy-launch fix-pool --policy-launch-args 2:3 ...] *)
Definition sample_options : options := mk_options false 12000 None true None (Some (lit "10.0.0.7")) (lit "/dev/null")
  (Some (lit "lowest-load")) [] (Some (lit "fix-pool")) (lit "2:3") (Some (lit "moving-interval")) (lit "10:5000:5:20")
  false true false 100 (lit "LRU") (Some (lit "config.json")) 0 1 4096.

Definition sample_file (path : bytes) : option bytes := if decide (path = lit "config.json") then Some (lit "%1%:%2%") else None.
Definition sample_format (t : bytes) (args : list bytes) : outcome bytes := Ok (concat args).

Example sample_start : exists r, main (fun b => b) sample_file sample_format 0 sample_options = Ok (Runs r) /\
  r.(launch) = new_fix_pool 2 3 /\ r.(keepalive) = Moving (mk_moving 10 5000 5 ∅ ∅) 20 /\ r.(announce_buf) = lit "10.0.0.7:12000:1".
Proof. eexists. split_and!; vm_compute; reflexivity. Qed.

Lemma launch_args_read_back_witness :
  set_policy_launch 0 (lit "max-queue") (lit "args=" ++ colons [to_string 12; to_string 345] ++ lit "; ") = Ok (new_max_queue 12 345).
Proof.
  apply (launch_args_read_back 0 (lit "args=") (lit "; ") 12 345); [|reflexivity|lia|lia].
  by repeat constructor.
Defined.

Lemma started_pools_bounded_witness :
  exists r s, main (fun b => b) sample_file sample_format 0 sample_options = Ok (Runs r) /\
    pool_execs [Create; Starting; Starting] (mk_pool r.(launch) 0 0 0) = Some s /\ awaited s = 2 /\
    exists match_ a b, regex_search 1 (lit "2:3") = Some match_ /\ stoi (group 0 match_) = Ok a /\ awaited s <= a /\
      stoi (group 1 match_) = Ok b /\ s.(workers_) + awaited s <= b.
Proof.
  destruct (main (fun b => b) sample_file sample_format 0 sample_options) as [[|r]| |] eqn:E; [discriminate E| |discriminate E..].
  assert (r.(launch) = new_fix_pool 2 3) as El by (vm_compute in E; injection E as <-; reflexivity).
  set (s1 := mk_pool (new_fix_pool 2 3) 0 2 0). set (s2 := mk_pool (with_starting 1 (new_fix_pool 2 3)) 0 1 0).
  set (s := mk_pool (with_starting 2 (new_fix_pool 2 3)) 0 0 0).
  exists r, s. split; [reflexivity|]. rewrite El. split; [reflexivity|]. split; [reflexivity|].
  destruct (started_pools_bounded _ _ _ _ _ r true s E) as (policy & k & match_ & a & Ep & Ek & Eg & Ea & Ha & _ & _ & Hb).
  - rewrite El. apply (reaches_step true _ Starting s2); [|reflexivity|done|done].
    apply (reaches_step true _ Starting s1); [|reflexivity|done|done].
    apply (reaches_step true _ Create (mk_pool (new_fix_pool 2 3) 0 0 0)); [apply reaches_start|reflexivity|done|done].
  - injection Ep as <-. assert (k = fix_pool_name) as -> by (vm_compute in Ek; congruence).
    destruct (Hb eq_refl) as (b & Eb & Hsb). exists match_, a, b. by split_and!.
Defined.

Definition sample_resolve (host port : bytes) : option endpoint :=
  if decide (port = lit "12000") then Some (mk_endpoint (lit "ABCD") 12000) else None.

Lemma announcement_read_back_witness :
  client_get_uuid sample_resolve {[ lit "id" := announcement (lit "10.0.0.7") 12000 ]} ∅ (lit "id")
    = Some ({[ lit "id" := mk_endpoint (lit "ABCD") 12000 ]}, mk_endpoint (lit "ABCD") 12000) /\
  proxy_get_uuid sample_resolve {[ lit "id" := announcement (lit "10.0.0.7") 12000 ]} ∅ (lit "id") = None.
Proof.
  destruct (announcement_read_back sample_resolve {[ lit "id" := announcement (lit "10.0.0.7") 12000 ]} ∅ (lit "id") (lit "10.0.0.7") 12000)
    as (_ & _ & E1 & E2); [|lia|apply lookup_singleton_eq|reflexivity|].
  - apply (bool_decide_unpack _). by vm_compute.
  - assert (sample_resolve (lit "10.0.0.7") (to_string 12000) = Some (mk_endpoint (lit "ABCD") 12000)) as R1 by reflexivity.
    assert (sample_resolve (lit "10.0.0.7") (to_string 12000 ++ [colon] ++ to_string 1) = None) as R2 by reflexivity.
    rewrite E1, E2, R1, R2. split; reflexivity.
Defined.

(** The options with another cache and without a policy. *)
Definition with_cache (n : Z) (o : options) : options :=
  mk_options o.(help) o.(listen) o.(verbose) o.(new_cluster) o.(server_id) o.(announce) o.(report)
    o.(policy_filetoworker) o.(policy_filetoworker_args) o.(policy_launch) o.(policy_launch_args) o.(policy_keepalive)
    o.(policy_keepalive_args) o.(enable_direct_connection) o.(enable_cache) o.(enable_log_history) n o.(cache_policy)
    o.(worker_config) o.(shutdown) o.(max_function_count) o.(blocksize).

Lemma start_refused_witness : main (fun b => b) sample_file sample_format 0 (with_cache 2048 sample_options) = Undefined.
Proof.
  destruct (start_refused (fun b => b) sample_file sample_format 0 (with_cache 2048 sample_options) eq_refl) as [_ H].
  destruct (H (lit "10.0.0.7") eq_refl) as [H1 _]. apply H1. cbn. lia.
Defined.
