(* ===== verification/Shell.v ===== *)
(** * The command line ([clients/slsfs-cmd.cpp])

    The program reads words from its input, makes of each command a packet of the client
    library, sends it to the proxy or straight to a data function, and prints what comes
    back.  The transports are those of [Api]. *)
From Stdlib Require Import ZArith Lia.
From stdpp Require Import base tactics option list gmap strings.
From S2P Require Import Prelude Wire KvLog Ssbd Request Stripe Coordinator Cluster Directory Filesystem Cache Launcher Client Worker DataFunction Ring Direct Api Outcome Startup.
Import pack.

(** ** Words *)

(** [std::isspace] in the C locale. *)
Definition is_space (c : byte) : bool := bool_decide (c ∈ [x20; x09; x0a; x0b; x0c; x0d]).

Fixpoint skip_space (b : bytes) : bytes :=
  match b with
  | c :: b' => if is_space c then skip_space b' else b
  | [] => []
  end.

Fixpoint take_word (b : bytes) : bytes * bytes :=
  match b with
  | c :: b' => if is_space c then ([], b) else let '(w, rest) := take_word b' in (c :: w, rest)
  | [] => ([], [])
  end.

(** [std::cin >> word], into a string that is empty; at the end of the input it stays so. *)
Definition next_word (b : bytes) : bytes * bytes := take_word (skip_space b).

(** ** Commands *)

Inductive command :=
| Init | Ls | Mkdir | Addfile | Deletefile | Rename | Write_ | Read_ | Open_ | Close_ | Getstatdir | Getstatfile | Writeaddfile.

#[global] Instance command_eq_dec : EqDecision command.
Proof. solve_decision. Defined.

Definition command_cases : list (String.string * command) :=
  [("init", Init); ("ls", Ls); ("mkdir", Mkdir); ("addfile", Addfile); ("deletefile", Deletefile); ("rename", Rename); ("write", Write_);
   ("read", Read_); ("open", Open_); ("close", Close_); ("getstatdir", Getstatdir); ("getstatfile", Getstatfile); ("writeaddfile", Writeaddfile)]%string.

(** How many words follow the first two. *)
Definition more_words (c : command) : nat := match c with Rename | Read_ | Writeaddfile => 1 | Write_ => 2 | _ => 0 end.

(** The number a command has among its words. *)
Definition number (c : command) (arg2 arg3 : bytes) : outcome Z :=
  match c with Write_ => stoi arg3 | Read_ => stoi arg2 | _ => Ok 0 end.

Section shell.
Context {S : Type} `{Transport S}.
Variable get_uuid : bytes -> bytes.

(** The packet; the position of a write and the size of a read are [std::uint32_t]. *)
Definition make (c : command) (arg1 arg2 : bytes) (n : Z) (salt sequence : bytes) : option packet :=
  match c with
  | Init => Some (packet_create.init_path salt sequence get_uuid arg1)
  | Ls => Some (packet_create.ls_path salt sequence get_uuid arg1)
  | Mkdir => packet_create.mkdir_path salt sequence get_uuid arg1
  | Addfile => packet_create.add_file_v2 salt sequence get_uuid arg1
  | Deletefile => packet_create.delete_file_path salt sequence get_uuid arg1
  | Rename => packet_create.rename_file_path salt sequence get_uuid arg1 arg2
  | Write_ => packet_create.write_v2_path salt sequence get_uuid arg1 arg2 (u32 n)
  | Read_ => packet_create.read_v2_path salt sequence get_uuid arg1 (u32 n) 0
  | Open_ => packet_create.open_path salt sequence get_uuid arg1
  | Close_ => packet_create.close_path salt sequence get_uuid arg1
  | Getstatdir => packet_create.get_stat_dir salt sequence get_uuid arg1
  | Getstatfile => packet_create.get_stat_file salt sequence get_uuid arg1
  | Writeaddfile => packet_create.create_and_write_path salt sequence get_uuid arg1 arg2
  end.

(** How a round ends: with what it printed, because the command is unknown, or with an
    exception, which nothing catches. *)
Inductive round_end := Next (printed : bytes) | Return | Uncaught.

Definition line (resp : bytes) : bytes := resp ++ [x0a].

(** What is done with the packet.  The answer to [open] is taken for an address. *)
Definition exchange (c : command) (request : packet) (w : S) : option (S * round_end) :=
  match c with
  | Open_ =>
      '(w, r) ← send request w;
      match r with
      | None => Some (w, Uncaught)
      | Some resp =>
          endpoint ← parse_address resp;
          let '(w, ok) := add_endpoint endpoint request w in
          Some (w, if ok then Next [] else Uncaught)
      end
  | Read_ | Write_ => '(w, r) ← direct_send request w; Some (w, match r with Some resp => Next (line resp) | None => Uncaught end)
  | _ => '(w, r) ← send request w; Some (w, match r with Some resp => Next (line resp) | None => Uncaught end)
  end.

Definition round (input : bytes) (w : S) : option (bytes * S * round_end) :=
  let '(cmd, input) := next_word input in
  let '(arg1, input) := next_word input in
  match switch command_cases cmd with
  | None => Some (input, w, Return)
  | Some c =>
      let '(arg2, input) := match more_words c with O => ([], input) | _ => next_word input end in
      let '(arg3, input) := match more_words c with 2%nat => next_word input | _ => ([], input) end in
      match number c arg2 arg3 with
      | Ok n =>
          let '(w, (salt, sequence)) := draw w in
          request ← make c arg1 arg2 n salt sequence;
          '(w, e) ← exchange c request w;
          Some (input, w, e)
      | Throws => Some (input, w, Uncaught)
      | Undefined => None
      end
  end.

Definition prompt : bytes := lit "cmd> ".

Inductive shell_end := Reading | Returned | Died.

(** [run], with what it has printed. *)
Fixpoint run (fuel : nat) (input : bytes) (w : S) : option (S * bytes * shell_end) :=
  match fuel with
  | O => Some (w, [], Reading)
  | Datatypes.S fuel =>
      '(input, w, e) ← round input w;
      match e with
      | Next printed => '(w, out, e) ← run fuel input w; Some (w, prompt ++ printed ++ out, e)
      | Return => Some (w, prompt, Returned)
      | Uncaught => Some (w, prompt, Died)
      end
  end.

(** ** The loop ends *)

Lemma skip_space_length b : (length (skip_space b) <= length b)%nat.
Proof. induction b as [|c b IH]; cbn; [done|]. destruct (is_space c); cbn; lia. Qed.

Lemma take_word_length b : (length (take_word b).1 + length (take_word b).2 = length b)%nat.
Proof.
  induction b as [|c b IH]; cbn; [done|]. destruct (is_space c); [done|]. destruct (take_word b). cbn in *. lia.
Qed.

Lemma next_word_length b : (length (next_word b).1 + length (next_word b).2 <= length b)%nat.
Proof. unfold next_word. rewrite take_word_length. apply skip_space_length. Qed.

Lemma switch_empty : switch command_cases [] = None.
Proof. vm_compute. reflexivity. Qed.

Lemma round_consumes input w input' w' printed : round input w = Some (input', w', Next printed) -> (length input' < length input)%nat.
Proof.
  unfold round. pose proof (next_word_length input) as H1. destruct (next_word input) as [cmd i1]. pose proof (next_word_length i1) as H2.
  destruct (next_word i1) as [arg1 i2]. cbn [fst snd] in *. destruct (switch command_cases cmd) as [c|] eqn:Ec; [|done].
  assert (0 < length cmd)%nat. { destruct cmd; [|cbn; lia]. rewrite switch_empty in Ec. discriminate Ec. }
  set (x := match more_words c with O => _ | _ => _ end). assert (length x.2 <= length i2)%nat as H3.
  { subst x. destruct (more_words c); [done|]. pose proof (next_word_length i2). lia. }
  destruct x as [arg2 i3]. set (y := match more_words c with 2%nat => _ | _ => _ end). assert (length y.2 <= length i3)%nat as H4.
  { subst y. destruct (more_words c) as [|[|[|]]]; try done. pose proof (next_word_length i3). lia. }
  destruct y as [arg3 i4]. cbn [fst snd] in *. destruct (number c arg2 arg3) as [n| |]; [|done..]. destruct (draw w) as [w1 [salt sequence]].
  intros (request & _ & ([w2 e] & _ & E)%bind_Some)%bind_Some. injection E as -> -> ->. lia.
Qed.

Lemma run_ends fuel : forall input w w' out e, (length input < fuel)%nat -> run fuel input w = Some (w', out, e) -> e <> Reading.
Proof.
  induction fuel as [|fuel IH]; intros input w w' out e Hl; [lia|]. cbn [run].
  intros ([[input1 w1] e1] & E1 & E)%bind_Some. destruct e1 as [printed| |]; [|by injection E as _ _ <-..].
  apply bind_Some in E as ([[w2 out2] e2] & E2 & E). injection E as <- <- <-. apply round_consumes in E1. eapply IH, E2. lia.
Qed.

(** The answer to [open] is not looked at: any six bytes are an address, those of an error
    text too, and if nobody answers there the program dies. *)
Lemma open_error_is_address request w w' resp : send request w = Some (w', Some resp) -> (6 <= length resp)%nat ->
  exists ep, parse_address resp = Some ep /\
    exchange Open_ request w = Some ((add_endpoint ep request w').1, if (add_endpoint ep request w').2 then Next [] else Uncaught).
Proof.
  intros E Hl. destruct (parse_address_some resp Hl) as [ep Ep]. exists ep. split; [done|]. unfold exchange. rewrite E. cbn [mbind option_bind].
  rewrite Ep. cbn [mbind option_bind]. by destruct (add_endpoint ep request w').
Qed.

(** ** What is typed *)

Definition blank_free (b : bytes) : Prop := b <> [] /\ Forall (fun c => is_space c = false) b.

Lemma take_word_blank_free b s rest : Forall (fun c => is_space c = false) b -> is_space s = true -> take_word (b ++ s :: rest) = (b, s :: rest).
Proof. induction 1 as [|c b Hc Hb IH]; intros Hs; cbn [app take_word]; [by rewrite Hs|]. by rewrite Hc, IH. Qed.

Lemma next_word_typed b s rest : blank_free b -> is_space s = true -> next_word (b ++ s :: rest) = (b, s :: rest).
Proof.
  intros [Hne Hb] Hs. unfold next_word. destruct b as [|c b]; [done|]. pose proof (Forall_inv Hb) as Hc. cbn [app skip_space]. rewrite Hc.
  by apply (take_word_blank_free (c :: b)).
Qed.

Lemma next_word_space s b : is_space s = true -> next_word (s :: b) = next_word b.
Proof. intros Hs. unfold next_word. cbn [skip_space]. by rewrite Hs. Qed.

(** A command with its arguments, on a line. *)
Fixpoint typed (name : bytes) (args : list bytes) : bytes :=
  match args with
  | [] => name ++ [x0a]
  | a :: args => name ++ [x20] ++ typed a args
  end.

(** One with a single argument. *)
Lemma round_one name c arg rest w : switch command_cases name = Some c -> more_words c = O -> blank_free name -> blank_free arg ->
  round (typed name [arg] ++ rest) w =
    let '(w, (salt, sequence)) := draw w in
    request ← make c arg [] 0 salt sequence;
    '(w, e) ← exchange c request w; Some (x0a :: rest, w, e).
Proof.
  intros Hs Hm Hn Ha. unfold round, typed. rewrite <- !(assoc_L (++)). cbn [app].
  rewrite next_word_typed by done. rewrite next_word_space by done. rewrite next_word_typed by done. rewrite Hs, Hm.
  assert (number c [] [] = Ok 0) as -> by (by destruct c). done.
Qed.

End shell.

(** ** A session over a proxy and a data function *)

Section session.
Context {D : Type} `{KVLaws D}.
Variable pick : bytes -> Z -> Z -> Z.
Variable cfg : Coordinator.config.
Variable salts : Z -> bytes.
Variable shuffle : forall A : Type, list A -> list A.
Variable format_time : Z -> bytes.
Variables salt sequence uninitialised : bytes.
Variable cache_cfg : Cache.config.
Variable enable_cache_ : bool.
Variables client_salt client_sequence : bytes.
Variable tick : nat -> Z * Z.
Variable freed : bytes.
Variable worker_address : bytes.
Variable reachable : Ring.endpoint -> bool.
Variable get_uuid : bytes -> bytes.
Hypothesis Huuid : forall path, length (get_uuid path) = key_size.
Hypothesis Hcfg : config_ok pick cfg salts shuffle.
Hypothesis Hticks : forall i, 0 <= (tick i).2 < 2 ^ 32.
Variable dir : list bytes.

Local Instance terminal : Transport (served D) := served_transport pick cfg salts shuffle format_time salt sequence uninitialised
  cache_cfg enable_cache_ client_salt client_sequence tick freed worker_address reachable.
Local Abbreviation directory_holds w n m := (holds_map pick cfg (checked (function w)) (servers (function w)) (get_uuid (directory dir)) n m).

(** The lines that are typed for the calls of a program. *)
Definition typed_call (c : call) : bytes :=
  match c with
  | AddCall _ f => typed (lit "addfile") [render (dir ++ [f])]
  | DeleteCall _ f => typed (lit "deletefile") [render (dir ++ [f])]
  end.

Definition path_of (c : call) : bytes := render (dir ++ [file_of_request (Api.request_of c)]).

(** What is shown for an answer. *)
Definition shown (reply : bytes) : bytes := prompt ++ line reply.

Lemma names_known : switch command_cases (lit "addfile") = Some Addfile /\ switch command_cases (lit "deletefile") = Some Deletefile /\
  blank_free (lit "addfile") /\ blank_free (lit "deletefile").
Proof. split_and!; [by vm_compute..| |]; (split; [done|]; by repeat constructor). Qed.

Lemma round_call c rest w w' reply p : blank_free (path_of c) -> packet_of client_salt client_sequence get_uuid dir c = Some p ->
  send p w = Some (w', Some reply) -> round get_uuid (typed_call c ++ rest) w = Some (x0a :: rest, w', Next (line reply)).
Proof.
  intros Hb Hp Hsend. destruct names_known as (Ha & Hd & Hba & Hbd).
  destruct c as [d f|d f]; cbn [typed_call];
    [rewrite (round_one get_uuid _ Addfile) by done|rewrite (round_one get_uuid _ Deletefile) by done];
    cbn [draw terminal served_transport make exchange]; cbn [packet_of] in Hp; rewrite Hp; cbn [mbind option_bind]; rewrite Hsend; reflexivity.
Qed.

Lemma run_space fuel rest w : run get_uuid (S fuel) (x0a :: rest) w = run get_uuid (S fuel) rest w.
Proof. cbn [run]. unfold round. by rewrite next_word_space. Qed.

Lemma run_nothing fuel w : run get_uuid (S fuel) [] w = Some (w, prompt, Returned).
Proof. cbn [run]. unfold round. cbn [next_word skip_space take_word]. by rewrite switch_empty. Qed.

(** C4. A user at the prompt sees the directory as a map from names: for any lines with
    [addfile] and [deletefile] of paths inside a directory the program prints for each what
    the map answers, and at the end of its input it returns and leaves the servers with the
    map these commands leave - from the typed words through packets, the proxy's tables, the
    data function and the two-phase commits to the printed text. *)
Theorem typed_session_refines_map cs w n m
    (Hh : directory_holds w n m) (Ht : w.(Api.tables) = empty_launcher) (Hcs : Forall call_ok cs)
    (Hpaths : Forall (fun c => blank_free (path_of c)) cs) (Hl : Z.of_nat (n + length cs) < 2 ^ 25) :
  let text := concat (typed_call <$> cs) in
  let spec := spec_session m (steps_of tick get_uuid dir w.(clock) cs) in
  exists w', run get_uuid (S (length text)) text w = Some (w', concat (shown <$> spec.2) ++ prompt, Returned) /\
    w'.(Api.tables) = empty_launcher /\ directory_holds w' (n + length cs) spec.1.
Proof.
  cbv zeta. assert (Hlen : (length cs <= length (concat (typed_call <$> cs)))%nat).
  { clear. induction cs as [|[] cs IH]; cbn [fmap list_fmap concat length]; [done|rewrite length_app; cbn in *; lia..]. }
  revert Hlen. generalize (length (concat (typed_call <$> cs))). intros fuel. revert fuel w n m Hh Ht Hpaths Hl.
  induction Hcs as [|c cs Hc Hcs IH]; intros fuel w n m Hh Ht Hpaths Hl Hlen.
  - exists w. rewrite run_nothing. split; [done|]. split; [done|]. cbn. by rewrite Nat.add_0_r.
  - apply Forall_cons in Hpaths as [Hb Hpaths]. cbn [length] in Hl, Hlen. destruct fuel as [|fuel]; [lia|].
    destruct (send_call_spec pick cfg salts shuffle format_time salt sequence uninitialised cache_cfg enable_cache_ client_salt client_sequence tick freed
      worker_address reachable get_uuid Huuid Hcfg dir Hticks c w n m Hh Ht Hc ltac:(lia)) as (p & w1 & Ep & Esend & Ht1 & Hk1 & Hh1).
    destruct (IH fuel w1 _ _ Hh1 Ht1 Hpaths ltac:(lia) ltac:(lia)) as (w' & E' & Ht' & Hh').
    exists w'. cbn [fmap list_fmap concat steps_of spec_session].
    change (run get_uuid (S (S fuel)) ?i w) with ('(input, w, e) ← round get_uuid i w;
      match e with
      | Next printed => '(w, out, e) ← run get_uuid (S fuel) input w; Some (w, prompt ++ printed ++ out, e)
      | Return => Some (w, prompt, Returned)
      | Uncaught => Some (w, prompt, Died)
      end).
    rewrite (round_call c _ w w1 _ p Hb Ep Esend). cbn [mbind option_bind]. rewrite run_space, E'. cbn [mbind option_bind].
    rewrite Hk1 in *. destruct (spec_step m _) as [m1 r1]. cbn [fst snd] in *. destruct (spec_session m1 _) as [m2 rs]. cbn [fst snd] in *.
    split; [|split; [done|cbn [length]; by rewrite <- Nat.add_succ_comm]]. do 3 f_equal. cbn [fmap list_fmap concat]. unfold shown. by rewrite <- !(assoc_L (++)).
Qed.

End session.

(** ** At the prompt *)

Example missing_file_address : parse_address err_open_not_found = Some (Ring.mk_endpoint (lit "Erro") (114 * 256 + 58)).
Proof. by vm_compute. Qed.

Definition typed_lines : bytes := concat (typed_call [] <$> sample_calls).

Example typed_lines_text : typed_lines =
  lit "addfile /a" ++ [x0a] ++ lit "addfile /a" ++ [x0a] ++ lit "deletefile /a" ++ [x0a] ++ lit "deletefile /a" ++ [x0a].
Proof. by vm_compute. Qed.

Lemma sample_paths : Forall (fun c => blank_free (path_of [] c)) sample_calls.
Proof. repeat (apply Forall_cons_2; [split; [done|by repeat constructor]|]). apply Forall_nil_2. Qed.

Lemma typed_session_refines_map_witness : exists f w',
  run (H := sample_served) df_uuid (S (length typed_lines)) typed_lines (mk_served empty_launcher f 0) =
    Some (w', concat (shown <$> [msg_ok; err_file_exists; msg_ok; err_not_found]) ++ prompt, Returned) /\
  holds_map sample_pick sample_cfg (checked (function w')) (servers (function w')) (df_uuid (directory [])) 4 ∅.
Proof.
  destruct (run_init_path [] [] sample_pick sample_cfg sample_salts sample_shuffle (fun _ => []) [] [] sample_reserved
    (Cache.mk_config 4096 false) false sample_config_ok 0 3 (df_uuid (directory [])) df_start) as (f & _ & Hm);
    [apply sample_hosts_ok|reflexivity|apply sample_idle|lia|reflexivity|].
  destruct (typed_session_refines_map sample_pick sample_cfg sample_salts sample_shuffle (fun _ => []) [] [] sample_reserved
    (Cache.mk_config 4096 false) false [] [] (fun _ => (0, 5)) [] (replicate 6 x0a) (fun _ => true) df_uuid df_uuid_length
    sample_config_ok sample_ticks [] sample_calls (mk_served empty_launcher f 0) 0 ∅) as (w' & E & _ & Hh).
  - exact Hm.
  - reflexivity.
  - exact sample_calls_ok.
  - exact sample_paths.
  - cbn. lia.
  - exists f, w'. split; [exact E|exact Hh].
Defined.
