(* ===== verification/Trace.v ===== *)
(** * The trace emulator ([trace-emulator/])

    It replays a trace of accesses: rows of a file are read, rows with the same time are
    submitted together, and every access becomes a request to a proxy.  The emulator is built
    with headers of its own, an earlier version of those of the proxy. *)
From Stdlib Require Import ZArith Lia Sorted.
From stdpp Require Import base tactics option list strings sorting.
From S2P Require Import Prelude Wire Request CacheTransfer Startup Outcome Double.

(** ** Rows ([trace_parser.hpp]) *)

Inductive access_type := read_op | write_op.

Record trace_row := mk_row {
  timestamp : Z; invocation_id : Z; blob_bytes : double; app_name : bytes; blob_name : bytes; access : access_type
}.

#[global] Instance access_type_eq_dec : EqDecision access_type.
Proof. solve_decision. Defined.
#[global] Instance trace_row_eq_dec : EqDecision trace_row.
Proof. solve_decision. Defined.

(** What [std::getline] reads one after the other, until it fails: nothing comes after a
    separator at the end. *)
Fixpoint getlines (sep : byte) (b : bytes) : list bytes :=
  match b with
  | [] => []
  | c :: b =>
      if decide (c = sep) then [] :: getlines sep b
      else match getlines sep b with [] => [[c]] | l :: more => (c :: l) :: more end
  end.

Definition column (i : nat) (unparsed_row : list bytes) : bytes := default [] (unparsed_row !! i).

Definition parse_row (row : bytes) : outcome trace_row :=
  let unparsed_row := getlines comma row in
  if (length unparsed_row <? 11)%nat then Throws
  else
    t ← stol (column 0 unparsed_row);
    i ← stol (column 4 unparsed_row);
    n ← stod (column 8 unparsed_row);
    Ok (mk_row t i n (column 3 unparsed_row) (column 5 unparsed_row)
          (if decide (column 10 unparsed_row = lit "True") then write_op else read_op)).

Fixpoint parse_rows (rows : list bytes) : outcome (list trace_row) :=
  match rows with
  | [] => Ok []
  | row :: rows => r ← parse_row row; rs ← parse_rows rows; Ok (r :: rs)
  end.

Definition newline : byte := x0a.

(** The constructor; [None] is a file that cannot be opened. *)
Definition trace_parser (file : option bytes) (num_rows_to_read : Z) : outcome (list trace_row) :=
  text ← or_throw file;
  let rows := getlines newline text in
  rs ← parse_rows (take (Z.to_nat (Z.min num_rows_to_read (Z.of_nat (length rows)))) rows);
  if Z.of_nat (length rows) <? num_rows_to_read then Throws else Ok rs.

(** ** Requests ([slsfs_emulation_node.cpp]) *)

(** The headers of the emulator: without a byte for direct communication, and requests of
    twelve bytes without the name and the key of a file. *)
Module emulated.

Record packet_header := mk_header { type : Z; key : bytes; datasize : Z; sequence : bytes; random_salt : bytes }.

Definition bytesize : nat := 4 + 1 + 32 + 4 + 4.

Definition dump (h : packet_header) : bytes :=
  le_bytes 1 h.(type) ++ h.(key) ++ h.(sequence) ++ h.(random_salt) ++ le_bytes 4 (hton 4 h.(datasize)).

Definition parse (pos : bytes) : option packet_header :=
  '(type, pos) ← read_n 1 pos;
  '(key, pos) ← read_n 32 pos;
  '(sequence, pos) ← read_n 4 pos;
  '(salt, pos) ← read_n 4 pos;
  '(datasize, pos) ← read_n 4 pos;
  Some (mk_header (le_val type) key (ntoh 4 (le_val datasize)) sequence salt).

Definition serialize (h : packet_header) (data : bytes) : bytes :=
  dump (mk_header h.(type) h.(key) (u32 (Z.of_nat (length data))) h.(sequence) h.(random_salt)) ++ data.

Record request := mk_request { r_type : Z; r_operation : Z; r_position : Z; r_size : Z }.

Definition sizeof_request : nat := 12.

Definition to_network_format (r : request) : request :=
  mk_request (hton 1 r.(r_type)) (hton 1 r.(r_operation)) (hton 4 r.(r_position)) (hton 4 r.(r_size)).

(** The bytes between the fields are whatever is there. *)
Definition store_request (padding : byte * byte) (r : request) : bytes :=
  le_bytes 1 r.(r_type) ++ le_bytes 1 r.(r_operation) ++ [padding.1; padding.2] ++ le_bytes 4 r.(r_position) ++ le_bytes 4 r.(r_size).

(** The accessors of [request_parser] are those of the file Request, but for the data. *)
Definition data (refdata : bytes) : bytes := drop sizeof_request refdata.

End emulated.

(** A [std::string] of [n] times [c]. *)
Definition filled (n : Z) (c : byte) : outcome bytes := if 2 ^ 63 <=? n then Throws else Ok (replicate (Z.to_nat n) c).

(** The text of a result: the time in microseconds, the size, the operation, and the
    throughput as it was printed. *)
Definition result_text (us : Z) (bytes_ : double) (op throughput : bytes) : outcome bytes :=
  n ← lround bytes_;
  Ok ([comma] ++ to_string us ++ [comma] ++ decimal n ++ [comma] ++ op ++ [comma] ++ throughput).

Section node.
(** SHA-256 of the name. *)
Variable get_uuid : bytes -> bytes.
(** What is between the fields of a request. *)
Variable padding : byte * byte.

Definition trigger_header (filename sequence salt : bytes) : emulated.packet_header :=
  emulated.mk_header (pack.code pack.trigger) (get_uuid filename) 0 sequence salt.

Definition read_request (filename : bytes) (n : double) (sequence salt : bytes) : outcome bytes :=
  n ← to_size n;
  buf ← filled n (byte_of 65);
  let r := emulated.to_network_format (emulated.mk_request (type_code file) (operation_code read) 0 (u32 (Z.of_nat (length buf)))) in
  Ok (emulated.serialize (trigger_header filename sequence salt) (emulated.store_request padding r)).

(** [draw] is what [rand] returns; the remainder of a division by zero is undefined. *)
Definition write_request (draw : Z) (filename : bytes) (n : double) (sequence salt : bytes) : outcome bytes :=
  n ← to_size n;
  c ← defined (match filename with [] => None | _ => filename !! Z.to_nat (draw mod Z.of_nat (length filename)) end);
  buf ← filled n c;
  let r := emulated.to_network_format (emulated.mk_request (type_code file) (operation_code write) 0 (u32 (Z.of_nat (length buf)))) in
  Ok (emulated.serialize (trigger_header filename sequence salt) (emulated.store_request padding r ++ buf)).

(** What the thread of a job sends. *)
Definition request_of (draw : Z) (job : trace_row) (sequence salt : bytes) : outcome bytes :=
  match job.(access) with
  | read_op => read_request job.(blob_name) job.(blob_bytes) sequence salt
  | write_op => write_request draw job.(blob_name) job.(blob_bytes) sequence salt
  end.

End node.

(** What the thread reads: a header, and as many bytes as it says. *)
Definition read_response (b : bytes) : option (emulated.packet_header * bytes) :=
  '(headerbuf, b) ← read_n emulated.bytesize b;
  h ← emulated.parse headerbuf;
  '(data, _) ← read_n (Z.to_nat h.(emulated.datasize)) b;
  Some (h, data).

(** ** Replay ([trace_emulator.cpp]) *)

(** What [main] does with the jobs: [submit_jobs] itself or posted to the threads of the
    [io_context], in the order in which it takes them off the stack, and the argument of [sleep_for]. *)
Inductive action := Submit (jobs : list trace_row) | Post (jobs : list trace_row) | Sleep (ms : Z).

(** One row: [current_jobs] with its top first, and the number of submitted jobs.  The
    difference of two times is a [long]. *)
Definition on_row (real_time : bool) (row : trace_row) (current_jobs : list trace_row) (io_nr : Z) : outcome (list trace_row * Z * list action) :=
  match current_jobs with
  | [] => Ok ([row], io_nr, [])
  | top :: _ =>
      if row.(timestamp) =? top.(timestamp) then Ok (row :: current_jobs, io_nr, [])
      else
        let io_nr := io_nr + Z.of_nat (length current_jobs) in
        let time_to_wait := row.(timestamp) - top.(timestamp) in
        if decide (- 2 ^ 63 <= time_to_wait < 2 ^ 63) then
          Ok ([row], io_nr, if real_time then [Post current_jobs; Sleep time_to_wait] else [Submit current_jobs])
        else Undefined
  end.

Fixpoint replay_from (real_time : bool) (rows current_jobs : list trace_row) (io_nr : Z) : outcome (Z * list action) :=
  match rows with
  | [] => Ok (io_nr + Z.of_nat (length current_jobs), [Submit current_jobs])
  | row :: rows =>
      '(current_jobs, io_nr, a) ← on_row real_time row current_jobs io_nr;
      '(n, b) ← replay_from real_time rows current_jobs io_nr;
      Ok (n, a ++ b)
  end.

Definition replay (real_time : bool) (rows : list trace_row) : outcome (Z * list action) := replay_from real_time rows [] 0.

(** What [submit_jobs] adds to the report: the results in the order of submission, whatever
    the order in which the threads end, each behind the time at which all had ended. *)
Definition report_rows (now : Z) (results : list bytes) : list bytes := (fun r => to_string now ++ r) <$> results.

(** The text before the first [sep], and the text behind it. *)
Fixpoint split_first (sep : byte) (b : bytes) : bytes * bytes :=
  match b with
  | [] => ([], [])
  | c :: b => if decide (c = sep) then ([], b) else let '(x, y) := split_first sep b in (c :: x, y)
  end.

Definition missing_row (row : bytes) : outcome (option (bytes * double)) :=
  match row with
  | [] => Ok None
  | _ => let '(filename, size) := split_first space row in n ← stod size; Ok (Some (filename, n))
  end.

Fixpoint missing_rows (rows : list bytes) : outcome (list (bytes * double)) :=
  match rows with
  | [] => Ok []
  | row :: rows => x ← missing_row row; xs ← missing_rows rows; Ok (match x with Some x => x :: xs | None => xs end)
  end.

(** [create_missing_files_slsfs]: the files to write and their sizes; none when the list
    cannot be opened, none for an empty row. *)
Definition create_missing_files_slsfs (file : option bytes) (nr_rows_to_read : Z) : outcome (list (bytes * double)) :=
  match file with
  | None => Ok []
  | Some text =>
      let rows := getlines newline text in
      xs ← missing_rows (take (Z.to_nat (Z.min nr_rows_to_read (Z.of_nat (length rows)))) rows);
      if Z.of_nat (length rows) <? nr_rows_to_read then Throws else Ok xs
  end.

(** [main]: the files written first, the number of operations, and what is done.  [argv] has
    the arguments from [argv[0]] on, [file] the files that can be opened; too few arguments
    are reported, and then read. *)
Definition main (file : bytes -> option bytes) (argv : list bytes) : outcome (list (bytes * double) * Z * list action) :=
  real_time ← defined (argv !! 7%nat);
  n ← stoi (default [] (argv !! 2%nat));
  m ← stoi (default [] (argv !! 6%nat));
  missing ← (if m =? 0 then Ok [] else create_missing_files_slsfs (file (default [] (argv !! 5%nat))) m);
  rows ← trace_parser (file (default [] (argv !! 1%nat))) (u64 n);
  '(io_nr, actions) ← replay (bool_decide (real_time = lit "true")) rows;
  Ok (missing, io_nr, actions).

(** ** Runs of equal times *)

Fixpoint runs (rows : list trace_row) : list (list trace_row) :=
  match rows with
  | [] => []
  | r :: rows =>
      match runs rows with
      | (x :: g) :: gs => if r.(timestamp) =? x.(timestamp) then (r :: x :: g) :: gs else [r] :: (x :: g) :: gs
      | _ => [[r]]
      end
  end.

Definition time_of (r : option trace_row) : Z := match r with Some r => r.(timestamp) | None => 0 end.

(** What is to be done with runs: each is submitted, the last row first. *)
Fixpoint submissions (real_time : bool) (gs : list (list trace_row)) : list action :=
  match gs with
  | [] => [Submit []]
  | [g] => [Submit (rev g)]
  | g :: ((g' :: _) as gs) =>
      (if real_time then [Post (rev g); Sleep (time_of (head g') - time_of (last g))] else [Submit (rev g)]) ++ submissions real_time gs
  end.

Definition waited (l : list action) : Z := foldr (fun a n => match a with Sleep ms => ms + n | _ => n end) 0 l.

(** [sleep_for] of a negative time returns at once. *)
Definition slept (l : list action) : Z := foldr (fun a n => match a with Sleep ms => Z.max 0 ms + n | _ => n end) 0 l.

(** A run in front of others. *)
Definition join_runs (g : list trace_row) (gs : list (list trace_row)) : list (list trace_row) :=
  match gs with
  | (x :: h) :: gs' => if time_of (last g) =? x.(timestamp) then (g ++ x :: h) :: gs' else g :: gs
  | _ => [g]
  end.

Lemma runs_cons r rows : exists h gs, runs (r :: rows) = (r :: h) :: gs.
Proof. cbn. destruct (runs rows) as [|[|x g] gs]; [by eexists _, _..|]. destruct (_ =? _); by eexists _, _. Qed.

Lemma runs_join r rows : runs (r :: rows) = join_runs [r] (runs rows).
Proof. cbn. by destruct (runs rows) as [|[|x g] gs]. Qed.

Lemma join_runs_app g r rows : g <> [] -> time_of (last g) = r.(timestamp) ->
  join_runs g (runs (r :: rows)) = join_runs (g ++ [r]) (runs rows).
Proof.
  intros Hg Ht. rewrite runs_join. unfold join_runs at 2 3. rewrite last_snoc. cbn [last time_of].
  destruct (runs rows) as [|[|x h] gs]; cbn [join_runs app]; try (by rewrite Ht, Z.eqb_refl).
  destruct (r.(timestamp) =? x.(timestamp)) eqn:E; cbn [join_runs]; rewrite Ht, Z.eqb_refl, <- ?(assoc_L (++)); done.
Qed.

Lemma submissions_cons real_time g r rows : submissions real_time (g :: runs (r :: rows)) =
  (if real_time then [Post (rev g); Sleep (r.(timestamp) - time_of (last g))] else [Submit (rev g)]) ++ submissions real_time (runs (r :: rows)).
Proof. destruct (runs_cons r rows) as (h & gs & ->). done. Qed.

Definition timed (r : trace_row) : Prop := 0 <= r.(timestamp) < 2 ^ 63.

Lemma replay_from_runs real_time rows : forall top cur n, timed top -> Forall timed rows ->
  replay_from real_time rows (top :: cur) n =
  Ok (n + Z.of_nat (length (top :: cur)) + Z.of_nat (length rows), submissions real_time (join_runs (rev (top :: cur)) (runs rows))).
Proof.
  induction rows as [|r rows IH]; intros top cur n Ht Hrows.
  - cbn [replay_from runs join_runs submissions]. rewrite rev_involutive. cbn [length]. do 2 f_equal; lia.
  - apply Forall_cons in Hrows as [Hr Hrows]. cbn [replay_from]. unfold on_row.
    assert (Hl : last (rev (top :: cur)) = Some top) by (cbn [rev]; apply last_snoc).
    destruct (Z.eqb_spec r.(timestamp) top.(timestamp)) as [E|E]; cbn [mbind outcome_bind].
    + rewrite IH by done. cbn [mbind outcome_bind app]. change (rev (r :: top :: cur)) with (rev (top :: cur) ++ [r]).
      rewrite join_runs_app by (rewrite ?Hl; cbn [rev time_of]; (done || by destruct (rev cur))). cbn [length]. do 2 f_equal; lia.
    + unfold timed in *. rewrite decide_True by lia. cbn [mbind outcome_bind]. rewrite IH by done. cbn [mbind outcome_bind]. cbn [rev app].
      rewrite <- runs_join. assert (join_runs (rev cur ++ [top]) (runs (r :: rows)) = (rev cur ++ [top]) :: runs (r :: rows)) as ->.
      { destruct (runs_cons r rows) as (h & gs & ->). cbn [join_runs rev] in *. rewrite Hl. cbn [time_of]. by rewrite (proj2 (Z.eqb_neq _ _)) by lia. }
      rewrite submissions_cons. cbn [rev] in Hl. rewrite Hl, rev_app_distr, rev_involutive. cbn [time_of rev app length].
      destruct real_time; do 2 f_equal; lia.
Qed.

Lemma replay_runs real_time rows : Forall timed rows ->
  replay real_time rows = Ok (Z.of_nat (length rows), submissions real_time (runs rows)).
Proof.
  destruct rows as [|r rows]; [done|]. intros [Hr Hrows]%Forall_cons. unfold replay. cbn [replay_from on_row mbind outcome_bind].
  rewrite replay_from_runs by done. cbn [mbind outcome_bind rev app]. rewrite <- runs_join. cbn [length]. do 2 f_equal; lia.
Qed.

(** Runs are not empty, have one time each, and a run has another time than the one before. *)
Definition one_time (g : list trace_row) : Prop := g <> [] /\ forall r, r ∈ g -> r.(timestamp) = time_of (head g).

Fixpoint separate (gs : list (list trace_row)) : Prop :=
  match gs with
  | g :: ((g' :: _) as gs) => time_of (head g) <> time_of (head g') /\ separate gs
  | _ => True
  end.

Lemma one_time_last g : one_time g -> time_of (last g) = time_of (head g).
Proof.
  intros [Hg Ht]. destruct (last g) as [r|] eqn:E; [|by apply last_None in E]. apply Ht. by apply last_Some_elem_of.
Qed.

Lemma runs_spec rows : concat (runs rows) = rows /\ Forall one_time (runs rows) /\ separate (runs rows).
Proof.
  induction rows as [|r rows (H1 & H2 & H3)]; [done|].
  assert (Hr : one_time [r]) by (split; [done|]; by intros x ->%list_elem_of_singleton).
  cbn [runs]. destruct (runs rows) as [|[|x g] gs]; [cbn in H1; subst; split; [done|]; split; [by constructor|done]| |].
  - by apply Forall_cons in H2 as [[] _].
  - pose proof H2 as [[_ Hx] Hgs]%Forall_cons. destruct (Z.eqb_spec r.(timestamp) x.(timestamp)) as [E|E].
    + split; [by rewrite <- H1|]. split.
      * constructor; [|done]. split; [done|]. intros y [->|Hy]%elem_of_cons; [done|]. cbn. rewrite E. by apply Hx.
      * destruct gs as [|g' gs]; [done|]. destruct H3 as [H3 H4]. split; [|done]. cbn in *. by rewrite E.
    + split; [by rewrite <- H1|]. split; [by constructor|]. by split.
Qed.

Lemma waited_runs r rows : waited (submissions true (runs (r :: rows))) = time_of (last (r :: rows)) - r.(timestamp).
Proof.
  destruct (runs_spec (r :: rows)) as (H1 & H2 & _). destruct (runs_cons r rows) as (h & gs & E). rewrite E in *. clear E.
  rewrite <- H1. clear H1. revert r h H2. induction gs as [|g gs IH]; intros r h [Hg Hgs]%Forall_cons.
  - cbn [concat submissions waited foldr]. rewrite app_nil_r, (one_time_last _ Hg). cbn. lia.
  - pose proof Hgs as [Hg' _]%Forall_cons. destruct g as [|x g]; [by destruct Hg'|]. specialize (IH x g Hgs).
    change (submissions true ((r :: h) :: (x :: g) :: gs)) with
      (Post (rev (r :: h)) :: Sleep (x.(timestamp) - time_of (last (r :: h))) :: submissions true ((x :: g) :: gs)).
    change (waited (?a :: Sleep ?n :: ?l)) with (n + waited l). rewrite IH, (one_time_last _ Hg). cbn [head time_of].
    change (concat ((r :: h) :: (x :: g) :: gs)) with ((r :: h) ++ concat ((x :: g) :: gs)). rewrite last_app.
    destruct (last (concat ((x :: g) :: gs))) eqn:El; [cbn; lia|]. by apply last_None in El.
Qed.

Definition earlier (r r' : trace_row) : Prop := r.(timestamp) <= r'.(timestamp).

Lemma slept_waited gs : Forall one_time gs -> StronglySorted earlier (concat gs) ->
  slept (submissions true gs) = waited (submissions true gs).
Proof.
  induction gs as [|g gs IH]; intros Hone Hs; [done|]. apply Forall_cons in Hone as [Hg Hgs].
  destruct gs as [|g' gs]; [done|]. pose proof Hgs as [Hg' _]%Forall_cons.
  change (submissions true (g :: g' :: gs)) with (Post (rev g) :: Sleep (time_of (head g') - time_of (last g)) :: submissions true (g' :: gs)).
  change (slept (?a :: Sleep ?n :: ?l)) with (Z.max 0 n + slept l). change (waited (?a :: Sleep ?n :: ?l)) with (n + waited l).
  change (concat (g :: g' :: gs)) with (g ++ concat (g' :: gs)) in Hs.
  rewrite IH by (done || by eapply StronglySorted_app_1_r).
  enough (time_of (last g) <= time_of (head g')) by lia. destruct Hg as [Hg _], Hg' as [Hg' _].
  destruct (last g) as [x|] eqn:Ex; [|by apply last_None in Ex]. destruct g' as [|y g']; [done|]. cbn [head time_of].
  apply (StronglySorted_app_1_elem_of earlier g (concat ((y :: g') :: gs))); [done|by apply last_Some_elem_of|by left].
Qed.

(** C33. The emulator does what its description says: the rows of a trace are submitted in runs
    of equal times, a run at once and runs one after the other in the order of the trace,
    every row in one run; in real time the waits between them add up to the time from the
    first row to the last, and so does the time slept when the rows are in the order of
    their times; a row with an earlier time than the one before it is not waited for. *)
Theorem trace_replayed real_time rows (Ht : Forall timed rows) :
  replay real_time rows = Ok (Z.of_nat (length rows), submissions real_time (runs rows)) /\
  concat (runs rows) = rows /\ Forall one_time (runs rows) /\ separate (runs rows) /\
  (forall r rest, rows = r :: rest -> waited (submissions true (runs rows)) = time_of (last rows) - r.(timestamp)) /\
  (forall r rest, rows = r :: rest -> StronglySorted earlier rows ->
    slept (submissions true (runs rows)) = time_of (last rows) - r.(timestamp)).
Proof.
  destruct (runs_spec rows) as (H1 & H2 & H3). split; [by apply replay_runs|]. split_and!; [done..| |].
  - intros r rest ->. apply waited_runs.
  - intros r rest E Hs. rewrite slept_waited by (done || by rewrite H1). rewrite E. apply waited_runs.
Qed.

(** ** Reading a trace *)

Lemma getlines_app sep a rest : sep ∉ a -> getlines sep (a ++ sep :: rest) = a :: getlines sep rest.
Proof.
  induction a as [|c a IH]; intros Ha; cbn [app getlines]; [by rewrite decide_True|].
  apply not_elem_of_cons in Ha as [Hc Ha]. rewrite decide_False by done. by rewrite IH.
Qed.

Lemma getlines_last sep a : sep ∉ a -> a <> [] -> getlines sep a = [a].
Proof.
  induction a as [|c a IH]; intros Ha Hne; [done|]. apply not_elem_of_cons in Ha as [Hc Ha]. cbn [getlines]. rewrite decide_False by done.
  destruct a as [|c' a]; [done|]. by rewrite IH.
Qed.

(** A row as it is in a trace: eleven columns, of which six are looked at. *)
Record entry := mk_entry {
  e_time : Z; e_invocation : Z; e_bytes : Z; e_tail : bytes; e_app : bytes; e_blob : bytes; e_access : access_type;
  e_others : bytes * bytes * bytes * bytes * bytes
}.

Definition access_text (a : access_type) : bytes := lit (match a with read_op => "False" | write_op => "True" end).

Definition columns (e : entry) : list bytes :=
  let '(c1, c2, c6, c7, c9) := e.(e_others) in
  [to_string e.(e_time); c1; c2; e.(e_app); to_string e.(e_invocation); e.(e_blob); c6; c7; to_string e.(e_bytes) ++ e.(e_tail); c9].

Fixpoint row_text (cols : list bytes) (last : bytes) : bytes :=
  match cols with [] => last | c :: cols => c ++ comma :: row_text cols last end.

Definition plain (b : bytes) : Prop := comma ∉ b /\ newline ∉ b.

Record wf_entry (e : entry) : Prop := {
  wf_time : 0 <= e.(e_time) < 2 ^ 63;
  wf_invocation : 0 <= e.(e_invocation) < 2 ^ 63;
  wf_bytes : 0 <= e.(e_bytes) < 2 ^ 53;
  wf_tail : e.(e_tail) = [] \/ e.(e_tail) = [point; digit 0];
  wf_columns : Forall plain (columns e)
}.

(** The size as it was read. *)
Definition e_double (e : entry) : double := match stod (to_string e.(e_bytes) ++ e.(e_tail)) with Ok d => d | _ => NaN end.

Definition row_of (a : access_type) (e : entry) : trace_row := mk_row e.(e_time) e.(e_invocation) (e_double e) e.(e_app) e.(e_blob) a.

Lemma getlines_row cols last : Forall plain cols -> comma ∉ last -> last <> [] -> getlines comma (row_text cols last) = cols ++ [last].
Proof.
  induction 1 as [|c cols [Hc _] _ IH]; intros Hl Hne; cbn [row_text app]; [by apply getlines_last|]. by rewrite getlines_app, IH.
Qed.

Lemma parse_entry e last : wf_entry e -> comma ∉ last -> last <> [] ->
  parse_row (row_text (columns e) last) = Ok (row_of (if decide (last = lit "True") then write_op else read_op) e).
Proof.
  intros He Hl Hne. destruct He as [Ht Hi Hb Htail Hc]. unfold parse_row. rewrite getlines_row by done.
  destruct e as [t i n tail a b acc [[[[c1 c2] c6] c7] c9]]. unfold columns, row_of, e_double in *. cbn [e_time e_invocation e_bytes e_tail e_app e_blob e_others app length Nat.ltb Nat.leb] in *.
  unfold column. cbn [lookup list_lookup default]. change (Datatypes.id ?x) with x.
 
  rewrite !stol_to_string by done. cbn [mbind outcome_bind].
  destruct (stod_to_string n tail Hb Htail) as (d & -> & _). done.
Qed.

Lemma parse_entries es f : Forall wf_entry es -> (forall e, comma ∉ f e /\ f e <> []) ->
  parse_rows ((fun e => row_text (columns e) (f e)) <$> es) = Ok ((fun e => row_of (if decide (f e = lit "True") then write_op else read_op) e) <$> es).
Proof.
  intros Hes Hf. induction Hes as [|e es He _ IH]; [done|]. rewrite !fmap_cons. cbn [parse_rows].
  destruct (Hf e). rewrite parse_entry by done. cbn [mbind outcome_bind]. by rewrite IH.
Qed.

Lemma plain_row cols last : Forall plain cols -> newline ∉ last -> newline ∉ row_text cols last.
Proof.
  induction 1 as [|c cols [_ Hc] _ IH]; intros Hl; cbn [row_text]; [done|].
  rewrite elem_of_app, elem_of_cons. intros [?|[?|?]]; [done..|by apply IH].
Qed.

(** The rows of a file. *)
Definition file_text (end_ : bytes) (es : list entry) : bytes :=
  concat ((fun e => row_text (columns e) (access_text e.(e_access) ++ end_) ++ [newline]) <$> es).

Lemma getlines_file end_ es : newline ∉ end_ -> Forall wf_entry es ->
  getlines newline (file_text end_ es) = (fun e => row_text (columns e) (access_text e.(e_access) ++ end_)) <$> es.
Proof.
  intros Hend. induction 1 as [|e es He _ IH]; [done|]. unfold file_text. cbn [fmap list_fmap concat]. rewrite <- (assoc_L (++)). cbn [app].
  rewrite getlines_app; [f_equal; apply IH|]. apply plain_row; [apply He|]. rewrite elem_of_app. intros [Ha|Ha]; [|done].
  by destruct e.(e_access); vm_compute in Ha; repeat (apply elem_of_cons in Ha as [Ha|Ha]; [discriminate Ha|]); apply elem_of_nil in Ha.
Qed.

Lemma access_text_end a end_ : comma ∉ end_ -> comma ∉ access_text a ++ end_ /\ access_text a ++ end_ <> [].
Proof.
  intros He. split; [|by destruct a]. rewrite elem_of_app. intros [Ha|Ha]; [|done].
  by destruct a; vm_compute in Ha; repeat (apply elem_of_cons in Ha as [Ha|Ha]; [discriminate Ha|]); apply elem_of_nil in Ha.
Qed.

(** C34. A trace that was written is read back: of its rows as many as are asked for, with their
    times, names and sizes below [2 ^ 53], and an exception if there are fewer; but if its
    lines end in carriage returns every access is taken for a read. *)
Theorem trace_read_back es n (Hes : Forall wf_entry es) (Hn : 0 <= n) :
  trace_parser (Some (file_text [] es)) n =
    (if Z.of_nat (length es) <? n then Throws else Ok ((fun e => row_of e.(e_access) e) <$> take (Z.to_nat n) es)) /\
  trace_parser (Some (file_text [x0d] es)) (Z.of_nat (length es)) = Ok ((fun e => row_of read_op e) <$> es) /\
  Forall (fun e => to_size (e_double e) = Ok e.(e_bytes)) es.
Proof.
  assert (Hp : forall end_ n, comma ∉ end_ -> newline ∉ end_ -> 0 <= n -> trace_parser (Some (file_text end_ es)) n =
    if Z.of_nat (length es) <? n then Throws
    else Ok ((fun e => row_of (if decide (access_text e.(e_access) ++ end_ = lit "True") then write_op else read_op) e) <$> take (Z.to_nat n) es)).
  { intros end_ m H1 H2 Hm. unfold trace_parser. cbn [or_throw mbind outcome_bind]. rewrite getlines_file, length_fmap, <- fmap_take by done.
    rewrite (parse_entries _ (fun e => access_text e.(e_access) ++ end_)) by (by apply Forall_take || (intros e; by apply access_text_end)).
    cbn [mbind outcome_bind]. destruct (Z.ltb_spec (Z.of_nat (length es)) m); [done|]. by rewrite Z.min_l by lia. }
  split; [|split].
  - rewrite Hp by (done || apply not_elem_of_nil). destruct (_ <? _); [done|]. f_equal. apply list_fmap_ext. intros _ e _. rewrite app_nil_r. by destruct e.(e_access).
  - rewrite Hp by (lia || (intros [E|E]%elem_of_cons; [done|by apply elem_of_nil in E])). rewrite Z.ltb_irrefl, Nat2Z.id, firstn_all. f_equal.
    apply list_fmap_ext. intros _ e _. by destruct e.(e_access).
  - eapply Forall_impl; [apply Hes|]. intros e He. unfold e_double. by destruct (stod_to_string e.(e_bytes) e.(e_tail)) as (d & -> & ? & _); [apply He..|].
Qed.

(** ** Requests on the wire *)

Lemma emulated_parse_dump h : 0 <= h.(emulated.type) < 256 -> length h.(emulated.key) = 32%nat -> length h.(emulated.sequence) = 4%nat ->
  length h.(emulated.random_salt) = 4%nat -> 0 <= h.(emulated.datasize) < 2 ^ 32 ->
  length (emulated.dump h) = emulated.bytesize /\ emulated.parse (emulated.dump h) = Some h.
Proof.
  intros H1 H2 H3 H4 H5. destruct h as [t k d sq sa]. cbn [emulated.type emulated.key emulated.datasize emulated.sequence emulated.random_salt] in *.
  unfold emulated.dump, emulated.parse. cbn [emulated.type emulated.key emulated.datasize emulated.sequence emulated.random_salt]. split.
  - rewrite !length_app, !length_le_bytes, H2, H3, H4. done.
  - repeat (rewrite read_n_app by (rewrite ?length_le_bytes; done); cbn [mbind option_bind]).
    rewrite (read_n_all 4) by apply length_le_bytes. cbn [mbind option_bind].
    rewrite (le_val_le_small 1) by done. by rewrite ntoh_le_hton by (auto; done).
Qed.

Lemma emulated_read_serialize h data : 0 <= h.(emulated.type) < 256 -> length h.(emulated.key) = 32%nat -> length h.(emulated.sequence) = 4%nat ->
  length h.(emulated.random_salt) = 4%nat -> Z.of_nat (length data) < 2 ^ 32 ->
  exists h', read_response (emulated.serialize h data) = Some (h', data) /\ h'.(emulated.type) = h.(emulated.type) /\ h'.(emulated.key) = h.(emulated.key).
Proof.
  intros H1 H2 H3 H4 H5. unfold emulated.serialize, read_response. rewrite (wrap_small 4) by (change (modulus 4) with (2 ^ 32); lia).
  set (h' := emulated.mk_header _ _ _ _ _). destruct (emulated_parse_dump h') as [Hl Hp]; [cbn; done || lia..|].
  exists h'. rewrite read_n_app by done. cbn [mbind option_bind]. rewrite Hp. cbn [mbind option_bind]. by rewrite read_n_all by (cbn; lia).
Qed.

Section request_fields.
Variables (padding : byte * byte) (r : emulated.request) (d : bytes).
Hypothesis Hr : 0 <= r.(emulated.r_type) < 256 /\ 0 <= r.(emulated.r_operation) < 256 /\ 0 <= r.(emulated.r_position) < 2 ^ 32 /\ 0 <= r.(emulated.r_size) < 2 ^ 32.

Lemma emulated_fields : let payload := emulated.store_request padding (emulated.to_network_format r) ++ d in
  request_parser.type payload = Some r.(emulated.r_type) /\ request_parser.operation payload = Some r.(emulated.r_operation) /\
  request_parser.position payload = Some r.(emulated.r_position) /\ request_parser.size payload = Some r.(emulated.r_size) /\
  emulated.data payload = d.
Proof.
  destruct Hr as (H1 & H2 & H3 & H4). intros payload. subst payload. unfold emulated.store_request. rewrite <- !(assoc_L (++)).
  unfold request_parser.type, request_parser.operation, request_parser.position, request_parser.size.
  assert (mem_get 0 1 _ = Some _) as -> by mem_field. assert (mem_get 1 1 _ = Some _) as -> by mem_field.
  assert (mem_get 4 4 _ = Some _) as -> by mem_field. assert (mem_get 8 4 _ = Some _) as -> by mem_field.
  cbn [mbind option_bind emulated.to_network_format emulated.r_type emulated.r_operation emulated.r_position emulated.r_size].
  rewrite !ntoh_le_hton by (auto; done). done.
Qed.

End request_fields.

(** ** The same bytes read by the proxy of today *)

Lemma ntoh_le_val n b : (n = 1 \/ n = 2 \/ n = 4 \/ n = 8)%nat -> length b = n -> ntoh n (le_val b) = le_val (rev b).
Proof.
  intros Hn Hb. assert (ntoh n = hton n) as -> by (by destruct n as [|[|[|[|[]]]]]).
  rewrite hton_bswap by (try done; by apply le_val_range_n). unfold bswap. by rewrite le_bytes_le_val'.
Qed.

Lemma size_bytes n : 0 <= n < 2 ^ 24 -> exists b0 b1 b2, le_bytes 4 (hton 4 n) = [x00; b2; b1; b0] /\ le_val [b0; b1; b2] = n.
Proof.
  intros Hn. rewrite hton_bswap by (auto; change (modulus 4) with (2 ^ 32); lia). unfold bswap.
  rewrite le_bytes_le_val' by (by rewrite length_rev, length_le_bytes). change (le_bytes 4 n) with (le_bytes (3 + 1) n). rewrite le_bytes_app.
  assert (n / modulus 3 = 0) as -> by (apply Z.div_small; change (modulus 3) with (2 ^ 24); lia).
  pose proof (le_val_le_small 3 n ltac:(change (modulus 3) with (2 ^ 24); lia)) as Hv.
  pose proof (length_le_bytes 3 n) as Hl. destruct (le_bytes 3 n) as [|b0 [|b1 [|b2 [|]]]]; try done. by exists b0, b1, b2.
Qed.

(** Its headers are a byte longer: the first byte of the key is taken for the flag of direct
    communication, and the size is that of the emulator shifted by a byte. *)
Lemma misread h c data : length h.(emulated.key) = 32%nat -> length h.(emulated.sequence) = 4%nat -> length h.(emulated.random_salt) = 4%nat ->
  Z.of_nat (length (c :: data)) < 2 ^ 24 -> read_pack (emulated.serialize h (c :: data)) = None.
Proof.
  intros H2 H3 H4 H5. destruct h as [t k d sq sa]. unfold emulated.serialize, emulated.dump.
  cbn [emulated.type emulated.key emulated.datasize emulated.sequence emulated.random_salt] in *. rewrite (wrap_small 4) by (change (modulus 4) with (2 ^ 32); lia).
  destruct (size_bytes (Z.of_nat (length (c :: data)))) as (b0 & b1 & b2 & -> & Hv); [lia|].
  destruct k as [|k0 k]; [done|]. destruct sq as [|s0 [|s1 [|s2 [|s3 []]]]]; try done. destruct sa as [|a0 [|a1 [|a2 [|a3 []]]]]; try done.
  assert (Hsplit : forall l : bytes, le_bytes 1 t ++ (k0 :: k) ++ [s0; s1; s2; s3] ++ [a0; a1; a2; a3] ++ [x00; b2; b1; b0] ++ l =
    le_bytes 1 t ++ [k0] ++ (k ++ [s0]) ++ [s1; s2; s3; a0] ++ [a1; a2; a3; x00] ++ [b2; b1; b0] ++ l) by (intros l; by rewrite <- (assoc_L (++) k)).
  rewrite <- !(assoc_L (++)), Hsplit. change ([b2; b1; b0] ++ c :: data) with ([b2; b1; b0; c] ++ data).
  unfold read_pack. rewrite !(assoc_L (++)), read_n_app by (rewrite !length_app, length_le_bytes; cbn in *; lia). rewrite <- !(assoc_L (++)).
  cbn [mbind option_bind]. unfold pack.parse. rewrite (assoc_L (++) k [s0]). change pack.key_size with 32%nat.
  repeat (rewrite read_n_app by (rewrite ?length_le_bytes, ?length_app; cbn in *; done || lia); cbn [mbind option_bind]).
  rewrite (read_n_all 4) by done. cbn [mbind option_bind pack.datasize]. rewrite ntoh_le_val by auto. cbn [rev app].
  change (le_val [c; b0; b1; b2]) with (byte_val c + 256 * le_val [b0; b1; b2]). rewrite Hv. pose proof (byte_val_range c).
  unfold read_n. rewrite decide_False; [done|]. cbn [length]. lia.
Qed.

Lemma length_emulated_request padding r : length (emulated.store_request padding r) = emulated.sizeof_request.
Proof. unfold emulated.store_request. by rewrite !length_app, !length_le_bytes. Qed.

Section requests.
Variables (get_uuid : bytes -> bytes) (padding : byte * byte).
Variables (job : trace_row) (sequence salt : bytes) (n : Z).
Hypothesis Hk : length (get_uuid job.(blob_name)) = 32%nat.
Hypothesis Hs : length sequence = 4%nat.
Hypothesis Ha : length salt = 4%nat.
Hypothesis Hn : 0 <= n < 2 ^ 32 - 12.

Let sent (op : Z) (d : bytes) : bytes :=
  emulated.serialize (trigger_header get_uuid job.(blob_name) sequence salt)
    (emulated.store_request padding (emulated.to_network_format (emulated.mk_request (type_code file) op 0 n)) ++ d).

Lemma sent_read op d : 0 <= op < 256 -> Z.of_nat (length d) <= n ->
  exists h body, read_response (sent op d) = Some (h, body) /\ h.(emulated.type) = pack.code pack.trigger /\ h.(emulated.key) = get_uuid job.(blob_name) /\
    request_parser.type body = Some (type_code file) /\ request_parser.position body = Some 0 /\ request_parser.size body = Some n /\
    request_parser.operation body = Some op /\ emulated.data body = d.
Proof.
  intros Hop Hd. set (r := emulated.mk_request (type_code file) op 0 n).
  destruct (emulated_read_serialize (trigger_header get_uuid job.(blob_name) sequence salt) (emulated.store_request padding (emulated.to_network_format r) ++ d)) as (h & Hr & Ht & Hkey);
    [done..|rewrite length_app, length_emulated_request; unfold emulated.sizeof_request; lia|].
  destruct (emulated_fields padding r d) as (F1 & F2 & F3 & F4 & F5); [change (type_code file) with 0; cbn; lia|].
  eexists h, _. split; [exact Hr|]. by split_and!.
Qed.

Lemma sent_misread op d : Z.of_nat (length d) <= n -> n < 2 ^ 24 - 12 -> read_pack (sent op d) = None.
Proof.
  intros Hd Hlt. unfold sent. set (r := emulated.to_network_format _).
  assert (length (emulated.store_request padding r ++ d) = (12 + length d)%nat) as Hl by (by rewrite length_app, length_emulated_request).
  destruct (emulated.store_request padding r ++ d) as [|c data]; [done|]. apply misread; [done..|]. rewrite Hl. lia.
Qed.

End requests.

(** C35. The requests of the emulator are read back by a proxy that is built with its headers: key,
    operation, size and the bytes to write; the proxy of today waits for bytes that never
    come, so against it the emulator waits forever. *)
Theorem emulator_understood get_uuid padding draw job sequence salt n b
    (Hk : length (get_uuid job.(blob_name)) = 32%nat) (Hs : length sequence = 4%nat) (Ha : length salt = 4%nat)
    (Hsize : to_size job.(blob_bytes) = Ok n) (Hn : 0 <= n < 2 ^ 32 - 12) (Hb : request_of get_uuid padding draw job sequence salt = Ok b) :
  (exists h body, read_response b = Some (h, body) /\ h.(emulated.type) = pack.code pack.trigger /\ h.(emulated.key) = get_uuid job.(blob_name) /\
    request_parser.type body = Some (type_code file) /\ request_parser.position body = Some 0 /\ request_parser.size body = Some n /\
    match job.(access) with
    | read_op => request_parser.operation body = Some (operation_code read) /\ emulated.data body = []
    | write_op => request_parser.operation body = Some (operation_code write) /\
                  exists c, c ∈ job.(blob_name) /\ emulated.data body = replicate (Z.to_nat n) c
    end) /\
  (n < 2 ^ 24 - 12 -> read_pack b = None).
Proof.
  unfold request_of, read_request, write_request, filled in Hb. rewrite Hsize in Hb. cbn [mbind outcome_bind] in Hb. rewrite (proj2 (Z.leb_gt _ n)) in Hb by lia.
  assert (Hu : u32 (Z.of_nat (Z.to_nat n)) = n) by (rewrite Z2Nat.id by lia; apply wrap_small; change (modulus 4) with (2 ^ 32); lia).
  destruct job.(access) eqn:Eacc; cbn [mbind outcome_bind] in Hb.
  - rewrite length_replicate, Hu in Hb. injection Hb as <-. rewrite <- (app_nil_r (emulated.store_request padding _)). split.
    + destruct (sent_read get_uuid padding job sequence salt n Hk Hs Ha Hn (operation_code read) []) as (h & body & ?); [done|cbn; lia|].
      exists h, body. naive_solver.
    + by apply sent_misread; [..|cbn; lia].
  - destruct job.(blob_name) as [|x name] eqn:En; [done|]. rewrite <- En in *.
    destruct (job.(blob_name) !! _) as [c|] eqn:Ec; [|done]. cbn [defined mbind outcome_bind] in Hb. rewrite length_replicate, Hu in Hb. injection Hb as <-. split.
    + destruct (sent_read get_uuid padding job sequence salt n Hk Hs Ha Hn (operation_code write) (replicate (Z.to_nat n) c)) as (h & body & ?); [done|rewrite length_replicate; lia|].
      exists h, body. apply list_elem_of_lookup_2 in Ec. naive_solver.
    + apply sent_misread; [done..|rewrite length_replicate; lia].
Qed.

(** A row without a name that writes: the remainder of a division by zero. *)
Lemma nameless_write_undefined get_uuid padding draw n k sequence salt : to_size n = Ok k ->
  write_request get_uuid padding draw [] n sequence salt = Undefined.
Proof. intros Hn. unfold write_request. by rewrite Hn. Qed.

(** ** A trace of three rows *)

Definition sample_entry (t n : Z) (tail blob : bytes) (a : access_type) : entry :=
  mk_entry t 7 n tail (lit "app") blob a (lit "eu", lit "u1", lit "BlockBlob", lit "etag", lit "True").

Definition sample_entries : list entry :=
  [sample_entry 10 4096 [point; digit 0] (lit "a") write_op; sample_entry 10 12 [] (lit "b") read_op; sample_entry 30 5 [] (lit "a") read_op].

Definition sample_rows : list trace_row := (fun e => row_of e.(e_access) e) <$> sample_entries.

Lemma sample_entries_wf : Forall wf_entry sample_entries.
Proof.
  assert (forall b : bytes, forallb (fun c => negb (bool_decide (c = comma)) && negb (bool_decide (c = newline))) b = true -> plain b) as Hp.
  { intros b Hb. rewrite forallb_forall in Hb. split; intros Hin; apply list_elem_of_In in Hin; specialize (Hb _ Hin); by rewrite bool_decide_true in Hb. }
  repeat constructor; cbn; try lia; try (by left); try (by right); by apply Hp.
Qed.

Lemma trace_read_back_witness : trace_parser (Some (file_text [] sample_entries)) 3 = Ok sample_rows.
Proof. apply (trace_read_back sample_entries 3 sample_entries_wf). lia. Defined.

Lemma trace_replayed_witness : replay true sample_rows = Ok (3, submissions true (runs sample_rows)) /\ waited (submissions true (runs sample_rows)) = 20.
Proof.
  assert (Forall timed sample_rows) as Ht by (repeat constructor; cbn; lia).
  destruct (trace_replayed true sample_rows Ht) as (H1 & _ & _ & _ & H2 & _). split; [exact H1|]. by apply (H2 _ _ eq_refl).
Defined.

Lemma emulator_understood_witness : exists b, request_of (fun _ => replicate 32 x01) (x00, x07) 0 (row_of write_op (sample_entry 0 5 [] (lit "a") write_op)) (replicate 4 x02) (replicate 4 x03) = Ok b /\ read_pack b = None.
Proof.
  eexists. split; [vm_compute; reflexivity|].
  by apply (emulator_understood (fun _ => replicate 32 x01) (x00, x07) 0 (row_of write_op (sample_entry 0 5 [] (lit "a") write_op)) (replicate 4 x02) (replicate 4 x03) 5).
Defined.

Example sample_main : main (fun f => if decide (f = lit "trace.csv") then Some (file_text [] sample_entries) else None)
    [lit "./trace_emulator"; lit "trace.csv"; lit "3"; lit "dir"; lit "out"; lit "missing"; lit "0"; lit "false"] =
  Ok ([], 3, [Submit (rev (take 2 sample_rows)); Submit (drop 2 sample_rows)]).
Proof. vm_compute. reflexivity. Qed.
