(* ===== verification/Bench.v ===== *)
(** * The benchmark ([proxy/clients/slsfs-client.cpp])

    Clients send reads and writes of the older kind to the proxies they find in ZooKeeper,
    as fast as they are answered, and the times are written to a table.  The random
    numbers, the clock, ZooKeeper's contents and the resolver are given; how the proxies
    and functions answer is a [Transport].  Averages and deviations are left out. *)
From Stdlib Require Import ZArith Lia.
From stdpp Require Import base tactics option list gmap sorting strings.
From S2P Require Import Prelude KvLog Wire Request Coordinator Directory DataFunction Client Ring Startup Direct Api Outcome.
Import pack packet_create.

(** ** The proxies *)

Section setup.
Variables encode_base64 decode_base64 : bytes -> bytes.
Variable resolve : bytes -> bytes -> option endpoint.

(** [get_uuid]: host and port are parted at the first colon. *)
Definition get_uuid (nodes : gmap bytes bytes) (child : bytes) : outcome endpoint :=
  buf ← or_throw (nodes !! child);
  '(host, port) ← defined (split_at colon buf);
  or_throw (resolve host port).

Fixpoint get_uuids (nodes : gmap bytes bytes) (ids : list bytes) : outcome (list endpoint) :=
  match ids with
  | [] => Ok []
  | id :: ids => e ← get_uuid nodes (encode_base64 id); es ← get_uuids nodes ids; Ok (e :: es)
  end.

Definition setup_slsfs (nodes : gmap bytes bytes) (children : list bytes) : outcome (list bytes * list endpoint) :=
  let new_proxy_list := sort_ids (decode_base64 <$> children) in
  es ← get_uuids nodes new_proxy_list;
  Ok (new_proxy_list, es).

(** What a proxy announces has its liveliness behind a second colon (see [Membership]), and
    here that is part of the port: with a resolver that knows no such service, the
    benchmark does not start. *)
Definition announced (host port liveliness : bytes) : bytes := host ++ [colon] ++ port ++ [colon] ++ liveliness.

Lemma split_at_first c a b : c ∉ a -> split_at c (a ++ c :: b) = Some (a, b).
Proof.
  induction a as [|x a IH]; intros Hn; cbn [app split_at]; [by rewrite decide_True|].
  apply not_elem_of_cons in Hn as [Hx Hn]. rewrite decide_False by congruence. by rewrite IH.
Qed.

Lemma announced_not_resolved nodes child host port liveliness : nodes !! child = Some (announced host port liveliness) ->
  colon ∉ host -> (forall h s, colon ∈ s -> resolve h s = None) -> get_uuid nodes child = Throws.
Proof.
  intros En Hh Hr. unfold get_uuid. rewrite En. cbn [or_throw mbind outcome_bind]. unfold announced. cbn [app].
  rewrite split_at_first by done. cbn [defined mbind outcome_bind]. rewrite Hr; [done|].
  apply elem_of_app. right. by left.
Qed.

Theorem todays_proxies_not_found nodes children : children <> [] ->
  (forall id, id ∈ (decode_base64 <$> children) -> exists host port liveliness,
    nodes !! encode_base64 id = Some (announced host port liveliness) /\ colon ∉ host) ->
  (forall h s, colon ∈ s -> resolve h s = None) ->
  setup_slsfs nodes children = Throws.
Proof.
  intros Hne Hn Hr. unfold setup_slsfs. pose proof (sort_ids_perm (decode_base64 <$> children)) as Hp.
  destruct (sort_ids (decode_base64 <$> children)) as [|id ids].
  { apply Permutation_nil in Hp. by apply fmap_nil_inv in Hp. }
  destruct (Hn id) as (host & port & liveliness & E & Hh); [rewrite <- Hp; by left|].
  cbn [get_uuids]. by rewrite (announced_not_resolved _ _ _ _ _ E Hh Hr).
Qed.

End setup.

(** [pick_proxy], as a place in the list. *)
Definition pick_proxy (proxy_uuid : list bytes) (fileid : bytes) : nat :=
  match list_find (fun id => lex_lt fileid id = true) proxy_uuid with Some (i, _) => i | None => O end.

(** It is the proxy of the client library and of the proxies themselves. *)
Theorem pick_proxy_owner proxy_uuid fileid : proxy_uuid !! pick_proxy proxy_uuid fileid = owner proxy_uuid fileid.
Proof.
  unfold pick_proxy, owner, upper_bound.
  destruct (list_find _ proxy_uuid) as [[i id]|] eqn:E; cbn [fmap option_fmap option_map snd].
  - by apply list_find_Some in E as [E _].
  - by destruct proxy_uuid.
Qed.

(** ** Names *)

(** [memcpy] of an [int] over a key of zeros. *)
Definition key_of_int (pick : Z) : bytes := le_bytes 4 pick ++ replicate 28 x00.

(** Where the names of a test come from: a generator of names, of counted names, of names
    with 32 random bytes, or one name. *)
Inductive names := Selected | Allname | Anyname | Samename.

(** [number]: what the distributions and the counter give; [bytes_drawn]: 32 of them. *)
Definition name_of (n : names) (use_uniform : bool) (number : Z) (bytes_drawn : list Z) : bytes :=
  match n with
  | Selected => if use_uniform then byte_of <$> bytes_drawn else key_of_int number
  | Allname => key_of_int number
  | Anyname => byte_of <$> bytes_drawn
  | Samename => replicate 3 x03 ++ replicate 29 x00
  end.

(** Counted names differ from each other. *)
Lemma counted_names_differ i j : 0 <= i < 2 ^ 32 -> 0 <= j < 2 ^ 32 -> key_of_int i = key_of_int j -> i = j.
Proof.
  intros Hi Hj E. apply (f_equal (fun b => le_val (take 4 b))) in E. unfold key_of_int in E.
  rewrite !take_app_length' in E by (by rewrite length_le_bytes). by rewrite !le_val_le_small in E by done.
Qed.

(** ** Tests *)

Record workload := mk_workload { over_range : bool; rwdist : list Z; genname : names }.

Definition test_cases : list (String.string * workload) :=
  [("fill", mk_workload true [1] Allname); ("create", mk_workload true [1] Anyname);
   ("50-50", mk_workload false [0; 1] Selected); ("95-5", mk_workload false (replicate 19 0 ++ [1]) Selected);
   ("100-0", mk_workload false [0] Selected); ("0-100", mk_workload false [1] Selected);
   ("samename", mk_workload false [1] Samename); ("samename-read", mk_workload false [0] Samename)]%string.

Definition times_of (t : workload) (total_times file_range : Z) : Z := if t.(over_range) then file_range else total_times.

(** The percentages in the names are those of reads and of writes. *)
Example test_shares : (fun n => (fun t => (length (filter (fun x => x = 0) t.(rwdist)), length t.(rwdist))) <$> switch test_cases (lit n))
    <$> ["50-50"; "95-5"; "100-0"; "0-100"]%string = Some <$> [(1, 2); (19, 20); (1, 1); (0, 1)]%nat.
Proof. vm_refl. Qed.

(** ** A request *)

Section requests.
Context {S : Type} `{Transport S}.

(** The request goes to the proxy, whose answer is taken for an address, and once more to
    that address; [None] inside is an exception. *)
Definition io_request (writes : bool) (key buf : bytes) (w : S) : option (S * option bytes) :=
  let '(w, (salt, sequence)) := draw w in
  let p := if writes then write_v1 salt sequence key buf 0 else read_v1 salt sequence key (u32 (Z.of_nat (length buf))) 0 in
  '(w, r) ← send p w;
  match r with
  | None => Some (w, None)
  | Some data =>
      ep ← parse_address data;
      let '(w, ok) := add_endpoint ep p w in
      if ok then direct_send p w else Some (w, None)
  end.

(** A job of a proxy's queue: its key, when it starts and ends, and what the distribution
    over [rwdist] gives. *)
Record job := mk_job { j_key : bytes; j_start : Z; j_end : Z; j_draw : nat }.

(** The queue of one proxy: the times that were recorded, and whether no exception ended
    the program.  After the end of the test a job does nothing. *)
Fixpoint run_queue (rwdist : list Z) (buf : bytes) (end_time : Z) (jobs : list job) (w : S) : option (S * list Z * bool) :=
  match jobs with
  | [] => Some (w, [], true)
  | j :: jobs =>
      '(w, ok) ← (if end_time <? j.(j_start) then Some (w, true)
                  else match rwdist !! j.(j_draw) with
                       | None => Some (w, false)
                       | Some k => '(w, r) ← io_request (negb (k =? 0)) j.(j_key) buf w; Some (w, bool_decide (is_Some r))
                       end);
      if (ok : bool) then
        '(w, ds, ok) ← run_queue rwdist buf end_time jobs w;
        Some (w, (if j.(j_end) <=? end_time then [j.(j_end) - j.(j_start)] else []) ++ ds, ok)
      else Some (w, [], false)
  end.

(** What was recorded are the times of the jobs that ended in time, in their order. *)
Theorem recorded_in_time rwdist buf end_time jobs (w w' : S) ds :
  run_queue rwdist buf end_time jobs w = Some (w', ds, true) ->
  ds = (fun j => j.(j_end) - j.(j_start)) <$> filter (fun j => j.(j_end) <= end_time) jobs.
Proof.
  revert w ds. induction jobs as [|j jobs IH]; intros w ds; [by intros [= _ <-]|].
  cbn [run_queue]. intros ([w1 ok] & _ & E)%bind_Some. destruct ok; [|done].
  apply bind_Some in E as ([[w2 ds2] ok2] & E2 & E). injection E as -> <- ->. apply IH in E2 as ->.
  rewrite filter_cons. destruct (Z.leb_spec j.(j_end) end_time).
  - by rewrite decide_True.
  - by rewrite decide_False by lia.
Qed.

(** An answer of fewer than six bytes, as the OK of a write is, has no address in it: the
    benchmark reads beyond it. *)
Lemma short_answer_undefined (writes : bool) key buf (w w1 w2 : S) salt sequence data :
  draw w = (w1, (salt, sequence)) ->
  send (if writes then write_v1 salt sequence key buf 0 else read_v1 salt sequence key (u32 (Z.of_nat (length buf))) 0) w1
    = Some (w2, Some data) ->
  (length data < 6)%nat -> io_request writes key buf w = None.
Proof.
  intros Ed Es Hl. unfold io_request. rewrite Ed, Es. cbn [mbind option_bind]. unfold parse_address.
  assert (mem_get 4 2 data = None) as ->; [unfold mem_get; by rewrite decide_False by lia|].
  by destruct (mem_get 0 4 data).
Qed.

End requests.

(** ** The queues *)

(** The names of the rounds, each posted to the queue of its proxy. *)
Definition queue_of (proxy_uuid : list bytes) (jobs : list job) (i : nat) : list job :=
  filter (fun j => pick_proxy proxy_uuid j.(j_key) = i) jobs.

Lemma concat_insert {A} n (f g : nat -> list A) x k :
  (forall i, (i < n)%nat -> f i = if decide (k = i) then x :: g i else g i) ->
  concat (f <$> seq 0 n) ≡ₚ (if decide (k < n)%nat then [x] else []) ++ concat (g <$> seq 0 n).
Proof.
  induction n as [|n IH]; intros Hf; [by rewrite decide_False by lia|].
  rewrite seq_S, !fmap_app, !concat_app, IH by (intros i Hi; apply Hf; lia). cbn [Nat.add fmap list_fmap concat].
  rewrite !app_nil_r, (Hf n) by lia. repeat case_decide; try lia; cbn [app]; [done| |done].
  by rewrite Permutation_middle.
Qed.

Lemma pick_proxy_lt proxy_uuid key : proxy_uuid <> [] -> (pick_proxy proxy_uuid key < length proxy_uuid)%nat.
Proof.
  intros Hne. unfold pick_proxy. destruct (list_find _ _) as [[i id]|] eqn:E.
  - apply list_find_Some in E as [E _]. by apply lookup_lt_Some in E.
  - destruct proxy_uuid; [done|cbn; lia].
Qed.

(** Every job is in one queue. *)
Lemma queues_partition proxy_uuid jobs : proxy_uuid <> [] ->
  concat (queue_of proxy_uuid jobs <$> seq 0 (length proxy_uuid)) ≡ₚ jobs.
Proof.
  intros Hne. induction jobs as [|j jobs IH]; [by induction (seq _ _)|].
  rewrite (concat_insert _ _ (queue_of proxy_uuid jobs) j (pick_proxy proxy_uuid j.(j_key))).
  - rewrite decide_True by (by apply pick_proxy_lt). by rewrite IH.
  - intros i _. unfold queue_of. by rewrite filter_cons.
Qed.

(** ** The table *)

(** What the summary has in a row; the numbers that are floating point are named only. *)
Inductive cell := Blank | Average | Deviation | Median (med : Z) | Bufsize (n : Z) | Zipf_alpha | File_range (n : Z)
| Dist_heading | Bucket (milliseconds count : Z).

Record settings := mk_settings { total_times : Z; bufsize : Z; file_range : Z }.

Definition summary_cell (s : settings) (med : Z) (dist : list (Z * Z)) (row : nat) : cell :=
  match row with
  | 0%nat => Blank | 1%nat => Average | 2%nat => Deviation | 3%nat => Median med | 4%nat => Bufsize s.(bufsize)
  | 5%nat => Zipf_alpha | 6%nat => File_range s.(file_range) | 7%nat => Blank | 8%nat => Dist_heading
  | _ => match dist !! (row - 9)%nat with Some (k, n) => Bucket k n | None => Blank end
  end.

Record line := mk_line { l_duration : option Z; l_summary : cell; l_results : list Z }.

(** Every client's list is followed to the row; beyond its end the behaviour is undefined. *)
Definition csv_line (s : settings) (med : Z) (dist : list (Z * Z)) (results : list (list Z)) (durations : list Z) (row : nat)
    : option line :=
  let d := if (row <=? length durations)%nat && negb (row =? 0)%nat then durations !! (row - 1)%nat else None in
  cells ← mapM (fun l => l !! row) results;
  Some (mk_line d (summary_cell s med dist row) cells).

(** [start_test], once the clients have ended; the first time of each is not counted.
    [buckets] are the milliseconds with their numbers.  The middle of no times at all is an
    exception. *)
Definition start_test (s : settings) (buckets : list Z -> list (Z * Z)) (results : list (list Z)) (durations : list Z)
    : outcome (list line) :=
  rest ← defined (mapM (fun l : list Z => match l with [] => None | _ :: l => Some l end) results);
  let copied := merge_sort Z.le (concat rest) in
  med ← or_throw (copied !! (length copied / 2)%nat);
  defined (mapM (csv_line s med (buckets copied) results durations) (seq 0 (Z.to_nat (u32 s.(total_times))))).

Lemma start_test_lines s buckets results durations ls : 0 <= s.(total_times) < 2 ^ 32 ->
  start_test s buckets results durations = Ok ls ->
  length ls = Z.to_nat s.(total_times) /\ Forall (fun l => s.(total_times) <= Z.of_nat (length l)) results.
Proof.
  intros Ht. unfold start_test. intros (rest & _ & (med & _ & E)%bind_Ok)%bind_Ok. rewrite u32_small in E by done.
  destruct (mapM _ (seq _ _)) as [ls'|] eqn:El; [|done]. injection E as ->. split.
  { apply length_mapM in El. by rewrite length_seq in El. }
  apply Forall_forall. intros l Hl. destruct (Z.eq_dec s.(total_times) 0) as [->|Hn]; [lia|].
  apply mapM_Some_1 in El. assert (seq 0 (Z.to_nat s.(total_times)) !! (Z.to_nat s.(total_times) - 1)%nat = Some (Z.to_nat s.(total_times) - 1)%nat) as Hs
    by (apply lookup_seq; lia). destruct (Forall2_lookup_l _ _ _ _ _ El Hs) as (line & _ & Eline).
  unfold csv_line in Eline. apply bind_Some in Eline as (cells & Ec & _). apply mapM_Some_1 in Ec.
  apply list_elem_of_lookup in Hl as [i Hi]. destruct (Forall2_lookup_l _ _ _ _ _ Ec Hi) as (y & _ & Ey).
  apply lookup_lt_Some in Ey. lia.
Qed.

(** The table is written, a line for each of the requests, when every client has all its
    times and more than one. *)
Theorem table_written s buckets results durations : 0 <= s.(total_times) < 2 ^ 32 -> results <> [] ->
  Forall (fun l => s.(total_times) <= Z.of_nat (length l) /\ (2 <= length l)%nat) results ->
  exists ls, start_test s buckets results durations = Ok ls /\ length ls = Z.to_nat s.(total_times) /\
    forall row line, ls !! row = Some line -> mapM (fun l => l !! row) results = Some line.(l_results).
Proof.
  intros Ht Hne Hall. unfold start_test. rewrite u32_small by done.
  assert (exists rest, mapM (fun l : list Z => match l with [] => None | _ :: l => Some l end) results = Some rest /\ (0 < length (concat rest))%nat)
    as (rest & -> & Hr).
  { destruct results as [|l results]; [done|]. apply Forall_cons in Hall as [[_ Hl] Hall]. destruct l as [|x [|y l]]; [cbn in Hl; lia..|].
    destruct (mapM_is_Some_2 (fun l : list Z => match l with [] => None | _ :: l => Some l end) results) as [rest E].
    { eapply Forall_impl; [exact Hall|]. intros [|z l'] [_ Hz]; [cbn in Hz; lia|by eexists]. }
    exists ((y :: l) :: rest). split; [|cbn; lia]. cbn [mapM]. cbn [mbind option_bind]. by rewrite E. }
  cbn [defined mbind outcome_bind]. set (copied := merge_sort Z.le (concat rest)).
  assert (length copied = length (concat rest)) as Hc by (apply Permutation_length, merge_sort_Permutation).
  destruct (lookup_lt_is_Some_2 copied (length copied / 2)%nat) as [med ->]; [apply Nat.div_lt; lia|].
  cbn [or_throw mbind outcome_bind].
  destruct (mapM_is_Some_2 (csv_line s med (buckets copied) results durations) (seq 0 (Z.to_nat s.(total_times)))) as [ls E].
  { apply Forall_forall. intros row Hrow%elem_of_seq. unfold compose, csv_line. cbv beta.
    destruct (mapM_is_Some_2 (fun l : list Z => l !! row) results) as [cells ->]; [|by eexists].
    eapply Forall_impl; [exact Hall|]. intros l [Hl _]. apply (lookup_lt_is_Some_2 l row). lia. }
  rewrite E. exists ls. split; [done|]. split; [apply length_mapM in E; by rewrite length_seq in E|].
  intros row line Hline. apply mapM_Some_1 in E. destruct (Forall2_lookup_r _ _ _ _ _ E Hline) as (r & Er & El).
  apply lookup_seq in Er as [-> _]. unfold csv_line in El. apply bind_Some in El as (cells & Ec & [= <-]). exact Ec.
Qed.

(** A test that runs out of time has no table: a job that ended late left no time, and the
    lines are written for all the requests. *)
Theorem late_job_no_table {S} `{Transport S} s buckets durations rwdist buf end_time jobs (w w' : S) ds ls :
  run_queue rwdist buf end_time jobs w = Some (w', ds, true) ->
  Z.of_nat (length jobs) = s.(total_times) -> s.(total_times) < 2 ^ 32 -> Exists (fun j => end_time < j.(j_end)) jobs ->
  start_test s buckets [ds] durations <> Ok ls.
Proof.
  intros Hrun Hn Hlt Hlate Hok. apply start_test_lines in Hok as [_ Hall]; [|lia]. apply Forall_inv in Hall. cbv beta in Hall.
  apply recorded_in_time in Hrun as Hds. rewrite Hds, length_fmap in Hall.
  assert (length (filter (fun j : job => (j.(j_end) <= end_time)%Z) jobs) < length jobs)%nat; [|lia].
  apply Exists_exists in Hlate as (j & Hj & Hl). apply length_filter_lt with j; [done|lia].
Qed.

(** ** Against the proxies of today *)

Lemma older_request_fields (writes : bool) salt sequence key buf : Z.of_nat (length buf) < 2 ^ 32 ->
  let p := if writes then write_v1 salt sequence key buf 0 else read_v1 salt sequence key (u32 (Z.of_nat (length buf))) 0 in
  p.(header).(pack.key) = key /\ Launcher.is_metadata p.(data) = Some false /\
  request_parser.file_key p.(data) = Some (replicate key_length x00).
Proof.
  intros Hl p. split; [by destruct writes|].
  assert (exists op d, p.(data) = store_request (request_to_network (internal_request op 0 (Z.of_nat (length buf)))) ++ d) as (op & d & ->).
  { destruct writes; subst p; unfold write_v1, read_v1, trigger_packet, request_image; cbn [data]; rewrite u32_small by lia.
    - by exists Request.write, buf.
    - exists Request.read, []. by rewrite app_nil_r. }
  pose proof (wf_internal_request op 0 (Z.of_nat (length buf)) ltac:(lia) ltac:(lia)) as Hwf. split.
  - unfold Launcher.is_metadata. by rewrite (parser_type _ d Hwf).
  - by rewrite (parser_file_key _ d Hwf).
Qed.

(** A proxy answers a read or write of a file that is not open with an error text.  The older
    requests name no file, so none is open for them, and the first letters of the text are
    taken for an address: if nobody answers there the benchmark ends with an exception. *)
Theorem error_text_is_address {D} `{KVStore D} pick cfg salts shuffle format_time salt sequence uninitialised cache_cfg
    enable_cache client_salt client_sequence tick freed worker_address reachable (writes : bool) key buf (w : served D)
    (T := served_transport pick cfg salts shuffle format_time salt sequence uninitialised cache_cfg enable_cache
            client_salt client_sequence tick freed worker_address reachable) :
  Z.of_nat (length buf) < 2 ^ 32 ->
  w.(tables).(Launcher.locked_directories_for_rename) !! key = None ->
  w.(tables).(Launcher.opened_files) !! replicate key_length x00 = None ->
  let ep := mk_endpoint (lit "Erro") (be_val (lit "r:")) in
  reachable ep = false -> io_request (H := T) writes key buf w = Some (w, None).
Proof.
  intros Hl Hd Ho ep Hr. unfold io_request. cbn [draw T served_transport].
  set (p := if writes then _ else _).
  destruct (older_request_fields writes client_salt client_sequence key buf Hl) as (Ek & Em & Ef). fold p in Ek, Em, Ef.
  assert (Api.send (Transport := T) p w = Some (w, Some Launcher.err_not_open)) as ->.
  { cbn [send T served_transport]. unfold served_send, Launcher.start_trigger_post. rewrite Ef, Em, Ek, Hd. cbn [mbind option_bind].
    rewrite Ho. destruct w. reflexivity. }
  cbn [mbind option_bind].
  assert (parse_address Launcher.err_not_open = Some ep) as -> by (by vm_compute).
  cbn [mbind option_bind add_endpoint T served_transport]. by rewrite Hr.
Qed.

(** ** A proxy that measures its functions ([clients/datafunction-profile.cpp])

    Several executers each have one request with the launcher at a time; all of them count
    [left] down.  The thread that runs the callbacks is one. *)

(** What a request is given: salt and sequence of the header, four bytes of its key, and how
    long it takes. *)
Record draws := mk_draws { d_salt : bytes; d_sequence : bytes; d_key : bytes; d_time : Z }.

Record profile := mk_profile {
  left_ : Z; posted_ : list packet; result : list Z; concurrent_counter : Z; concurrent_counter_result : list Z;
  done_ : option (list Z)          (* the results [next] was first called with *)
}.

Definition profile_request (buf : bytes) (d : draws) : packet :=
  write_v1 d.(d_salt) d.(d_sequence) (d.(d_key) ++ replicate 28 x00) buf 0.

Definition start_in_sequence (buf : bytes) (d : draws) (s : profile) : profile :=
  if s.(left_) <=? 0 then
    mk_profile s.(left_) s.(posted_) s.(result) s.(concurrent_counter) s.(concurrent_counter_result)
      (match s.(done_) with None => Some s.(result) | r => r end)
  else
    mk_profile s.(left_) (s.(posted_) ++ [profile_request buf d]) s.(result) (s.(concurrent_counter) + 1)
      s.(concurrent_counter_result) s.(done_).

(** The callback: the next request is started before this one is counted. *)
Definition on_finished (buf : bytes) (time : Z) (d : draws) (s : profile) : profile :=
  let s := mk_profile s.(left_) s.(posted_) s.(result) (s.(concurrent_counter) - 1)
             (s.(concurrent_counter_result) ++ [s.(concurrent_counter)]) s.(done_) in
  let s := start_in_sequence buf d s in
  mk_profile (s.(left_) - 1) s.(posted_) (s.(result) ++ [time]) s.(concurrent_counter) s.(concurrent_counter_result) s.(done_).

Definition start_profile (buf : bytes) (total_request : Z) (executers : list draws) : profile :=
  foldl (fun s d => start_in_sequence buf d s) (mk_profile total_request [] [] 0 [] None) executers.

Definition finishes (buf : bytes) (ds : list draws) (s : profile) : profile :=
  foldl (fun s d => on_finished buf d.(d_time) d s) s ds.

Lemma start_profile_running buf n ds : 0 < n -> let s := start_profile buf n ds in
  s.(left_) = n /\ length s.(posted_) = length ds /\ s.(result) = [] /\ s.(done_) = None.
Proof.
  intros Hn. assert (forall s, 0 < s.(left_) -> let s' := foldl (fun s d => start_in_sequence buf d s) s ds in
    s'.(left_) = s.(left_) /\ length s'.(posted_) = (length s.(posted_) + length ds)%nat /\ s'.(result) = s.(result) /\ s'.(done_) = s.(done_)) as Hs.
  { induction ds as [|d ds IH]; intros s Hl; [cbn; split_and!; try done; lia|].
    cbn [foldl length]. destruct (IH (start_in_sequence buf d s)) as (E1 & E2 & E3 & E4);
      unfold start_in_sequence in *; rewrite (proj2 (Z.leb_gt _ _)) in * by lia; cbn [left_ posted_ result done_] in *; [done|].
    cbn zeta in *. rewrite E1, E2, E3, E4, length_app. cbn [length]. split_and!; try done; lia. }
  destruct (Hs (mk_profile n [] [] 0 [] None) Hn) as (E1 & E2 & E3 & E4). done.
Qed.

Lemma finishes_running buf ds s : Z.of_nat (length ds) <= s.(left_) -> let s' := finishes buf ds s in
  s'.(left_) = s.(left_) - Z.of_nat (length ds) /\ length s'.(posted_) = (length s.(posted_) + length ds)%nat /\
  s'.(result) = s.(result) ++ (d_time <$> ds) /\ s'.(done_) = s.(done_).
Proof.
  unfold finishes. revert s. induction ds as [|d ds IH]; intros s Hl.
  { cbn. rewrite app_nil_r. split_and!; try done; lia. }
  cbn [foldl length] in *. destruct (IH (on_finished buf d.(d_time) d s)) as (E1 & E2 & E3 & E4);
    unfold on_finished, start_in_sequence in *; cbn [left_] in *; rewrite (proj2 (Z.leb_gt _ _)) in * by lia;
    cbn [left_ posted_ result done_] in *; [lia|].
  cbn zeta in *. rewrite E1, E2, E3, E4, length_app, <- (assoc_L (++)). cbn [length app fmap list_fmap].
  split_and!; try done; lia.
Qed.

(** With [n] requests to make and [k] executers, [n] answers later [n + k] requests were
    posted, as many more than wanted as there are executers; the next answer ends the test
    with the [n] results there are, and its own time is not one of them. *)
Theorem profile_posts_more buf n executers ds d : 0 < n -> Z.of_nat (length ds) = n ->
  let s := finishes buf ds (start_profile buf n executers) in
  Z.of_nat (length s.(posted_)) = n + Z.of_nat (length executers) /\ s.(done_) = None /\
  (on_finished buf d.(d_time) d s).(done_) = Some (d_time <$> ds).
Proof.
  intros Hn Hd. destruct (start_profile_running buf n executers Hn) as (E1 & E2 & E3 & E4).
  destruct (finishes_running buf ds (start_profile buf n executers)) as (F1 & F2 & F3 & F4); [lia|].
  cbn zeta in *. rewrite F2, F4, E4, E2. split; [lia|]. split; [done|].
  unfold on_finished, start_in_sequence. cbn [left_ done_ result]. rewrite F1, (proj2 (Z.leb_le _ _)) by lia.
  cbn [done_]. rewrite F4, E4, F3, E3. done.
Qed.
