(* ===== verification/Report.v ===== *)
(** * The policies together, and the report of the proxy ([launcher-policy.hpp],
    [launcher-base-types.hpp])

    [launcher_policy] hands each event to the keep-alive policy, the launch policy, the file
    policy and the reporter, in a handler of its own; handlers run on the threads of the
    [io_context].  The reporter counts, and once a second writes what it has counted to a
    file.  Times are nanoseconds of one clock. *)
From Stdlib Require Import ZArith Lia.
From stdpp Require Import base tactics option list gmap strings.
From S2P Require Import Prelude Wire Launcher Worker DataFunction Policy Startup Outcome.

(** ** [reporter] *)

(** Workers are named by their [worker_id_]. *)
Record worker_info := mk_info {
  start_duration : Z; start_time : Z; end_time : Z; finished_job_count : Z;
  cache_transfer : bool; cache_hits : Z; cache_evictions : Z
}.

(** A line of the history; the latency is a sum of microseconds and what it is divided by,
    a [double] in the source. *)
Record history := mk_history {
  worker_count : Z; number_of_incoming_request : Z; finished_jobs : Z; job_latency : Z * Z; when : Z
}.

Record reporter := mk_reporter {
  start_time_ : Z; started_worker_ : Z; pending_worker_timestamps_ : list Z; worker_info_map_ : gmap nat worker_info;
  worker_count_ : Z; number_of_incoming_request_ : Z; finished_job_count_global_ : Z; job_latency_total_ : Z;
  history_ : list history; enable_history_ : bool
}.

Definition new_reporter (now : Z) (enable_history : bool) : reporter := mk_reporter now 0 [] ∅ 0 0 0 0 [] enable_history.

Definition with_counts (workers incoming finished latency : Z) (h : list history) (r : reporter) : reporter :=
  mk_reporter r.(start_time_) r.(started_worker_) r.(pending_worker_timestamps_) r.(worker_info_map_)
    workers incoming finished latency h r.(enable_history_).
Definition with_workers (started : Z) (pending : list Z) (m : gmap nat worker_info) (workers : Z) (r : reporter) : reporter :=
  mk_reporter r.(start_time_) started pending m workers r.(number_of_incoming_request_) r.(finished_job_count_global_)
    r.(job_latency_total_) r.(history_) r.(enable_history_).

(** What [finished_a_job], [started_a_new_job], [starting_a_new_worker],
    [registered_a_new_worker] and [deregistered_a_worker] are called with. *)
Inductive report_event :=
| Finished_job (now : Z) (w : nat) (start_time_point : Z) | Started_job | Starting_worker (now : Z)
| Registered_worker (now : Z) (w : nat) (transfer : bool) | Deregistered_worker (now : Z) (w : nat) (hits evictions : Z).

Definition report_finished (now : Z) (w : nat) (start_time_point : Z) (r : reporter) : reporter :=
  let r := with_counts r.(worker_count_) r.(number_of_incoming_request_) (u64 (r.(finished_job_count_global_) + 1))
             (u64 (r.(job_latency_total_) + Z.quot (now - start_time_point) 1000)) r.(history_) r in
  with_workers r.(started_worker_) r.(pending_worker_timestamps_)
    (alter (fun i => mk_info i.(start_duration) i.(start_time) i.(end_time) (u32 (i.(finished_job_count) + 1))
                       i.(cache_transfer) i.(cache_hits) i.(cache_evictions)) w r.(worker_info_map_))
    r.(worker_count_) r.

Definition report_started (r : reporter) : reporter :=
  with_counts r.(worker_count_) (u64 (r.(number_of_incoming_request_) + 1)) r.(finished_job_count_global_) r.(job_latency_total_) r.(history_) r.

Definition report_starting (now : Z) (r : reporter) : reporter :=
  with_workers r.(started_worker_) (r.(pending_worker_timestamps_) ++ [now]) r.(worker_info_map_) r.(worker_count_) r.

(** Without a pending time the start is the epoch; an entry that is there stays. *)
Definition report_registered (now : Z) (w : nat) (transfer : bool) (r : reporter) : reporter :=
  let started_time := default 0 (head r.(pending_worker_timestamps_)) in
  let m := match r.(worker_info_map_) !! w with
           | Some _ => r.(worker_info_map_)
           | None => <[w := mk_info (now - started_time) now now 0 false 0 0]> r.(worker_info_map_)
           end in
  with_workers (u32 (r.(started_worker_) + 1)) (tail r.(pending_worker_timestamps_))
    (alter (fun i => mk_info i.(start_duration) i.(start_time) i.(end_time) i.(finished_job_count)
                       transfer i.(cache_hits) i.(cache_evictions)) w m)
    (u64 (r.(worker_count_) + 1)) r.

Definition report_deregistered (now : Z) (w : nat) (hits evictions : Z) (r : reporter) : reporter :=
  with_workers r.(started_worker_) r.(pending_worker_timestamps_)
    (alter (fun i => mk_info i.(start_duration) i.(start_time) now i.(finished_job_count) i.(cache_transfer) hits evictions)
       w r.(worker_info_map_))
    (u64 (r.(worker_count_) - 1)) r.

Definition report_exec (e : report_event) (r : reporter) : reporter :=
  match e with
  | Finished_job now w t => report_finished now w t r
  | Started_job => report_started r
  | Starting_worker now => report_starting now r
  | Registered_worker now w tr => report_registered now w tr r
  | Deregistered_worker now w h e => report_deregistered now w h e r
  end.

Definition report_execs (es : list report_event) (r : reporter) : reporter := foldl (fun r e => report_exec e r) r es.

(** [execute] reads the counters, and then sets them to zero; other handlers may run in
    between. *)
Definition sample (now : Z) (r : reporter) : reporter :=
  if r.(enable_history_) then
    with_counts r.(worker_count_) r.(number_of_incoming_request_) r.(finished_job_count_global_) r.(job_latency_total_)
      (r.(history_) ++ [mk_history r.(worker_count_) r.(number_of_incoming_request_) r.(finished_job_count_global_)
         (r.(job_latency_total_), if r.(finished_job_count_global_) =? 0 then 1 else r.(finished_job_count_global_)) now]) r
  else r.

Definition reset (r : reporter) : reporter := with_counts r.(worker_count_) 0 0 0 r.(history_) r.

(** The report: the time since the start, the workers, and the history with times from the
    start on. *)
Record report_df := mk_df { df_start_time : Z; df_start_duration : Z; df_duration : Z; df_finished_job_count : Z }.
Record report_json := mk_json { total_duration : Z; started_df : Z; df : list report_df; history_json : option (list history) }.

Definition write_report (now : Z) (r : reporter) : report_json :=
  mk_json (now - r.(start_time_)) r.(started_worker_)
    ((fun i => mk_df i.(start_time) i.(start_duration)
                 (if i.(end_time) - i.(start_time) =? 0 then now - i.(start_time) else i.(end_time) - i.(start_time))
                 i.(finished_job_count)) <$> (map_to_list r.(worker_info_map_)).*2)
    (if r.(enable_history_)
     then Some ((fun h => mk_history h.(worker_count) h.(number_of_incoming_request) h.(finished_jobs) h.(job_latency)
                            (h.(when) - r.(start_time_))) <$> r.(history_))
     else None).

(** A second: handlers, [sample], handlers of other threads, [reset]. *)
Record second := mk_second { before : list report_event; at_ : Z; between : list report_event }.

Definition play_second (s : second) (r : reporter) : reporter :=
  reset (report_execs s.(between) (sample s.(at_) (report_execs s.(before) r))).

Definition play (ss : list second) (r : reporter) : reporter := foldl (fun r s => play_second s r) r ss.

(** ** [launcher_policy] *)

Record launcher_policy := mk_policies {
  keepalive_policy_ : keepalive_policy; launch_policy_ : launch_policy; filetoworker_policy_ : file_policy; reporter_ : reporter
}.

(** Its calls, with what they read: the number of workers, the size of the packet of the
    job and the key of its file, and the clocks, in milliseconds for the policies. *)
Inductive policy_event :=
| Schedule_job (workers size : Z) | Reschedule_job (workers : Z)
| Start_job (ms now : Z) (w : nat) (key : bytes) (size : Z)
| Finish_job (now : Z) (w : nat) (key : bytes) (size start_time_point : Z)
| Start_worker (now : Z) | Register_worker (now : Z) (w : nat) (transfer : bool)
| Deregister_worker (now : Z) (w : nat) (hits evictions : Z)
| Start_transfer.

Section policies.
(** The average with its error margin, a percentage, and the test of the global policy. *)
Variable with_margin : Z -> Z -> Z.
Variable is_within_2_stdev : SMA_global -> bool.
(** Whether [debug] records are logged. *)
Variable debug : bool.

Definition keepalive_event (e : policy_event) (k : keepalive_policy) : keepalive_policy :=
  match e, k with
  | Start_job ms _ w _ _, Moving k m => Moving (moving_started_a_new_job debug ms w k) m
  | Start_job ms _ _ _ _, Moving_global k m => Moving_global (global_started_a_new_job ms k) m
  | _, _ => k
  end.

Definition launch_event (e : policy_event) (p : launch_policy) : launch_policy :=
  match e with
  | Schedule_job workers size => schedule_a_new_job workers size p
  | Reschedule_job workers => reschedule_a_job workers p
  | Start_job _ _ _ _ size => started_a_new_job size p
  | Finish_job _ _ _ size _ => finished_a_job size p
  | Start_worker _ => starting_a_new_worker p
  | Register_worker _ _ _ => registered_a_new_worker p
  | _ => p
  end.

Definition file_event (e : policy_event) (f : file_policy) : file_policy :=
  match e, f with
  | Start_job _ _ w key _, Active a => Active (active_started w key a)
  | Finish_job _ w key _ _, Active a => Active (active_finished w key a)
  | Start_transfer, Active a => Active (active_start_transfer a)
  | _, _ => f
  end.

Definition reporter_event (e : policy_event) : option report_event :=
  match e with
  | Start_job _ _ _ _ _ => Some Started_job
  | Finish_job now w _ _ t => Some (Finished_job now w t)
  | Start_worker now => Some (Starting_worker now)
  | Register_worker now w tr => Some (Registered_worker now w tr)
  | Deregister_worker now w h e => Some (Deregistered_worker now w h e)
  | _ => None
  end.

Definition policies_exec (e : policy_event) (s : launcher_policy) : launcher_policy :=
  mk_policies (keepalive_event e s.(keepalive_policy_)) (launch_event e s.(launch_policy_)) (file_event e s.(filetoworker_policy_))
    (match reporter_event e with Some e => report_exec e s.(reporter_) | None => s.(reporter_) end).

Definition policies_execs (es : list policy_event) (s : launcher_policy) : launcher_policy :=
  foldl (fun s e => policies_exec e s) s es.

(** What a worker is told to wait; [None] outside divides by zero. *)
Definition worker_keepalive (w : nat) (k : keepalive_policy) : option (option Z) :=
  match k with
  | Const_time waittime => Some (Some waittime)
  | Moving k m => set_worker_keepalive (with_margin m) w k
  | Moving_global k m => z ← global_worker_keepalive (with_margin m) is_within_2_stdev k; Some (Some z)
  end.

(** [launcher_policy::set_worker_keepalive], over the valid workers. *)
Fixpoint set_worker_keepalives (ws : list nat) (k : keepalive_policy) : option (list (nat * Z)) :=
  match ws with
  | [] => Some []
  | w :: ws =>
      z ← worker_keepalive w k;
      rest ← set_worker_keepalives ws k;
      Some (match z with Some z => (w, z) :: rest | None => rest end)
  end.

Definition file_execute (f : file_policy) : file_policy := match f with Active a => Active (active_execute a) | _ => f end.

(** [launcher_policy::execute]: the timers sent, and the report. *)
Definition policies_execute (ms now : Z) (s : proxy) (l : launcher_policy) : option (launcher_policy * list (nat * Z) * report_json) :=
  timers ← set_worker_keepalives (filter (fun w => is_valid s w = true) s.(worker_set_)) l.(keepalive_policy_);
  launch ← execute ms l.(launch_policy_);
  let r := reset (sample now l.(reporter_)) in
  Some (mk_policies l.(keepalive_policy_) launch (file_execute l.(filetoworker_policy_)) r, timers, write_report now r).

End policies.

(** The policies of a proxy that [main] started. *)
Definition started_policies (now : Z) (r : running) : launcher_policy :=
  mk_policies r.(keepalive) r.(launch) r.(files) (new_reporter now r.(Startup.history)).

(** ** What the reporter counts *)

Definition is_finished (e : report_event) : bool := match e with Finished_job _ _ _ => true | _ => false end.
Definition is_started (e : report_event) : bool := match e with Started_job => true | _ => false end.
Definition finished_of (w : nat) (e : report_event) : bool := match e with Finished_job _ w' _ => bool_decide (w = w') | _ => false end.
Definition count (p : report_event -> bool) (es : list report_event) : Z := Z.of_nat (length (filter (fun e => p e = true) es)).

(** Microseconds. *)
Definition latency (es : list report_event) : Z :=
  foldr (fun e n => match e with Finished_job now _ t => Z.quot (now - t) 1000 + n | _ => n end) 0 es.

(** Workers that came less those that left. *)
Definition net_workers (es : list report_event) : Z :=
  foldr (fun e n => match e with Registered_worker _ _ _ => 1 + n | Deregistered_worker _ _ _ _ => n - 1 | _ => n end) 0 es.

Lemma count_cons p e es : count p (e :: es) = (if p e then 1 else 0) + count p es.
Proof. unfold count. rewrite filter_cons. destruct (p e); [rewrite decide_True by done; cbn [length]; lia|by rewrite decide_False]. Qed.

Lemma u64_add_l a b : u64 (u64 a + b) = u64 (a + b).
Proof. unfold wrap. apply Zplus_mod_idemp_l. Qed.

Lemma u64_sub_l a b : u64 (u64 a - b) = u64 (a - b).
Proof. unfold wrap. apply Zminus_mod_idemp_l. Qed.

(** Handlers change the counters by what they are. *)
Lemma report_execs_counts es r a b c d :
  (r.(worker_count_), r.(number_of_incoming_request_), r.(finished_job_count_global_), r.(job_latency_total_)) = (u64 a, u64 b, u64 c, u64 d) ->
  let r' := report_execs es r in
  (r'.(worker_count_), r'.(number_of_incoming_request_), r'.(finished_job_count_global_), r'.(job_latency_total_))
  = (u64 (a + net_workers es), u64 (b + count is_started es), u64 (c + count is_finished es), u64 (d + latency es)) /\
  r'.(history_) = r.(history_) /\ r'.(enable_history_) = r.(enable_history_).
Proof.
  revert r a b c d. induction es as [|e es IH]; intros r a b c d E; cbn [report_execs foldl].
  - unfold count. cbn. by rewrite !Z.add_0_r, E.
  - fold (report_execs es (report_exec e r)). rewrite !count_cons. cbn [net_workers latency foldr]. fold (net_workers es) (latency es).
    injection E as Ea Eb Ec Ed.
    destruct e; cbn [is_started is_finished];
      [destruct (IH (report_exec (Finished_job now w start_time_point) r) a b (c + 1) (d + Z.quot (now - start_time_point) 1000)) as (-> & -> & ->)
      |destruct (IH (report_exec Started_job r) a (b + 1) c d) as (-> & -> & ->)
      |destruct (IH (report_exec (Starting_worker now) r) a b c d) as (-> & -> & ->)
      |destruct (IH (report_exec (Registered_worker now w transfer) r) (a + 1) b c d) as (-> & -> & ->)
      |destruct (IH (report_exec (Deregistered_worker now w hits evictions) r) (a - 1) b c d) as (-> & -> & ->)];
      try (cbn; rewrite ?Ea, ?Eb, ?Ec, ?Ed, ?u64_add_l, ?u64_sub_l; done);
      (split; [repeat apply (f_equal2 pair); apply (f_equal (wrap 8)); lia|done]).
Qed.

(** The state after a second, and what it has recorded. *)
Lemma play_second_spec s r a : r.(enable_history_) = true ->
  r.(worker_count_) = u64 a -> (r.(number_of_incoming_request_), r.(finished_job_count_global_), r.(job_latency_total_)) = (0, 0, 0) ->
  let r' := play_second s r in
  r'.(enable_history_) = true /\ r'.(worker_count_) = u64 (a + net_workers s.(before) + net_workers s.(between)) /\
  (r'.(number_of_incoming_request_), r'.(finished_job_count_global_), r'.(job_latency_total_)) = (0, 0, 0) /\
  exists h, r'.(history_) = r.(history_) ++ [h] /\ h.(worker_count) = u64 (a + net_workers s.(before)) /\
    h.(number_of_incoming_request) = u64 (count is_started s.(before)) /\
    h.(finished_jobs) = u64 (count is_finished s.(before)) /\ h.(job_latency).1 = u64 (latency s.(before)) /\ h.(when) = s.(at_).
Proof.
  intros He Ea E. injection E as Eb Ec Ed. unfold play_second.
  destruct (report_execs_counts s.(before) r a 0 0 0) as (E1 & Eh1 & Ee1); [by rewrite Ea, Eb, Ec, Ed|].
  set (r1 := report_execs s.(before) r) in *. rewrite He in Ee1. injection E1 as E1a E1b E1c E1d.
  assert (sample s.(at_) r1 = with_counts r1.(worker_count_) r1.(number_of_incoming_request_) r1.(finished_job_count_global_) r1.(job_latency_total_)
      (r1.(history_) ++ [mk_history r1.(worker_count_) r1.(number_of_incoming_request_) r1.(finished_job_count_global_)
         (r1.(job_latency_total_), if r1.(finished_job_count_global_) =? 0 then 1 else r1.(finished_job_count_global_)) s.(at_)]) r1) as Es
    by (unfold sample; by rewrite Ee1).
  rewrite Es. match goal with |- context [report_execs s.(between) ?x] => set (r2 := x) end.
  destruct (report_execs_counts s.(between) r2 (a + net_workers s.(before)) (0 + count is_started s.(before)) (0 + count is_finished s.(before))
    (0 + latency s.(before))) as (E2 & Eh2 & Ee2); [cbn; by rewrite E1a, E1b, E1c, E1d|]. injection E2 as E2a _ _ _.
  unfold reset. cbn [with_counts enable_history_ worker_count_ number_of_incoming_request_ finished_job_count_global_ job_latency_total_ history_].
  split_and!; [by rewrite Ee2|by rewrite E2a|done|]. eexists. split; [rewrite Eh2; cbn; rewrite Eh1; reflexivity|].
  cbn. rewrite E1a, E1b, E1c, E1d, !Z.add_0_l. by split_and!.
Qed.

(** ** Properties *)

(** What a line of the history says of a second. *)
Definition line_of (workers : Z) (s : second) (h : history) : Prop :=
  h.(worker_count) = u64 (workers + net_workers s.(before)) /\
  h.(number_of_incoming_request) = u64 (count is_started s.(before)) /\
  h.(finished_jobs) = u64 (count is_finished s.(before)) /\ h.(job_latency).1 = u64 (latency s.(before)) /\ h.(when) = s.(at_).

Fixpoint lines_of (workers : Z) (ss : list second) (hs : list history) : Prop :=
  match ss, hs with
  | [], [] => True
  | s :: ss, h :: hs => line_of workers s h /\ lines_of (workers + net_workers s.(before) + net_workers s.(between)) ss hs
  | _, _ => False
  end.

(** C32. The history has one line a second.  It counts the requests that were started and
    finished, and their latency, since the line before; but what is counted while it is
    being written is in no line: the counters are set to zero after they were read.  The
    workers are those that came less those that left. *)
Theorem history_counts now ss :
  let r := play ss (new_reporter now true) in
  lines_of 0 ss r.(history_) /\
  (r.(number_of_incoming_request_), r.(finished_job_count_global_), r.(job_latency_total_)) = (0, 0, 0).
Proof.
  cbv zeta. assert (forall ss r a, r.(enable_history_) = true -> r.(worker_count_) = u64 a ->
    (r.(number_of_incoming_request_), r.(finished_job_count_global_), r.(job_latency_total_)) = (0, 0, 0) ->
    exists hs, (play ss r).(history_) = r.(history_) ++ hs /\ lines_of a ss hs /\
      ((play ss r).(number_of_incoming_request_), (play ss r).(finished_job_count_global_), (play ss r).(job_latency_total_)) = (0, 0, 0)) as H.
  { clear. induction ss as [|s ss IH]; intros r a He Ea E0; [exists []; cbn; by rewrite app_nil_r|]. cbn [play foldl]. fold (play ss (play_second s r)).
    destruct (play_second_spec s r a He Ea E0) as (He' & Ea' & E0' & h & Eh & Hl).
    destruct (IH _ _ He' Ea' E0') as (hs & Ehs & Hls & Ez). exists (h :: hs). rewrite Ehs, Eh, <- (assoc_L (++)). by split_and!. }
  destruct (H ss (new_reporter now true) 0) as (hs & Eh & Hl & Ez); [done..|]. by rewrite Eh.
Qed.

(** The report of a worker counts the jobs that finished since it registered, and its
    time is from then to the last moment it left, or to now. *)
Theorem worker_report_counts r now w tr es later (i := mk_info (now - default 0 (head r.(pending_worker_timestamps_))) now now 0 tr 0 0)
    (Hw : r.(worker_info_map_) !! w = None)
    (Hes : Forall (fun e => match e with Registered_worker _ w' _ | Deregistered_worker _ w' _ _ => w' <> w | _ => True end) es) :
  (report_execs es (report_registered now w tr r)).(worker_info_map_) !! w
    = Some (mk_info i.(start_duration) now now (u32 (count (finished_of w) es)) tr 0 0) /\
  forall h e, (report_deregistered later w h e (report_execs es (report_registered now w tr r))).(worker_info_map_) !! w
    = Some (mk_info i.(start_duration) now later (u32 (count (finished_of w) es)) tr h e).
Proof.
  assert (forall es r0 n, Forall (fun e => match e with Registered_worker _ w' _ | Deregistered_worker _ w' _ _ => w' <> w | _ => True end) es ->
    r0.(worker_info_map_) !! w = Some (mk_info i.(start_duration) now now (u32 n) tr 0 0) ->
    (report_execs es r0).(worker_info_map_) !! w = Some (mk_info i.(start_duration) now now (u32 (n + count (finished_of w) es)) tr 0 0)) as H.
  { clear Hw Hes. clear es. induction es as [|e es IH]; intros r0 n Hes Hi; [unfold count; cbn; by rewrite Z.add_0_r|].
    apply Forall_cons in Hes as [He Hes]. rewrite count_cons. cbn [report_execs foldl]. fold (report_execs es (report_exec e r0)).
    destruct e as [t w' p| |t|t w' tr'|t w' h ev]; cbn [finished_of report_exec].
    - destruct (bool_decide_reflect (w = w')) as [<-|Hne].
      + rewrite Z.add_assoc. apply IH; [done|]. cbn. rewrite lookup_alter_eq, Hi. cbn. by rewrite u32_add_l.
      + rewrite Z.add_0_l. apply IH; [done|]. cbn. by rewrite lookup_alter_ne.
    - rewrite Z.add_0_l. by apply IH.
    - rewrite Z.add_0_l. by apply IH.
    - rewrite Z.add_0_l. apply IH; [done|]. cbn. rewrite lookup_alter_ne by done. destruct (r0.(worker_info_map_) !! w'); [done|].
      by rewrite lookup_insert_ne.
    - rewrite Z.add_0_l. apply IH; [done|]. cbn. by rewrite lookup_alter_ne. }
  assert ((report_execs es (report_registered now w tr r)).(worker_info_map_) !! w
    = Some (mk_info i.(start_duration) now now (u32 (count (finished_of w) es)) tr 0 0)) as E.
  { rewrite <- (Z.add_0_l (count _ _)). apply H; [done|]. unfold report_registered. cbn [with_workers worker_info_map_].
    rewrite Hw. by rewrite lookup_alter_eq, lookup_insert_eq. }
  split; [exact E|]. intros h ev. cbn. by rewrite lookup_alter_eq, E.
Qed.

Section policies_facts.
Variable debug : bool.

(** Each policy and the reporter see every event once, in order, and nothing else: the
    four of them run side by side. *)
Lemma policies_execs_components es s :
  policies_execs debug es s
  = mk_policies (foldl (fun k e => keepalive_event debug e k) s.(keepalive_policy_) es)
      (foldl (fun p e => launch_event e p) s.(launch_policy_) es)
      (foldl (fun f e => file_event e f) s.(filetoworker_policy_) es)
      (report_execs (omap reporter_event es) s.(reporter_)).
Proof.
  revert s. induction es as [|e es IH]; intros s; [by destruct s|]. cbn [policies_execs foldl]. fold (policies_execs debug es (policies_exec debug e s)).
  rewrite IH. cbn [policies_exec keepalive_policy_ launch_policy_ filetoworker_policy_ reporter_ omap list_omap].
  by destruct (reporter_event e).
Qed.

(** With a constant time every valid worker is told it once a second, and nobody else. *)
Lemma const_time_sent with_margin stdev ms now s l waittime l' timers j : l.(keepalive_policy_) = Const_time waittime ->
  policies_execute with_margin stdev ms now s l = Some (l', timers, j) ->
  timers = (fun w => (w, waittime)) <$> filter (fun w => is_valid s w = true) s.(worker_set_) /\ l'.(keepalive_policy_) = l.(keepalive_policy_).
Proof.
  intros Ek. unfold policies_execute. rewrite Ek.
  assert (forall ws, set_worker_keepalives with_margin stdev ws (Const_time waittime) = Some ((fun w => (w, waittime)) <$> ws)) as ->.
  { induction ws as [|w ws IH]; [done|]. cbn [set_worker_keepalives worker_keepalive mbind option_bind]. rewrite IH. done. }
  cbn [mbind option_bind]. destruct (execute ms l.(launch_policy_)); [|done]. cbn [mbind option_bind]. intros [= <- <- <-]. done.
Qed.

End policies_facts.

(** ** A short history *)

(** Two requests are started and one finishes; one finishes while the line is written. *)
Definition one_second : second :=
  mk_second [Starting_worker 1000; Registered_worker 5000 7 false; Started_job; Started_job; Finished_job 9000 7 6000] 10000
    [Finished_job 9500 7 6500].

Example lost_finish : let r := play [one_second] (new_reporter 0 true) in
  finished_jobs <$> r.(history_) = [1] /\ r.(finished_job_count_global_) = 0 /\
  finished_job_count <$> r.(worker_info_map_) !! 7%nat = Some 2.
Proof. by vm_compute. Qed.

Lemma worker_report_counts_witness :
  (report_execs [Finished_job 9000 7 6000; Started_job; Finished_job 9500 7 6500] (report_registered 5000 7 true (new_reporter 0 true))).(worker_info_map_) !! 7%nat
  = Some (mk_info 5000 5000 5000 2 true 0 0).
Proof.
  rewrite (proj1 (worker_report_counts (new_reporter 0 true) 5000 7 true [Finished_job 9000 7 6000; Started_job; Finished_job 9500 7 6500] 0
    eq_refl ltac:(by repeat constructor))). reflexivity.
Defined.
