(* ===== verification/Membership.v ===== *)
(** * The nodes of the proxies in ZooKeeper ([zookeeper.hpp])

    A proxy is a node [/slsfs/proxy/<id>] with its announcement.  It is made when the proxy
    starts, written every two seconds, read by the proxy before it on the ring, and erased
    at the end.  ZooKeeper is known by the interface below; paths are lists of names, since
    the names have no slash.  Times are nanoseconds, those of ZooKeeper if not said
    otherwise. *)
From Stdlib Require Import ZArith Lia.
From stdpp Require Import base tactics option list gmap strings.
From S2P Require Import Prelude Wire Ring Startup.

(** ** The service *)

Abbreviation path := (list bytes).

(** What the calls of [zk::client] do; [None] is an error, which the future throws. *)
Class ZooKeeper (T : Type) := {
  z_get : path -> T -> option (bytes * Z);                (* the data, and when it was written *)
  z_create : Z -> path -> bytes -> T -> option T;
  z_set : Z -> path -> bytes -> T -> option T;
  z_erase : path -> T -> option T;
  z_children : path -> T -> list bytes
}.

(** A node can be made under one that exists, or under the root; only nodes that exist can
    be written, only those without children can be erased. *)
Class ZooKeeperLaws (T : Type) `{ZooKeeper T} := {
  z_create_ok now p c d t : z_get (p ++ [c]) t = None -> (p = [] \/ is_Some (z_get p t)) -> is_Some (z_create now (p ++ [c]) d t);
  z_create_new now p d t t' : z_create now p d t = Some t' -> z_get p t = None;
  z_get_create now p d t t' q : z_create now p d t = Some t' -> z_get q t' = if decide (q = p) then Some (d, now) else z_get q t;
  z_set_ok now p d t : is_Some (z_get p t) <-> is_Some (z_set now p d t);
  z_get_set now p d t t' q : z_set now p d t = Some t' -> z_get q t' = if decide (q = p) then Some (d, now) else z_get q t;
  z_erase_ok p t : is_Some (z_get p t) -> z_children p t = [] -> is_Some (z_erase p t);
  z_get_erase p t t' q : z_erase p t = Some t' -> z_get q t' = if decide (q = p) then None else z_get q t;
  z_children_get p t c : c ∈ z_children p t <-> is_Some (z_get (p ++ [c]) t);
  z_children_nodup p t : NoDup (z_children p t)
}.

(** Nodes in a finite map. *)
Abbreviation nodes := (gmap path (bytes * Z)).

(** The name of a node, when its parent is [p]. *)
Definition child_of (p q : path) : option bytes :=
  match rev q with c :: r => if decide (p = rev r) then Some c else None | [] => None end.

#[global] Instance nodes_zookeeper : ZooKeeper nodes := {|
  z_get p t := t !! p;
  z_create now p d t :=
    if decide (t !! p = None /\ p <> [] /\ (removelast p = [] \/ is_Some (t !! removelast p))) then Some (<[p := (d, now)]> t) else None;
  z_set now p d t := if decide (is_Some (t !! p)) then Some (<[p := (d, now)]> t) else None;
  z_erase p t := if decide (is_Some (t !! p) /\ omap (child_of p) (map_to_list t).*1 = []) then Some (delete p t) else None;
  z_children p t := omap (child_of p) (map_to_list t).*1
|}.

Lemma child_of_spec p q c : child_of p q = Some c <-> q = p ++ [c].
Proof.
  unfold child_of. split.
  - destruct (rev q) as [|x r] eqn:Er; [done|]. case_decide as Hp; [|done]. intros [= ->]. rewrite Hp.
    rewrite <- (rev_involutive q), Er. done.
  - intros ->. rewrite rev_app_distr. cbn. by rewrite decide_True by (by rewrite rev_involutive).
Qed.

#[global] Instance nodes_laws : ZooKeeperLaws nodes.
Proof.
  split; cbn [z_get z_create z_set z_erase z_children nodes_zookeeper].
  - intros now p c d t Hn Hp. rewrite decide_True; [by eexists|]. rewrite removelast_last. split_and!; [done| |done]. by destruct p.
  - intros now p d t t'. by case_decide as Hd; [intros _; apply Hd|].
  - intros now p d t t' q E. repeat case_decide; simplify_eq; [by rewrite lookup_insert_eq|by rewrite lookup_insert_ne].
  - intros now p d t. case_decide; split; intros Hp; (done || by eexists || by destruct Hp).
  - intros now p d t t' q E. repeat case_decide; simplify_eq; [by rewrite lookup_insert_eq|by rewrite lookup_insert_ne].
  - intros p t Hp Hc. rewrite decide_True by done. by eexists.
  - intros p t t' q E. repeat case_decide; simplify_eq; [by rewrite lookup_delete_eq|by rewrite lookup_delete_ne].
  - intros p t c. rewrite list_elem_of_omap. split.
    + intros (q & Hq & E). apply child_of_spec in E as ->. apply list_elem_of_fmap in Hq as ([q x] & -> & Hq).
      apply elem_of_map_to_list in Hq. cbn. by rewrite Hq.
    + intros [x Hx]. exists (p ++ [c]). split; [|by apply child_of_spec]. apply list_elem_of_fmap. exists (p ++ [c], x).
      split; [done|]. by apply elem_of_map_to_list.
  - intros p t. assert (NoDup (map_to_list t).*1) as Hn by apply NoDup_fst_map_to_list. revert Hn. generalize (map_to_list t).*1.
    induction l as [|q l IH]; intros Hn; [constructor|]. apply NoDup_cons in Hn as [Hq Hn]. cbn [omap list_omap].
    destruct (child_of p q) as [c|] eqn:Ec; [|by apply IH]. constructor; [|by apply IH]. intros Hin. apply list_elem_of_omap in Hin as (q' & Hq' & Ec').
    apply child_of_spec in Ec, Ec'. by subst.
Qed.

(** ** A proxy and its node *)

Definition slsfs : path := [lit "slsfs"].
Definition timeadjust : path := [lit "slsfs"; lit "timeadjust"].
Definition proxies : path := [lit "slsfs"; lit "proxy"].
Definition node (child : bytes) : path := proxies ++ [child].

(** [name] is the base64 form of the id; [beats]: the loop of the heartbeat goes on. *)
Record zookeeper := mk_zookeeper {
  name : bytes; announce_buf_ : bytes; closed_ : bool; beats : bool; local_zk_diff_ : Z; uuid_cache_ : gmap bytes endpoint
}.

Definition new_zookeeper (name announce : bytes) : zookeeper := mk_zookeeper name announce false false 0 ∅.

Definition with_beats b p := mk_zookeeper p.(name) p.(announce_buf_) p.(closed_) b p.(local_zk_diff_) p.(uuid_cache_).
Definition with_diff d p := mk_zookeeper p.(name) p.(announce_buf_) p.(closed_) p.(beats) d p.(uuid_cache_).
Definition with_cache_ c p := mk_zookeeper p.(name) p.(announce_buf_) p.(closed_) p.(beats) p.(local_zk_diff_) c.

(** An address as [host:port]. *)
Definition dot : byte := x2e.
Definition address_text (e : endpoint) : bytes :=
  match (fun b => to_string (byte_val b)) <$> e.(ip) with
  | [a; b; c; d] => a ++ [dot] ++ b ++ [dot] ++ c ++ [dot] ++ d ++ [colon] ++ to_string e.(port)
  | _ => []
  end.

Section ops.
Context {T : Type} `{ZooKeeper T}.
Variables encode_base64 decode_base64 : bytes -> bytes.
Variable resolve : bytes -> bytes -> option endpoint.

(** Exceptions are ignored, at every level. *)
Fixpoint erase (depth : nat) (sv : path) (z : T) : T :=
  match depth with
  | O => z
  | S depth =>
      match z_get sv z with
      | None => z
      | Some _ =>
          let z := foldl (fun z child => erase depth (sv ++ [child]) z) z (z_children sv z) in
          default z (z_erase sv z)
      end
  end.

(** The source descends without a bound; this is the depth of the tree that the proxies make. *)
Definition erase_all (z : T) : T := erase 3 slsfs z.

(** An error of [create] ends it: nothing is watched and no heart beats.  [exists] and
    [create] are one step: only the proxy itself makes its node. *)
Definition start_setup (now : Z) (p : zookeeper) (z : T) : zookeeper * T :=
  match z_get (node p.(name)) z with
  | Some _ => (with_beats true p, z)
  | None => match z_create now (node p.(name)) p.(announce_buf_) z with
            | Some z => (with_beats true p, z)
            | None => (p, z)
            end
  end.

Definition reset (now : Z) (p : zookeeper) (z : T) : zookeeper * T :=
  let z := erase_all z in
  match z_create now slsfs [] z with
  | None => (p, z)
  | Some z =>
      match z_create now timeadjust [] z with
      | None => (p, z)
      | Some z =>
          match z_create now proxies [] z with
          | None => (p, z)
          | Some z => start_setup now p z
          end
      end
  end.

(** The result of [set] is not looked at. *)
Definition start_heartbeat (now : Z) (p : zookeeper) (z : T) : zookeeper * T :=
  if p.(closed_) then (with_beats false p, z)
  else (p, default z (z_set now (node p.(name)) p.(announce_buf_) z)).

Definition remove_uuid (child : bytes) (z : T) : T := default z (z_erase (node child) z).

Definition zk_shutdown (p : zookeeper) (z : T) : zookeeper * T :=
  (mk_zookeeper p.(name) p.(announce_buf_) true p.(beats) p.(local_zk_diff_) p.(uuid_cache_), remove_uuid p.(name) z).

(** The nodes of the proxies, as [Ring.check_alive] reads them. *)
Definition proxy_nodes (z : T) : gmap bytes bytes :=
  list_to_map (omap (fun c => x ← z_get (node c) z; Some (c, x.1)) (z_children proxies z)).

(** [start_check_alive], at [now] with the proxy's clock at [local]; [true]: the other proxy
    is started again.  An exception ends it; when there are no children the end of their
    list is dereferenced, which is [None]. *)
Definition calibrate (now local : Z) (p : zookeeper) (z : T) : option (zookeeper * T) :=
  if p.(local_zk_diff_) =? 0 then
    z ← z_set now timeadjust [] z;
    x ← z_get timeadjust z;
    Some (with_diff (local - x.2) p, z)
  else Some (p, z).

Definition stale (local : Z) (p : zookeeper) (modified_time : Z) : bool :=
  local + p.(local_zk_diff_) - modified_time >? 20 * 10 ^ 9.

Definition start_check_alive (now local : Z) (p : zookeeper) (z : T) : option (zookeeper * T * bool) :=
  match calibrate now local p z with
  | None => Some (p, z, false)
  | Some (p, z) =>
      let new_proxy_list := sort_ids (decode_base64 <$> z_children proxies z) in
      if bool_decide (new_proxy_list = []) then None
      else match watched new_proxy_list (decode_base64 p.(name)) with
      | None => Some (p, z, false)
      | Some it =>
          let child := encode_base64 it in
          match x ← z_get (node child) z; check_alive resolve (proxy_nodes z) p.(uuid_cache_) child (stale local p x.2) with
          | None => Some (p, z, false)
          | Some (cache, action) =>
              let host := match cache !! child with Some e => address_text e | None => [] end in
              let set l := default z (z_set now (node child) (host ++ [colon] ++ decimal l) z) in
              Some match action with
              | Nothing => (with_cache_ cache p, z, false)
              | SetLiveliness l => (with_cache_ cache p, set l, false)
              | RestartProxy l => (with_cache_ cache p, set l, true)
              end
          end
      end
  end.

(** ** Proxies together *)

Inductive zk_event := Setup (i : nat) | Reset (i : nat) | Heartbeat (i : nat) | Shutdown (i : nat) | Check_alive (i : nat) (local : Z).

Record members := mk_members { tree : T; proxies_ : gmap nat zookeeper }.

Definition zk_exec (now : Z) (e : zk_event) (s : members) : option members :=
  let on i f := p ← s.(proxies_) !! i; let '(p, z) := f p s.(tree) in Some (mk_members z (<[i := p]> s.(proxies_))) in
  match e with
  | Setup i => on i (start_setup now)
  | Reset i => on i (reset now)
  | Heartbeat i => p ← s.(proxies_) !! i; if p.(beats) then on i (start_heartbeat now) else None
  | Shutdown i => on i zk_shutdown
  | Check_alive i local =>
      p ← s.(proxies_) !! i;
      if p.(beats) then '(p, z, _) ← start_check_alive now local p s.(tree); Some (mk_members z (<[i := p]> s.(proxies_))) else None
  end.

Fixpoint zk_execs (es : list (Z * zk_event)) (s : members) : option members :=
  match es with
  | [] => Some s
  | (now, e) :: es => s ← zk_exec now e s; zk_execs es s
  end.

End ops.

(** ** What the operations do to the nodes *)

Section node_facts.
Context {T : Type} `{ZooKeeperLaws T}.
Variables encode_base64 decode_base64 : bytes -> bytes.
Variable resolve : bytes -> bytes -> option endpoint.

(** The nodes that may have been made. *)
Definition makes (ps : list path) (z z' : T) : Prop := forall q, z_get q z = None -> q ∉ ps -> z_get q z' = None.

Lemma makes_refl z : makes [] z z.
Proof. by intros q Hq _. Qed.

Lemma makes_trans ps ps' z z' z'' : makes ps z z' -> makes ps' z' z'' -> makes (ps ++ ps') z z''.
Proof. intros H1 H2 q Hq Hin. apply not_elem_of_app in Hin as [Hps Hps']. apply H2; [by apply H1|done]. Qed.

Lemma makes_erase p z z' : z_erase p z = Some z' -> makes [] z z'.
Proof. intros E q Hq _. rewrite (z_get_erase _ _ _ q E). by case_decide. Qed.

Lemma makes_create now p d z z' : z_create now p d z = Some z' -> makes [p] z z'.
Proof. intros E q Hq Hin. rewrite (z_get_create _ _ _ _ _ q E). rewrite decide_False; [done|]. intros ->. apply Hin. by left. Qed.

(** Writing keeps the nodes as they are. *)
Definition same_nodes (z z' : T) : Prop := forall q, is_Some (z_get q z') <-> is_Some (z_get q z).

Lemma same_set now p d z z' : z_set now p d z = Some z' -> same_nodes z z'.
Proof.
  intros E q. rewrite (z_get_set _ _ _ _ _ q E). case_decide; [subst|done]. split; [|by eexists].
  intros _. apply (z_set_ok now p d). by eexists.
Qed.

Lemma same_set_default now p d z : same_nodes z (default z (z_set now p d z)).
Proof. destruct (z_set now p d z) as [z'|] eqn:E; [by eapply same_set|done]. Qed.

Lemma makes_same z z' : same_nodes z z' -> makes [] z z'.
Proof. intros Hs q Hq _. apply eq_None_not_Some. rewrite (Hs q), Hq. by intros []. Qed.

Lemma makes_erase_tree depth sv z : makes [] z (erase depth sv z).
Proof.
  revert sv z. induction depth as [|depth IH]; intros sv z; [apply makes_refl|]. cbn [erase]. destruct (z_get sv z); [|apply makes_refl].
  assert (makes [] z (foldl (fun z child => erase depth (sv ++ [child]) z) z (z_children sv z))) as Hf.
  { generalize (z_children sv z) as cs. intros cs. revert z. induction cs as [|c cs IHc]; intros z; [apply makes_refl|]. cbn [foldl].
    apply (makes_trans [] [] _ _ _ (IH (sv ++ [c]) z)), IHc. }
  apply (makes_trans [] [] _ _ _ Hf). destruct (z_erase sv _) eqn:E; [by eapply makes_erase|apply makes_refl].
Qed.

(** Nothing outside is touched. *)
Lemma erase_frame depth sv z q : ~ sv `prefix_of` q -> z_get q (erase depth sv z) = z_get q z.
Proof.
  revert sv z. induction depth as [|depth IH]; intros sv z Hq; [done|]. cbn [erase]. destruct (z_get sv z); [|done].
  assert (z_get q (foldl (fun z child => erase depth (sv ++ [child]) z) z (z_children sv z)) = z_get q z) as Hf.
  { generalize (z_children sv z) as cs. intros cs. revert z. induction cs as [|c cs IHc]; intros z; [done|]. cbn [foldl].
    rewrite IHc, IH; [done|]. intros Hp. apply Hq. etrans; [|exact Hp]. by eexists. }
  destruct (z_erase sv _) as [z'|] eqn:E; [|done]. cbn. rewrite (z_get_erase _ _ _ q E), decide_False; [done|]. by intros ->.
Qed.

(** A tree of less than [depth] levels below a node. *)
Definition subtree (depth : nat) (sv : path) (z : T) : Prop :=
  (forall q, is_Some (z_get (sv ++ q) z) -> (length q < depth)%nat) /\
  (forall q c, is_Some (z_get (sv ++ q ++ [c]) z) -> is_Some (z_get (sv ++ q) z)).

Lemma subtree_root depth sv z q : subtree depth sv z -> is_Some (z_get (sv ++ q) z) -> is_Some (z_get sv z).
Proof.
  intros [_ Hp]. induction q as [|c q IH] using rev_ind; [by rewrite app_nil_r|]. intros Hq. apply IH. by eapply Hp.
Qed.

Lemma subtree_child depth sv z c : subtree (S depth) sv z -> subtree depth (sv ++ [c]) z.
Proof.
  intros [Hl Hp]. split.
  - intros q Hq. rewrite <- (assoc_L (++)) in Hq. specialize (Hl _ Hq). cbn in Hl. lia.
  - intros q d Hq. rewrite <- (assoc_L (++)) in *. apply (Hp ([c] ++ q) d). by rewrite <- (assoc_L (++)).
Qed.

Lemma subtree_ext depth sv z z' : subtree depth sv z -> (forall q, z_get (sv ++ q) z' = z_get (sv ++ q) z) -> subtree depth sv z'.
Proof. intros [Hl Hp] E. split; [intros q; rewrite E; apply Hl|intros q c; rewrite !E; apply Hp]. Qed.

Lemma siblings (sv : path) (c d : bytes) (q : path) : c <> d -> ~ (sv ++ [c]) `prefix_of` (sv ++ d :: q).
Proof. intros Hne [k E]. rewrite <- (assoc_L (++)) in E. apply app_inv_head in E. cbn in E. congruence. Qed.

Lemma erase_gone depth sv z q : subtree depth sv z -> z_get (sv ++ q) (erase depth sv z) = None.
Proof.
  revert sv z q. induction depth as [|depth IH]; intros sv z q Hs.
  - destruct (z_get (sv ++ q) z) eqn:E; [|done]. destruct Hs as [Hl _]. specialize (Hl q). rewrite E in Hl. by destruct (Nat.nlt_0_r _ (Hl ltac:(by eexists))).
  - cbn [erase]. destruct (z_get sv z) eqn:Esv.
    2: { destruct (z_get (sv ++ q) z) eqn:E; [|done]. destruct (subtree_root _ _ _ q Hs); [rewrite E; by eexists|congruence]. }
    assert (forall cs z', NoDup cs -> (forall c, c ∈ cs -> subtree depth (sv ++ [c]) z') ->
      let z'' := foldl (fun z child => erase depth (sv ++ [child]) z) z' cs in
      z_get sv z'' = z_get sv z' /\ (forall c r, c ∈ cs -> z_get (sv ++ c :: r) z'' = None) /\
      (forall c r, c ∉ cs -> z_get (sv ++ c :: r) z'' = z_get (sv ++ c :: r) z')) as Hf.
    { clear -IH H0. induction cs as [|c cs IHc]; intros z' Hn Hs; [split_and!; [done|by intros c r Hc%elem_of_nil|done]|].
      apply NoDup_cons in Hn as [Hc Hn]. cbn [foldl].
      destruct (IHc (erase depth (sv ++ [c]) z') Hn) as (E1 & E2 & E3).
      { intros d Hd. eapply subtree_ext; [apply Hs; by right|]. intros r. apply erase_frame. rewrite <- (assoc_L (++)). apply siblings. congruence. }
      split_and!.
      - rewrite E1. apply erase_frame. intros [k E]. apply (f_equal length) in E. rewrite !length_app in E. cbn in E. lia.
      - intros d r [->|Hd]%elem_of_cons; [|by apply E2]. rewrite E3 by done.
        replace (sv ++ c :: r) with ((sv ++ [c]) ++ r) by (by rewrite <- (assoc_L (++))). apply IH, Hs. by left.
      - intros d r Hd. apply not_elem_of_cons in Hd as [Hne Hd]. rewrite E3 by done. apply erase_frame, siblings. congruence. }
    destruct (Hf (z_children sv z) z (z_children_nodup sv z)) as (E1 & E2 & E3); [intros c _; by apply subtree_child|]. cbv zeta in *.
    set (z'' := foldl _ z (z_children sv z)) in *.
    assert (forall c r, z_get (sv ++ c :: r) z'' = None) as Hgone.
    { intros c r. destruct (decide (c ∈ z_children sv z)) as [Hc|Hc]; [by apply E2|]. rewrite E3 by done.
      destruct (z_get (sv ++ c :: r) z) eqn:E; [|done]. destruct Hc. apply z_children_get. apply (subtree_root depth (sv ++ [c]) z r); [by apply subtree_child|].
      rewrite <- (assoc_L (++)). cbn. by rewrite E. }
    destruct (z_erase_ok sv z'') as [z3 E4].
    + rewrite E1, Esv. by eexists.
    + destruct (z_children sv z'') as [|c cs] eqn:Ec; [done|]. assert (c ∈ z_children sv z'') as Hc by (rewrite Ec; by left).
      apply z_children_get in Hc. by rewrite Hgone in Hc; destruct Hc.
    + rewrite E4. cbn. rewrite (z_get_erase _ _ _ (sv ++ q) E4). case_decide as Hq; [done|].
      destruct q as [|c r]; [by rewrite app_nil_r in Hq|]. apply Hgone.
Qed.

Notation zk_exec := (zk_exec encode_base64 decode_base64 resolve).
Notation zk_execs := (zk_execs encode_base64 decode_base64 resolve).

Definition actor (e : zk_event) : nat :=
  match e with Setup i | Reset i | Heartbeat i | Shutdown i | Check_alive i _ => i end.

(** The nodes that an event of a proxy may make. *)
Definition made_by (e : zk_event) (p : zookeeper) : list path :=
  match e with Setup _ => [node p.(name)] | Reset _ => [slsfs; timeadjust; proxies; node p.(name)] | _ => [] end.

Lemma start_setup_spec now p z : (start_setup now p z).1.(name) = p.(name) /\
  makes [node p.(name)] z (start_setup now p z).2 /\
  (is_Some (z_get proxies z) -> (start_setup now p z).1 = with_beats true p /\
    forall q, is_Some (z_get q (start_setup now p z).2) <-> q = node p.(name) \/ is_Some (z_get q z)).
Proof.
  unfold start_setup. destruct (z_get (node p.(name)) z) as [x|] eqn:Ex.
  { split_and!; [done|intros q Hq _; done|]. intros _. split; [done|]. intros q. cbn [fst snd]. split; [by right|]. intros [->|?]; [by rewrite Ex; eexists|done]. }
  destruct (z_create now (node p.(name)) p.(announce_buf_) z) as [z'|] eqn:Ec.
  - split_and!; [done|by eapply makes_create|]. intros _. split; [done|]. intros q. cbn [snd]. rewrite (z_get_create _ _ _ _ _ q Ec).
    case_decide; [subst; split; [by left|by eexists]|]. split; [by right|]. by intros [?|?].
  - split_and!; [done|by intros q Hq _|]. intros Hp. destruct (z_create_ok now proxies p.(name) p.(announce_buf_) z Ex (or_intror Hp)) as [z' E].
    unfold node in Ec. congruence.
Qed.

Lemma reset_name now p z : (reset now p z).1.(name) = p.(name) /\ makes [slsfs; timeadjust; proxies; node p.(name)] z (reset now p z).2.
Proof.
  unfold reset. pose proof (makes_erase_tree 3 slsfs z) as H1. fold (erase_all z) in H1. set (z1 := erase_all z) in *. clearbody z1.
  destruct (z_create now slsfs [] z1) as [z2|] eqn:E2; [|split; [done|intros q Hq _; by apply H1, not_elem_of_nil]]. apply makes_create in E2.
  pose proof (makes_trans _ _ _ _ _ H1 E2) as H2. cbn [app] in H2.
  destruct (z_create now timeadjust [] z2) as [z3|] eqn:E3; [|split; [done|intros q Hq Hn; apply H2; [done|set_solver]]]. apply makes_create in E3.
  pose proof (makes_trans _ _ _ _ _ H2 E3) as H3. cbn [app] in H3.
  destruct (z_create now proxies [] z3) as [z4|] eqn:E4; [|split; [done|intros q Hq Hn; apply H3; [done|set_solver]]]. apply makes_create in E4.
  pose proof (makes_trans _ _ _ _ _ H3 E4) as H4. cbn [app] in H4.
  destruct (start_setup_spec now p z4) as (Hname & H5 & _). split; [done|]. exact (makes_trans _ _ _ _ _ H4 H5).
Qed.

Lemma check_same now local p z p' z' b : start_check_alive encode_base64 decode_base64 resolve now local p z = Some (p', z', b) ->
  p'.(name) = p.(name) /\ p'.(beats) = p.(beats) /\ p'.(closed_) = p.(closed_) /\ same_nodes z z'.
Proof.
  unfold start_check_alive. destruct (calibrate now local p z) as [[p1 z1]|] eqn:Ec; [|by intros [= <- <- _]].
  assert (p1.(name) = p.(name) /\ p1.(beats) = p.(beats) /\ p1.(closed_) = p.(closed_) /\ same_nodes z z1) as (En & Eb & Ecl & Hs).
  { unfold calibrate in Ec. destruct (local_zk_diff_ p =? 0); [|by simplify_eq].
    destruct (z_set now timeadjust [] z) as [z2|] eqn:Es; [|done]. cbn [mbind option_bind] in Ec.
    destruct (z_get timeadjust z2) as [x|]; [|done]. cbn in Ec. simplify_eq. split_and!; [done..|by eapply same_set]. }
  rewrite <- En, <- Eb, <- Ecl. cbv zeta. case_bool_decide; [done|]. destruct (watched _ _) as [it|]; [|by intros [= <- <- _]].
  match goal with |- context [match ?o with Some _ => _ | None => _ end] => destruct o as [[cache action]|] end; [|by intros [= <- <- _]].
  destruct action; intros [= <- <- _]; cbn [with_cache_ name beats closed_]; split_and!; try done; (intros q; etrans; [apply same_set_default|apply Hs]).
Qed.

(** What every event leaves alone. *)
Lemma exec_makes now e s s' : zk_exec now e s = Some s' -> exists p,
  s.(proxies_) !! actor e = Some p /\ makes (made_by e p) s.(tree) s'.(tree) /\
  forall j, name <$> s'.(proxies_) !! j = name <$> s.(proxies_) !! j.
Proof.
  assert (forall i p p' (z : T), s.(proxies_) !! i = Some p -> p'.(name) = p.(name) ->
    forall j, name <$> (mk_members z (<[i := p']> s.(proxies_))).(proxies_) !! j = name <$> s.(proxies_) !! j) as Hn.
  { intros i p p' z Ep Ename j. cbn. destruct (decide (j = i)) as [->|Hj]; [|by rewrite lookup_insert_ne].
    rewrite lookup_insert_eq, Ep. cbn. by rewrite Ename. }
  destruct e as [i|i|i|i|i local]; cbn [zk_exec actor made_by]; destruct (s.(proxies_) !! i) as [p|] eqn:Ep; try done; cbn [mbind option_bind].
  - destruct (start_setup_spec now p s.(tree)) as (E1 & E2 & _). destruct (start_setup now p s.(tree)) as [p' z]. intros [= <-].
    exists p. split_and!; [done|done|by apply Hn with p].
  - destruct (reset_name now p s.(tree)) as (E1 & E2). destruct (reset now p s.(tree)) as [p' z]. intros [= <-].
    exists p. split_and!; [done|done|by apply Hn with p].
  - destruct p.(beats); [|done]. unfold start_heartbeat. destruct p.(closed_); intros [= <-].
    + exists p. split_and!; [done|apply makes_refl|by apply Hn with p].
    + exists p. split_and!; [done|apply makes_same, same_set_default|by apply Hn with p].
  - intros [= <-]. exists p. split_and!; [done| |by apply Hn with p]. cbn. unfold remove_uuid.
    destruct (z_erase (node p.(name)) s.(tree)) eqn:E; [by eapply makes_erase|apply makes_refl].
  - destruct p.(beats); [|done]. destruct (start_check_alive _ _ _ now local p s.(tree)) as [[[p' z] b]|] eqn:Ec; [|done].
    apply check_same in Ec as (E1 & _ & _ & E2). intros [= <-].
    exists p. split_and!; [done|by apply makes_same|by apply Hn with p].
Qed.

(** A node that is not there does not come back but by its own proxy. *)
Lemma stays_out es s s' j pj : s.(proxies_) !! j = Some pj -> z_get (node pj.(name)) s.(tree) = None ->
  (forall i pi, s.(proxies_) !! i = Some pi -> pi.(name) = pj.(name) -> i = j) ->
  Forall (fun e => e.2 <> Setup j /\ e.2 <> Reset j) es -> zk_execs es s = Some s' -> z_get (node pj.(name)) s'.(tree) = None.
Proof.
  intros Ej Hout Hinj Hes. revert s pj Ej Hout Hinj. induction Hes as [|[now e] es [He1 He2] _ IH]; intros s pj Ej Hout Hinj E; [by injection E as <-|].
  cbn [zk_execs] in E. destruct (zk_exec now e s) as [s1|] eqn:E1; [|done]. cbn [mbind option_bind] in E.
  destruct (exec_makes _ _ _ _ E1) as (p & Ep & Hm & Hn). cbn [snd] in *.
  pose proof (Hn j) as Hj. rewrite Ej in Hj. apply fmap_Some in Hj as (pj' & Ej' & Ename). cbn in Ename. rewrite Ename in *.
  apply (IH s1 pj'); [done| |intros i pi Ei Eni|done].
  - apply Hm; [done|]. destruct e as [i|i|i|i|i local]; cbn [made_by actor] in *; try apply not_elem_of_nil.
    + intros Hin. apply list_elem_of_singleton in Hin. unfold node in Hin. apply app_inj_2 in Hin as [_ [= Hin]]; [|done]. apply He1. f_equal. by apply (Hinj i p).
    + intros Hin. rewrite !elem_of_cons in Hin. destruct Hin as [Hin|[Hin|[Hin|[Hin|Hin]]]]; try (by apply (f_equal length) in Hin); [|by apply elem_of_nil in Hin].
      unfold node in Hin. apply app_inj_2 in Hin as [_ [= Hin]]; [|done]. apply He2. f_equal. by apply (Hinj i p).
  - pose proof (Hn i) as Hi. rewrite Ei in Hi. symmetry in Hi. apply fmap_Some in Hi as (pi' & Ei' & Eni'). apply (Hinj i pi' Ei'). congruence.
Qed.

(** ** Who is a member *)

Definition member (p : zookeeper) : Prop := p.(beats) = true /\ p.(closed_) = false.

(** Names are those of one proxy. *)
Definition distinct_names (s : members (T := T)) : Prop :=
  forall i j p q, s.(proxies_) !! i = Some p -> s.(proxies_) !! j = Some q -> p.(name) = q.(name) -> i = j.

Definition named_member (m : gmap nat zookeeper) (c : bytes) : Prop := exists i p, m !! i = Some p /\ p.(name) = c /\ member p.

Lemma named_member_update s i p p' c : distinct_names s -> s.(proxies_) !! i = Some p -> p'.(name) = p.(name) ->
  named_member (<[i := p']> s.(proxies_)) c <-> if decide (c = p.(name)) then member p' else named_member s.(proxies_) c.
Proof.
  intros Hd Ep En. case_decide as Hc; [subst c|].
  - split; [|intros Hm; exists i, p'; by rewrite lookup_insert_eq]. intros (j & q & Eq & Enq & Hm).
    destruct (decide (j = i)) as [->|Hj]; [by rewrite lookup_insert_eq in Eq; simplify_eq|]. rewrite lookup_insert_ne in Eq by done.
    destruct Hj. by apply (Hd j i q p).
  - split; intros (j & q & Eq & Enq & Hm); exists j, q.
    + destruct (decide (j = i)) as [->|Hj]; [rewrite lookup_insert_eq in Eq; simplify_eq; congruence|]. by rewrite lookup_insert_ne in Eq by done.
    + rewrite lookup_insert_ne; [done|]. intros ->. congruence.
Qed.

Record exact (s : members (T := T)) : Prop := {
  ex_names : distinct_names s;
  ex_root : is_Some (z_get proxies s.(tree));
  ex_leaves : forall c d, z_get (node c ++ [d]) s.(tree) = None;
  ex_nodes : forall c, is_Some (z_get (node c) s.(tree)) <-> named_member s.(proxies_) c
}.

Lemma distinct_update s i p p' z : distinct_names s -> s.(proxies_) !! i = Some p -> p'.(name) = p.(name) ->
  distinct_names (mk_members z (<[i := p']> s.(proxies_))).
Proof.
  intros Hd Ep En j k q r. cbn. intros Ej Ek E. apply (Hd j k (if decide (j = i) then p else q) (if decide (k = i) then p else r)).
  - case_decide as Hj; [by subst|]. by rewrite lookup_insert_ne in Ej by done.
  - case_decide as Hk; [by subst|]. by rewrite lookup_insert_ne in Ek by done.
  - repeat case_decide; subst; rewrite ?lookup_insert_eq in Ej; rewrite ?lookup_insert_eq in Ek; simplify_eq; congruence.
Qed.

(** An event that changes a proxy and keeps the nodes. *)
Lemma exact_same s i p p' z : exact s -> s.(proxies_) !! i = Some p -> p'.(name) = p.(name) -> (member p' <-> member p) ->
  same_nodes s.(tree) z -> exact (mk_members z (<[i := p']> s.(proxies_))).
Proof.
  intros [Hd Hr Hl Hn] Ep En Hm Hs. split; cbn [tree proxies_].
  - by eapply distinct_update.
  - by apply Hs.
  - intros c d. apply eq_None_not_Some. rewrite (Hs _), Hl. by intros [].
  - intros c. rewrite (Hs _), Hn, (named_member_update s i p p' c Hd Ep En). case_decide as Hc; [|done]. subst c. rewrite Hm.
    split; [|intros ?; by exists i, p]. intros (j & q & Eq & Enq & Hq). assert (j = i) as -> by (by apply (Hd j i q p)). by simplify_eq.
Qed.

(** [main] sets up a proxy before it is closed, and no proxy resets the cluster. *)
Lemma exact_exec now e s s' : exact s -> zk_exec now e s = Some s' -> (forall i, e <> Reset i) ->
  (forall i p, e = Setup i -> s.(proxies_) !! i = Some p -> p.(closed_) = false) -> exact s'.
Proof.
  intros He E Hnr Hset. destruct e as [i|i|i|i|i local]; [|by destruct (Hnr i)|..]; cbn [Membership.zk_exec] in E;
    destruct (s.(proxies_) !! i) as [p|] eqn:Ep; try done; cbn [mbind option_bind] in E.
  - specialize (Hset i p eq_refl Ep). destruct He as [Hd Hr Hl Hn]. destruct (start_setup_spec now p s.(tree)) as (E1 & _ & E2).
    destruct (E2 Hr) as [E3 E4]. destruct (start_setup now p s.(tree)) as [p' z]. cbn [fst snd] in *. injection E as <-. split; cbn [tree proxies_].
    + by eapply distinct_update.
    + apply E4. by right.
    + intros c d. apply eq_None_not_Some. rewrite E4, Hl. intros [Heq|[]]; [|done]. apply (f_equal length) in Heq. by rewrite !length_app in Heq.
    + intros c. rewrite E4, Hn, (named_member_update s i p p' c Hd Ep E1). case_decide as Hc.
      * subst c. split; [intros _; subst p'; by split|]. by left.
      * split; [|by right]. intros [Heq|?]; [|done]. unfold node in Heq. apply app_inj_2 in Heq as [_ [= Heq]]; done.
  - destruct p.(beats) eqn:Eb; [|done]. unfold start_heartbeat in E. destruct p.(closed_) eqn:Ecl; injection E as <-.
    + apply exact_same with p; [done|done|done| |done]. unfold member. cbn. rewrite Eb, Ecl. by split; intros [].
    + apply exact_same with p; [done|done|done|done|apply same_set_default].
  - injection E as <-. destruct He as [Hd Hr Hl Hn].
    assert (forall q, is_Some (z_get q (remove_uuid p.(name) s.(tree))) <-> q <> node p.(name) /\ is_Some (z_get q s.(tree))) as Hrem.
    { intros q. unfold remove_uuid. destruct (z_erase (node p.(name)) s.(tree)) as [z|] eqn:Er.
      - cbn. rewrite (z_get_erase _ _ _ q Er). case_decide as Hq; [split; [by intros []|by intros [? _]]|]. split; [done|by intros []].
      - cbn. split; [|by intros []]. intros Hq. split; [|done]. intros ->. destruct (z_erase_ok (node p.(name)) s.(tree) Hq) as [z Ez]; [|congruence].
        destruct (z_children (node p.(name)) s.(tree)) as [|c cs] eqn:Ec; [done|].
        assert (c ∈ z_children (node p.(name)) s.(tree)) as Hc by (rewrite Ec; by left). apply z_children_get in Hc. rewrite Hl in Hc. by destruct Hc. }
    split; cbn [tree proxies_].
    + by apply distinct_update with p.
    + apply Hrem. split; [|done]. intros Heq. by apply (f_equal length) in Heq.
    + intros c d. apply eq_None_not_Some. rewrite Hrem, Hl. by intros [_ []].
    + intros c. rewrite Hrem, Hn, (named_member_update s i p _ c Hd Ep) by done. case_decide as Hc.
      * subst c. split; [by intros []|]. by intros [_ ?].
      * split; [by intros []|]. intros Hm. split; [|done]. intros Heq. unfold node in Heq. apply app_inj_2 in Heq as [_ [= Heq]]; done.
  - destruct p.(beats) eqn:Eb; [|done]. destruct (start_check_alive _ _ _ now local p s.(tree)) as [[[p' z] b]|] eqn:Ec; [|done].
    apply check_same in Ec as (E1 & E2 & E3 & E4). cbn [mbind option_bind] in E. injection E as <-.
    apply exact_same with p; [done|done|done| |done]. unfold member. by rewrite E2, E3.
Qed.

End node_facts.

(** ** Properties *)

Section reachability.
Context {T : Type} `{ZooKeeperLaws T}.
Variables encode_base64 decode_base64 : bytes -> bytes.
Variable resolve : bytes -> bytes -> option endpoint.

(** Runs of a cluster that is there: no proxy is started with [--new-cluster], and a proxy
    that was shut down is not set up again. *)
Inductive zk_reaches (s0 : members (T := T)) : members -> Prop :=
| zk_start : zk_reaches s0 s0
| zk_step now e s s' : zk_reaches s0 s -> zk_exec encode_base64 decode_base64 resolve now e s = Some s' ->
    (forall i, e <> Reset i) -> (forall i p, e = Setup i -> s.(proxies_) !! i = Some p -> p.(closed_) = false) -> zk_reaches s0 s'.

End reachability.

(** A cluster before its proxies start. *)
Definition fresh_cluster {T} `{ZooKeeper T} (s : members (T := T)) : Prop :=
  distinct_names s /\ is_Some (z_get proxies s.(tree)) /\ (forall q, q <> [] -> z_get (proxies ++ q) s.(tree) = None) /\
  forall i p, s.(proxies_) !! i = Some p -> p.(beats) = false.

(** C29. In a cluster that nobody resets, the nodes under [/slsfs/proxy] are at every moment
    those of the proxies that have been set up and not been shut down, whatever the order
    in which they start, beat, watch each other and end. *)
Theorem membership_exact {T} `{ZooKeeperLaws T} encode_base64 decode_base64 resolve (s0 s : members (T := T))
    (Hfresh : fresh_cluster s0) (Hr : zk_reaches encode_base64 decode_base64 resolve s0 s) c :
  c ∈ z_children proxies s.(tree) <-> exists i p, s.(proxies_) !! i = Some p /\ p.(name) = c /\ p.(beats) = true /\ p.(closed_) = false.
Proof.
  assert (exact s) as He.
  { induction Hr as [|now e s s' _ IH E Hn Hs]; [|by eapply exact_exec]. destruct Hfresh as (Hd & Hp & Ho & Hb). split; [done|done| |].
    - intros c' d. unfold node. rewrite <- (assoc_L (++)). by apply Ho.
    - intros c'. unfold node. rewrite Ho by done. split; [by intros []|]. intros (i & p & Ep & _ & Hm & _). apply Hb in Ep. congruence. }
  rewrite z_children_get. apply (ex_nodes _ He).
Qed.

(** C30. A proxy that is started with [--new-cluster] expels the others: afterwards its node
    is the only one, and the node of a proxy that was there does not come back, however
    long its heart beats, since the result of writing it is not looked at. *)
Theorem reset_expels {T} `{ZooKeeperLaws T} encode_base64 decode_base64 resolve now i p (s s1 s2 : members (T := T)) j q es
    (Ep : s.(proxies_) !! i = Some p) (Hshape : subtree 3 slsfs s.(tree))
    (E1 : zk_exec encode_base64 decode_base64 resolve now (Reset i) s = Some s1)
    (Eq : s.(proxies_) !! j = Some q) (Hij : j <> i) (Hd : distinct_names s)
    (Hes : Forall (fun e => e.2 <> Setup j /\ e.2 <> Reset j) es)
    (E2 : zk_execs encode_base64 decode_base64 resolve es s1 = Some s2) :
  (forall c, c ∈ z_children proxies s1.(tree) <-> c = p.(name)) /\ q.(name) ∉ z_children proxies s2.(tree).
Proof.
  assert (Hgone : forall r, z_get (slsfs ++ r) (erase_all s.(tree)) = None) by (intros r; by apply (erase_gone 3)).
  cbn [zk_exec] in E1. rewrite Ep in E1. cbn [mbind option_bind] in E1.
  assert (exists z, (reset now p s.(tree)).2 = z /\ forall c, is_Some (z_get (node c) z) <-> c = p.(name)) as (z & Ez & Hz).
  { unfold reset. set (z1 := erase_all s.(tree)) in *. clearbody z1.
    destruct (z_create_ok now [] (lit "slsfs") [] z1 (Hgone []) (or_introl eq_refl)) as [z2 Ez2]. cbn [app] in Ez2. fold slsfs in Ez2. rewrite Ez2.
    pose proof (fun r => z_get_create _ _ _ _ _ r Ez2) as G2.
    destruct (z_create_ok now slsfs (lit "timeadjust") [] z2) as [z3 Ez3]; [rewrite G2; cbn; rewrite decide_False by done; apply Hgone|right; rewrite G2; by eexists|].
    change (slsfs ++ [lit "timeadjust"]) with timeadjust in Ez3. rewrite Ez3. pose proof (fun r => z_get_create _ _ _ _ _ r Ez3) as G3.
    destruct (z_create_ok now slsfs (lit "proxy") [] z3) as [z4 Ez4]; [rewrite G3, G2; cbn; rewrite !decide_False by done; apply Hgone|right; rewrite G3, G2; by eexists|].
    change (slsfs ++ [lit "proxy"]) with proxies in Ez4. rewrite Ez4. pose proof (fun r => z_get_create _ _ _ _ _ r Ez4) as G4.
    destruct (start_setup_spec now p z4) as (_ & _ & Hset). destruct Hset as [_ Hset]; [rewrite G4, decide_True by done; by eexists|].
    eexists. split; [reflexivity|]. intros c. rewrite Hset, G4, G3, G2. unfold node. rewrite !decide_False; try (intros Heq; by apply (f_equal length) in Heq).
    change (z_get (proxies ++ [c]) z1) with (z_get (slsfs ++ [lit "proxy"; c]) z1). rewrite Hgone. split; [|intros ->; by left].
    intros [Heq|[]]; [|done]. apply app_inj_2 in Heq as [_ [= Heq]]; done. }
  assert (s1.(tree) = z) as Et by (destruct (reset now p s.(tree)); cbn in *; by simplify_eq).
  assert (z_get (node q.(name)) s1.(tree) = None) as Hq.
  { apply eq_None_not_Some. rewrite Et, Hz. intros En. apply Hij. by apply (Hd j i q p). }
  split; [intros c; by rewrite z_children_get, Et; apply Hz|]. rewrite z_children_get. change (proxies ++ [q.(name)]) with (node q.(name)).
  assert (Hn : forall k, name <$> s1.(proxies_) !! k = name <$> s.(proxies_) !! k).
  { assert (zk_exec encode_base64 decode_base64 resolve now (Reset i) s = Some s1) as E1' by (cbn [zk_exec]; by rewrite Ep).
    by destruct (exec_makes _ _ _ _ _ _ _ E1') as (_ & _ & _ & Hn). }
  pose proof (Hn j) as Hj. rewrite Eq in Hj. apply fmap_Some in Hj as (q' & Eq' & Enq). rewrite Enq in *.
  rewrite (stays_out encode_base64 decode_base64 resolve es s1 s2 j q' Eq' Hq); [by intros []| |done|done].
  intros k r Ek En. pose proof (Hn k) as Hk. rewrite Ek in Hk. symmetry in Hk. apply fmap_Some in Hk as (r' & Er' & Enr).
  apply (Hd k j r' q Er' Eq). congruence.
Qed.

(** The clocks are corrected in the wrong direction: the difference between the clock of
    a proxy and that of ZooKeeper is added once more, so a proxy whose clock is ten seconds
    ahead takes every other one for dead, and one whose clock is behind does not see a
    death for as much longer. *)
Theorem clocks_doubled {T} `{ZooKeeperLaws T} now local now' ahead p (z : T) p' z' modified
    (Hp : p.(local_zk_diff_) = 0) (Hl : local = now + ahead) (E : calibrate now local p z = Some (p', z')) :
  stale (now' + ahead) p' modified = (now' - modified >? 20 * 10 ^ 9 - 2 * ahead).
Proof.
  unfold calibrate in E. rewrite Hp in E. cbn [Z.eqb] in E. destruct (z_set now timeadjust [] z) as [z1|] eqn:Es; [|done].
  cbn [mbind option_bind] in E. rewrite (z_get_set _ _ _ _ _ timeadjust Es), decide_True in E by done. cbn in E. simplify_eq.
  unfold stale. cbn [with_diff local_zk_diff_]. rewrite !Z.gtb_ltb.
  destruct (Z.ltb_spec (20 * 10 ^ 9) (now' + ahead + (now + ahead - now) - modified)), (Z.ltb_spec (20 * 10 ^ 9 - 2 * ahead) (now' - modified)); done || lia.
Qed.

(** A proxy that was checked once is in the cache, which says that its liveliness is 0: every
    later check of a stale node starts it again. *)
Lemma cached_is_restarted resolve nodes cache child e : cache !! child = Some e ->
  check_alive resolve nodes cache child true = Some (cache, RestartProxy (-1)).
Proof. intros Hc. unfold check_alive, get_details. by rewrite Hc. Qed.

(** ** Two proxies *)

Definition cluster_nodes : nodes := {[ slsfs := ([], 0); timeadjust := ([], 0); proxies := ([], 0) ]}.
Definition two_proxies : members (T := nodes) :=
  mk_members cluster_nodes {[ 0%nat := new_zookeeper (lit "a") (lit "h:1:1"); 1%nat := new_zookeeper (lit "b") (lit "h:2:1") ]}.

Definition zk_after (e : zk_event) (s : members (T := nodes)) : members := default s (zk_exec (fun b => b) (fun b => b) (fun _ _ => None) 5 e s).

Lemma two_names : distinct_names two_proxies.
Proof.
  intros i j p q Ei Ej. unfold two_proxies in Ei, Ej. cbn [proxies_] in Ei, Ej.
  apply lookup_insert_Some in Ei as [[<- <-]|[_ [<- <-]%lookup_singleton_Some]];
    apply lookup_insert_Some in Ej as [[<- <-]|[_ [<- <-]%lookup_singleton_Some]]; done.
Qed.

Lemma two_fresh : fresh_cluster two_proxies.
Proof.
  split; [apply two_names|]. split; [by eexists|]. split.
  - intros [|c q] Hq; [done|]. cbn [z_get nodes_zookeeper tree two_proxies]. unfold cluster_nodes.
    rewrite !lookup_insert_ne by (intros E; by apply (f_equal length) in E). by rewrite lookup_singleton_ne.
  - intros i p Ei. unfold two_proxies in Ei. cbn [proxies_] in Ei. by apply lookup_insert_Some in Ei as [[<- <-]|[_ [<- <-]%lookup_singleton_Some]].
Qed.

Lemma exec_setup (now : Z) (i : nat) (p : zookeeper) (s : members (T := nodes)) : s.(proxies_) !! i = Some p ->
  zk_exec (fun b => b) (fun b => b) (fun _ _ => None) now (Setup i) s =
  Some (mk_members (start_setup now p s.(tree)).2 (<[i := (start_setup now p s.(tree)).1]> s.(proxies_))).
Proof. intros E. unfold zk_exec. rewrite E. cbn [mbind option_bind]. by destruct (start_setup now p s.(tree)). Qed.

Lemma membership_exact_witness : exists s, zk_exec (fun b => b) (fun b => b) (fun _ _ => None) 5 (Setup 0) two_proxies = Some s /\
  lit "a" ∈ z_children proxies s.(tree).
Proof.
  pose proof (exec_setup 5 0 (new_zookeeper (lit "a") (lit "h:1:1")) two_proxies eq_refl) as E.
  eexists. split; [exact E|].
  apply (membership_exact (fun b => b) (fun b => b) (fun _ _ => None) two_proxies _ two_fresh).
  - eapply (zk_step _ _ _ two_proxies 5 (Setup 0) two_proxies); [apply zk_start|exact E|discriminate|].
    intros i p [= <-] Ep. cbn [two_proxies proxies_] in Ep. rewrite lookup_insert_eq in Ep. by simplify_eq.
  - exists 0%nat, (with_beats true (new_zookeeper (lit "a") (lit "h:1:1"))). split; [|done]. cbn [proxies_]. rewrite lookup_insert_eq.
    destruct (start_setup_spec 5 (new_zookeeper (lit "a") (lit "h:1:1")) two_proxies.(tree)) as (_ & _ & Hs).
    by destruct Hs as [-> _]; [apply two_fresh|].
Defined.

Lemma cluster_shape : subtree 3 slsfs cluster_nodes.
Proof.
  assert (forall q, is_Some (z_get (slsfs ++ q) cluster_nodes) <-> q = [] \/ q = [lit "timeadjust"] \/ q = [lit "proxy"]) as Hq.
  { intros q. cbn [z_get nodes_zookeeper]. unfold cluster_nodes. rewrite !lookup_insert_is_Some, lookup_singleton_is_Some. split.
    - intros [E|[_ [E|[_ E]]]]; [left|right; left|right; right]; injection E as E; done.
    - intros [->|[->| ->]]; [by left|right; split; [done|by left]|right; split; [done|]; right; by split]. }
  split.
  - intros q Hin. by apply Hq in Hin as [->|[->| ->]]; cbn; lia.
  - intros q c Hin. apply Hq. left. apply Hq in Hin as [E|[E|E]]; destruct q as [|x [|y q]]; (reflexivity || discriminate E).
Qed.

Lemma exec_some (now : Z) (e : zk_event) (i : nat) (s : members (T := nodes)) : e = Setup i \/ e = Reset i -> is_Some (s.(proxies_) !! i) ->
  is_Some (zk_exec (fun b => b) (fun b => b) (fun _ _ => None) now e s).
Proof.
  intros [->| ->] [p Ep]; unfold zk_exec; rewrite Ep; cbn [mbind option_bind];
    [destruct (start_setup now p s.(tree))|destruct (reset now p s.(tree))]; by eexists.
Qed.

Lemma reset_expels_witness : exists s1 s2,
  zk_exec (fun b => b) (fun b => b) (fun _ _ => None) 5 (Reset 0) two_proxies = Some s1 /\
  zk_execs (fun b => b) (fun b => b) (fun _ _ => None) [(6, Setup 0)] s1 = Some s2 /\ lit "b" ∉ z_children proxies s2.(tree).
Proof.
  destruct (exec_some 5 (Reset 0) 0 two_proxies (or_intror eq_refl) (ex_intro _ _ eq_refl)) as [s1 E1].
  assert (is_Some (s1.(proxies_) !! 0%nat)) as Hs1.
  { destruct (exec_makes _ _ _ _ _ _ _ E1) as (_ & _ & _ & Hn). rewrite <- (fmap_is_Some name), Hn. by eexists. }
  destruct (exec_some 6 (Setup 0) 0 s1 (or_introl eq_refl) Hs1) as [s2 E2].
  assert (zk_execs (fun b => b) (fun b => b) (fun _ _ => None) [(6, Setup 0)] s1 = Some s2) as E3 by (cbn [zk_execs]; by rewrite E2).
  exists s1, s2. split; [exact E1|]. split; [exact E3|].
  apply (reset_expels (fun b => b) (fun b => b) (fun _ _ => None) 5 0 (new_zookeeper (lit "a") (lit "h:1:1")) two_proxies s1 s2 1
    (new_zookeeper (lit "b") (lit "h:2:1")) [(6, Setup 0)]); [reflexivity|apply cluster_shape|exact E1|reflexivity|discriminate|apply two_names| |exact E3].
  by repeat constructor.
Defined.

Lemma clocks_doubled_witness : exists p' z',
  calibrate 100 (100 + 10 ^ 10) (new_zookeeper (lit "a") []) cluster_nodes = Some (p', z') /\ stale (200 + 10 ^ 10) p' 150 = (200 - 150 >? 0).
Proof.
  destruct (calibrate 100 (100 + 10 ^ 10) (new_zookeeper (lit "a") []) cluster_nodes) as [[p' z']|] eqn:E; [|discriminate E].
  exists p', z'. split; [reflexivity|].
  by rewrite (clocks_doubled 100 (100 + 10 ^ 10) 200 (10 ^ 10) (new_zookeeper (lit "a") []) cluster_nodes p' z' 150 eq_refl eq_refl E).
Defined.
